(* ===== verification/_CoqProject ===== *)
-Q . S2P
Prelude.v
GoStrings.v
GoText.v
GoUtf8.v
GoJson.v
JsonText.v
GoTime.v
Base64.v
Domain.v
Eligible.v
Scheduler.v
SchedulerInv.v
SchedulerSpec.v
SchedulerTrace.v
SchedulerLive.v
SchedulerThms.v
SchedulerSystem.v
Supervisor.v
SupervisorThms.v
SupervisorRace.v
SupervisorSystem.v
AsyncRecord.v
AsyncStore.v
AsyncJobs.v
AsyncThms.v
AsyncPool.v
JobLife.v
JobSpec.v
Http.v
Config.v
ConfigThms.v
KeyFile.v
WgConf.v
ConfGen.v
ConfThms.v
ConfKeys.v
Device.v
GenRun.v
DeviceThms.v
Notify.v
ApiTls.v
Forwarder.v
Handlers.v
Bodies.v
ProxyFlow.v
ForwardProxy.v
ForwardThms.v
TunnelDrain.v
Relay.v
HandlersThms.v
Router.v
RouterThms.v
ApiServer.v
ApiThms.v
Regexp.v
Scrub.v
ScrubSpec.v
Observability.v
AccessLine.v
Daemon.v
DaemonThms.v
