(* ===== verification/Prelude.v ===== *)
(** * vpntunnel: a verification of the daemon's core and of its config tools

    vpntunnel is a Go daemon that keeps WireGuard tunnels in user space and sends
    HTTP traffic through them.  A _streaming supervisor_ keeps one device alive and
    carries the forward proxy (absolute-URI requests and CONNECT).  An _on-demand
    scheduler_ shares one further device among the requests of a JSON/HTTP API, each
    of which names the tunnel ("zone") it wants.  API requests run while the client
    waits or as _async jobs_, whose records are kept in a bbolt database and
    collected in the background.  A separate command generates the tunnel configs
    that the daemon discovers at start-up.

    Paths below are under [src/].  Go functions keep their names; a definition with
    a name in lower_snake_case is a piece of one (a loop body, a closure, a critical
    section) or a fact of the model.

    ** Conventions

    - A function returning [(T, error)] is a function into [res E T] (this file).
      Errors keep their cause, and their text where the program looks at it.
    - Go strings are byte strings ([GoStrings], [GoText]); [int] values and times
      (nanoseconds) are [Z]; maps are [gmap].
    - A goroutine with a [select] loop is a state record with one handler per case;
      a run of it is a [reachable] state or a [run] relation, and what it does to
      the outside is a log of effects.  Where goroutines share memory, every lock
      operation, atomic access and transaction is a step of its own.
    - Clocks, random numbers, the device builder, the HTTP client, the resolver and
      the results of file and database operations are arguments.  Third-party code
      and code with large tables is a type class with the laws relied on, each with
      a concrete instance used by the examples: [GoUnicode] (case mapping outside
      ASCII), [GoFloat] (the product in [time.ParseDuration]), [GoRegexp] (the
      configured expressions), [AddrText] ([net/netip] text), [KeyText] ([wgtypes] keys),
      [Bolt] (the database bucket), [HmacSha256], [Sha256], [Sha512], [X509],
      [GoCalendar] ([AddDate]), [PublicErrorDetails].

    ** Files

    Foundations: [Prelude] (results, lists, maps, counting, reachability);
    [GoStrings], [GoText], [GoUtf8], [GoJson] (JSON values and how structs are filled
    from them), [JsonText] (their text), [GoTime], [Base64], [Http], [Regexp] (the parts
    of the Go library in use);
    [Domain] (countries, tunnel ids, health and event records:
    [internal/domain], [internal/tools/hmackey]).

    Tunnel pool ([internal/application/tunnelpool]):
    - [Eligible]: [discover.go] and [eligible.go].
    - [Scheduler]: the [Run] loop of [scheduler.go].  [SchedulerInv] is its
      invariant; [SchedulerSpec] the abstract lease and the simulation by the loop;
      [SchedulerTrace] and [SchedulerLive] what holds of all runs; [SchedulerThms]
      the resulting theorems.
    - [SchedulerSystem]: the loop together with the goroutines that call [Route],
      the channels between them and their buffers.
    - [Supervisor], [SupervisorThms]: [supervisor.go]; [SupervisorRace]: rotations
      against concurrent sessions of the forward proxy; [SupervisorSystem]: the loop together
      with the goroutines that call [RotateIfIdle] and [Stop].

    Async jobs ([internal/application/asyncjob]): [AsyncRecord] ([record.go]),
    [AsyncStore] ([store.go]), [AsyncJobs] ([gc.go], [recovery.go], [pool.go]),
    [AsyncThms], [AsyncPool]; [JobLife] (requests, workers, the collector's loop and the
    shutdown of the daemon on one store); [JobSpec] (the contract of one tag, and that
    [JobLife] refines it).

    API ([internal/gateway], [internal/infrastructure/ipdeny], [internal/policy]):
    [Forwarder] (deny list, transport cache, upstream errors), [Bodies] (request bodies
    and their limits), [Handlers] (all
    handlers, tokens, roles), [ProxyFlow] (one request through all of them),
    [HandlersThms]; [Router], [RouterThms] (request ids, the mux and its middleware,
    the access-log wrapper, the proxy listener); [ApiServer], [ApiThms] (the server that
    [router.New] builds, from the request on the wire to the response); [ApiTls] (the
    certificate of the listener).

    Forward proxy ([internal/application/proxy.go]): [ForwardProxy], [ForwardThms],
    [Relay] (the copying goroutines of a CONNECT tunnel), [TunnelDrain].

    Tunnel configs and devices: [WgConf] ([internal/infrastructure/wireguard/wgconf]),
    [ConfGen] and [GenRun] ([cmd/generatevpnconfig]), [ConfThms], [ConfKeys] (which private
    key the generator and the daemon read from an imported config); [Device],
    [DeviceThms] ([internal/infrastructure/wireguard], [tunnelpool/build.go] and
    [verify.go]).

    The daemon: [Config], [ConfigThms] ([internal/infrastructure/config]), [KeyFile]
    ([internal/tools/hmackey]), [Notify] ([internal/infrastructure/notify]),
    [Observability], [Scrub], [ScrubSpec] and [AccessLine]
    ([internal/infrastructure/observability]), [Daemon], [DaemonThms] ([cmd/vpntunnel]).  [Daemon.run] calls the constructors and loaders of the files
    above with the loaded configuration.

    ** What the theorems show

    - The scheduler loop refines a lease on one device; in every run at most one
      device is up, two devices are separated by the settle delay, every request is
      queued or answered once, a grant carries the device of the zone that was asked
      for, every waiting request is answered once the holders release, in order of
      arrival of the zones, and shutdown answers everything queued
      ([SchedulerThms]).  With its clients: the device of a job that holds it is not
      closed, the count of jobs is exact, and a caller that gives up while it waits
      leaves a grant that is never released ([SchedulerSystem]).
    - The supervisor: one device at a time, the settle gap, the backoff as a function of
      the reconnects that failed in a row, every rotation request answered exactly once ([SupervisorThms]); a
      rotation that is not forced never closes the device under a session
      ([SupervisorRace]); once told to stop the supervisor ends with its device closed, and
      every call of [Stop] and [RotateIfIdle] returns without anybody's context being
      cancelled, the latter with the one reply to its own request ([SupervisorSystem]).
    - Async jobs: records survive their encoding as JSON text, a GC pass moves a record by at most
      one state, when it is due and not before, and the passes together remove every record, a job's answer is the upstream's,
      and the workers are bounded by the slots; the race between two submissions of
      one tag, and the effect of a record that does not decode ([AsyncThms],
      [AsyncPool]).  A shutdown whose waits end in time touches no closed store and leaves
      no record pending; what happens when one does not ([JobLife]).  The whole system refines
      the life of a tag (unknown, running, answered, gone) with its times, unless two requests
      hold a claim on the tag at once; an answer once fetched is kept ([JobSpec]).
    - API: the addresses that are dialed are exactly those outside the forbidden ranges; the headers sent
      upstream; who may call what; the marker of the daemon's own errors; sync and
      async responses agree ([HandlersThms], [ProxyFlow]); what of a body is accepted, passed
      on and counted ([Bodies]).
    - Forward proxy: the session gauge brackets every use of the tunnel on every
      path; who passes authentication; hop-by-hop headers; shutdown's wait for the
      tunnels is exact and misses no wake-up ([ForwardThms], [TunnelDrain]).  A tunnel
      relays bytes in order and counts them, relays everything between TCP connections,
      ends once both peers have, and loses the answer where the upstream connection cannot
      be half-closed ([Relay]).
    - API server: a whole request, from its path on the wire to the response: the id it
      carries, who gets a tunnel, what may be sent upstream, now or by a worker, who may
      rotate ([ApiThms]);
      redirects are followed once, the form of request ids ([RouterThms]); a start reuses the
      certificate that an earlier one wrote until it is due ([ApiTls]).
    - Tunnel configs: what the generator writes the parser reads back; key injection
      ([ConfThms]); the keys the daemon reads from an imported archive are of one device, and
      where generator and daemon read different keys ([ConfKeys]); the write of a config leaves the old
      file or the new one, and the address warning is exact ([GenRun]); ids and
      catalog of the discovered set ([Eligible]).
    - Devices: the UAPI text says what the options say, a failed construction leaves
      no device open, the handshake time is the newest of the peers, and the guard
      against configs with different keys is exact ([DeviceThms]).
    - Configuration file: what the loader returns is well-formed, every well-formed
      configuration can be written down as text and read back, removed keys are reported, and
      which spellings escape that ([ConfigThms]); the key file is generated once
      ([KeyFile]).
    - Notifications: the rate of messages and the order of delivery, in all
      interleavings of [Notify] ([Notify]).  Logs: none of the address patterns matches in
      what [scrubString] returns ([Scrub]), the patterns match exactly the addresses with a
      port ([ScrubSpec]), and the operational log gets everything but these
      ([Observability]); the access log is one line of JSON for each
      request, which reads back, whatever the client sends ([AccessLine]).
    - Daemon: no accepted configuration makes a constructor panic, the store is
      closed once and, after a signal, after everything that uses it; a failed start
      may close it under the collector; a restart keeps the tunnel ids ([DaemonThms]).

    ** Fuel and bounds

    Loops over data are structural.  [GoTime.parse_terms] has the length of the text
    as fuel, and more changes nothing ([parse_terms_fuel]); the JSON parser has twice the
    length of the text and one ([JsonText.Parse], [value_fuel]); there is no other fuel in
    the models of the program.  [Bodies.consume] reads with as many buffers as it is given,
    and one more than the bytes of the body are enough.  [TunnelDrain.run_waiter] counts the waiter's own steps, and four are shown to be
    enough.  Buffer sizes and limits ([schedulerChanBuf], [maxBodyBytes],
    [zipMaxEntries], [MaxScanTokenSize]) are the program's.  The doubling of
    the backoff wraps at 64 bits, as in Go.

    ** Not modelled

    Log lines (but for the access log and the warnings the theorems speak of); the text
    of JSON responses (their bodies are JSON values; records, the configuration and the
    access log are text); the layout of times in logs; sockets, TLS, the HTTP server and client; wireguard-go and the netstack; the
    configured regular expressions; the calendar; command-line flags and signals
    (arguments of [Daemon.run]); the analyzer rules in [gorules].  Constructors that only
    store their arguments, and accessors of contexts and loggers, have no definition of
    their own. *)

From stdpp Require Export base tactics list gmap strings fin_maps relations.
From Stdlib Require Export ZArith Lia.

#[global] Open Scope Z_scope.

(** ** Results

    A Go function that returns [(T, error)] is a function into [res E T]: the
    error value or the result. *)

Inductive res (E A : Type) : Type :=
| Err (e : E)
| Ok (a : A).
Arguments Err {E A} e.
Arguments Ok {E A} a.

Declare Scope res_scope.
Delimit Scope res_scope with res.
Notation "'let?' x ':=' c 'in' k" :=
  (match c with Ok x => k | Err e => Err e end)
  (at level 10, x pattern, c at level 100, k at level 200) : res_scope.
#[global] Open Scope res_scope.

Definition is_ok {E A} (r : res E A) : bool :=
  match r with Ok _ => true | Err _ => false end.

(** ** Tactics and hints of the development *)

Create HintDb vpn.
Create Rewrite HintDb vpn_rw.

(** Case analysis on every [match] and [if] of the goal, keeping equations. *)
Ltac split_matches := repeat (case_match; simplify_eq/=; try done).

(** Case analysis on every [match] of the hypotheses. *)
Ltac split_hyps :=
  repeat match goal with
  | H : context [match ?x with _ => _ end] |- _ =>
      destruct x eqn:?; simplify_eq/=; try done
  end.

(** ** Machine integers and time

    A [time.Duration] is an [int64] number of nanoseconds and a [time.Time] a
    number of nanoseconds since the Unix epoch (the wall clock; the monotonic
    reading of a [time.Time] does not survive the store, see [Record.v]). *)

Definition int64_min : Z := - 2 ^ 63.
Definition int64_max : Z := 2 ^ 63 - 1.

(** Two's-complement wrap-around of an [int64] operation. *)
Definition wrap64 (z : Z) : Z := (z + 2 ^ 63) mod 2 ^ 64 - 2 ^ 63.

Definition in_int64 (z : Z) : Prop := int64_min <= z <= int64_max.

Lemma wrap64_range z : in_int64 (wrap64 z).
Proof.
  unfold in_int64, wrap64, int64_min, int64_max.
  pose proof (Z.mod_pos_bound (z + 2 ^ 63) (2 ^ 64) ltac:(lia)). lia.
Qed.

Lemma wrap64_id z : in_int64 z -> wrap64 z = z.
Proof.
  unfold in_int64, wrap64, int64_min, int64_max. intros H.
  rewrite Z.mod_small; lia.
Qed.

(** The numbers with given leading bits. *)
Lemma shiftr_range n k m : 0 <= k -> Z.shiftr n k = m <-> m * 2 ^ k <= n < (m + 1) * 2 ^ k.
Proof.
  intros Hk. rewrite Z.shiftr_div_pow2 by done. pose proof (Z.pow_pos_nonneg 2 k ltac:(lia) Hk) as Hp.
  pose proof (Z.div_mod n (2 ^ k) ltac:(lia)). pose proof (Z.mod_pos_bound n (2 ^ k) Hp). split; [intros <-; nia |].
  intros Hn. nia.
Qed.

Definition Nanosecond : Z := 1.
Definition Millisecond : Z := 1000000 * Nanosecond.
Definition Second : Z := 1000 * Millisecond.
Definition Minute : Z := 60 * Second.
Definition Hour : Z := 60 * Minute.

(** The zero [time.Time] (January 1, year 1, 00:00:00 UTC) on this axis. *)
Definition time_zero : Z := -62135596800 * Second.
Definition IsZero (t : Z) : bool := Z.eqb t time_zero.

(** [t.Sub(u)]: the difference, saturated to the range of a [Duration]. *)
Definition Sub (t u : Z) : Z := Z.max int64_min (Z.min int64_max (t - u)).

(** [t.Unix()] and [time.Unix(s, 0)]. *)
Definition Unix (t : Z) : Z := t / Second.
Definition fromUnix (s : Z) : Z := s * Second.

Lemma fromUnix_Unix_le t : fromUnix (Unix t) <= t.
Proof. unfold fromUnix, Unix. pose proof (Z.mul_div_le t Second). unfold Second, Millisecond, Nanosecond in *. lia. Qed.

Lemma fromUnix_Unix_gt t : t - Second < fromUnix (Unix t).
Proof.
  unfold fromUnix, Unix.
  assert (0 < Second) by (unfold Second, Millisecond, Nanosecond; lia).
  pose proof (Z.mul_succ_div_gt t Second ltac:(lia)). nia.
Qed.

Lemma Unix_fromUnix s : Unix (fromUnix s) = s.
Proof. unfold fromUnix, Unix. apply Z.div_mul. unfold Second, Millisecond, Nanosecond. lia. Qed.

Lemma Sub_exact t u : in_int64 (t - u) -> Sub t u = t - u.
Proof. unfold in_int64, Sub. lia. Qed.

Lemma Sub_mono t u u' : u <= u' -> Sub t u' <= Sub t u.
Proof. unfold Sub. lia. Qed.

(** ** Reachability

    A component that runs as a loop is a step relation on its state; a safety
    property is an invariant of the states reachable from the initial ones. *)

Section Reachability.
Context {St : Type} (init : St -> Prop) (step : St -> St -> Prop).

Definition reachable (s : St) : Prop := exists s0, init s0 /\ rtc step s0 s.

Lemma reachable_init s : init s -> reachable s.
Proof. intros H. exists s. split; [done | apply rtc_refl]. Qed.

Lemma reachable_step s s' : reachable s -> step s s' -> reachable s'.
Proof.
  intros (s0 & Hi & Hr) Hs. exists s0. split; [done |].
  eapply rtc_r; eauto.
Qed.

(** Invariants by induction on the steps; the step case may use that the
    source state is reachable. *)
Lemma reachable_invariant (P : St -> Prop) :
  (forall s, init s -> P s) ->
  (forall s s', reachable s -> P s -> step s s' -> P s') ->
  forall s, reachable s -> P s.
Proof.
  intros H0 Hstep s (s0 & Hi & Hr).
  assert (reachable s0) as Hreach by (by apply reachable_init).
  specialize (H0 _ Hi). clear Hi.
  induction Hr as [|s1 s2 s3 H12 _ IH]; [done |].
  apply IH; eauto using reachable_step.
Qed.

Lemma rtc_invariant (P : St -> Prop) :
  (forall s s', P s -> step s s' -> P s') ->
  forall s s', rtc step s s' -> P s -> P s'.
Proof. intros Hstep s s' Hr. induction Hr; eauto. Qed.
End Reachability.

(** ** Lists *)

Lemma list_filter_all {A} (P : A -> Prop) `{forall x, Decision (P x)} (l : list A) :
  Forall P l -> filter P l = l.
Proof.
  induction 1 as [|x l Hx _ IH]; [done |].
  rewrite filter_cons_True by done. by rewrite IH.
Qed.

(** ** Counting the entries of a map *)

Definition count {A} (f : A -> bool) (m : gmap nat A) : nat :=
  size (filter (fun kv => f (snd kv) = true) m).

Lemma count_insert {A} (f : A -> bool) m k x :
  m !! k = None -> count f (<[k := x]> m) = ((if f x then 1 else 0) + count f m)%nat.
Proof.
  intros Hk. unfold count. destruct (f x) eqn:E.
  - rewrite map_filter_insert_True by done. rewrite map_size_insert_None; [done |].
    apply map_lookup_filter_None. by left.
  - rewrite map_filter_insert_False by (cbn; congruence). by rewrite delete_id.
Qed.

Lemma count_delete {A} (f : A -> bool) m k x :
  m !! k = Some x -> count f m = ((if f x then 1 else 0) + count f (delete k m))%nat.
Proof.
  intros Hk. rewrite <- (insert_delete_id m k x Hk) at 1.
  apply count_insert, lookup_delete_eq.
Qed.

Lemma count_update {A} (f : A -> bool) m k x y :
  m !! k = Some x ->
  (count f (<[k := y]> m) + (if f x then 1 else 0) = count f m + (if f y then 1 else 0))%nat.
Proof.
  intros Hk. rewrite <- insert_delete_eq, count_insert by apply lookup_delete_eq.
  rewrite (count_delete f m k x Hk). lia.
Qed.

(** The sum of a weight over the entries, for measures of termination. *)
Definition total {A} (w : A -> nat) (m : gmap nat A) : nat := map_fold (fun _ x n => (w x + n)%nat) 0%nat m.

Lemma total_update {A} (w : A -> nat) m k x y :
  m !! k = Some x -> (total w (<[k := y]> m) + w x = total w m + w y)%nat.
Proof.
  intros Hk. unfold total. rewrite <- insert_delete_eq, map_fold_insert_L; [| intros; lia | apply lookup_delete_eq].
  rewrite (map_fold_delete_L _ 0%nat k x m); [lia | intros; lia | done].
Qed.

Lemma count_pos {A} (f : A -> bool) m k x : m !! k = Some x -> f x = true -> (0 < count f m)%nat.
Proof. intros Hk Hf. rewrite (count_delete f m k x Hk), Hf. lia. Qed.
