(* ===== verification/GoStrings.v ===== *)
(** * The parts of Go's [strings] and [path/filepath] the program uses

    A Go string is a sequence of bytes, here a [string] of [ascii]s.  White
    space is the set of [unicode.IsSpace], given by its UTF-8 encodings (one,
    two or three bytes; no valid encoding contains a lead byte of another one,
    so scanning byte by byte agrees with Go's scanning rune by rune).
    [strings.ToLower] maps ASCII strings letter by letter; on a string with a
    byte >= 0x80 Go consults its Unicode tables, which are the field
    [unicode_lower] of the class [GoUnicode]. *)

From S2P Require Import Prelude.
From Stdlib Require Export Ascii.

(** ** Strings *)

Lemma append_cons c (s t : string) : String c s +:+ t = String c (s +:+ t).
Proof. reflexivity. Qed.

Lemma append_nil_l (s : string) : "" +:+ s = s.
Proof. reflexivity. Qed.

Lemma append_assoc (s t u : string) : (s +:+ t) +:+ u = s +:+ (t +:+ u).
Proof. induction s as [|c s IH]; [done |]. rewrite !append_cons. by f_equal. Qed.

Lemma append_nil_r (s : string) : s +:+ "" = s.
Proof. induction s as [|c s IH]; [done |]. rewrite append_cons. by f_equal. Qed.

#[export] Hint Rewrite append_cons append_nil_l append_assoc append_nil_r : vpn_rw.

Lemma append_length (s t : string) :
  String.length (s +:+ t) = (String.length s + String.length t)%nat.
Proof. induction s as [|c s IH]; [done |]. rewrite append_cons. cbn. by rewrite IH. Qed.

Fixpoint string_forallb (p : ascii -> bool) (s : string) : bool :=
  match s with
  | "" => true
  | String c s' => p c && string_forallb p s'
  end.

Fixpoint string_map (f : ascii -> ascii) (s : string) : string :=
  match s with
  | "" => ""
  | String c s' => String (f c) (string_map f s')
  end.

Definition code (c : ascii) : nat := Ascii.nat_of_ascii c.

Definition between (lo hi : ascii) (c : ascii) : bool :=
  Nat.leb (code lo) (code c) && Nat.leb (code c) (code hi).

Definition is_upper (c : ascii) : bool := between "A" "Z" c.
Definition is_lower (c : ascii) : bool := between "a" "z" c.
Definition is_digit (c : ascii) : bool := between "0" "9" c.

Definition lower_byte (c : ascii) : ascii :=
  if is_upper c then Ascii.ascii_of_nat (code c + 32) else c.

Definition isASCII (s : string) : bool :=
  string_forallb (fun c => Nat.ltb (code c) 128) s.

(** Go's Unicode case tables, consulted only for non-ASCII strings. *)
Class GoUnicode := { unicode_lower : string -> string }.

Definition ToLower `{GoUnicode} (s : string) : string :=
  if isASCII s then string_map lower_byte s else unicode_lower s.

(** [strings.EqualFold(s, t)] for an ASCII [t], which is how the program calls it.
    Two letters have a case fold outside ASCII: U+017F folds to [s] and U+212A to
    [k]. *)
Fixpoint fold_case (s : string) : string :=
  match s with
  | "" => ""
  | String c r =>
      match r with
      | String d r' =>
          if Nat.eqb (code c) 197 && Nat.eqb (code d) 191 then String "s" (fold_case r')
          else match r' with
               | String e r'' =>
                   if Nat.eqb (code c) 226 && Nat.eqb (code d) 132 && Nat.eqb (code e) 170
                   then String "k" (fold_case r'')
                   else String (lower_byte c) (fold_case r)
               | "" => String (lower_byte c) (fold_case r)
               end
      | "" => String (lower_byte c) ""
      end
  end.
Definition EqualFold (s t : string) : bool := String.eqb (fold_case s) (fold_case t).

(** ** Prefixes and suffixes *)

Definition HasPrefix (s p : string) : bool := String.prefix p s.

(** [s] without the suffix [suf], when it has it. *)
Fixpoint CutSuffix (s suf : string) : option string :=
  if String.eqb s suf then Some ""
  else match s with
       | "" => None
       | String c s' => String c <$> CutSuffix s' suf
       end.

Definition HasSuffix (s suf : string) : bool := bool_decide (is_Some (CutSuffix s suf)).
Definition TrimSuffix (s suf : string) : string := default s (CutSuffix s suf).

Lemma CutSuffix_Some s suf t : CutSuffix s suf = Some t <-> s = t +:+ suf.
Proof.
  split.
  - revert t. induction s as [|c s IH]; intros t; cbn [CutSuffix];
      match goal with |- context [String.eqb ?a suf] =>
        destruct (String.eqb_spec a suf) as [E|E] end;
      intros H; simplify_eq/=; try done.
    destruct (CutSuffix s suf) as [u|] eqn:Hu; simplify_eq/=. by rewrite (IH u).
  - intros ->. induction t as [|c t IH].
    + rewrite append_nil_l. destruct suf; cbn; by rewrite ?Ascii.eqb_refl, ?String.eqb_refl.
    + rewrite append_cons. cbn [CutSuffix].
      destruct (String.eqb_spec (String c (t +:+ suf)) suf) as [E|E]; [| by rewrite IH].
      exfalso. apply (f_equal String.length) in E. cbn in E.
      rewrite append_length in E. lia.
Qed.

Lemma TrimSuffix_app s suf : TrimSuffix (s +:+ suf) suf = s.
Proof. unfold TrimSuffix. by rewrite (proj2 (CutSuffix_Some _ _ s)). Qed.

(** ** Searching and splitting on one byte *)

Fixpoint IndexByte (s : string) (c : ascii) : option nat :=
  match s with
  | "" => None
  | String d s' => if Ascii.eqb d c then Some 0%nat else S <$> IndexByte s' c
  end.

Definition Contains (s : string) (c : ascii) : bool := bool_decide (is_Some (IndexByte s c)).

(** [s[:i]] and [s[i:]]. *)
Definition slice_to (s : string) (i : nat) : string := String.substring 0 i s.
Fixpoint slice_from (s : string) (i : nat) : string :=
  match i, s with
  | O, _ => s
  | S i', String _ s' => slice_from s' i'
  | S _, "" => ""
  end.

Definition cons_head (c : ascii) (l : list string) : list string :=
  match l with
  | h :: t => String c h :: t
  | [] => [String c ""]
  end.

Fixpoint Split (s : string) (sep : ascii) : list string :=
  match s with
  | "" => [""]
  | String c s' => if Ascii.eqb c sep then "" :: Split s' sep else cons_head c (Split s' sep)
  end.

Fixpoint SplitN (s : string) (sep : ascii) (n : nat) : list string :=
  match n with
  | O => []
  | 1%nat => [s]
  | S n' =>
      match s with
      | "" => [""]
      | String c s' =>
          if Ascii.eqb c sep then "" :: SplitN s' sep n' else cons_head c (SplitN s' sep n)
      end
  end.

(** [strings.Join]. *)
Fixpoint Join (l : list string) (sep : string) : string :=
  match l with
  | [] => ""
  | [s] => s
  | s :: l' => s +:+ sep +:+ Join l' sep
  end.

Lemma cons_head_not_nil c l : cons_head c l <> [].
Proof. by destruct l. Qed.

Lemma Split_not_nil s sep : Split s sep <> [].
Proof. destruct s; cbn; [done |]. case_match; [done |]. apply cons_head_not_nil. Qed.

(** ** White space *)

Definition ascii_space (c : ascii) : bool :=
  (Nat.leb 9 (code c) && Nat.leb (code c) 13) || Nat.eqb (code c) 32.

(** U+0085 and U+00A0. *)
Definition space2 (a b : ascii) : bool :=
  Nat.eqb (code a) 194 && (Nat.eqb (code b) 133 || Nat.eqb (code b) 160).

(** U+1680, U+2000 to U+200A, U+2028, U+2029, U+202F, U+205F, U+3000. *)
Definition space3 (a b c : ascii) : bool :=
  let is3 x y := Nat.eqb (code a) x && Nat.eqb (code b) y in
  (is3 225%nat 154%nat && Nat.eqb (code c) 128)
  || (is3 226%nat 128%nat && ((Nat.leb 128 (code c) && Nat.leb (code c) 138)
        || Nat.eqb (code c) 168 || Nat.eqb (code c) 169 || Nat.eqb (code c) 175))
  || (is3 226%nat 129%nat && Nat.eqb (code c) 159)
  || (is3 227%nat 128%nat && Nat.eqb (code c) 128).

Fixpoint TrimLeftSpace (s : string) : string :=
  match s with
  | "" => ""
  | String a s1 =>
      if ascii_space a then TrimLeftSpace s1
      else match s1 with
           | "" => s
           | String b s2 =>
               if space2 a b then TrimLeftSpace s2
               else match s2 with
                    | "" => s
                    | String c s3 => if space3 a b c then TrimLeftSpace s3 else s
                    end
           end
  end.

(** The same on the reversed string, where encodings read backwards. *)
Fixpoint TrimLeftSpaceRev (s : string) : string :=
  match s with
  | "" => ""
  | String a s1 =>
      if ascii_space a then TrimLeftSpaceRev s1
      else match s1 with
           | "" => s
           | String b s2 =>
               if space2 b a then TrimLeftSpaceRev s2
               else match s2 with
                    | "" => s
                    | String c s3 => if space3 c b a then TrimLeftSpaceRev s3 else s
                    end
           end
  end.

Fixpoint string_rev (s : string) : string :=
  match s with "" => "" | String c s' => string_rev s' +:+ String c "" end.

Definition TrimSpace (s : string) : string :=
  string_rev (TrimLeftSpaceRev (string_rev (TrimLeftSpace s))).

(** Pieces between single white-space runes; [Fields] drops the empty ones. *)
Fixpoint SplitSpace (s : string) : list string :=
  match s with
  | "" => [""]
  | String a s1 =>
      if ascii_space a then "" :: SplitSpace s1
      else match s1 with
           | "" => cons_head a (SplitSpace s1)
           | String b s2 =>
               if space2 a b then "" :: SplitSpace s2
               else match s2 with
                    | "" => cons_head a (SplitSpace s1)
                    | String c s3 =>
                        if space3 a b c then "" :: SplitSpace s3
                        else cons_head a (SplitSpace s1)
                    end
           end
  end.

Definition Fields (s : string) : list string := filter (fun p => p <> "") (SplitSpace s).

(** ** Paths ([path/filepath] on Unix) *)

Definition IsAbs (p : string) : bool := HasPrefix p "/".

Definition ends_slash (s : string) : bool := HasSuffix s "/".

Fixpoint trim_slashes_rev (s : string) : string :=
  match s with
  | String c s' => if Ascii.eqb c "/" then trim_slashes_rev s' else s
  | "" => ""
  end.

(** The part after the last separator. *)
Fixpoint last_segment (s : string) : string :=
  match s with
  | "" => ""
  | String c s' => if Contains s "/" then last_segment s' else s
  end.

Definition Base (p : string) : string :=
  if String.eqb p "" then "."
  else
    let q := string_rev (trim_slashes_rev (string_rev p)) in
    let b := last_segment q in
    if String.eqb b "" then "/" else b.

(** Lexical processing of the components: the stack of kept components is
    reversed. *)
Fixpoint clean_go (rooted : bool) (out cs : list string) : list string :=
  match cs with
  | [] => out
  | c :: cs' =>
      if String.eqb c "" || String.eqb c "." then clean_go rooted out cs'
      else if String.eqb c ".." then
        match out with
        | d :: out' =>
            if String.eqb d ".." then clean_go rooted (".." :: out) cs'
            else clean_go rooted out' cs'
        | [] => clean_go rooted (if rooted then [] else [".."]) cs'
        end
      else clean_go rooted (c :: out) cs'
  end.

Definition Clean (p : string) : string :=
  if String.eqb p "" then "."
  else
    let rooted := IsAbs p in
    let out := reverse (clean_go rooted [] (Split p "/")) in
    if rooted then "/" +:+ Join out "/"
    else match out with [] => "." | _ => Join out "/" end.

(** [filepath.Join(a, b)]. *)
Definition JoinPath (a b : string) : string :=
  if negb (String.eqb a "") then Clean (a +:+ "/" +:+ b)
  else if negb (String.eqb b "") then Clean b
  else "".

(** [filepath.Abs] in a process whose working directory is [cwd] ([None] when
    [os.Getwd] fails). *)
Definition Abs (cwd : option string) (p : string) : option string :=
  if IsAbs p then Some (Clean p)
  else match cwd with Some d => Some (JoinPath d p) | None => None end.
