(* ===== verification/GoText.v ===== *)
(** * Text scanning, numbers and path parts of the Go standard library

    [bufio.Scanner] over lines, [strconv.Atoi]/[ParseInt] in base 10,
    [strings.TrimRight], [filepath.Ext] and [filepath.Dir], with the facts on
    [Split], [Join] and [TrimSpace] that the parsers of config files need. *)

From S2P Require Import Prelude GoStrings.
From Stdlib Require Import Sorted.

(** ** Lines *)

Definition newline : ascii := Ascii.ascii_of_nat 10.
Definition NL : string := String newline "".
Definition CR : ascii := Ascii.ascii_of_nat 13.

(** [bufio.dropCR]. *)
Definition dropCR (s : string) : string := default s (CutSuffix s (String CR "")).

Fixpoint drop_last_empty (l : list string) : list string :=
  match l with
  | [] => []
  | [s] => if String.eqb s "" then [] else [s]
  | s :: l' => s :: drop_last_empty l'
  end.

(** The raw lines of an input: what follows the last newline only if not empty. *)
Definition rawLines (s : string) : list string := drop_last_empty (Split s newline).

(** [bufio.MaxScanTokenSize]: a line that fills the buffer ends the scan with an error. *)
Definition MaxScanTokenSize : Z := 65536.
Definition too_long (raw : string) : bool := MaxScanTokenSize <=? Z.of_nat (String.length raw).

(** ** Decimal numbers *)

Fixpoint digits_value (s : string) (acc : Z) : option Z :=
  match s with
  | "" => Some acc
  | String c s' =>
      if is_digit c then digits_value s' (acc * 10 + (Z.of_nat (code c) - 48)) else None
  end.

(** [strconv.Atoi] and [ParseInt(s, 10, 64)]. *)
Definition Atoi (s : string) : option Z :=
  let checked (v : option Z) := match v with Some n => if decide (in_int64 n) then Some n else None | None => None end in
  match s with
  | "" => None
  | String c s' =>
      if Ascii.eqb c "-" then (if String.eqb s' "" then None else checked (Z.opp <$> digits_value s' 0))
      else if Ascii.eqb c "+" then (if String.eqb s' "" then None else checked (digits_value s' 0))
      else checked (digits_value s 0)
  end.

(** ** Trimming and paths *)

Fixpoint trim_left_set (set : list ascii) (s : string) : string :=
  match s with
  | String c s' => if bool_decide (c ∈ set) then trim_left_set set s' else s
  | "" => ""
  end.

(** [strings.TrimRight(s, cutset)] for an ASCII cutset. *)
Definition TrimRight (s : string) (set : list ascii) : string :=
  string_rev (trim_left_set set (string_rev s)).

(** [filepath.Ext]: from the last dot of the last element. *)
Fixpoint Ext_go (s : string) : option string :=
  match s with
  | "" => None
  | String c s' =>
      match Ext_go s' with
      | Some e => Some e
      | None => if Ascii.eqb c "." && negb (Contains s' "/") then Some s else None
      end
  end.
Definition Ext (s : string) : string := default "" (Ext_go s).

(** [filepath.Dir]: the cleaned path up to the last separator. *)
Fixpoint dir_part (s : string) : string :=
  match s with
  | "" => ""
  | String c s' => if Contains s "/" then String c (dir_part s') else ""
  end.
Definition Dir (s : string) : string := Clean (dir_part s).

(** ** Splitting lines *)

Lemma Contains_cons c d s : Contains (String d s) c = Ascii.eqb d c || Contains s c.
Proof.
  unfold Contains. cbn [IndexByte]. destruct (Ascii.eqb d c); cbn [orb].
  - by apply bool_decide_eq_true_2.
  - by destruct (IndexByte s c).
Qed.

Lemma Contains_app c s t : Contains (s +:+ t) c = Contains s c || Contains t c.
Proof.
  induction s as [|d s IH]; [done |]. rewrite append_cons, !Contains_cons, IH. by rewrite orb_assoc.
Qed.

Lemma IndexByte_None c s : Contains s c = false -> IndexByte s c = None.
Proof. unfold Contains. rewrite bool_decide_eq_false. destruct (IndexByte s c); [intros []; eauto | done]. Qed.

Lemma Split_line a b sep : Contains a sep = false -> Split (a +:+ String sep b) sep = a :: Split b sep.
Proof.
  induction a as [|c a IH]; intros Ha.
  - rewrite append_nil_l. cbn. by rewrite Ascii.eqb_refl.
  - rewrite Contains_cons in Ha. apply orb_false_iff in Ha as [Hc Ha]. rewrite append_cons. cbn.
    rewrite Hc, IH by done. done.
Qed.

Lemma Split_single a sep : Contains a sep = false -> Split a sep = [a].
Proof.
  induction a as [|c a IH]; intros Ha; [done |]. rewrite Contains_cons in Ha.
  apply orb_false_iff in Ha as [Hc Ha]. cbn. by rewrite Hc, IH.
Qed.

Lemma Split_no_sep s sep : Forall (fun l => Contains l sep = false) (Split s sep).
Proof.
  induction s as [|c s IH]; cbn; [by repeat constructor |].
  destruct (Ascii.eqb c sep) eqn:Hc; [by constructor |].
  destruct (Split s sep) as [|h t]; cbn.
  - constructor; [| done]. by rewrite Contains_cons, Hc.
  - apply Forall_cons in IH as [Hh Ht]. constructor; [| done]. by rewrite Contains_cons, Hc.
Qed.

(** Splitting what was joined gives the pieces back. *)
Lemma Split_Join ls sep :
  ls <> [] -> Forall (fun l => Contains l sep = false) ls -> Split (Join ls (String sep "")) sep = ls.
Proof.
  induction ls as [|l ls IH]; [done |]. intros _ [Hl Hls]%Forall_cons. destruct ls as [|l2 ls].
  - by apply Split_single.
  - change (Join (l :: l2 :: ls) (String sep "")) with (l +:+ String sep "" +:+ Join (l2 :: ls) (String sep "")).
    rewrite append_cons, append_nil_l, Split_line by done. by rewrite IH.
Qed.

(** Joining what was split gives the text back. *)
Lemma Join_Split s sep : Join (Split s sep) (String sep "") = s.
Proof.
  induction s as [|c s IH]; [done |]. cbn [Split]. pose proof (Split_not_nil s sep) as Hn.
  destruct (Ascii.eqb_spec c sep) as [->|].
  - destruct (Split s sep) as [|h t]; [done |].
    change (Join ("" :: h :: t) (String sep "")) with ("" +:+ String sep "" +:+ Join (h :: t) (String sep "")).
    by rewrite IH.
  - destruct (Split s sep) as [|h [|h2 t]]; [done | by rewrite <- IH |].
    rewrite <- IH. done.
Qed.

(** ** Trimmed strings *)

Definition ascii7 (c : ascii) : bool := Nat.ltb (code c) 128.

(** The next byte, if any, is ASCII: it ends no multi-byte space. *)
Definition starts7 (s : string) : Prop := match s with "" => True | String c _ => ascii7 c = true end.

Lemma TrimLeftSpace_length s : (String.length (TrimLeftSpace s) <= String.length s)%nat.
Proof.
  induction s as [s IH] using (induction_ltof1 _ String.length). unfold ltof in IH.
  destruct s as [|a s1]; [done |]. cbn [TrimLeftSpace].
  destruct (ascii_space a); [specialize (IH s1); cbn in *; lia |].
  destruct s1 as [|b s2]; [done |]. destruct (space2 a b); [specialize (IH s2); cbn in *; lia |].
  destruct s2 as [|c s3]; [done |]. destruct (space3 a b c); [specialize (IH s3); cbn in *; lia | done].
Qed.

Lemma TrimLeftSpaceRev_length s : (String.length (TrimLeftSpaceRev s) <= String.length s)%nat.
Proof.
  induction s as [s IH] using (induction_ltof1 _ String.length). unfold ltof in IH.
  destruct s as [|a s1]; [done |]. cbn [TrimLeftSpaceRev].
  destruct (ascii_space a); [specialize (IH s1); cbn in *; lia |].
  destruct s1 as [|b s2]; [done |]. destruct (space2 b a); [specialize (IH s2); cbn in *; lia |].
  destruct s2 as [|c s3]; [done |]. destruct (space3 c b a); [specialize (IH s3); cbn in *; lia | done].
Qed.

Lemma string_rev_app s t : string_rev (s +:+ t) = string_rev t +:+ string_rev s.
Proof.
  induction s as [|c s IH]; cbn [string_rev].
  - by rewrite append_nil_l, append_nil_r.
  - rewrite append_cons. cbn [string_rev]. by rewrite IH, append_assoc.
Qed.

Lemma string_rev_rev s : string_rev (string_rev s) = s.
Proof. induction s as [|c s IH]; [done |]. cbn [string_rev]. by rewrite string_rev_app, IH. Qed.

Lemma string_rev_length s : String.length (string_rev s) = String.length s.
Proof. induction s as [|c s IH]; [done |]. cbn [string_rev]. rewrite append_length, IH. cbn. lia. Qed.

Lemma ascii7_lt c : ascii7 c = true -> (code c < 128)%nat.
Proof. apply Nat.ltb_lt. Qed.

Lemma TrimLeftSpace_suffix s : exists p, s = p +:+ TrimLeftSpace s.
Proof.
  induction s as [s IH] using (induction_ltof1 _ String.length). unfold ltof in IH.
  assert (forall p t, (String.length t < String.length s)%nat -> s = p +:+ t ->
    exists p', s = p' +:+ TrimLeftSpace t) as Hrec.
  { intros p t Hlt Hs. destruct (IH t Hlt) as [p' Hp']. exists (p +:+ p'). by rewrite append_assoc, <- Hp'. }
  destruct s as [|a s1]; [by exists "" |]. cbn [TrimLeftSpace].
  destruct (ascii_space a); [apply (Hrec (String a "")); [cbn; lia | done] |].
  destruct s1 as [|b s2]; [by exists "" |].
  destruct (space2 a b); [apply (Hrec (String a (String b ""))); [cbn; lia | done] |].
  destruct s2 as [|c s3]; [by exists "" |].
  destruct (space3 a b c); [apply (Hrec (String a (String b (String c "")))); [cbn; lia | done] |].
  by exists "".
Qed.

Lemma trimmed_left s : TrimSpace s = s -> TrimLeftSpace s = s.
Proof.
  intros Hs. destruct (TrimLeftSpace_suffix s) as [[|c p] Hp]; [by rewrite append_nil_l in Hp |].
  exfalso. apply (f_equal String.length) in Hs. unfold TrimSpace in Hs.
  rewrite string_rev_length in Hs.
  pose proof (TrimLeftSpaceRev_length (string_rev (TrimLeftSpace s))) as Hl.
  rewrite string_rev_length in Hl. apply (f_equal String.length) in Hp.
  rewrite append_length in Hp. cbn in Hp. lia.
Qed.

Lemma trimmed_right s : TrimSpace s = s -> TrimLeftSpaceRev (string_rev s) = string_rev s.
Proof.
  intros Hs. pose proof (trimmed_left s Hs) as Hl. unfold TrimSpace in Hs. rewrite Hl in Hs.
  rewrite <- Hs at 2. by rewrite string_rev_rev.
Qed.

Lemma not_space2 a b : ascii7 b = true -> space2 b a = false.
Proof. intros Hb%ascii7_lt. unfold space2. destruct (Nat.eqb_spec (code b) 194); [lia | done]. Qed.

Lemma not_space3 a b c : ascii7 b = true \/ ascii7 c = true -> space3 c b a = false.
Proof.
  intros H. destruct (space3 c b a) eqn:E; [| done]. exfalso. unfold space3 in E.
  rewrite !orb_true_iff, !andb_true_iff, !Nat.eqb_eq in E. destruct H as [H%ascii7_lt | H%ascii7_lt]; lia.
Qed.

Lemma TrimLeftSpace_start c s : ascii_space c = false -> ascii7 c = true -> TrimLeftSpace (String c s) = String c s.
Proof.
  intros Hsp H7. cbn [TrimLeftSpace]. rewrite Hsp.
  destruct s as [|b s2]; [done |]. rewrite not_space2 by done.
  destruct s2 as [|d s3]; [done |].
  by rewrite not_space3 by auto.
Qed.

Lemma TrimRev_app u rest :
  u <> "" -> TrimLeftSpaceRev u = u -> starts7 rest -> TrimLeftSpaceRev (u +:+ rest) = u +:+ rest.
Proof.
  intros Hu Ht Hr. destruct u as [|a s1]; [done |]. rewrite append_cons. cbn [TrimLeftSpaceRev] in Ht |- *.
  destruct (ascii_space a).
  { exfalso. apply (f_equal String.length) in Ht. pose proof (TrimLeftSpaceRev_length s1). cbn in Ht. lia. }
  destruct s1 as [|b s2].
  - rewrite append_nil_l. destruct rest as [|b rest]; [done |]. cbn in Hr. rewrite not_space2 by done.
    destruct rest as [|c rest]; [done |]. by rewrite not_space3 by auto.
  - rewrite append_cons. destruct (space2 b a).
    { exfalso. apply (f_equal String.length) in Ht. pose proof (TrimLeftSpaceRev_length s2). cbn in Ht. lia. }
    destruct s2 as [|c s3].
    + rewrite append_nil_l. destruct rest as [|c rest]; [done |]. cbn in Hr. by rewrite not_space3 by auto.
    + rewrite append_cons. destruct (space3 c b a); [| done].
      exfalso. apply (f_equal String.length) in Ht. pose proof (TrimLeftSpaceRev_length s3). cbn in Ht. lia.
Qed.

(** A line [k ++ v] whose key starts and ends in ASCII is trimmed if its value is. *)
Lemma TrimSpace_key c k v :
  ascii_space c = false -> ascii7 c = true -> starts7 (string_rev (String c k)) ->
  TrimSpace v = v -> v <> "" -> TrimSpace (String c k +:+ v) = String c k +:+ v.
Proof.
  intros Hsp H7 Hk Hv Hne. unfold TrimSpace. rewrite append_cons, TrimLeftSpace_start by done.
  rewrite <- append_cons, string_rev_app. rewrite TrimRev_app; [| | by apply trimmed_right | done].
  - by rewrite <- string_rev_app, string_rev_rev.
  - destruct v; [done |]. cbn [string_rev]. intros E. apply (f_equal String.length) in E.
    rewrite append_length in E. cbn in E. lia.
Qed.

Lemma TrimSpace_space v : TrimSpace v = v -> TrimSpace (String " " v) = v.
Proof.
  intros Hv. transitivity (TrimSpace v); [| done]. unfold TrimSpace. done.
Qed.

(** ** More on trimming: idempotence, and what trimming cannot add *)

Lemma TrimLeftSpaceRev_suffix s : exists p, s = p +:+ TrimLeftSpaceRev s.
Proof.
  induction s as [s IH] using (induction_ltof1 _ String.length). unfold ltof in IH.
  assert (forall p t, (String.length t < String.length s)%nat -> s = p +:+ t ->
    exists p', s = p' +:+ TrimLeftSpaceRev t) as Hrec.
  { intros p t Hlt Hs. destruct (IH t Hlt) as [p' Hp']. exists (p +:+ p'). by rewrite append_assoc, <- Hp'. }
  destruct s as [|a s1]; [by exists "" |]. cbn [TrimLeftSpaceRev].
  destruct (ascii_space a); [apply (Hrec (String a "")); [cbn; lia | done] |].
  destruct s1 as [|b s2]; [by exists "" |].
  destruct (space2 b a); [apply (Hrec (String a (String b ""))); [cbn; lia | done] |].
  destruct s2 as [|c s3]; [by exists "" |].
  destruct (space3 c b a); [apply (Hrec (String a (String b (String c "")))); [cbn; lia | done] |].
  by exists "".
Qed.

Lemma TrimLeftSpace_idem s : TrimLeftSpace (TrimLeftSpace s) = TrimLeftSpace s.
Proof.
  induction s as [s IH] using (induction_ltof1 _ String.length). unfold ltof in IH.
  destruct s as [|a s1]; [done |]. cbn [TrimLeftSpace].
  destruct (ascii_space a) eqn:Ea; [apply IH; cbn; lia |].
  destruct s1 as [|b s2]; [cbn; by rewrite Ea |].
  destruct (space2 a b) eqn:E2; [apply IH; cbn; lia |].
  destruct s2 as [|c s3]; [cbn; by rewrite Ea, E2 |].
  destruct (space3 a b c) eqn:E3; [apply IH; cbn; lia |]. cbn [TrimLeftSpace]. by rewrite Ea, E2, E3.
Qed.

Lemma TrimLeftSpaceRev_idem s : TrimLeftSpaceRev (TrimLeftSpaceRev s) = TrimLeftSpaceRev s.
Proof.
  induction s as [s IH] using (induction_ltof1 _ String.length). unfold ltof in IH.
  destruct s as [|a s1]; [done |]. cbn [TrimLeftSpaceRev].
  destruct (ascii_space a) eqn:Ea; [apply IH; cbn; lia |].
  destruct s1 as [|b s2]; [cbn; by rewrite Ea |].
  destruct (space2 b a) eqn:E2; [apply IH; cbn; lia |].
  destruct s2 as [|c s3]; [cbn; by rewrite Ea, E2 |].
  destruct (space3 c b a) eqn:E3; [apply IH; cbn; lia |]. cbn [TrimLeftSpaceRev]. by rewrite Ea, E2, E3.
Qed.

(** A prefix of a left-trimmed string is left-trimmed. *)
Lemma TrimLeftSpace_prefix s t : TrimLeftSpace (s +:+ t) = s +:+ t -> TrimLeftSpace s = s.
Proof.
  destruct s as [|a s1]; [done |]. rewrite append_cons. intros H.
  pose proof (TrimLeftSpace_length (s1 +:+ t)) as Hl1. cbn [TrimLeftSpace] in H |- *.
  destruct (ascii_space a); [exfalso; apply (f_equal String.length) in H; cbn in H; lia |].
  destruct s1 as [|b s2]; [done |]. rewrite append_cons in H.
  pose proof (TrimLeftSpace_length (s2 +:+ t)) as Hl2.
  destruct (space2 a b); [exfalso; apply (f_equal String.length) in H; cbn in H; lia |].
  destruct s2 as [|c s3]; [done |]. rewrite append_cons in H.
  pose proof (TrimLeftSpace_length (s3 +:+ t)) as Hl3.
  destruct (space3 a b c); [exfalso; apply (f_equal String.length) in H; cbn in H; lia | done].
Qed.

Lemma TrimSpace_idem s : TrimSpace (TrimSpace s) = TrimSpace s.
Proof.
  unfold TrimSpace. set (t := TrimLeftSpace s). set (t' := TrimLeftSpaceRev (string_rev t)).
  assert (exists p, t = string_rev t' +:+ p) as [p Hp].
  { destruct (TrimLeftSpaceRev_suffix (string_rev t)) as [p Hp]. exists (string_rev p).
    rewrite <- (string_rev_rev t). fold t' in Hp. by rewrite Hp, string_rev_app. }
  assert (TrimLeftSpace (string_rev t') = string_rev t') as ->.
  { apply TrimLeftSpace_prefix with p. rewrite <- Hp. apply TrimLeftSpace_idem. }
  rewrite string_rev_rev. unfold t' at 1. by rewrite TrimLeftSpaceRev_idem.
Qed.

Lemma Contains_rev s c : Contains (string_rev s) c = Contains s c.
Proof.
  induction s as [|d s IH]; [done |]. cbn [string_rev]. rewrite Contains_app, Contains_cons, IH.
  rewrite Contains_cons. cbn. by rewrite orb_false_r, orb_comm.
Qed.

Lemma Contains_TrimSpace s c : Contains s c = false -> Contains (TrimSpace s) c = false.
Proof.
  intros Hs. destruct (TrimLeftSpace_suffix s) as [p Hp].
  assert (Contains (TrimLeftSpace s) c = false) as Ht.
  { rewrite Hp, Contains_app in Hs. by apply orb_false_iff in Hs as [_ ?]. }
  unfold TrimSpace. rewrite Contains_rev. rewrite <- Contains_rev in Ht.
  destruct (TrimLeftSpaceRev_suffix (string_rev (TrimLeftSpace s))) as [q Hq].
  rewrite Hq, Contains_app in Ht. by apply orb_false_iff in Ht as [_ ?].
Qed.

Lemma TrimSpace_length s : (String.length (TrimSpace s) <= String.length s)%nat.
Proof.
  unfold TrimSpace. rewrite string_rev_length.
  pose proof (TrimLeftSpaceRev_length (string_rev (TrimLeftSpace s))) as H.
  rewrite string_rev_length in H. pose proof (TrimLeftSpace_length s). lia.
Qed.

Lemma dropCR_trimmed s : TrimSpace s = s -> dropCR s = s.
Proof.
  intros Hs. unfold dropCR. destruct (CutSuffix s (String CR "")) as [t|] eqn:E; [| done]. exfalso.
  apply CutSuffix_Some in E. apply trimmed_right in Hs. subst s. rewrite string_rev_app in Hs.
  change (string_rev (String CR "")) with (String CR "") in Hs.
  rewrite append_cons, append_nil_l in Hs. cbn [TrimLeftSpaceRev] in Hs.
  change (ascii_space CR) with true in Hs. cbv iota in Hs.
  apply (f_equal String.length) in Hs. pose proof (TrimLeftSpaceRev_length (string_rev t)). cbn in Hs. lia.
Qed.

Lemma space2_second a b : ascii7 b = true -> space2 a b = false.
Proof.
  intros Hb%ascii7_lt. unfold space2. destruct (Nat.eqb_spec (code b) 133); [lia |].
  destruct (Nat.eqb_spec (code b) 160); [lia |]. by rewrite andb_false_r.
Qed.

Lemma space3_third a b c : ascii7 c = true -> space3 a b c = false.
Proof.
  intros Hc%ascii7_lt. destruct (space3 a b c) eqn:E; [| done]. exfalso. unfold space3 in E.
  repeat setoid_rewrite orb_true_iff in E. repeat setoid_rewrite andb_true_iff in E.
  repeat setoid_rewrite orb_true_iff in E. repeat setoid_rewrite andb_true_iff in E.
  rewrite !Nat.eqb_eq, !Nat.leb_le in E. lia.
Qed.

Lemma TrimRev_start c u : ascii_space c = false -> ascii7 c = true -> TrimLeftSpaceRev (String c u) = String c u.
Proof.
  intros Hsp H7. cbn [TrimLeftSpaceRev]. rewrite Hsp. destruct u as [|b u2]; [done |].
  rewrite space2_second by done. destruct u2 as [|d u3]; [done |]. by rewrite space3_third.
Qed.

(** A string of ASCII characters without spaces is trimmed. *)
Definition word_char (c : ascii) : bool := ascii7 c && negb (ascii_space c).

Lemma string_forallb_app (P : ascii -> bool) s t :
  string_forallb P (s +:+ t) = string_forallb P s && string_forallb P t.
Proof. induction s as [|c s IH]; [done |]. rewrite append_cons. cbn. by rewrite IH, andb_assoc. Qed.

Lemma string_forallb_rev (P : ascii -> bool) s : string_forallb P (string_rev s) = string_forallb P s.
Proof.
  induction s as [|c s IH]; [done |]. cbn [string_rev]. rewrite string_forallb_app, IH. cbn.
  by rewrite andb_true_r, andb_comm.
Qed.

Lemma string_forallb_impl (P Q : ascii -> bool) s :
  (forall c, P c = true -> Q c = true) -> string_forallb P s = true -> string_forallb Q s = true.
Proof. intros HPQ. induction s as [|c s IH]; [done |]. cbn. rewrite !andb_true_iff. naive_solver. Qed.

Lemma TrimSpace_word s : string_forallb word_char s = true -> TrimSpace s = s.
Proof.
  intros Hs. unfold TrimSpace. destruct s as [|c s]; [done |].
  assert (ascii_space c = false /\ ascii7 c = true) as [Hc1 Hc2].
  { cbn in Hs. apply andb_true_iff in Hs as [[? ?%negb_true_iff]%andb_true_iff _]. done. }
  rewrite TrimLeftSpace_start by done. rewrite <- string_forallb_rev in Hs.
  destruct (string_rev (String c s)) as [|d t] eqn:Hr.
  { apply (f_equal String.length) in Hr. rewrite string_rev_length in Hr. done. }
  assert (ascii_space d = false /\ ascii7 d = true) as [Hd1 Hd2].
  { cbn in Hs. apply andb_true_iff in Hs as [[? ?%negb_true_iff]%andb_true_iff _]. done. }
  rewrite TrimRev_start by done. by rewrite <- Hr, string_rev_rev.
Qed.

Lemma Contains_forallb (P : ascii -> bool) s c : string_forallb P s = true -> P c = false -> Contains s c = false.
Proof.
  induction s as [|d s IH]; [done |]. cbn [string_forallb]. intros [Hd Hs]%andb_true_iff Hc.
  rewrite Contains_cons, IH by done. destruct (Ascii.eqb_spec d c); [congruence | done].
Qed.

Lemma TrimLeft_app v rest :
  v <> "" -> TrimLeftSpace v = v -> starts7 rest -> TrimLeftSpace (v +:+ rest) = v +:+ rest.
Proof.
  intros Hne Hv Hr. destruct v as [|a s1]; [done |]. rewrite append_cons. cbn [TrimLeftSpace] in Hv |- *.
  destruct (ascii_space a).
  { exfalso. apply (f_equal String.length) in Hv. pose proof (TrimLeftSpace_length s1). cbn in Hv. lia. }
  destruct s1 as [|b s2].
  - rewrite append_nil_l. destruct rest as [|b rest]; [done |]. cbn in Hr.
    rewrite space2_second by done. destruct rest as [|d rest]; [done |]. by rewrite not_space3 by auto.
  - rewrite append_cons. destruct (space2 a b).
    { exfalso. apply (f_equal String.length) in Hv. pose proof (TrimLeftSpace_length s2). cbn in Hv. lia. }
    destruct s2 as [|d s3].
    + rewrite append_nil_l. destruct rest as [|d rest]; [done |]. cbn in Hr. by rewrite space3_third.
    + rewrite append_cons. destruct (space3 a b d); [| done].
      exfalso. apply (f_equal String.length) in Hv. pose proof (TrimLeftSpace_length s3). cbn in Hv. lia.
Qed.

(** A trimmed string followed by an ASCII suffix that ends in no space. *)
Lemma TrimSpace_suffix v c k :
  TrimSpace v = v -> v <> "" -> ascii7 c = true -> ascii_space c = false -> starts7 k ->
  TrimSpace (v +:+ k +:+ String c "") = v +:+ k +:+ String c "".
Proof.
  intros Hv Hne H7 Hsp Hk. unfold TrimSpace.
  rewrite TrimLeft_app; [| done | by apply trimmed_left | by destruct k].
  rewrite <- append_assoc, !string_rev_app. cbn [string_rev]. rewrite append_nil_l, append_cons, append_nil_l.
  rewrite TrimRev_start by done. cbn [string_rev]. rewrite string_rev_app, !string_rev_rev. done.
Qed.

Lemma TrimSpace_trailing v : TrimSpace v = v -> v <> "" -> TrimSpace (v +:+ " ") = v.
Proof.
  intros Hv Hne. unfold TrimSpace. rewrite TrimLeft_app; [| done | by apply trimmed_left | done].
  rewrite string_rev_app. change (string_rev " ") with " ". rewrite append_cons, append_nil_l.
  cbn [TrimLeftSpaceRev]. change (ascii_space " ") with true. cbv iota.
  by rewrite trimmed_right, string_rev_rev.
Qed.

(** ** Positions *)

Lemma IndexByte_app a c b : Contains a c = false -> IndexByte (a +:+ String c b) c = Some (String.length a).
Proof.
  induction a as [|d a IH]; intros Ha.
  - rewrite append_nil_l. cbn. by rewrite Ascii.eqb_refl.
  - rewrite Contains_cons in Ha. apply orb_false_iff in Ha as [Hd Ha]. rewrite append_cons. cbn.
    by rewrite Hd, IH.
Qed.

Lemma slice_to_app a b : slice_to (a +:+ b) (String.length a) = a.
Proof.
  unfold slice_to. induction a as [|c a IH]; [rewrite append_nil_l; by destruct b |].
  rewrite append_cons. cbn. by rewrite IH.
Qed.

Lemma slice_from_app a c b : slice_from (a +:+ String c b) (S (String.length a)) = b.
Proof.
  induction a as [|d a IH]; [rewrite append_nil_l; by destruct b |]. rewrite append_cons. cbn [String.length slice_from]. exact IH.
Qed.
(** ** Joining a plain name to a directory *)

(** A name that [Clean] leaves alone. *)
Definition plain (a : string) : Prop := a <> "" /\ a <> "." /\ a <> ".." /\ Contains a "/" = false.

Lemma Split_app x sep b : Split (x +:+ String sep b) sep = Split x sep ++ Split b sep.
Proof.
  induction x as [|c x IH]; [rewrite append_nil_l; cbn; by rewrite Ascii.eqb_refl |].
  rewrite append_cons. cbn [Split]. rewrite IH. destruct (Ascii.eqb c sep); [done |].
  pose proof (Split_not_nil x sep). by destruct (Split x sep).
Qed.

Lemma clean_go_plain rooted out cs a : plain a -> clean_go rooted out (cs ++ [a]) = a :: clean_go rooted out cs.
Proof.
  intros (H1 & H2 & H3 & _). revert out. induction cs as [|c cs IH]; intros out; cbn [app clean_go].
  - by rewrite (proj2 (String.eqb_neq _ _) H1), (proj2 (String.eqb_neq _ _) H2), (proj2 (String.eqb_neq _ _) H3).
  - destruct (String.eqb c "" || String.eqb c "."); [done |]. destruct (String.eqb c ".."); [| done].
    destruct out as [|d out]; [done |]. by destruct (String.eqb d "..").
Qed.

Lemma Join_last l sep : exists P, forall a, Join (l ++ [a]) sep = P +:+ a.
Proof.
  induction l as [|x l [P IH]]; [by exists "" |]. exists (x +:+ sep +:+ P). intros a. cbn [app].
  rewrite !append_assoc, <- IH. by destruct l.
Qed.

Lemma JoinPath_plain d : exists P, forall a, plain a -> JoinPath d a = P +:+ a.
Proof.
  unfold JoinPath. destruct (String.eqb_spec d "") as [->|Hd]; cbn [negb].
  - exists "". intros a Ha. pose proof Ha as (H1 & _ & _ & H4). unfold Clean.
    rewrite (proj2 (String.eqb_neq _ _) H1). cbn [negb]. rewrite Split_single by done.
    change [a] with ([] ++ [a]). rewrite clean_go_plain by done. cbn [clean_go reverse rev_append].
    destruct (IsAbs a) eqn:E; [| done]. exfalso. destruct a as [|c a]; [done |]. unfold IsAbs, HasPrefix in E. cbn in E.
    case_match; [| done]. subst. by rewrite Contains_cons in H4.
  - destruct (Join_last (reverse (clean_go (IsAbs d) [] (Split d "/"))) "/") as [P HP].
    exists (if IsAbs d then "/" +:+ P else P). intros a Ha. unfold Clean.
    assert (String.eqb (d +:+ "/" +:+ a) "" = false) as -> by (by destruct d).
    assert (IsAbs (d +:+ "/" +:+ a) = IsAbs d) as -> by (destruct d as [|c d]; [done |]; rewrite append_cons; unfold IsAbs, HasPrefix; cbn [String.prefix];
        case_match; [| done]; by destruct (d +:+ _), d).
    change ("/" +:+ a) with (String "/" a). rewrite Split_app, (Split_single a) by apply Ha.
    rewrite clean_go_plain, reverse_cons by done. rewrite HP. destruct (IsAbs d); [done |].
    by destruct (reverse _).
Qed.

(** ** Sorting *)

(** [sort.Strings]: byte-wise lexicographic order. *)
Fixpoint insert_sorted (s : string) (l : list string) : list string :=
  match l with
  | [] => [s]
  | t :: l' => if String.leb s t then s :: l else t :: insert_sorted s l'
  end.
Definition sortStrings (l : list string) : list string := foldr insert_sorted [] l.

Lemma insert_sorted_perm s l : insert_sorted s l ≡ₚ s :: l.
Proof.
  induction l as [|t l IH]; [done |]. cbn. case_match; [done |]. rewrite IH. constructor.
Qed.

Lemma sortStrings_perm l : sortStrings l ≡ₚ l.
Proof.
  induction l as [|s l IH]; [done |]. unfold sortStrings in *. cbn [foldr].
  rewrite insert_sorted_perm, IH. done.
Qed.

Definition string_le (a b : string) : Prop := String.leb a b = true.

Lemma insert_sorted_Sorted s l : Sorted string_le l -> Sorted string_le (insert_sorted s l).
Proof.
  induction 1 as [|t l Hs IH Hhd]; cbn [insert_sorted]; [by repeat constructor |].
  destruct (String.leb s t) eqn:E; [by repeat constructor |].
  constructor; [done |]. destruct (String.leb_total s t) as [|Ht]; [congruence |].
  destruct Hhd as [|u l Hu]; cbn [insert_sorted]; [by constructor |].
  destruct (String.leb s u); by constructor.
Qed.

Lemma sortStrings_Sorted l : Sorted string_le (sortStrings l).
Proof. induction l as [|s l IH]; [constructor |]. by apply insert_sorted_Sorted. Qed.
