(* ===== verification/GoUtf8.v ===== *)
(** * UTF-8 as Go's [unicode/utf8] decodes it

    A byte string is cut into the encodings of its runes; a byte that does not start a
    well-formed encoding (overlong forms, surrogates and code points above U+10FFFF
    included) stands alone and is decoded as U+FFFD. *)

From S2P Require Import Prelude GoStrings.

Module Utf8.

(** [lo <= c <= hi], by code. *)
Definition range (lo hi : nat) (c : ascii) : bool := Nat.leb lo (code c) && Nat.leb (code c) hi.
Definition cont : ascii -> bool := range 128 191.

Definition two (a b : ascii) : bool := range 194 223 a && cont b.
Definition three (a b c : ascii) : bool :=
  (if Nat.eqb (code a) 224 then range 160 191 b
   else if Nat.eqb (code a) 237 then range 128 159 b
   else range 225 239 a && cont b) && cont c.
Definition four (a b c d : ascii) : bool :=
  (if Nat.eqb (code a) 240 then range 144 191 b
   else if Nat.eqb (code a) 244 then range 128 143 b
   else range 241 243 a && cont b) && cont c && cont d.

(** The first rune of [String a s]: [ok] gets its bytes and the rest, [bad] the rest after
    a byte that is not part of a rune. *)
Definition first_rune {A} (ok : string -> string -> A) (bad : string -> A) (a : ascii) (s1 : string) : A :=
  if Nat.ltb (code a) 128 then ok (String a "") s1
  else match s1 with
       | "" => bad s1
       | String b s2 =>
           if two a b then ok (String a (String b "")) s2
           else match s2 with
                | "" => bad s1
                | String c s3 =>
                    if three a b c then ok (String a (String b (String c ""))) s3
                    else match s3 with
                         | "" => bad s1
                         | String d s4 =>
                             if four a b c d then ok (String a (String b (String c (String d "")))) s4 else bad s1
                         end
                end
       end.

(** The runes of a string; [None] is an invalid byte. *)
Fixpoint runes (s : string) : list (option string) :=
  match s with
  | "" => []
  | String a s1 => first_rune (fun r rest => Some r :: runes rest) (fun rest => None :: runes rest) a s1
  end.

Definition replacement : string := String "239" (String "191" (String "189" "")).

Fixpoint concat_all (l : list string) : string := match l with [] => "" | s :: l' => s +:+ concat_all l' end.

(** [strings.ToValidUTF8(s, "\uFFFD")] for every invalid byte on its own. *)
Definition valid (s : string) : string := concat_all (default replacement <$> runes s).

Definition ValidString (s : string) : bool := forallb (fun r => match r with Some _ => true | None => false end) (runes s).

(** The bytes of one rune, whatever follows; a byte that starts none. *)
Definition good_rune (r : string) : Prop :=
  forall A (ok : string -> string -> A) bad rest, exists a s, r +:+ rest = String a s /\ first_rune ok bad a s = ok r rest.
Definition bad_start (a : ascii) (s : string) : Prop :=
  128 <= Z.of_nat (code a) /\ forall A (ok : string -> string -> A) bad, first_rune ok bad a s = bad s.
Arguments valid : simpl never.
Arguments ValidString : simpl never.
End Utf8.
Import Utf8.

(** ** Cutting off the first rune *)

Lemma first_rune_cases a s :
  (exists r rest, String a s = r +:+ rest /\ good_rune r /\ (String.length rest < String.length (String a s))%nat) \/ bad_start a s.
Proof.
  unfold bad_start, first_rune. destruct (Nat.ltb (code a) 128) eqn:E1.
  { left. exists (String a ""), s. split_and!; [done | | cbn; lia]. intros A ok bad rest.
    exists a, rest. split; [done |]. unfold first_rune. by rewrite E1. }
  assert (128 <= Z.of_nat (code a)) as Ha by (apply Nat.ltb_ge in E1; lia).
  destruct s as [|b s2]; [by right |]. destruct (two a b) eqn:E2.
  { left. exists (String a (String b "")), s2. split_and!; [done | | cbn; lia]. intros A ok bad rest.
    exists a, (String b rest). split; [done |]. unfold first_rune. by rewrite E1, E2. }
  destruct s2 as [|c s3]; [by right |]. destruct (three a b c) eqn:E3.
  { left. exists (String a (String b (String c ""))), s3. split_and!; [done | | cbn; lia]. intros A ok bad rest.
    exists a, (String b (String c rest)). split; [done |]. unfold first_rune. by rewrite E1, E2, E3. }
  destruct s3 as [|d s4]; [by right |]. destruct (four a b c d) eqn:E4; [| by right].
  left. exists (String a (String b (String c (String d "")))), s4. split_and!; [done | | cbn; lia]. intros A ok bad rest.
  exists a, (String b (String c (String d rest))). split; [done |]. unfold first_rune. by rewrite E1, E2, E3, E4.
Qed.

(** Induction over the runes of a string. *)
Lemma runes_ind (P : string -> Prop) :
  P "" -> (forall r rest, good_rune r -> P rest -> P (r +:+ rest)) ->
  (forall a rest, bad_start a rest -> P rest -> P (String a rest)) -> forall s, P s.
Proof.
  intros H0 Hg Hb s. remember (String.length s) as n eqn:Hn. revert s Hn.
  induction (Nat.lt_wf_0 n) as [n _ IH]. intros s ->. destruct s as [|a s]; [done |].
  destruct (first_rune_cases a s) as [(r & rest & Heq & Hr & Hl)|Hbad]; [rewrite Heq in IH, Hl |- *|].
  - apply Hg; [done |]. by eapply IH.
  - apply Hb; [done |]. eapply IH; [| done]. cbn. lia.
Qed.

Lemma runes_good r rest : good_rune r -> runes (r +:+ rest) = Some r :: runes rest.
Proof.
  intros Hr. destruct (Hr _ (fun r rest => Some r :: runes rest) (fun rest => None :: runes rest) rest) as (a & s & Hs & Hf).
  rewrite Hs. cbn [runes]. exact Hf.
Qed.

Lemma runes_bad a rest : bad_start a rest -> runes (String a rest) = None :: runes rest.
Proof. intros [_ Hb]. cbn [runes]. apply Hb. Qed.

Lemma valid_good r rest : good_rune r -> valid (r +:+ rest) = r +:+ valid rest.
Proof. intros Hr. unfold valid. by rewrite runes_good. Qed.

Lemma valid_bad a rest : bad_start a rest -> valid (String a rest) = replacement +:+ valid rest.
Proof. intros Hb. unfold valid. by rewrite runes_bad. Qed.

Lemma good_replacement : good_rune replacement.
Proof. intros A ok bad rest. by eexists _, _. Qed.

(** [valid] makes a string valid and leaves a valid one alone. *)
Lemma valid_valid s : ValidString (valid s) = true.
Proof.
  unfold ValidString. induction s as [|r rest Hr IH|a rest Hb IH] using runes_ind; [done | |].
  - by rewrite valid_good, runes_good.
  - rewrite valid_bad, runes_good; [done | apply good_replacement | done].
Qed.

Lemma valid_id s : ValidString s = true -> valid s = s.
Proof.
  unfold ValidString. induction s as [|r rest Hr IH|a rest Hb IH] using runes_ind; [done | |].
  - rewrite runes_good, valid_good by done. intros Hv. by rewrite IH.
  - by rewrite runes_bad.
Qed.

Lemma valid_idem s : valid (valid s) = valid s.
Proof. apply valid_id, valid_valid. Qed.

Lemma ascii_valid s : isASCII s = true -> ValidString s = true.
Proof.
  induction s as [|a s IH]; [done |]. unfold isASCII, ValidString in *. cbn [string_forallb runes].
  intros [Ha Hs]%andb_true_iff. unfold first_rune. rewrite Ha. cbn. by apply IH.
Qed.
