(* ===== verification/GoJson.v ===== *)
(** * JSON documents and the decoder of [encoding/json]

    A document is a JSON value; its text (quoting, number syntax, the replacement of
    invalid UTF-8) is [JsonText].  [json.Unmarshal] decodes onto
    the variable it is given, which matters when a document repeats a key: a
    decoder is a function from the value and the old contents to the new contents,
    or [None] for an error.  (The Go decoder goes on after a value of the wrong
    type and reports the error at the end; the caller then drops the contents.) *)

From S2P Require Import Prelude GoStrings.

Inductive json :=
| JNull
| JBool (b : bool)
| JNum (n : Z)            (* a number written as an integer *)
| JReal (text : string)   (* any other number *)
| JStr (s : string)
| JArr (l : list json)
| JObj (fields : list (string * json)).

Definition decoder (A : Type) := json -> A -> option A.

(** ** Scalars *)

Definition dec_string : decoder string := fun j old =>
  match j with JNull => Some old | JStr s => Some s | _ => None end.

Definition dec_bool : decoder bool := fun j old =>
  match j with JNull => Some old | JBool b => Some b | _ => None end.

Definition dec_int64 : decoder Z := fun j old =>
  match j with
  | JNull => Some old
  | JNum n => if (int64_min <=? n) && (n <=? int64_max) then Some n else None
  | _ => None
  end.

(** ** Pointers: [null] clears, any other value goes to the old target or a new one *)

Definition dec_ptr {A} (zero : A) (d : decoder A) : decoder (option A) := fun j old =>
  match j with JNull => Some None | _ => Some <$> d j (default zero old) end.

(** ** Slices

    Elements are decoded onto what the backing array holds at their place. *)

Record slice (A : Type) := mkSlice { s_array : list A; s_len : nat }.
Arguments mkSlice {A} s_array s_len.
Arguments s_array {A} s.
Arguments s_len {A} s.

Definition nil_slice {A} : slice A := mkSlice [] 0.
Definition elems {A} (s : slice A) : list A := take (s_len s) (s_array s).

Fixpoint dec_elems {A} (zero : A) (d : decoder A) (l : list json) (old : list A) : option (list A) :=
  match l with
  | [] => Some old
  | j :: l' =>
      x ← d j (default zero (head old));
      cons x <$> dec_elems zero d l' (tail old)
  end.

Definition dec_slice {A} (zero : A) (d : decoder A) : decoder (slice A) := fun j old =>
  match j with
  | JNull | JArr [] => Some nil_slice
  | JArr l => (fun a => mkSlice a (length l)) <$> dec_elems zero d l (s_array old)
  | _ => None
  end.

(** ** Structs

    A field is found by its exact name or else by a case-insensitive one; other
    keys are ignored. *)

Definition fields (A : Type) := list (string * decoder A).

(** The decoder of a field with its getter and setter. *)
Definition on {A B} (get : A -> B) (set : B -> A -> A) (d : decoder B) : decoder A := fun j a =>
  (fun v => set v a) <$> d j (get a).

Definition find_field {A} (fs : fields A) (key : string) : option (decoder A) :=
  match list_find (fun f => fst f = key) fs with
  | Some (_, (_, d)) => Some d
  | None => (fun '(_, (_, d)) => d) <$> list_find (fun f => EqualFold key (fst f) = true) fs
  end.

Fixpoint dec_keys {A} (fs : fields A) (kvs : list (string * json)) (a : A) : option A :=
  match kvs with
  | [] => Some a
  | (k, j) :: kvs' =>
      match find_field fs k with
      | None => dec_keys fs kvs' a
      | Some d => a' ← d j a; dec_keys fs kvs' a'
      end
  end.

Definition dec_struct {A} (fs : fields A) : decoder A := fun j a =>
  match j with
  | JNull => Some a
  | JObj kvs => dec_keys fs kvs a
  | _ => None
  end.

(** ** Maps of raw messages: the last of equal keys counts *)

Definition raw_map (j : json) : option (gmap string json) :=
  match j with
  | JNull => Some ∅
  | JObj kvs => Some (fold_left (fun m '(k, v) => <[k := v]> m) kvs ∅)
  | _ => None
  end.

(** ** Facts *)

Lemma dec_int64_num n old : in_int64 n -> dec_int64 (JNum n) old = Some n.
Proof. intros [H1 H2]. cbn. apply Z.leb_le in H1, H2. by rewrite H1, H2. Qed.

Lemma dec_int64_range j old n : in_int64 old -> dec_int64 j old = Some n -> in_int64 n.
Proof.
  intros Ho. destruct j; cbn; try done; [by intros [= <-] |].
  destruct (Z.leb_spec int64_min n0), (Z.leb_spec n0 int64_max); cbn; try done.
  intros [= <-]. by split.
Qed.

(** A property kept by the decoder of every field is kept by the struct; [Q] holds of the
    values in the document. *)
Lemma dec_struct_inv_on {A} (P : A -> Prop) (Q : json -> Prop) (fs : fields A) j a a' :
  (forall k d v x x', (k, d) ∈ fs -> Q v -> P x -> d v x = Some x' -> P x') ->
  match j with JObj kvs => Forall (fun kv => Q (snd kv)) kvs | _ => True end ->
  P a -> dec_struct fs j a = Some a' -> P a'.
Proof.
  intros Hd HQ HP. destruct j as [| | | | | |kvs]; try done; cbn [dec_struct]; [by intros [= <-] |].
  revert a HP. induction HQ as [|[k v] kvs Hv0 _ IH]; intros a HP; cbn [dec_keys]; [by intros [= <-] |].
  destruct (find_field fs k) as [d|] eqn:Hf; [| by apply IH].
  destruct (d v a) as [a1|] eqn:Hv; [| done]. apply IH.
  unfold find_field in Hf. destruct (list_find _ fs) as [[i [k1 d1]]|] eqn:E1; simplify_eq.
  - apply list_find_Some in E1 as (Hi & _). apply list_elem_of_lookup_2 in Hi. eauto.
  - destruct (list_find (fun f => EqualFold k (fst f) = true) fs) as [[i [k1 d1]]|] eqn:E2; simplify_eq/=.
    apply list_find_Some in E2 as (Hi & _). apply list_elem_of_lookup_2 in Hi. eauto.
Qed.

Lemma dec_struct_inv {A} (P : A -> Prop) (fs : fields A) j a a' :
  (forall k d v x x', (k, d) ∈ fs -> P x -> d v x = Some x' -> P x') ->
  P a -> dec_struct fs j a = Some a' -> P a'.
Proof.
  intros Hd. apply (dec_struct_inv_on P (fun _ => True)); [by eauto |].
  destruct j; try done. by apply Forall_true.
Qed.

(** A struct read through one of its parts: [R] relates the contents, and every
    key acts alike on both sides. *)
Lemma dec_struct_sim {A B} (R : A -> B -> Prop) (fs : fields A) (gs : fields B) j a b a' :
  (forall k v x x' y, R x y ->
     match find_field fs k with Some d => d v x = Some x' | None => x' = x end ->
     exists y', match find_field gs k with Some d => d v y = Some y' | None => y' = y end /\ R x' y') ->
  R a b -> dec_struct fs j a = Some a' -> exists b', dec_struct gs j b = Some b' /\ R a' b'.
Proof.
  intros Hs HR. destruct j as [| | | | | |kvs]; try done; cbn [dec_struct]; [intros [= <-]; by eauto |].
  revert a b HR. induction kvs as [|[k v] kvs IH]; intros a b HR; cbn [dec_keys]; [intros [= <-]; by eauto |].
  specialize (Hs k v a). destruct (find_field fs k) as [d|].
  - destruct (d v a) as [a1|] eqn:Hv; [| done]. intros Hk.
    destruct (Hs a1 b HR eq_refl) as (b1 & Hb & HR1). destruct (find_field gs k) as [e|].
    + rewrite Hb. by apply (IH a1).
    + subst b1. by apply (IH a1).
  - intros Hk. destruct (Hs a b HR eq_refl) as (b1 & Hb & HR1). destruct (find_field gs k) as [e|].
    + rewrite Hb. by apply (IH a).
    + subst b1. by apply (IH a).
Qed.

(** An array decoded into a fresh slice. *)
Lemma dec_slice_fresh {A} (zero : A) d l a :
  dec_elems zero d l [] = Some a -> length a = length l ->
  exists v, dec_slice zero d (JArr l) nil_slice = Some v /\ elems v = a.
Proof.
  intros Hd Hl. destruct l as [|j l]; [injection Hd as <-; by exists nil_slice |].
  unfold dec_slice. cbn [s_array nil_slice]. rewrite Hd. eexists. split; [done |].
  unfold elems. cbn [s_array s_len]. by rewrite <- Hl, firstn_all.
Qed.

(** One step of a struct's decoder on a key it has. *)
Lemma dec_keys_cons {A} (fs : fields A) k d j kvs a a' :
  find_field fs k = Some d -> d j a = Some a' -> dec_keys fs ((k, j) :: kvs) a = dec_keys fs kvs a'.
Proof. intros Hf Hd. cbn [dec_keys]. by rewrite Hf, Hd. Qed.

(** Among names that differ in more than case, a key matches at most one. *)
Lemma find_field_Some {A} (fs : fields A) k d :
  NoDup (fold_case <$> fs.*1) ->
  find_field fs k = Some d <-> exists n, (n, d) ∈ fs /\ fold_case k = fold_case n.
Proof.
  intros Hnd.
  assert (forall n1 d1 n2 d2, (n1, d1) ∈ fs -> (n2, d2) ∈ fs -> fold_case n1 = fold_case n2 -> d1 = d2) as Huniq.
  { intros n1 d1 n2 d2 [i Hi]%list_elem_of_lookup [j Hj]%list_elem_of_lookup Hf.
    assert (i = j) as <-; [| by rewrite Hi in Hj; simplify_eq].
    eapply (NoDup_lookup _ i j); [exact Hnd | by rewrite !list_lookup_fmap, Hi |].
    rewrite !list_lookup_fmap, Hj. cbn. by rewrite <- Hf. }
  unfold find_field. destruct (list_find (fun f => fst f = k) fs) as [[i [n1 d1]]|] eqn:E1.
  - apply list_find_Some in E1 as (Hi%list_elem_of_lookup_2 & Hn & _). cbn in Hn. subst n1.
    split; [intros [= <-]; by eauto |]. intros (n & Hin & Hf). f_equal. eauto.
  - destruct (list_find (fun f => EqualFold k (fst f) = true) fs) as [[i [n1 d1]]|] eqn:E2; cbn.
    + apply list_find_Some in E2 as (Hi%list_elem_of_lookup_2 & Hn%String.eqb_eq & _).
      split; [intros [= <-]; by eauto |]. intros (n & Hin & Hf). cbn in Hn. f_equal.
      eapply Huniq; [exact Hi | exact Hin | congruence].
    + split; [done |]. intros (n & Hin & Hf). apply list_find_None in E2.
      rewrite Forall_forall in E2. destruct (E2 _ Hin). by apply String.eqb_eq.
Qed.

Lemma find_field_None {A} (fs : fields A) k :
  NoDup (fold_case <$> fs.*1) -> (forall n d, (n, d) ∈ fs -> fold_case k <> fold_case n) -> find_field fs k = None.
Proof.
  intros Hnd Hn. destruct (find_field fs k) as [d|] eqn:E; [| done].
  apply find_field_Some in E as (n & Hin & Hf); [| done]. by destruct (Hn _ _ Hin).
Qed.

(** ** Properties that decoding keeps *)

Definition keeps {A} (P : A -> Prop) (d : decoder A) : Prop := forall j x x', P x -> d j x = Some x' -> P x'.

Lemma keeps_True {A} (d : decoder A) : keeps (fun _ => True) d.
Proof. done. Qed.

Lemma keeps_int64 : keeps in_int64 dec_int64.
Proof. intros j x x'. apply dec_int64_range. Qed.

Definition opt_holds {A} (P : A -> Prop) (o : option A) : Prop := match o with Some x => P x | None => True end.

Lemma keeps_ptr {A} (P : A -> Prop) zero d : keeps P d -> P zero -> keeps (opt_holds P) (dec_ptr zero d).
Proof.
  intros Hd Hz j x x' Hx. assert (P (default zero x)) by (by destruct x).
  unfold dec_ptr. destruct j; [by intros [= <-] | ..]; intros (y & Hy & ->)%fmap_Some; by eapply Hd.
Qed.

Lemma keeps_on {A B} (P : A -> Prop) (Q : B -> Prop) get set d :
  (forall a, P a -> Q (get a)) -> (forall v a, P a -> Q v -> P (set v a)) -> keeps Q d -> keeps P (on get set d).
Proof. intros Hg Hs Hd j x x' Hx. unfold on. intros (v & Hv & ->)%fmap_Some. apply Hs; [done |]. eauto. Qed.

Lemma keeps_struct {A} (P : A -> Prop) (fs : fields A) :
  Forall (fun f => keeps P (snd f)) fs -> keeps P (dec_struct fs).
Proof.
  intros Hfs j x x' Hx. apply dec_struct_inv; [| done]. intros k d v y y' Hk. rewrite Forall_forall in Hfs.
  apply (Hfs _ Hk).
Qed.

(** A field that the property does not mention. *)
Lemma keeps_other {A B} (P : A -> Prop) get (set : B -> A -> A) d :
  (forall v a, P a -> P (set v a)) -> keeps P (on get set d).
Proof. intros Hs. apply (keeps_on P (fun _ => True)); [done | auto | done]. Qed.
