(* ===== verification/JsonText.v ===== *)
(** * The text of JSON documents: [json.Marshal] and the scanner of [json.Unmarshal]

    [print_with] is the compact text of a value: [print], with [escape], as [json.Marshal]
    writes it (HTML characters escaped too, invalid UTF-8 replaced), and with [slog_escape]
    as the JSON handler of package slog does.  What is proved of the text holds of every
    way to escape a string that reads back ([Escape]).  [Parse] reads a text as
    [json.Unmarshal] does before it assigns fields: white space, nesting up to 10000
    levels, every escape, surrogate pairs, invalid UTF-8 replaced.  A number without
    fraction and exponent is a [JNum]; of any other its text is kept. *)

From stdpp Require Import pretty.
From S2P Require Import Prelude GoStrings GoText GoUtf8 GoJson.
Import Utf8.

Module JsonText.

Definition quote : ascii := ascii_of_nat 34.
Definition backslash : ascii := ascii_of_nat 92.

(** ** Writing *)

Definition hexc (n : nat) : ascii := ascii_of_nat (if Nat.ltb n 10 then 48 + n else 87 + n).

(** [appendString] on one rune. *)
Definition line_sep (last : ascii) : string := String "226" (String "128" (String last "")).
Definition escape (r : option string) : string :=
  match r with
  | None => "\ufffd"
  | Some (String c "") =>
      if Ascii.eqb c quote || Ascii.eqb c backslash then String backslash (String c "")
      else if Nat.eqb (code c) 8 then "\b"
      else if Nat.eqb (code c) 12 then "\f"
      else if Nat.eqb (code c) 10 then "\n"
      else if Nat.eqb (code c) 13 then "\r"
      else if Nat.eqb (code c) 9 then "\t"
      else if Nat.ltb (code c) 32 || bool_decide (c ∈ ["<"; ">"; "&"]%char)
      then "\u00" +:+ String (hexc (code c / 16)) (String (hexc (code c mod 16)) "")
      else String c ""
  | Some r =>
      if String.eqb r (line_sep "168") then "\u2028" else if String.eqb r (line_sep "169") then "\u2029" else r
  end.

Fixpoint commas (l : list string) : string :=
  match l with [] => "" | [s] => s | s :: l' => s +:+ "," +:+ commas l' end.

(** [appendEscapedJSONString] of slog on one rune: HTML characters are left alone, and
    of the control characters only three have a short form. *)
Definition slog_escape (r : option string) : string :=
  match r with
  | None => "\ufffd"
  | Some (String c "") =>
      if Ascii.eqb c quote || Ascii.eqb c backslash then String backslash (String c "")
      else if Nat.eqb (code c) 10 then "\n"
      else if Nat.eqb (code c) 13 then "\r"
      else if Nat.eqb (code c) 9 then "\t"
      else if Nat.ltb (code c) 32
      then "\u00" +:+ String (hexc (code c / 16)) (String (hexc (code c mod 16)) "")
      else String c ""
  | Some r =>
      if String.eqb r (line_sep "168") then "\u2028" else if String.eqb r (line_sep "169") then "\u2029" else r
  end.

Section Writing.
Context (esc : option string -> string).

Definition print_chars (s : string) : string := concat_all (esc <$> runes s).
Definition print_string (s : string) : string := String quote (print_chars s) +:+ String quote "".

Fixpoint print_with (j : json) : string :=
  match j with
  | JNull => "null"
  | JBool b => if b then "true" else "false"
  | JNum n => pretty n
  | JReal t => t
  | JStr s => print_string s
  | JArr l => "[" +:+ commas (print_with <$> l) +:+ "]"
  | JObj fs => "{" +:+ commas ((fun '(k, v) => print_string k +:+ ":" +:+ print_with v) <$> fs) +:+ "}"
  end.
End Writing.
Notation print := (print_with escape).

(** ** Strings *)

Definition unhex1 (c : ascii) : option Z :=
  if is_digit c then Some (Z.of_nat (code c) - 48)
  else if between "a" "f" c then Some (Z.of_nat (code c) - 87)
  else if between "A" "F" c then Some (Z.of_nat (code c) - 55)
  else None.

Definition hex4 (a b c d : ascii) : option Z :=
  w ← unhex1 a; x ← unhex1 b; y ← unhex1 c; z ← unhex1 d; Some (((w * 16 + x) * 16 + y) * 16 + z).

(** [utf8.AppendRune]. *)
Definition byte (n : Z) : ascii := ascii_of_nat (Z.to_nat n).
Definition encode_rune (u : Z) : string :=
  if u <? 128 then String (byte u) ""
  else if u <? 2048 then String (byte (192 + u / 64)) (String (byte (128 + u mod 64)) "")
  else if u <? 65536
  then String (byte (224 + u / 4096)) (String (byte (128 + u / 64 mod 64)) (String (byte (128 + u mod 64)) ""))
  else String (byte (240 + u / 262144)) (String (byte (128 + u / 4096 mod 64))
         (String (byte (128 + u / 64 mod 64)) (String (byte (128 + u mod 64)) ""))).

Definition high (u : Z) : bool := (55296 <=? u) && (u <? 56320).
Definition low (u : Z) : bool := (56320 <=? u) && (u <? 57344).

(** The character after a backslash, but for [u]. *)
Definition simple_escape (e : ascii) : option ascii :=
  if bool_decide (e ∈ [quote; backslash; "/"%char]) then Some e
  else if Ascii.eqb e "b" then Some (byte 8)
  else if Ascii.eqb e "f" then Some (byte 12)
  else if Ascii.eqb e "n" then Some (byte 10)
  else if Ascii.eqb e "r" then Some (byte 13)
  else if Ascii.eqb e "t" then Some (byte 9)
  else None.

Definition push (r : string) (k : option (string * string)) : option (string * string) :=
  '(s, rest) ← k; Some (r +:+ s, rest).

(** The text of a string after its first quote: its value, and what follows the last quote. *)
Fixpoint parse_chars (s : string) : option (string * string) :=
  match s with
  | "" => None
  | String c s1 =>
      if Ascii.eqb c quote then Some ("", s1)
      else if Ascii.eqb c backslash then
        match s1 with
        | "" => None
        | String e s2 =>
            match simple_escape e with
            | Some x => push (String x "") (parse_chars s2)
            | None =>
                if negb (Ascii.eqb e "u") then None
                else match s2 with
                     | String h1 (String h2 (String h3 (String h4 s6))) =>
                         match hex4 h1 h2 h3 h4 with
                         | None => None
                         | Some u =>
                             if negb (high u || low u) then push (encode_rune u) (parse_chars s6)
                             else match s6 with
                                  | String b (String v (String g1 (String g2 (String g3 (String g4 s12))))) =>
                                      match hex4 g1 g2 g3 g4 with
                                      | Some u' =>
                                          if Ascii.eqb b backslash && Ascii.eqb v "u" && high u && low u'
                                          then push (encode_rune (65536 + (u - 55296) * 1024 + (u' - 56320))) (parse_chars s12)
                                          else push replacement (parse_chars s6)
                                      | None => push replacement (parse_chars s6)
                                      end
                                  | _ => push replacement (parse_chars s6)
                                  end
                         end
                     | _ => None
                     end
            end
        end
      else if Nat.ltb (code c) 32 then None
      else first_rune (fun r rest => push r (parse_chars rest)) (fun rest => push replacement (parse_chars rest)) c s1
  end.

(** ** Numbers *)

Fixpoint span_digits (s : string) : string * string :=
  match s with
  | "" => ("", "")
  | String c s' => if is_digit c then let '(d, r) := span_digits s' in (String c d, r) else ("", s)
  end.

Fixpoint decimal (acc : Z) (s : string) : Z :=
  match s with "" => acc | String c s' => decimal (acc * 10 + (Z.of_nat (code c) - 48)) s' end.

(** The integer part: zero alone or digits that do not start with it. *)
Definition int_part (s : string) : option (string * string) :=
  match s with
  | String c r =>
      if Ascii.eqb c "0" then Some ("0", r)
      else if is_digit c then Some (span_digits s) else None
  | "" => None
  end.

(** An optional part that must have digits once it is begun. *)
Definition frac_part (s : string) : option (string * string) :=
  match s with
  | String c r =>
      if Ascii.eqb c "." then
        match span_digits r with ("", _) => None | (d, r') => Some (String c d, r') end
      else Some ("", s)
  | "" => Some ("", "")
  end.
Definition exp_part (s : string) : option (string * string) :=
  match s with
  | String c r =>
      if Ascii.eqb c "e" || Ascii.eqb c "E" then
        let '(sign, r) := match r with
                          | String x r' => if Ascii.eqb x "+" || Ascii.eqb x "-" then (String x "", r') else ("", r)
                          | "" => ("", "")
                          end in
        match span_digits r with ("", _) => None | (d, r') => Some (String c (sign +:+ d), r') end
      else Some ("", s)
  | "" => Some ("", "")
  end.

Definition number (s : string) : option (json * string) :=
  let '(neg, s1) := match s with
                    | String c r => if Ascii.eqb c "-" then (true, r) else (false, s)
                    | "" => (false, "")
                    end in
  '(i, s2) ← int_part s1;
  '(f, s3) ← frac_part s2;
  '(e, s4) ← exp_part s3;
  Some (if String.eqb (f +:+ e) "" then JNum (if neg then - decimal 0 i else decimal 0 i)
        else JReal ((if neg then "-" else "") +:+ i +:+ f +:+ e), s4).

(** ** Values *)

Definition is_ws (c : ascii) : bool := bool_decide (code c ∈ [32; 9; 10; 13])%nat.
Fixpoint skip_ws (s : string) : string :=
  match s with String c s' => if is_ws c then skip_ws s' else s | "" => "" end.

Definition literal (j : json) (text s : string) : option (json * string) :=
  if HasPrefix s text then Some (j, slice_from s (String.length text)) else None.

(** [depth] is the number of levels that may still be opened. *)
Fixpoint value (depth : Z) (fuel : nat) (s : string) : option (json * string) :=
  match fuel with
  | O => None
  | S fuel =>
      match skip_ws s with
      | "" => None
      | String c s1 as s0 =>
          if Ascii.eqb c "{" then
            if depth <? 1 then None
            else match skip_ws s1 with
                 | String e r => if Ascii.eqb e "}" then Some (JObj [], r)
                                 else '(fs, r) ← members (depth - 1) fuel s1; Some (JObj fs, r)
                 | "" => None
                 end
          else if Ascii.eqb c "[" then
            if depth <? 1 then None
            else match skip_ws s1 with
                 | String e r => if Ascii.eqb e "]" then Some (JArr [], r)
                                 else '(l, r) ← elements (depth - 1) fuel s1; Some (JArr l, r)
                 | "" => None
                 end
          else if Ascii.eqb c quote then '(t, r) ← parse_chars s1; Some (JStr t, r)
          else if Ascii.eqb c "t" then literal (JBool true) "true" s0
          else if Ascii.eqb c "f" then literal (JBool false) "false" s0
          else if Ascii.eqb c "n" then literal JNull "null" s0
          else number s0
      end
  end
with elements (depth : Z) (fuel : nat) (s : string) : option (list json * string) :=
  match fuel with
  | O => None
  | S fuel =>
      '(v, r) ← value depth fuel s;
      match skip_ws r with
      | String c r' => if Ascii.eqb c "," then '(l, r'') ← elements depth fuel r'; Some (v :: l, r'')
                       else if Ascii.eqb c "]" then Some ([v], r') else None
      | "" => None
      end
  end
with members (depth : Z) (fuel : nat) (s : string) : option (list (string * json) * string) :=
  match fuel with
  | O => None
  | S fuel =>
      match skip_ws s with
      | String c s1 =>
          if negb (Ascii.eqb c quote) then None
          else
            '(k, r) ← parse_chars s1;
            match skip_ws r with
            | String c2 r2 =>
                if negb (Ascii.eqb c2 ":") then None
                else
                  '(v, r3) ← value depth fuel r2;
                  match skip_ws r3 with
                  | String c4 r4 =>
                      if Ascii.eqb c4 "," then '(fs, r5) ← members depth fuel r4; Some ((k, v) :: fs, r5)
                      else if Ascii.eqb c4 "}" then Some ([(k, v)], r4) else None
                  | "" => None
                  end
            | "" => None
            end
      | "" => None
      end
  end.

Definition maxNestingDepth : Z := 10000.

Definition Parse (text : string) : option json :=
  '(j, rest) ← value maxNestingDepth (S (2 * String.length text)) text;
  if String.eqb (skip_ws rest) "" then Some j else None.
End JsonText.
Import JsonText.

(** ** What is left of the text *)

Notation len := String.length.

Lemma skip_ws_length s : (len (skip_ws s) <= len s)%nat.
Proof. induction s as [|c s IH]; cbn; [done |]. destruct (is_ws c); cbn; lia. Qed.

Lemma push_Some r k s rest : push r k = Some (s, rest) -> exists s', k = Some (s', rest) /\ s = r +:+ s'.
Proof. unfold push. destruct k as [[s' r']|]; cbn; [| done]. intros [= <- <-]. eauto. Qed.

Lemma parse_chars_length s t rest : parse_chars s = Some (t, rest) -> (len rest < len s)%nat.
Proof.
  remember (len s) as n eqn:Hn. revert s t rest Hn. induction (Nat.lt_wf_0 n) as [n _ IH]. intros s t rest ->.
  assert (forall s' r t' , (len s' < len s)%nat -> push r (parse_chars s') = Some (t', rest) -> (len rest < len s)%nat) as Hrec.
  { intros s' r t' Hl (t1 & Ht & _)%push_Some. etransitivity; [| exact Hl]. eapply IH; [exact Hl | done | exact Ht]. }
  destruct s as [|c s1]; [done |]. cbn [parse_chars]. destruct (Ascii.eqb c quote); [intros [= <- <-]; cbn; lia |].
  destruct (Ascii.eqb c backslash).
  - destruct s1 as [|e s2]; [done |]. destruct (simple_escape e); [intros Hp; eapply Hrec; [| exact Hp]; cbn; lia |].
    destruct (negb _); [done |]. destruct s2 as [|h1 [|h2 [|h3 [|h4 s6]]]]; try done.
    destruct (hex4 h1 h2 h3 h4) as [u|]; [| done].
    destruct (negb (high u || low u)); [intros Hp; eapply Hrec; [| exact Hp]; cbn; lia |].
    destruct s6 as [|b [|v [|g1 [|g2 [|g3 [|g4 s12]]]]]]; try (intros Hp; eapply Hrec; [| exact Hp]; cbn; lia).
    destruct (hex4 g1 g2 g3 g4); [| intros Hp; eapply Hrec; [| exact Hp]; cbn; lia].
    destruct (_ && _); intros Hp; eapply Hrec; [| exact Hp | | exact Hp]; cbn; lia.
  - destruct (Nat.ltb (code c) 32); [done |].
    destruct (first_rune_cases c s1) as [(r & tl & Heq & Hr & Hl)|[_ Hb]].
    + destruct (Hr _ (fun r rest => push r (parse_chars rest)) (fun rest => push replacement (parse_chars rest)) tl) as (a & s & Hs & Hf).
      rewrite <- Heq in Hs. injection Hs as <- <-. rewrite Hf. intros Hp. by eapply Hrec.
    + rewrite Hb. intros Hp. eapply Hrec; [| exact Hp]. cbn. lia.
Qed.

Lemma span_digits_length s d r : span_digits s = (d, r) -> (len d + len r = len s)%nat.
Proof.
  revert d r. induction s as [|c s IH]; intros d r; cbn [span_digits]; [by intros [= <- <-] |].
  destruct (is_digit c); [| by intros [= <- <-]]. destruct (span_digits s) as [d' r']. intros [= <- <-]. cbn. by rewrite (IH d' r').
Qed.

Lemma int_part_length s i r : int_part s = Some (i, r) -> (len r < len s)%nat.
Proof.
  destruct s as [|c s]; [done |]. cbn [int_part]. destruct (Ascii.eqb c "0"); [intros [= <- <-]; cbn; lia |].
  destruct (is_digit c) eqn:Ec; [| done]. cbn [span_digits]. rewrite Ec. destruct (span_digits s) as [d r'] eqn:E.
  intros [= <- <-]. apply span_digits_length in E. cbn. lia.
Qed.

Lemma frac_part_length s f r : frac_part s = Some (f, r) -> (len r <= len s)%nat.
Proof.
  destruct s as [|c s]; cbn [frac_part]; [by intros [= <- <-] |]. destruct (Ascii.eqb c "."); [| by intros [= <- <-]].
  destruct (span_digits s) as [d r'] eqn:E. apply span_digits_length in E. destruct d; [done |]. intros [= <- <-]. cbn in *. lia.
Qed.

Lemma exp_part_length s f r : exp_part s = Some (f, r) -> (len r <= len s)%nat.
Proof.
  destruct s as [|c s]; cbn [exp_part]; [by intros [= <- <-] |]. destruct (_ || _); [| by intros [= <- <-]].
  destruct (match s with "" => _ | String x r' => _ end) as [sign s'] eqn:Es.
  assert (len s' <= len s)%nat as Hs by (destruct s as [|x s0]; [| destruct (_ || _)]; simplify_eq; cbn; lia).
  destruct (span_digits s') as [d r'] eqn:E. apply span_digits_length in E. destruct d; [done |]. intros [= <- <-]. cbn in *. lia.
Qed.

Lemma number_length s j r : number s = Some (j, r) -> (len r < len s)%nat.
Proof.
  unfold number. destruct (match s with "" => _ | String c r => _ end) as [neg s1] eqn:E1.
  assert (len s1 <= len s)%nat as Hs by (destruct s as [|x s0]; [| destruct (Ascii.eqb x "-")]; simplify_eq; cbn; lia).
  destruct (int_part s1) as [[i s2]|] eqn:E2; cbn; [| done]. destruct (frac_part s2) as [[f s3]|] eqn:E3; cbn; [| done].
  destruct (exp_part s3) as [[e s4]|] eqn:E4; cbn; [| done]. intros [= _ <-].
  apply int_part_length in E2. apply frac_part_length in E3. apply exp_part_length in E4. lia.
Qed.

Lemma slice_from_length s n : len (slice_from s n) = (len s - n)%nat.
Proof. revert s. induction n as [|n IH]; intros [|c s]; cbn; try done. Qed.

Lemma literal_length j t s v r : t <> "" -> literal j t s = Some (v, r) -> s <> "" -> (len r < len s)%nat.
Proof.
  unfold literal. destruct (HasPrefix s t); [| done]. intros Ht [= _ <-] Hs. rewrite slice_from_length.
  destruct t, s; cbn; try done. lia.
Qed.

(** ** Fuel

    Every value takes a byte, so twice the length of the text is enough for any nesting. *)

Lemma skip_ws_cons s c s1 : skip_ws s = String c s1 -> (len s1 < len s)%nat.
Proof. intros E. pose proof (skip_ws_length s) as Hl. rewrite E in Hl. cbn in Hl. lia. Qed.

Lemma value_length fuel :
  (forall d s j r, value d fuel s = Some (j, r) -> (len r < len s)%nat)
  /\ (forall d s l r, elements d fuel s = Some (l, r) -> (len r < len s)%nat)
  /\ (forall d s l r, members d fuel s = Some (l, r) -> (len r < len s)%nat).
Proof.
  induction fuel as [|fuel (IHv & IHe & IHm)]; [done |]. split_and!.
  - intros d s j r. cbn [value]. destruct (skip_ws s) as [|c s1] eqn:Es; [done |].
    pose proof (skip_ws_cons _ _ _ Es) as Hs. pose proof (skip_ws_length s) as Hs0. rewrite Es in Hs0.
    destruct (Ascii.eqb c "{").
    { destruct (d <? 1); [done |]. destruct (skip_ws s1) as [|e r1] eqn:E1; [done |]. pose proof (skip_ws_cons _ _ _ E1).
      destruct (Ascii.eqb e "}"); [intros [= _ <-]; lia |]. destruct (members (d - 1) fuel s1) as [[fs r2]|] eqn:E2; cbn; [| done].
      intros [= _ <-]. apply IHm in E2. lia. }
    destruct (Ascii.eqb c "[").
    { destruct (d <? 1); [done |]. destruct (skip_ws s1) as [|e r1] eqn:E1; [done |]. pose proof (skip_ws_cons _ _ _ E1).
      destruct (Ascii.eqb e "]"); [intros [= _ <-]; lia |]. destruct (elements (d - 1) fuel s1) as [[fs r2]|] eqn:E2; cbn; [| done].
      intros [= _ <-]. apply IHe in E2. lia. }
    destruct (Ascii.eqb c quote).
    { destruct (parse_chars s1) as [[t r1]|] eqn:E1; cbn; [| done]. intros [= _ <-]. apply parse_chars_length in E1. lia. }
    repeat (case_match; [intros Hl; apply literal_length in Hl; [lia | done | done] |]).
    intros Hn. apply number_length in Hn. lia.
  - intros d s l r. cbn [elements]. destruct (value d fuel s) as [[v r1]|] eqn:E1; cbn; [| done]. apply IHv in E1.
    destruct (skip_ws r1) as [|c r2] eqn:E2; [done |]. apply skip_ws_cons in E2.
    destruct (Ascii.eqb c ","); [| destruct (Ascii.eqb c "]"); [intros [= _ <-]; lia | done]].
    destruct (elements d fuel r2) as [[l' r3]|] eqn:E3; cbn; [| done]. intros [= _ <-]. apply IHe in E3. lia.
  - intros d s l r. cbn [members]. destruct (skip_ws s) as [|c s1] eqn:Es; [done |]. apply skip_ws_cons in Es.
    destruct (negb _); [done |]. destruct (parse_chars s1) as [[k r1]|] eqn:E1; cbn; [| done]. apply parse_chars_length in E1.
    destruct (skip_ws r1) as [|c2 r2] eqn:E2; [done |]. apply skip_ws_cons in E2. destruct (negb _); [done |].
    destruct (value d fuel r2) as [[v r3]|] eqn:E3; cbn; [| done]. apply IHv in E3.
    destruct (skip_ws r3) as [|c4 r4] eqn:E4; [done |]. apply skip_ws_cons in E4.
    destruct (Ascii.eqb c4 ","); [| destruct (Ascii.eqb c4 "}"); [intros [= _ <-]; lia | done]].
    destruct (members d fuel r4) as [[l' r5]|] eqn:E5; cbn; [| done]. intros [= _ <-]. apply IHm in E5. lia.
Qed.

Lemma value_fuel n :
  (forall d s m, (2 * len s < n)%nat -> (2 * len s < m)%nat -> value d n s = value d m s)
  /\ (forall d s m, (2 * len s + 1 < n)%nat -> (2 * len s + 1 < m)%nat -> elements d n s = elements d m s)
  /\ (forall d s m, (2 * len s + 1 < n)%nat -> (2 * len s + 1 < m)%nat -> members d n s = members d m s).
Proof.
  induction n as [|n (IHv & IHe & IHm)]; [split_and!; lia |]. split_and!; intros d s [|m] Hn Hm; try lia.
  - cbn [value]. destruct (skip_ws s) as [|c s1] eqn:Es; [done |]. pose proof (skip_ws_cons _ _ _ Es).
    rewrite (IHm (d - 1) s1 m), (IHe (d - 1) s1 m) by lia. done.
  - cbn [elements]. rewrite (IHv d s m) by lia. destruct (value d m s) as [[v r1]|] eqn:E1; cbn; [| done].
    apply value_length in E1. destruct (skip_ws r1) as [|c r2] eqn:E2; [done |]. apply skip_ws_cons in E2.
    by rewrite (IHe d r2 m) by lia.
  - cbn [members]. destruct (skip_ws s) as [|c s1] eqn:Es; [done |]. apply skip_ws_cons in Es.
    destruct (parse_chars s1) as [[k r1]|] eqn:E1; cbn; [| done]. apply parse_chars_length in E1.
    destruct (skip_ws r1) as [|c2 r2] eqn:E2; [done |]. apply skip_ws_cons in E2.
    rewrite (IHv d r2 m) by lia. destruct (value d m r2) as [[v r3]|] eqn:E3; cbn; [| done]. apply value_length in E3.
    destruct (skip_ws r3) as [|c4 r4] eqn:E4; [done |]. apply skip_ws_cons in E4. by rewrite (IHm d r4 m) by lia.
Qed.

(** ** Strings read back *)

Lemma good_rune_head r : good_rune r -> exists a r', r = String a r' /\ (r' = "" <-> (code a < 128)%nat).
Proof.
  intros Hr. destruct r as [|a r'].
  - destruct (Hr bool (fun _ _ => true) (fun _ => false) "") as (a & s & [=] & _).
  - exists a, r'. split; [done |]. destruct (Hr (string * bool)%type (fun r _ => (r, true)) (fun r => (r, false)) "") as (a' & s & Hs & Hf).
    rewrite append_cons, append_nil_r in Hs. injection Hs as <- <-. unfold first_rune in Hf.
    destruct (Nat.ltb_spec (code a) 128); [split; [done | by intros _; injection Hf as <-] |].
    split; [| lia]. intros ->. done.
Qed.

Lemma range_high lo hi c : (128 <= lo)%nat -> range lo hi c = true -> Nat.leb 128 (code c) = true.
Proof. unfold range. intros Hl [H1%Nat.leb_le _]%andb_true_iff. apply Nat.leb_le. lia. Qed.

Lemma three_high a b :
  (if Nat.eqb (code a) 224 then range 160 191 b else if Nat.eqb (code a) 237 then range 128 159 b else range 225 239 a && cont b) = true ->
  Nat.leb 128 (code b) = true.
Proof. repeat case_match; [| | intros [_ Hb]%andb_true_iff; revert Hb; unfold cont]; apply range_high; lia. Qed.

Lemma four_high a b :
  (if Nat.eqb (code a) 240 then range 144 191 b else if Nat.eqb (code a) 244 then range 128 143 b else range 241 243 a && cont b) = true ->
  Nat.leb 128 (code b) = true.
Proof. repeat case_match; [| | intros [_ Hb]%andb_true_iff; revert Hb; unfold cont]; apply range_high; lia. Qed.

(** The bytes of a rune: one below 128, or none. *)
Lemma good_rune_bytes r :
  good_rune r -> (exists c, r = String c "" /\ (code c < 128)%nat) \/ string_forallb (fun c => Nat.leb 128 (code c)) r = true.
Proof.
  intros Hr. destruct (Hr (option (string * string)) (fun r rest => Some (r, rest)) (fun _ => None) "") as (a & s & Hs & Hf).
  rewrite append_nil_r in Hs. subst r. unfold first_rune in Hf. destruct (Nat.ltb_spec (code a) 128) as [Ha|Ha].
  { simplify_eq. eauto. }
  assert (Nat.leb 128 (code a) = true) as Ea by (by apply Nat.leb_le). right.
  destruct s as [|b s]; [done |]. destruct (two a b) eqn:E2.
  { simplify_eq. apply andb_true_iff in E2 as [_ Hb].
    cbn [string_forallb]. by rewrite Ea, (range_high _ _ _ (le_n 128) Hb). }
  destruct s as [|c s]; [done |]. destruct (three a b c) eqn:E3.
  { simplify_eq. cbn [string_forallb]. rewrite Ea. unfold three in E3. apply andb_true_iff in E3 as [Hb Hc].
    rewrite (range_high _ _ _ (le_n 128) Hc). by rewrite (three_high a b) by exact Hb. }
  destruct s as [|d s]; [done |]. destruct (four a b c d) eqn:E4; [| done]. simplify_eq. cbn [string_forallb]. rewrite Ea.
  unfold four in E4. apply andb_true_iff in E4 as [[Hb Hc]%andb_true_iff Hd].
  rewrite (range_high _ _ _ (le_n 128) Hc), (range_high _ _ _ (le_n 128) Hd). by rewrite (four_high a b) by exact Hb.
Qed.

(** No control character. *)
Definition clear : string -> bool := string_forallb (fun c => Nat.leb 32 (code c)).

(** How a string may be escaped. *)
Class Escape (esc : option string -> string) : Prop := {
  esc_bad : esc None = "\ufffd";
  esc_ascii : forall c tail, (code c < 128)%nat ->
    parse_chars (esc (Some (String c "")) +:+ tail) = push (String c "") (parse_chars tail);
  esc_sep : forall l, l ∈ ["168"; "169"]%char ->
    clear (esc (Some (line_sep l))) = true
    /\ forall tail, parse_chars (esc (Some (line_sep l)) +:+ tail) = push (line_sep l) (parse_chars tail);
  esc_other : forall a b r, ~ (exists l, l ∈ ["168"; "169"]%char /\ String a (String b r) = line_sep l) ->
    esc (Some (String a (String b r))) = String a (String b r);
  esc_clear : forall c, (code c < 128)%nat -> clear (esc (Some (String c ""))) = true
}.

(** Both ways escape by cases on one byte, and keep longer runes but two. *)
Ltac escape_instance :=
  split; [done | | | |];
  [ intros c tail Hc; destruct c as [[] [] [] [] [] [] [] []]; try reflexivity; exfalso; vm_compute in Hc; lia
  | intros l Hl; rewrite !elem_of_cons, elem_of_nil in Hl; by destruct Hl as [->|[->|[]]]
  | intros a b r Hn; cbn [escape slog_escape];
    destruct (String.eqb_spec (String a (String b r)) (line_sep "168")) as [E|_];
      [by destruct Hn; exists "168"%char; split; [set_solver | exact E] |];
    destruct (String.eqb_spec (String a (String b r)) (line_sep "169")) as [E|_];
      [by destruct Hn; exists "169"%char; split; [set_solver | exact E] | done]
  | intros c Hc; destruct c as [[] [] [] [] [] [] [] []]; try reflexivity; exfalso; vm_compute in Hc; lia ].

#[export] Instance escape_Escape : Escape escape.
Proof. escape_instance. Qed.
#[export] Instance slog_Escape : Escape slog_escape.
Proof. escape_instance. Qed.

Lemma sep_dec (r : string) : {exists l, l ∈ ["168"; "169"]%char /\ r = line_sep l} + {~ exists l, l ∈ ["168"; "169"]%char /\ r = line_sep l}.
Proof.
  destruct (decide (r = line_sep "168")) as [->|H1]; [left; exists "168"%char; set_solver |].
  destruct (decide (r = line_sep "169")) as [->|H2]; [left; exists "169"%char; set_solver |].
  right. intros (l & Hl & ->). rewrite !elem_of_cons, elem_of_nil in Hl. by destruct Hl as [->|[->|[]]].
Qed.

Section Reading.
Context (esc : option string -> string) `{!Escape esc}.
Notation print_chars := (print_chars esc).
Notation print_string := (print_string esc).
Notation print := (print_with esc).

Lemma parse_rune r tail : good_rune r -> parse_chars (esc (Some r) +:+ tail) = push r (parse_chars tail).
Proof.
  intros Hr. destruct (good_rune_head r Hr) as (a & r' & -> & Ha).
  destruct r' as [|b r']; [apply esc_ascii; by apply Ha |].
  assert (128 <= code a)%nat as Hc by (destruct (Nat.lt_ge_cases (code a) 128) as [Hlt|]; [by apply Ha in Hlt | lia]).
  destruct (sep_dec (String a (String b r'))) as [(l & Hl & ->)|Hn]; [by apply (esc_sep l Hl) |]. rewrite esc_other by done.
  destruct (Hr _ (fun r rest => push r (parse_chars rest)) (fun rest => push replacement (parse_chars rest)) tail) as (a' & s & Hs & Hf).
  rewrite Hs. rewrite append_cons in Hs. injection Hs as <- <-. cbn [parse_chars].
  assert (forall c, (code c < 128)%nat -> Ascii.eqb a c = false) as Hne by (intros c Hlt; apply Ascii.eqb_neq; intros ->; lia).
  rewrite (Hne quote), (Hne backslash) by (vm_compute; lia). rewrite (proj2 (Nat.ltb_ge _ _)) by lia. exact Hf.
Qed.

Lemma parse_print_chars s rest : parse_chars (print_chars s +:+ String quote rest) = Some (valid s, rest).
Proof.
  unfold JsonText.print_chars. induction s as [|r s Hr IH|a s Hb IH] using runes_ind; [done | |].
  - rewrite runes_good by done. cbn [fmap list_fmap concat_all]. rewrite append_assoc, parse_rune by done.
    by rewrite IH, valid_good.
  - rewrite runes_bad by done. cbn [fmap list_fmap concat_all]. rewrite append_assoc, esc_bad.
    set (t := _ +:+ String quote rest) in IH |- *. change (push replacement (parse_chars t) = Some (valid (String a s), rest)).
    by rewrite IH, valid_bad.
Qed.

(** Characters that need no escape. *)
Lemma print_plain (P : ascii -> bool) s :
  (forall c, P c = true -> esc (Some (String c "")) = String c "" /\ (code c < 128)%nat) ->
  string_forallb P s = true -> print_chars s = s.
Proof.
  intros HP. unfold JsonText.print_chars. induction s as [|c s IH]; [done |]. cbn [string_forallb]. intros [Hc Hs]%andb_true_iff.
  destruct (HP c Hc) as [He Hlt]. cbn [runes]. unfold first_rune. rewrite (proj2 (Nat.ltb_lt _ _) Hlt).
  cbn [fmap list_fmap concat_all]. by rewrite He, IH.
Qed.

(** Nothing in the text of a string is a control character. *)
Lemma print_chars_clear s : clear (print_chars s) = true.
Proof.
  unfold JsonText.print_chars, clear. induction s as [|r s Hr IH|a s Hb IH] using runes_ind; [done | |].
  - rewrite runes_good by done. cbn [fmap list_fmap concat_all]. rewrite string_forallb_app, IH, andb_true_r.
    destruct (good_rune_head r Hr) as (a & r' & -> & Ha). destruct r' as [|b r']; [apply esc_clear; by apply Ha |].
    destruct (good_rune_bytes _ Hr) as [(c & [=] & _)|Hall].
    destruct (sep_dec (String a (String b r'))) as [(l & Hl & ->)|Hn]; [by apply esc_sep |].
    rewrite esc_other by done. eapply string_forallb_impl; [| exact Hall]. intros c ?%Nat.leb_le. apply Nat.leb_le. lia.
  - rewrite runes_bad by done. cbn [fmap list_fmap concat_all]. by rewrite string_forallb_app, IH, esc_bad.
Qed.
End Reading.

(** ** Numbers read back *)

Lemma pretty_char_digit n : (n < 10)%N -> is_digit (pretty_N_char n) = true /\ Z.of_nat (code (pretty_N_char n)) - 48 = Z.of_N n
  /\ (n <> 0%N -> Ascii.eqb (pretty_N_char n) "0" = false).
Proof.
  intros Hn. assert (forallb (fun k => let c := pretty_N_char (N.of_nat k) in
    is_digit c && (Z.of_nat (code c) - 48 =? Z.of_nat k) && (Nat.eqb k 0 || negb (Ascii.eqb c "0"))) (seq 0 10) = true) as Hall by reflexivity.
  rewrite forallb_forall in Hall. specialize (Hall (N.to_nat n)). rewrite N2Nat.id in Hall.
  specialize (Hall ltac:(apply in_seq; lia)). apply andb_true_iff in Hall as [[Hd Hv]%andb_true_iff Hz].
  apply Z.eqb_eq in Hv. split_and!; [done | lia |]. intros Hne. destruct (Nat.eqb_spec (N.to_nat n) 0); [lia |].
  by apply negb_true_iff in Hz.
Qed.

Lemma pretty_go_decimal x : forall s, decimal 0 (pretty_N_go x s) = decimal (Z.of_N x) s.
Proof.
  induction (N.lt_wf_0 x) as [x _ IH]. intros s. destruct (decide (0 < x)%N) as [Hx|Hx].
  - rewrite pretty_N_go_step by done. rewrite IH by (apply N.div_lt; lia). cbn [decimal].
    destruct (pretty_char_digit (x mod 10)) as (_ & -> & _); [by apply N.mod_lt |]. f_equal.
    pose proof (N.div_mod x 10). lia.
  - assert (x = 0%N) as -> by lia. by rewrite pretty_N_go_0.
Qed.

Lemma pretty_go_span x : forall s d r, span_digits s = (d, r) -> span_digits (pretty_N_go x s) = (pretty_N_go x d, r).
Proof.
  induction (N.lt_wf_0 x) as [x _ IH]. intros s d r Hs. destruct (decide (0 < x)%N) as [Hx|Hx].
  - rewrite (pretty_N_go_step x s), (pretty_N_go_step x d) by done. apply IH; [apply N.div_lt; lia |]. cbn [span_digits].
    destruct (pretty_char_digit (x mod 10)) as (-> & _ & _); [by apply N.mod_lt |]. by rewrite Hs.
  - assert (x = 0%N) as -> by lia. by rewrite !pretty_N_go_0.
Qed.

Lemma pretty_go_app x : forall s t, pretty_N_go x s +:+ t = pretty_N_go x (s +:+ t).
Proof.
  induction (N.lt_wf_0 x) as [x _ IH]. intros s t. destruct (decide (0 < x)%N) as [Hx|Hx].
  - rewrite (pretty_N_go_step x s), (pretty_N_go_step x (s +:+ t)) by done.
    rewrite IH by (apply N.div_lt; lia). by rewrite append_cons.
  - assert (x = 0%N) as -> by lia. by rewrite !pretty_N_go_0.
Qed.

Lemma pretty_go_head x : forall s, (0 < x)%N -> exists c t, pretty_N_go x s = String c t /\ is_digit c = true /\ Ascii.eqb c "0" = false.
Proof.
  induction (N.lt_wf_0 x) as [x _ IH]. intros s Hx. rewrite pretty_N_go_step by done.
  destruct (decide (x / 10 = 0)%N) as [E|E].
  - rewrite E, pretty_N_go_0. assert (x < 10)%N by (by apply N.div_small_iff). rewrite N.mod_small by done.
    destruct (pretty_char_digit x) as (Hd & _ & Hz); [done |]. eexists _, _. split_and!; [done | done | apply Hz; lia].
  - apply IH; [apply N.div_lt; lia |]. assert (0 <= x / 10)%N by apply N.le_0_l. lia.
Qed.

(** What may follow a value: the end of the text, or the next structural character. *)
Definition sep (rest : string) : Prop := match rest with "" => True | String c _ => c ∈ [","; "]"; "}"]%char end.

Lemma sep_span rest : sep rest -> span_digits rest = ("", rest) /\ frac_part rest = Some ("", rest) /\ exp_part rest = Some ("", rest).
Proof. destruct rest as [|c r]; [done |]. cbn [sep]. rewrite !elem_of_cons, elem_of_nil. intros [->|[->|[->|[]]]]; done. Qed.

Lemma int_part_pretty (n : N) rest : sep rest -> int_part (pretty n +:+ rest) = Some (pretty n, rest) /\ decimal 0 (pretty n) = Z.of_N n.
Proof.
  intros Hr. unfold pretty, pretty_N. destruct (decide (n = 0%N)) as [->|Hn]; [done |].
  split; [| by rewrite pretty_go_decimal]. rewrite pretty_go_app, append_nil_l.
  pose proof (pretty_go_span n rest "" rest (proj1 (sep_span _ Hr))) as Hs.
  destruct (pretty_go_head n rest ltac:(lia)) as (c & t & Hc & Hd & Hz). rewrite Hc in Hs |- *. cbn [int_part]. rewrite Hz, Hd. by rewrite Hs.
Qed.

Lemma pretty_N_head (n : N) : exists c t, pretty n = String c t /\ is_digit c = true.
Proof.
  unfold pretty, pretty_N. destruct (decide (n = 0%N)); [by eexists _, _ |].
  destruct (pretty_go_head n "" ltac:(lia)) as (c & t & -> & Hd & _). by eexists _, _.
Qed.

Lemma number_pretty (z : Z) rest : sep rest -> number (pretty z +:+ rest) = Some (JNum z, rest).
Proof.
  intros Hr. destruct (sep_span _ Hr) as (_ & Hf & He).
  assert (forall n : N, int_part (pretty n +:+ rest) = Some (pretty n, rest) /\ decimal 0 (pretty n) = Z.of_N n) as Hi
    by (intros n; by apply int_part_pretty).
  assert (forall n : N, number (pretty n +:+ rest) = Some (JNum (Z.of_N n), rest)) as Hpos.
  { intros n. destruct (pretty_N_head n) as (c & t & Hc & Hd). destruct (Hi n) as [Hi1 Hi2]. unfold number.
    rewrite Hc in Hi1 |- *. rewrite append_cons in Hi1 |- *.
    destruct (Ascii.eqb_spec c "-") as [->|_]; [done |]. rewrite Hi1. cbn [mbind option_bind]. rewrite Hf. cbn [mbind option_bind].
    rewrite He. cbn [mbind option_bind]. rewrite append_nil_l, String.eqb_refl, <- Hc, Hi2. done. }
  destruct z as [|p|p]; unfold pretty at 1, pretty_Z; [exact (Hpos 0%N) | exact (Hpos (Npos p)) |].
  destruct (Hi (Npos p)) as [Hi1 Hi2]. rewrite append_assoc, append_cons, append_nil_l. unfold number.
  change (Ascii.eqb "-" "-") with true. cbv iota. change (pretty p) with (pretty (Npos p)). rewrite Hi1. cbn [mbind option_bind]. rewrite Hf. cbn [mbind option_bind].
    rewrite He. cbn [mbind option_bind]. rewrite append_nil_l, String.eqb_refl, Hi2. done.
Qed.

(** ** Documents read back *)

Section JsonInd.
Context (P : json -> Prop) (Hnull : P JNull) (Hbool : forall b, P (JBool b)) (Hnum : forall n, P (JNum n))
  (Hreal : forall t, P (JReal t)) (Hstr : forall s, P (JStr s)) (Harr : forall l, Forall P l -> P (JArr l))
  (Hobj : forall fs, Forall (fun kv => P (snd kv)) fs -> P (JObj fs)).

Fixpoint json_rec_list (j : json) : P j :=
  match j with
  | JNull => Hnull
  | JBool b => Hbool b
  | JNum n => Hnum n
  | JReal t => Hreal t
  | JStr s => Hstr s
  | JArr l => Harr l ((fix go l := match l return Forall P l with
                                  | [] => Forall_nil_2 _
                                  | x :: l' => Forall_cons_2 P x l' (json_rec_list x) (go l')
                                  end) l)
  | JObj fs => Hobj fs ((fix go l := match l return Forall (fun kv => P (snd kv)) l with
                                    | [] => Forall_nil_2 _
                                    | x :: l' => Forall_cons_2 (fun kv => P (snd kv)) x l' (json_rec_list (snd x)) (go l')
                                    end) fs)
  end.
End JsonInd.

(** The value a reader gets: every string, names included, in valid UTF-8. *)
Fixpoint norm (j : json) : json :=
  match j with
  | JStr s => JStr (valid s)
  | JArr l => JArr (norm <$> l)
  | JObj fs => JObj ((fun '(k, v) => (valid k, norm v)) <$> fs)
  | _ => j
  end.

(** All numbers are integers, as in every document the program writes. *)
Fixpoint integral (j : json) : bool :=
  match j with
  | JReal _ => false
  | JArr l => forallb integral l
  | JObj fs => forallb (fun '(_, v) => integral v) fs
  | _ => true
  end.

Fixpoint nesting (j : json) : Z :=
  match j with
  | JArr l => 1 + foldr Z.max 0 (nesting <$> l)
  | JObj fs => 1 + foldr Z.max 0 ((fun '(_, v) => nesting v) <$> fs)
  | _ => 0
  end.

Lemma json_strings_ok (ss : list string) : forallb integral (JStr <$> ss) = true /\ foldr Z.max 0 (nesting <$> (JStr <$> ss)) = 0.
Proof. induction ss as [|s ss [IH1 IH2]]; [done |]. cbn. split; [done |]. cbn in IH2. by rewrite IH2. Qed.

(** All strings are valid UTF-8: nothing is replaced. *)
Fixpoint utf8_json (j : json) : bool :=
  match j with
  | JStr s => ValidString s
  | JArr l => forallb utf8_json l
  | JObj fs => forallb (fun '(k, v) => ValidString k && utf8_json v) fs
  | _ => true
  end.

Lemma norm_id : forall j, utf8_json j = true -> norm j = j.
Proof.
  fix IH 1. intros [| | | | s | l | fs]; cbn [utf8_json norm]; try done.
  - intros Hs. by rewrite valid_id.
  - intros Hl. f_equal. induction l as [|j l IHl]; [done |]. cbn in *. apply andb_true_iff in Hl as [Hj Hl].
    f_equal; [by apply IH | by apply IHl].
  - intros Hl. f_equal. induction fs as [|[k v] fs IHl]; [done |]. cbn in *. apply andb_true_iff in Hl as [[Hk Hv]%andb_true_iff Hl].
    f_equal; [f_equal; [by apply valid_id | by apply IH] | by apply IHl].
Qed.

(** A character a value can start with. *)
Definition starts (c : ascii) : bool :=
  negb (is_ws c) && negb (Ascii.eqb c "]") && negb (Ascii.eqb c "}").

Lemma digit_starts c : is_digit c = true -> starts c = true.
Proof. by destruct c as [[] [] [] [] [] [] [] []]. Qed.

Lemma pretty_Z_starts (z : Z) : exists c t, pretty z = String c t /\ (is_digit c = true \/ c = "-"%char).
Proof.
  destruct z as [|p|p]; [by exists "0"%char, ""; auto | |].
  - destruct (pretty_N_head (Npos p)) as (c & t & Hc & Hd). exists c, t. split; [exact Hc | by left].
  - exists "-"%char, (pretty (Npos p)). split; [done | by right].
Qed.

Section Documents.
Context (esc : option string -> string) `{!Escape esc}.
Notation print_chars := (print_chars esc).
Notation print_string := (print_string esc).
Notation print := (print_with esc).

Lemma print_starts j : integral j = true -> exists c t, print j = String c t /\ starts c = true.
Proof.
  destruct j as [|[]|n|t|s|l|fs]; intros Hj; try done; try (by eexists _, _).
  cbn [print_with]. destruct (pretty_Z_starts n) as (c & t & -> & Hc). eexists _, _. split; [done |].
  destruct Hc as [Hc| ->]; [by apply digit_starts | done].
Qed.

Lemma skip_starts c t : starts c = true -> skip_ws (String c t) = String c t.
Proof. unfold starts. cbn [skip_ws]. by destruct (is_ws c). Qed.

Lemma skip_print j rest : integral j = true -> skip_ws (print j +:+ rest) = print j +:+ rest.
Proof. intros Hj. destruct (print_starts j Hj) as (c & t & -> & Hc). rewrite append_cons. by apply skip_starts. Qed.

(** Numbers have digits and a sign. *)
Lemma span_digits_digits s d r : span_digits s = (d, r) -> string_forallb is_digit d = true.
Proof.
  revert d r. induction s as [|c s IH]; intros d r; cbn [span_digits]; [by intros [= <- <-] |].
  destruct (is_digit c) eqn:E; [| by intros [= <- <-]]. destruct (span_digits s) as [d' r'] eqn:Es. intros [= <- <-]. cbn. by rewrite E, (IH d' r').
Qed.

Lemma pretty_clear (z : Z) : clear (pretty z) = true.
Proof.
  assert (forall n : N, clear (pretty n) = true) as Hn.
  { intros n. unfold pretty, pretty_N. destruct (decide (n = 0%N)); [done |].
    pose proof (span_digits_digits _ _ _ (pretty_go_span n "" "" "" eq_refl)) as Hd. eapply string_forallb_impl; [| exact Hd].
    intros c Hc. by destruct c as [[] [] [] [] [] [] [] []]. }
  destruct z as [|p|p]; [done | exact (Hn (Npos p)) |]. exact (Hn (Npos p)).
Qed.

(** With enough fuel. *)
Notation reads d text j rest := (exists N : nat, forall n, (N <= n)%nat -> value d n text = Some (j, rest)).

Lemma elements_print d l rest : l <> [] ->
  Forall (fun j => integral j = true /\ forall rest, sep rest -> reads d (print j +:+ rest) (norm j) rest) l ->
  exists N : nat, forall n, (N <= n)%nat -> elements d n (commas (print <$> l) +:+ String "]" rest) = Some (norm <$> l, rest).
Proof.
  intros Hne Hl. induction Hl as [|j l [Hi Hj] Hl IH]; [done |]. destruct l as [|j' l].
  - destruct (Hj (String "]" rest)) as (N & HN); [cbn; set_solver |]. exists (S N). intros [|n] Hn; [lia |].
    cbn [fmap list_fmap commas elements]. rewrite HN by lia. done.
  - destruct (IH ltac:(done)) as (N1 & HN1).
    destruct (Hj (String "," (commas (print <$> j' :: l) +:+ String "]" rest))) as (N2 & HN2); [cbn; set_solver |].
    exists (S (N1 + N2)). intros [|n] Hn; [lia |]. cbn [elements].
    change (commas (print <$> j :: j' :: l)) with (print j +:+ "," +:+ commas (print <$> j' :: l)).
    rewrite !append_assoc, append_cons, append_nil_l. rewrite HN2 by lia. cbn [mbind option_bind skip_ws is_ws].
    change (is_ws ",") with false. cbv iota. change (Ascii.eqb "," ",") with true. cbv iota. by rewrite HN1 by lia.
Qed.

Lemma members_print d fs rest : fs <> [] ->
  Forall (fun kv => integral (snd kv) = true /\ forall rest, sep rest -> reads d (print (snd kv) +:+ rest) (norm (snd kv)) rest) fs ->
  exists N : nat, forall n, (N <= n)%nat ->
    members d n (commas ((fun '(k, v) => print_string k +:+ ":" +:+ print v) <$> fs) +:+ String "}" rest)
    = Some ((fun '(k, v) => (valid k, norm v)) <$> fs, rest).
Proof.
  intros Hne Hl.
  assert (forall k v tail, integral v = true -> sep tail -> reads d (print v +:+ tail) (norm v) tail ->
    exists N : nat, forall n, (N <= n)%nat -> members d (S n) ((print_string k +:+ ":" +:+ print v) +:+ tail)
      = match tail with
        | String c4 r4 => if Ascii.eqb c4 "," then '(fs, r5) ← members d n r4; Some ((valid k, norm v) :: fs, r5)
                          else if Ascii.eqb c4 "}" then Some ([(valid k, norm v)], r4) else None
        | "" => None
        end) as Hone.
  { intros k v tail Hv Ht (N & HN). exists N. intros n Hn. unfold JsonText.print_string. rewrite !append_assoc, !append_cons, !append_nil_l.
    cbn [members skip_ws]. change (is_ws quote) with false. cbv iota. change (Ascii.eqb quote quote) with true. cbn [negb].
    rewrite (parse_print_chars esc). cbn [mbind option_bind].
    cbn [skip_ws]. change (is_ws ":") with false. cbv iota. change (Ascii.eqb ":" ":") with true. cbn [negb].
    rewrite HN by done. cbn [mbind option_bind]. destruct tail as [|c4 r4]; [done |].
    assert (skip_ws (String c4 r4) = String c4 r4) as ->; [| done]. cbn [sep] in Ht. rewrite !elem_of_cons, elem_of_nil in Ht.
    by destruct Ht as [->|[->|[->|[]]]]. }
  induction Hl as [|[k v] fs [Hi Hj] Hl IH]; [done |]. cbn [snd] in Hi, Hj. destruct fs as [|kv' fs].
  - destruct (Hone k v (String "}" rest) Hi ltac:(cbn; set_solver) (Hj (String "}" rest) ltac:(cbn; set_solver))) as (N & HN).
    exists (S N). intros [|n] Hn; [lia |]. cbn [fmap list_fmap commas]. by rewrite HN by lia.
  - destruct (IH ltac:(done)) as (N1 & HN1). set (items := commas _ +:+ _) in HN1.
    destruct (Hone k v (String "," items) Hi ltac:(cbn; set_solver) (Hj (String "," items) ltac:(cbn; set_solver))) as (N2 & HN2).
    exists (S (N1 + N2)). intros [|n] Hn; [lia |].
    assert (forall a b l, commas (a :: b :: l) +:+ String "}" rest = a +:+ String "," (commas (b :: l) +:+ String "}" rest)) as Hc.
    { intros a b l. cbn [commas]. by rewrite !append_assoc, append_cons, append_nil_l. }
    rewrite !fmap_cons, Hc. change (commas (_ :: _) +:+ String "}" rest) with items. rewrite HN2 by lia. change (Ascii.eqb "," ",") with true. cbv iota.
    rewrite HN1 by lia. done.
Qed.

Lemma foldr_max_le l d : foldr Z.max 0 l <= d -> Forall (fun z => z <= d) l.
Proof. induction l as [|z l IH]; cbn; [done |]. intros H. constructor; [lia | apply IH; lia]. Qed.

(** The first byte decides how a value is read. *)
Lemma value_other d n c t :
  starts c = true -> c ∉ ["{"; "["; quote; "t"; "f"; "n"]%char -> value d (S n) (String c t) = number (String c t).
Proof.
  intros Hs Hnot. cbn [value]. rewrite skip_starts by done. rewrite !not_elem_of_cons in Hnot.
  destruct Hnot as (N1 & N2 & N3 & N4 & N5 & N6 & _).
  by rewrite (proj2 (Ascii.eqb_neq _ _) N1), (proj2 (Ascii.eqb_neq _ _) N2), (proj2 (Ascii.eqb_neq _ _) N3),
    (proj2 (Ascii.eqb_neq _ _) N4), (proj2 (Ascii.eqb_neq _ _) N5), (proj2 (Ascii.eqb_neq _ _) N6).
Qed.

Lemma value_num z d rest : sep rest -> reads d (pretty z +:+ rest) (JNum z) rest.
Proof.
  intros Hr. exists 1%nat. intros [|n] Hn; [lia |]. rewrite <- (number_pretty z rest Hr).
  destruct (pretty_Z_starts z) as (c & t & -> & Hd). rewrite append_cons. apply value_other.
  - destruct Hd as [Hd| ->]; [by apply digit_starts | done].
  - intros Hin. destruct Hd as [Hd|Hd]; rewrite !elem_of_cons, elem_of_nil in Hin; destruct_or? Hin; by subst.
Qed.

Lemma value_str s d rest : reads d (print_string s +:+ rest) (JStr (valid s)) rest.
Proof.
  exists 1%nat. intros [|n] Hn; [lia |]. unfold JsonText.print_string.
  rewrite append_assoc, !append_cons, append_nil_l. cbn [value skip_ws]. change (is_ws quote) with false. cbv iota.
  change (Ascii.eqb quote "{") with false. change (Ascii.eqb quote "[") with false. change (Ascii.eqb quote quote) with true. cbv iota.
  by rewrite (parse_print_chars esc).
Qed.

Lemma value_empty d n rest : 1 <= d ->
  value d (S n) (String "[" (String "]" rest)) = Some (JArr [], rest) /\ value d (S n) (String "{" (String "}" rest)) = Some (JObj [], rest).
Proof. intros Hd. cbn. by rewrite (proj2 (Z.ltb_ge d 1)) by lia. Qed.

Lemma value_arr d c t l rest :
  1 <= d -> starts c = true -> (exists N : nat, forall n, (N <= n)%nat -> elements (d - 1) n (String c t) = Some (l, rest)) ->
  reads d (String "[" (String c t)) (JArr l) rest.
Proof.
  intros Hd Hs (N & HN). exists (S N). intros [|n] Hn; [lia |]. cbn [value]. rewrite (skip_starts "[") by done.
  change (Ascii.eqb "[" "{") with false. change (Ascii.eqb "[" "[") with true. cbv iota.
  rewrite (proj2 (Z.ltb_ge d 1)) by lia. rewrite skip_starts by done. unfold starts in Hs.
  destruct (Ascii.eqb c "]"); [by rewrite andb_false_r in Hs |]. by rewrite HN by lia.
Qed.

Lemma value_obj d t fs rest :
  1 <= d -> (exists N : nat, forall n, (N <= n)%nat -> members (d - 1) n (String quote t) = Some (fs, rest)) ->
  reads d (String "{" (String quote t)) (JObj fs) rest.
Proof.
  intros Hd (N & HN). exists (S N). intros [|n] Hn; [lia |]. cbn [value]. rewrite (skip_starts "{") by done.
  change (Ascii.eqb "{" "{") with true. cbv iota. rewrite (proj2 (Z.ltb_ge d 1)) by lia. rewrite skip_starts by done.
  change (Ascii.eqb quote "}") with false. cbv iota. by rewrite HN by lia.
Qed.

Lemma nesting_arr l : 1 <= nesting (JArr l).
Proof. cbn [nesting]. enough (0 <= foldr Z.max 0 (nesting <$> l)) by lia. induction l; cbn; lia. Qed.
Lemma nesting_obj fs : 1 <= nesting (JObj fs).
Proof. cbn [nesting]. enough (0 <= foldr Z.max 0 ((fun '(_, v) => nesting v) <$> fs)) by lia. induction fs; cbn; lia. Qed.

(** What the parts of a printable value may be. *)
Definition printable (d : Z) (j : json) : Prop := integral j = true /\ nesting j <= d.

Lemma printable_arr d l : printable d (JArr l) -> Forall (printable (d - 1)) l.
Proof.
  intros [Hi Hn]. cbn [integral nesting] in *. rewrite forallb_forall in Hi.
  pose proof (foldr_max_le (nesting <$> l) (d - 1) (proj1 (Z.le_add_le_sub_l 1 d _) Hn)) as Hm. rewrite Forall_fmap, Forall_forall in Hm.
  apply Forall_forall. intros x Hx. split; [apply Hi; by apply list_elem_of_In | by apply Hm].
Qed.

Lemma printable_obj d fs : printable d (JObj fs) -> Forall (fun kv => printable (d - 1) (snd kv)) fs.
Proof.
  intros [Hi Hn]. cbn [integral nesting] in *. rewrite forallb_forall in Hi.
  pose proof (foldr_max_le ((fun '(_, v) => nesting v) <$> fs) (d - 1) (proj1 (Z.le_add_le_sub_l 1 d _) Hn)) as Hm. rewrite Forall_fmap, Forall_forall in Hm.
  apply Forall_forall. intros [k x] Hx. split; [apply (Hi (k, x)); by apply list_elem_of_In | by apply (Hm (k, x))].
Qed.

Lemma value_print j d rest : printable d j -> sep rest -> reads d (print j +:+ rest) (norm j) rest.
Proof.
  revert j d rest. apply (json_rec_list (fun j => forall d rest, printable d j -> sep rest -> reads d (print j +:+ rest) (norm j) rest)).
  - intros d rest _ _. exists 1%nat. intros [|n] Hn; [lia |]. by destruct rest.
  - intros [] d rest _ _; exists 1%nat; intros [|n] Hn; try lia; by destruct rest.
  - intros z d rest _ Hr. by apply value_num.
  - by intros t d rest [? _].
  - intros s d rest _ _. apply value_str.
  - intros l IH d rest Hp _. pose proof (printable_arr d l Hp) as Hl. pose proof (nesting_arr l) as H1. destruct Hp as [_ Hd].
    cbn [print_with norm] in *. rewrite !append_assoc, !append_cons, !append_nil_l. destruct l as [|j l].
    { exists 1%nat. intros [|n] Hn; [lia |]. exact (proj1 (value_empty d n rest (Z.le_trans _ _ _ H1 Hd))). }
    destruct (Forall_cons_1 _ _ _ Hl) as [[Hij _] _]. destruct (print_starts j Hij) as (c & t & Hc & Hs).
    assert (exists t', commas (print <$> j :: l) +:+ String "]" rest = String c t') as (t' & Ht').
    { destruct l; cbn [fmap list_fmap commas]; rewrite Hc, ?append_assoc, ?append_cons; by eexists. }
    rewrite Ht'. apply value_arr; [lia | done |]. rewrite <- Ht'. apply elements_print; [done |].
    rewrite Forall_forall in IH, Hl |- *. intros x Hx. split; [by apply Hl | by auto].
  - intros fs IH d rest Hp _. pose proof (printable_obj d fs Hp) as Hl. pose proof (nesting_obj fs) as H1. destruct Hp as [_ Hd].
    cbn [print_with norm] in *. rewrite !append_assoc, !append_cons, !append_nil_l. destruct fs as [|[k v] fs].
    { exists 1%nat. intros [|n] Hn; [lia |]. exact (proj2 (value_empty d n rest (Z.le_trans _ _ _ H1 Hd))). }
    assert (exists t', commas ((fun '(k, v) => print_string k +:+ ":" +:+ print v) <$> (k, v) :: fs) +:+ String "}" rest = String quote t') as (t' & Ht').
    { destruct fs as [|[? ?] ?]; cbn [fmap list_fmap commas]; unfold JsonText.print_string at 1; rewrite ?append_assoc, ?append_cons; by eexists. }
    rewrite Ht'. apply value_obj; [lia |]. rewrite <- Ht'. apply members_print; [done |].
    rewrite Forall_forall in IH, Hl |- *. intros x Hx. split; [by apply Hl | by auto].
Qed.

(** The text of a document, read back, is the document with its strings made valid. *)
Lemma Parse_print j : integral j = true -> nesting j <= maxNestingDepth -> Parse (print j) = Some (norm j).
Proof.
  intros Hi Hn. unfold Parse. destruct (value_print j maxNestingDepth "" (conj Hi Hn) I) as (N & HN). rewrite append_nil_r in HN.
  rewrite (proj1 (value_fuel _) maxNestingDepth (print j) (N + S (2 * len (print j)))%nat) by lia.
  rewrite HN by lia. done.
Qed.

(** A document is one line. *)
Lemma commas_clear l : Forall (fun s => clear s = true) l -> clear (commas l) = true.
Proof.
  unfold clear. induction 1 as [|s l Hs Hl IH]; [done |]. destruct l as [|t l]; [exact Hs |].
  change (commas (s :: t :: l)) with (s +:+ "," +:+ commas (t :: l)). by rewrite !string_forallb_app, Hs, IH.
Qed.

Lemma print_string_clear s : clear (print_string s) = true.
Proof. unfold JsonText.print_string, clear. rewrite string_forallb_app. cbn. by rewrite (print_chars_clear esc). Qed.

Lemma print_clear j : integral j = true -> clear (print j) = true.
Proof.
  revert j. apply (json_rec_list (fun j => integral j = true -> clear (print j) = true)); cbn [integral print_with]; try done.
  - by intros [].
  - intros z _. apply pretty_clear.
  - intros s _. apply print_string_clear.
  - intros l IH Hi. unfold clear. rewrite !string_forallb_app, commas_clear; [done |]. apply Forall_fmap.
    rewrite forallb_forall in Hi. rewrite Forall_forall in IH |- *. intros x Hx. apply IH; [done |]. by apply Hi, list_elem_of_In.
  - intros fs IH Hi. unfold clear. rewrite !string_forallb_app, commas_clear; [done |]. apply Forall_fmap.
    rewrite forallb_forall in Hi. rewrite Forall_forall in IH |- *. intros [k v] Hx. cbn. unfold clear. rewrite !string_forallb_app.
    rewrite (print_string_clear k : string_forallb _ _ = true). cbn [string_forallb andb].
    exact (IH (k, v) Hx (Hi (k, v) (proj1 (list_elem_of_In _ _) Hx))).
Qed.
End Documents.

(** ** What is read is valid UTF-8 *)

Lemma code_byte n : 0 <= n < 256 -> Z.of_nat (code (byte n)) = n.
Proof. intros Hn. unfold code, byte. rewrite nat_ascii_embedding; lia. Qed.

Lemma range_byte lo hi n : 0 <= n < 256 -> range lo hi (byte n) = (Z.of_nat lo <=? n) && (n <=? Z.of_nat hi).
Proof.
  intros Hn. unfold range. pose proof (code_byte n Hn). f_equal.
  - destruct (Nat.leb_spec lo (code (byte n))), (Z.leb_spec (Z.of_nat lo) n); lia.
  - destruct (Nat.leb_spec (code (byte n)) hi), (Z.leb_spec n (Z.of_nat hi)); lia.
Qed.

Lemma eqb_byte n k : 0 <= n < 256 -> Nat.eqb (code (byte n)) k = (n =? Z.of_nat k).
Proof. intros Hn. pose proof (code_byte n Hn). destruct (Nat.eqb_spec (code (byte n)) k), (Z.eqb_spec n (Z.of_nat k)); lia. Qed.

Lemma ltb_byte n k : 0 <= n < 256 -> Nat.ltb (code (byte n)) k = (n <? Z.of_nat k).
Proof. intros Hn. pose proof (code_byte n Hn). destruct (Nat.ltb_spec (code (byte n)) k), (Z.ltb_spec n (Z.of_nat k)); lia. Qed.

(** The digits of a code point in base 64. *)
Lemma base64 u : 0 <= u -> 0 <= u mod 64 < 64 /\ 0 <= u / 64 mod 64 < 64 /\ 0 <= u / 4096 mod 64 < 64
  /\ u = 64 * (u / 64) + u mod 64 /\ u / 64 = 64 * (u / 4096) + u / 64 mod 64 /\ u / 4096 = 64 * (u / 262144) + u / 4096 mod 64.
Proof.
  intros Hu. change 262144 with (4096 * 64). change 4096 with (64 * 64). rewrite <- !Z.div_div by lia.
  pose proof (Z.div_mod u 64 ltac:(lia)). pose proof (Z.div_mod (u / 64) 64 ltac:(lia)). pose proof (Z.div_mod (u / 64 / 64) 64 ltac:(lia)).
  pose proof (Z.mod_pos_bound u 64 ltac:(lia)). pose proof (Z.mod_pos_bound (u / 64) 64 ltac:(lia)). pose proof (Z.mod_pos_bound (u / 64 / 64) 64 ltac:(lia)).
  split_and!; lia.
Qed.

Ltac byte_cases :=
  repeat match goal with
  | |- context [Nat.ltb (code (byte ?n)) _] => rewrite (ltb_byte n) by lia
  | |- context [Nat.eqb (code (byte ?n)) _] => rewrite (eqb_byte n) by lia
  | |- context [range _ _ (byte ?n)] => rewrite (range_byte _ _ n) by lia
  end;
  repeat match goal with
  | |- context [?a <? ?b] => destruct (Z.ltb_spec a b); [try lia | try lia]
  | |- context [?a =? ?b] => destruct (Z.eqb_spec a b); [try lia | try lia]
  | |- context [?a <=? ?b] => destruct (Z.leb_spec a b); [try lia | try lia]
  end; cbn [andb]; try done; try lia.

Lemma encode_good u : 0 <= u < 1114112 -> high u || low u = false -> good_rune (encode_rune u).
Proof.
  intros Hu Hs. assert (u < 55296 \/ 57344 <= u) as Hsur.
  { unfold high, low in Hs. destruct (Z.leb_spec 55296 u), (Z.ltb_spec u 56320), (Z.leb_spec 56320 u), (Z.ltb_spec u 57344); cbn in Hs; try done; lia. }
  clear Hs. destruct (base64 u ltac:(lia)) as (M1 & M2 & M3 & D1 & D2 & D3). unfold encode_rune.
  set (a0 := u mod 64) in *. set (a1 := u / 64 mod 64) in *. set (a2 := u / 4096 mod 64) in *.
  set (q1 := u / 64) in *. set (q2 := u / 4096) in *. set (q3 := u / 262144) in *. clearbody a0 a1 a2 q1 q2 q3.
  destruct (Z.ltb_spec u 128) as [H1|H1].
  { intros A ok bad rest. eexists _, _. split; [done |]. unfold first_rune. byte_cases. }
  destruct (Z.ltb_spec u 2048) as [H2|H2].
  { intros A ok bad rest. rewrite !append_cons, append_nil_l. eexists _, _. split; [done |]. unfold first_rune, two, cont. byte_cases. }
  destruct (Z.ltb_spec u 65536) as [H3|H3].
  { intros A ok bad rest. rewrite !append_cons, append_nil_l. eexists _, _. split; [done |]. unfold first_rune, two, three, cont. byte_cases. }
  intros A ok bad rest. rewrite !append_cons, append_nil_l. eexists _, _. split; [done |]. unfold first_rune, two, three, four, cont. byte_cases.
Qed.

Lemma good_ascii c : (code c < 128)%nat -> good_rune (String c "").
Proof. intros Hc A ok bad rest. eexists _, _. split; [done |]. unfold first_rune. by rewrite (proj2 (Nat.ltb_lt _ _) Hc). Qed.

Lemma simple_escape_good e x : simple_escape e = Some x -> good_rune (String x "").
Proof. intros H. apply good_ascii. destruct e as [[] [] [] [] [] [] [] []]; vm_compute in H; try done; injection H as <-; apply Nat.ltb_lt; reflexivity. Qed.

Lemma hex4_range a b c d u : hex4 a b c d = Some u -> 0 <= u < 65536.
Proof.
  assert (forall c n, unhex1 c = Some n -> 0 <= n < 16) as Hd.
  { intros x n Hx. destruct x as [[] [] [] [] [] [] [] []]; vm_compute in Hx; try done; injection Hx as <-; lia. }
  unfold hex4. destruct (unhex1 a) eqn:Ea, (unhex1 b) eqn:Eb, (unhex1 c) eqn:Ec, (unhex1 d) eqn:Ed; try done.
  apply Hd in Ea, Eb, Ec, Ed. cbn. intros [= <-]. lia.
Qed.

Lemma parse_chars_valid s t rest : parse_chars s = Some (t, rest) -> valid t = t.
Proof.
  remember (len s) as n eqn:Hn. revert s t rest Hn. induction (Nat.lt_wf_0 n) as [n _ IH]. intros s t rest ->.
  assert (forall s' r, (len s' < len s)%nat -> good_rune r -> push r (parse_chars s') = Some (t, rest) -> valid t = t) as Hrec.
  { intros s' r Hl Hr (t1 & Ht & ->)%push_Some. rewrite valid_good by done. f_equal. eapply IH; [exact Hl | done | exact Ht]. }
  destruct s as [|c s1]; [done |]. cbn [parse_chars]. destruct (Ascii.eqb c quote); [by intros [= <- <-] |].
  destruct (Ascii.eqb c backslash).
  - destruct s1 as [|e s2]; [done |].
    destruct (simple_escape e) eqn:Ee; [intros Hp; eapply Hrec; [| by eapply simple_escape_good | exact Hp]; cbn; lia |].
    destruct (negb _); [done |]. destruct s2 as [|h1 [|h2 [|h3 [|h4 s6]]]]; try done.
    destruct (hex4 h1 h2 h3 h4) as [u|] eqn:Eu; [| done]. apply hex4_range in Eu.
    destruct (negb (high u || low u)) eqn:Es.
    { apply negb_true_iff in Es. apply Hrec; [cbn; lia |]. by apply encode_good; [lia |]. }
    assert (push replacement (parse_chars s6) = Some (t, rest) -> valid t = t) as Hrepl
      by (intros Hp; eapply Hrec; [| apply good_replacement | exact Hp]; cbn; lia).
    destruct s6 as [|b [|v [|g1 [|g2 [|g3 [|g4 s12]]]]]]; try exact Hrepl.
    destruct (hex4 g1 g2 g3 g4) as [u'|] eqn:Eu'; [| exact Hrepl]. apply hex4_range in Eu'.
    destruct (_ && _ && high u && low u') eqn:Eh; [| exact Hrepl].
    apply andb_true_iff in Eh as [[_ Hh]%andb_true_iff Hl]. unfold high, low in Hh, Hl. apply andb_true_iff in Hh as [Hh1 Hh2], Hl as [Hl1 Hl2].
    apply Z.leb_le in Hh1, Hl1. apply Z.ltb_lt in Hh2, Hl2.
    apply Hrec; [cbn; lia |]. apply encode_good; [lia |].
    unfold high, low. repeat match goal with |- context [?a <? ?b] => destruct (Z.ltb_spec a b); [lia |] end. by rewrite !andb_false_r.
  - destruct (Nat.ltb (code c) 32); [done |].
    destruct (first_rune_cases c s1) as [(r & tl & Heq & Hr & Hl)|[_ Hb]].
    + destruct (Hr _ (fun r rest => push r (parse_chars rest)) (fun rest => push replacement (parse_chars rest)) tl) as (a & s & Hs & Hf).
      rewrite <- Heq in Hs. injection Hs as <- <-. rewrite Hf. intros Hp. by eapply Hrec.
    + rewrite Hb. intros Hp. eapply Hrec; [| apply good_replacement | exact Hp]. cbn. lia.
Qed.

Lemma number_norm s j r : number s = Some (j, r) -> norm j = j.
Proof.
  unfold number. destruct (match s with "" => _ | String c r => _ end) as [neg s1].
  destruct (int_part s1) as [[i s2]|]; cbn; [| done]. destruct (frac_part s2) as [[f s3]|]; cbn; [| done].
  destruct (exp_part s3) as [[e s4]|]; cbn; [| done]. intros [= <- _]. by destruct (String.eqb _ _).
Qed.

Lemma value_norm fuel :
  (forall d s j r, value d fuel s = Some (j, r) -> norm j = j)
  /\ (forall d s l r, elements d fuel s = Some (l, r) -> norm <$> l = l)
  /\ (forall d s l r, members d fuel s = Some (l, r) -> (fun '(k, v) => (valid k, norm v)) <$> l = l).
Proof.
  induction fuel as [|fuel (IHv & IHe & IHm)]; [done |]. split_and!.
  - intros d s j r. cbn [value]. destruct (skip_ws s) as [|c s1]; [done |].
    destruct (Ascii.eqb c "{").
    { destruct (d <? 1); [done |]. destruct (skip_ws s1) as [|e r1]; [done |].
      destruct (Ascii.eqb e "}"); [by intros [= <- _] |]. destruct (members (d - 1) fuel s1) as [[fs r2]|] eqn:E2; cbn; [| done].
      intros [= <- _]. apply IHm in E2. cbn [norm]. by rewrite E2. }
    destruct (Ascii.eqb c "[").
    { destruct (d <? 1); [done |]. destruct (skip_ws s1) as [|e r1]; [done |].
      destruct (Ascii.eqb e "]"); [by intros [= <- _] |]. destruct (elements (d - 1) fuel s1) as [[l r2]|] eqn:E2; cbn; [| done].
      intros [= <- _]. apply IHe in E2. cbn [norm]. by rewrite E2. }
    destruct (Ascii.eqb c quote).
    { destruct (parse_chars s1) as [[t r1]|] eqn:E1; cbn; [| done]. intros [= <- _]. cbn. by rewrite (parse_chars_valid _ _ _ E1). }
    unfold literal. repeat (case_match; [destruct (HasPrefix _ _); by intros [= <- _] |]). apply number_norm.
  - intros d s l r. cbn [elements]. destruct (value d fuel s) as [[v r1]|] eqn:E1; cbn; [| done]. apply IHv in E1.
    destruct (skip_ws r1) as [|c r2]; [done |].
    destruct (Ascii.eqb c ","); [| destruct (Ascii.eqb c "]"); [intros [= <- _]; cbn; by rewrite E1 | done]].
    destruct (elements d fuel r2) as [[l' r3]|] eqn:E3; cbn; [| done]. intros [= <- _]. apply IHe in E3. by rewrite fmap_cons, E1, E3.
  - intros d s l r. cbn [members]. destruct (skip_ws s) as [|c s1]; [done |].
    destruct (negb _); [done |]. destruct (parse_chars s1) as [[k r1]|] eqn:E1; cbn; [| done]. apply parse_chars_valid in E1.
    destruct (skip_ws r1) as [|c2 r2]; [done |]. destruct (negb _); [done |].
    destruct (value d fuel r2) as [[v r3]|] eqn:E3; cbn; [| done]. apply IHv in E3.
    destruct (skip_ws r3) as [|c4 r4]; [done |].
    destruct (Ascii.eqb c4 ","); [| destruct (Ascii.eqb c4 "}"); [intros [= <- _]; cbn; by rewrite E1, E3 | done]].
    destruct (members d fuel r4) as [[l' r5]|] eqn:E5; cbn; [| done]. intros [= <- _]. apply IHm in E5. by rewrite fmap_cons, E1, E3, E5.
Qed.

(** Every string of a document that was read is valid. *)
Lemma Parse_norm text j : Parse text = Some j -> norm j = j.
Proof.
  unfold Parse. destruct (value _ _ text) as [[j' rest]|] eqn:E; cbn; [| done]. destruct (String.eqb _ _); [| done].
  intros [= <-]. by eapply value_norm.
Qed.
