(* ===== verification/GoTime.v ===== *)
(** * [time.ParseDuration]

    Durations are [int64] numbers of nanoseconds; the accumulator is a [uint64] and
    wraps.  The floating-point product that gives the nanoseconds of a decimal
    fraction is the operation of the class [GoFloat]. *)

From S2P Require Import Prelude GoStrings.

(** [uint64(float64(f) * (float64(unit) / scale))] with [scale] a power of ten above
    [f]: at most the unit itself, at most an hour. *)
Class GoFloat := {
  fraction : Z -> Z -> Z -> Z;
  fraction_range : forall f unit scale, 0 <= fraction f unit scale <= Hour
}.

Module GoTime.

Definition digit (c : ascii) : Z := Z.of_nat (code c) - 48.

(** [leadingInt]; [None] on overflow. *)
Fixpoint leadingInt (x : Z) (s : string) : option (Z * string) :=
  match s with
  | "" => Some (x, "")
  | String c s' =>
      if negb (is_digit c) then Some (x, s)
      else if (2 ^ 63) / 10 <? x then None
      else
        let x' := x * 10 + digit c in
        if 2 ^ 63 <? x' then None else leadingInt x' s'
  end.

(** [leadingFraction]: digits that do not fit are skipped. *)
Fixpoint leadingFraction (x scale : Z) (overflow : bool) (s : string) : Z * Z * string :=
  match s with
  | "" => (x, scale, "")
  | String c s' =>
      if negb (is_digit c) then (x, scale, s)
      else if overflow then leadingFraction x scale true s'
      else if (2 ^ 63 - 1) / 10 <? x then leadingFraction x scale true s'
      else
        let y := x * 10 + digit c in
        if 2 ^ 63 <? y then leadingFraction x scale true s'
        else leadingFraction y (scale * 10) false s'
  end.

(** The bytes up to the next digit or point. *)
Fixpoint take_unit (s : string) : string * string :=
  match s with
  | "" => ("", "")
  | String c s' =>
      if Ascii.eqb c "." || is_digit c then ("", s)
      else let '(u, r) := take_unit s' in (String c u, r)
  end.

Definition micro (a b : nat) : string :=
  String (Ascii.ascii_of_nat a) (String (Ascii.ascii_of_nat b) "s").

Definition unitMap (u : string) : option Z :=
  if String.eqb u "ns" then Some Nanosecond
  else if String.eqb u "us" || String.eqb u (micro 194 181) || String.eqb u (micro 206 188)
  then Some (1000 * Nanosecond)
  else if String.eqb u "ms" then Some Millisecond
  else if String.eqb u "s" then Some Second
  else if String.eqb u "m" then Some Minute
  else if String.eqb u "h" then Some Hour
  else None.

Section Parse.
Context `{GoFloat}.

(** One term, number and unit: its nanoseconds and the rest. *)
Definition parse_term (s : string) : option (Z * string) :=
  match s with
  | "" => None
  | String c _ =>
      if negb (Ascii.eqb c "." || is_digit c) then None
      else
        '(v, s1) ← leadingInt 0 s;
        let pre := negb (Nat.eqb (String.length s) (String.length s1)) in
        let '(f, scale, s2, post) :=
          match s1 with
          | String c1 s1' =>
              if Ascii.eqb c1 "." then
                let '(f, scale, r) := leadingFraction 0 1 false s1' in
                (f, scale, r, negb (Nat.eqb (String.length s1') (String.length r)))
              else (0, 1, s1, false)
          | "" => (0, 1, s1, false)
          end in
        if negb pre && negb post then None
        else
          let '(u, rest) := take_unit s2 in
          if String.eqb u "" then None
          else
            unit ← unitMap u;
            if (2 ^ 63) / unit <? v then None
            else
              let v := v * unit in
              let v := if 0 <? f then v + fraction f unit scale else v in
              if (0 <? f) && (2 ^ 63 <? v) then None else Some (v, rest)
  end.

(** The loop over the terms; every term consumes a byte, so [fuel] at least the
    length never runs out. *)
Fixpoint parse_terms (fuel : nat) (d : Z) (s : string) : option Z :=
  match s, fuel with
  | "", _ => Some d
  | _, O => None
  | _, S n =>
      '(v, rest) ← parse_term s;
      let d := (d + v) mod 2 ^ 64 in
      if 2 ^ 63 <? d then None else parse_terms n d rest
  end.

Definition ParseDuration (s : string) : option Z :=
  let '(neg, s) := match s with
                   | String c r => if Ascii.eqb c "-" then (true, r) else if Ascii.eqb c "+" then (false, r) else (false, s)
                   | "" => (false, "")
                   end in
  if String.eqb s "0" then Some 0
  else if String.eqb s "" then None
  else
    d ← parse_terms (String.length s) 0 s;
    if neg then Some (wrap64 (- d))
    else if 2 ^ 63 - 1 <? d then None else Some d.

(** ** Facts *)

Lemma parse_terms_range fuel d s n : 0 <= d <= 2 ^ 63 -> parse_terms fuel d s = Some n -> 0 <= n <= 2 ^ 63.
Proof.
  revert d s. induction fuel as [|fuel IH]; intros d s Hd; destruct s as [|c s]; cbn [parse_terms];
    try done; try (by intros [= <-]).
  destruct (parse_term _) as [[v rest]|]; [| done]. cbn [mbind option_bind].
  destruct (Z.ltb_spec (2 ^ 63) ((d + v) mod 2 ^ 64)); [done |]. apply IH.
  pose proof (Z.mod_pos_bound (d + v) (2 ^ 64) ltac:(lia)). lia.
Qed.

Lemma ParseDuration_range s d : ParseDuration s = Some d -> in_int64 d.
Proof.
  assert (in_int64 0) as H0 by (unfold in_int64, int64_min, int64_max; lia).
  unfold ParseDuration. destruct (match s with "" => _ | String c r => _ end) as [neg s'].
  destruct (String.eqb s' "0"); [by intros [= <-] |]. destruct (String.eqb s' ""); [done |].
  destruct (parse_terms _ 0 s') as [n|] eqn:E; [| done]. cbn [mbind option_bind].
  apply parse_terms_range in E; [| lia]. destruct neg; [intros [= <-]; apply wrap64_range |].
  destruct (Z.ltb_spec (2 ^ 63 - 1) n); [done |]. intros [= <-]. unfold in_int64, int64_min, int64_max. lia.
Qed.

(** Every term consumes a byte: the rest of the input is shorter. *)
Lemma leadingInt_length x s v r : leadingInt x s = Some (v, r) -> (String.length r <= String.length s)%nat.
Proof.
  revert x. induction s as [|c s IH]; intros x; cbn [leadingInt]; [by intros [= _ <-] |].
  destruct (is_digit c); cbn [negb]; [| by intros [= _ <-]].
  repeat (case_match; try done). intros E%IH. cbn. lia.
Qed.

Lemma leadingFraction_length x scale o s : (String.length (snd (leadingFraction x scale o s)) <= String.length s)%nat.
Proof.
  revert x scale o. induction s as [|c s IH]; intros x scale o; cbn [leadingFraction]; [done |].
  destruct (is_digit c); cbn [negb]; [| done].
  repeat (case_match; cbn); (etransitivity; [apply IH | lia]).
Qed.

Lemma take_unit_length s : (String.length (fst (take_unit s)) + String.length (snd (take_unit s)) = String.length s)%nat.
Proof.
  induction s as [|c s IH]; [done |]. cbn [take_unit]. destruct (_ || _); [done |].
  destruct (take_unit s) as [u r]. cbn in *. lia.
Qed.

Lemma parse_term_shorter s v rest : parse_term s = Some (v, rest) -> (String.length rest < String.length s)%nat.
Proof.
  destruct s as [|c s]; [done |]. unfold parse_term. destruct (negb _); [done |].
  destruct (leadingInt 0 (String c s)) as [[x s1]|] eqn:E1; [| done]. cbn [mbind option_bind].
  apply leadingInt_length in E1.
  destruct (match s1 with "" => _ | String c1 s1' => _ end) as [[[f scale] s2] post] eqn:E2.
  assert (String.length s2 <= String.length s1)%nat as H2.
  { destruct s1 as [|c1 s1']; [by simplify_eq |]. destruct (Ascii.eqb c1 "."); [| by simplify_eq].
    pose proof (leadingFraction_length 0 1 false s1') as Hl.
    destruct (leadingFraction 0 1 false s1') as [[? ?] r]. simplify_eq/=. lia. }
  destruct (_ && negb post); [done |]. pose proof (take_unit_length s2) as Hu.
  destruct (take_unit s2) as [u r]. cbn in Hu. destruct (String.eqb_spec u ""); [done |].
  destruct (unitMap u) as [unit|]; [| done]. cbn [mbind option_bind].
  destruct (_ <? x); [done |]. destruct (_ && _); [done |]. intros [= _ <-].
  destruct u; [done |]. cbn in *. lia.
Qed.

(** More fuel than the length changes nothing. *)
Lemma parse_terms_fuel n m d s :
  (String.length s <= n)%nat -> (String.length s <= m)%nat -> parse_terms n d s = parse_terms m d s.
Proof.
  revert m d s. induction n as [|n IH]; intros [|m] d s Hn Hm; destruct s as [|c s]; try done; cbn in Hn, Hm; try lia.
  cbn [parse_terms]. destruct (parse_term (String c s)) as [[v rest]|] eqn:E; [| done]. cbn [mbind option_bind].
  apply parse_term_shorter in E. cbn in E. destruct (_ <? _); [done |]. apply IH; lia.
Qed.
End Parse.

(** Exact rational fractions, rounded down. *)
Module TimeDemo.
Definition floor_fraction (f unit scale : Z) : Z := Z.max 0 (Z.min Hour (f * unit / scale)).
Lemma floor_range f unit scale : 0 <= floor_fraction f unit scale <= Hour.
Proof. unfold floor_fraction, Hour, Minute, Second, Millisecond, Nanosecond. lia. Qed.
#[export] Instance demo_float : GoFloat := {| fraction := floor_fraction; fraction_range := floor_range |}.
End TimeDemo.
End GoTime.

Example duration_examples :
  let d := @GoTime.ParseDuration GoTime.TimeDemo.demo_float in
  d "1h30m" = Some (90 * Minute) /\ d "-1.5s" = Some (- 1500 * Millisecond) /\ d "10" = None /\ d "0" = Some 0
  /\ d "2562047h47m16.854775807s" = Some int64_max /\ d "9223372036854775808ns" = None
  /\ d "9223372036854775808ns9223372036854775808ns" = Some 0.
Proof. by vm_compute. Qed.
