(* ===== verification/Base64.v ===== *)
(** * [encoding/base64], standard alphabet with padding

    As used for the bodies of stored responses ([encoding/json] encodes [[]byte]
    this way) and for WireGuard keys.  The decoder is Go's: line breaks are
    skipped, padding is required, trailing bits are not checked. *)

From S2P Require Import Prelude GoStrings GoText.
From Stdlib Require Import ZifyNat.

Module Base64.

Definition alphabet : string :=
  "ABCDEFGHIJKLMNOPQRSTUVWXYZabcdefghijklmnopqrstuvwxyz0123456789+/".

Definition enc_char (n : nat) : ascii := default "A"%char (String.get n alphabet).

Definition dec_char (c : ascii) : option nat :=
  if is_upper c then Some (code c - 65)%nat
  else if is_lower c then Some (code c - 71)%nat
  else if is_digit c then Some (code c + 4)%nat
  else if Ascii.eqb c "+" then Some 62%nat
  else if Ascii.eqb c "/" then Some 63%nat
  else None.

(** The four sextets of three bytes. *)
Definition sx1 (a : nat) : nat := (a / 4)%nat.
Definition sx2 (a b : nat) : nat := ((a mod 4) * 16 + b / 16)%nat.
Definition sx3 (b c : nat) : nat := ((b mod 16) * 4 + c / 64)%nat.
Definition sx4 (c : nat) : nat := (c mod 64)%nat.

Fixpoint EncodeToString (s : string) : string :=
  match s with
  | "" => ""
  | String a "" =>
      String (enc_char (sx1 (code a))) (String (enc_char (sx2 (code a) 0)) "==")
  | String a (String b "") =>
      String (enc_char (sx1 (code a))) (String (enc_char (sx2 (code a) (code b)))
        (String (enc_char (sx3 (code b) 0)) "="))
  | String a (String b (String c s')) =>
      String (enc_char (sx1 (code a))) (String (enc_char (sx2 (code a) (code b)))
        (String (enc_char (sx3 (code b) (code c))) (String (enc_char (sx4 (code c)))
          (EncodeToString s'))))
  end.

(** The bytes of sextets. *)
Definition by1 (p q : nat) : ascii := Ascii.ascii_of_nat (p * 4 + q / 16).
Definition by2 (q r : nat) : ascii := Ascii.ascii_of_nat ((q mod 16) * 16 + r / 4).
Definition by3 (r t : nat) : ascii := Ascii.ascii_of_nat ((r mod 4) * 64 + t).

Fixpoint decode_quads (s : string) : option string :=
  match s with
  | "" => Some ""
  | String w (String x (String y (String z s'))) =>
      match dec_char w, dec_char x with
      | Some p, Some q =>
          if Ascii.eqb y "=" then
            if Ascii.eqb z "=" && String.eqb s' "" then Some (String (by1 p q) "") else None
          else match dec_char y with
               | None => None
               | Some r =>
                   if Ascii.eqb z "=" then
                     if String.eqb s' "" then Some (String (by1 p q) (String (by2 q r) "")) else None
                   else match dec_char z with
                        | None => None
                        | Some t =>
                            match decode_quads s' with
                            | Some rest => Some (String (by1 p q) (String (by2 q r) (String (by3 r t) rest)))
                            | None => None
                            end
                        end
               end
      | _, _ => None
      end
  | _ => None
  end.

Fixpoint strip_newlines (s : string) : string :=
  match s with
  | "" => ""
  | String c s' =>
      if Nat.eqb (code c) 10 || Nat.eqb (code c) 13 then strip_newlines s'
      else String c (strip_newlines s')
  end.

Definition DecodeString (s : string) : option string := decode_quads (strip_newlines s).

(** ** Round trip *)

Lemma enc_dec n : (n < 64)%nat -> dec_char (enc_char n) = Some n.
Proof. intros H. do 64 (destruct n as [|n]; [reflexivity |]). lia. Qed.

Lemma enc_not_pad n : (n < 64)%nat -> Ascii.eqb (enc_char n) "=" = false.
Proof. intros H. do 64 (destruct n as [|n]; [reflexivity |]). lia. Qed.

Lemma enc_not_newline n :
  (n < 64)%nat -> Nat.eqb (code (enc_char n)) 10 || Nat.eqb (code (enc_char n)) 13 = false.
Proof. intros H. do 64 (destruct n as [|n]; [reflexivity |]). lia. Qed.

Lemma byte_of_code a n : n = code a -> Ascii.ascii_of_nat n = a.
Proof. intros ->. apply Ascii.ascii_nat_embedding. Qed.

#[local] Ltac Zify.zify_post_hook ::= Z.div_mod_to_equations.

Lemma code_lt c : (code c < 256)%nat.
Proof. apply Ascii.nat_ascii_bounded. Qed.

Lemma sx1_lt a : (sx1 (code a) < 64)%nat.
Proof. pose proof (code_lt a). unfold sx1. lia. Qed.

Lemma sx2_lt a n : (n < 256)%nat -> (sx2 a n < 64)%nat.
Proof. intros. unfold sx2. lia. Qed.

Lemma sx3_lt b n : (n < 256)%nat -> (sx3 b n < 64)%nat.
Proof. intros. unfold sx3. lia. Qed.

Lemma sx4_lt c : (sx4 c < 64)%nat.
Proof. unfold sx4. lia. Qed.

Lemma by1_ok a n : (n < 256)%nat -> by1 (sx1 (code a)) (sx2 (code a) n) = a.
Proof. intros. apply byte_of_code. unfold sx1, sx2. lia. Qed.

Lemma by2_ok a b n : (n < 256)%nat -> by2 (sx2 a (code b)) (sx3 (code b) n) = b.
Proof. intros. pose proof (code_lt b). apply byte_of_code. unfold sx2, sx3. lia. Qed.

Lemma by3_ok b c : by3 (sx3 b (code c)) (sx4 (code c)) = c.
Proof. pose proof (code_lt c). apply byte_of_code. unfold sx3, sx4. lia. Qed.

#[local] Hint Resolve code_lt sx1_lt sx2_lt sx3_lt sx4_lt : vpn.

(** Induction by groups of three bytes. *)
Lemma string_ind3 (P : string -> Prop) :
  P "" -> (forall a, P (String a "")) -> (forall a b, P (String a (String b ""))) ->
  (forall a b c s, P s -> P (String a (String b (String c s)))) -> forall s, P s.
Proof.
  intros H0 H1 H2 H3 s. assert (P s /\ forall a, P (String a s) /\ forall b, P (String b (String a s))) as [? _]; [| done].
  induction s as [|c s [IH IH']]; [by split; [| split] |].
  split; [by destruct (IH' c) |]. intros a. split; [by apply IH' |]. auto.
Qed.

Lemma strip_encode s : strip_newlines (EncodeToString s) = EncodeToString s.
Proof.
  induction s as [|a|a b|a b c s IH] using string_ind3; [done | ..];
    cbn [EncodeToString strip_newlines]; rewrite !enc_not_newline by auto with vpn lia; try done.
  by rewrite IH.
Qed.

Lemma decode_encode s : decode_quads (EncodeToString s) = Some s.
Proof.
  induction s as [|a|a b|a b c s IH] using string_ind3; [done | ..]; cbn [EncodeToString decode_quads];
    rewrite !enc_dec by auto with vpn lia; rewrite ?enc_not_pad by auto with vpn lia;
    cbn -[by1 by2 by3 sx1 sx2 sx3 sx4].
  - by rewrite by1_ok by lia.
  - rewrite by1_ok, by2_ok by auto with vpn lia. done.
  - rewrite IH, by1_ok, by2_ok, by3_ok by auto with vpn lia. done.
Qed.

Lemma DecodeString_EncodeToString s : DecodeString (EncodeToString s) = Some s.
Proof. unfold DecodeString. by rewrite strip_encode, decode_encode. Qed.

(** The text has no character outside the alphabet and the padding, and four
    characters for every three bytes begun. *)
Definition text_char (c : ascii) : bool :=
  is_upper c || is_lower c || is_digit c || Ascii.eqb c "+" || Ascii.eqb c "/" || Ascii.eqb c "=".

Lemma enc_text n : text_char (enc_char n) = true.
Proof. do 64 (destruct n as [|n]; [reflexivity |]). reflexivity. Qed.

Lemma EncodeToString_text s : string_forallb text_char (EncodeToString s) = true.
Proof.
  induction s as [|a|a b|a b c s IH] using string_ind3; [done | ..];
    cbn [EncodeToString string_forallb]; rewrite !enc_text; cbn; done.
Qed.

Lemma EncodeToString_ascii s : isASCII (EncodeToString s) = true.
Proof.
  unfold isASCII. apply (string_forallb_impl text_char); [| apply EncodeToString_text].
  intros c. by destruct c as [[] [] [] [] [] [] [] []].
Qed.

Lemma EncodeToString_length s :
  String.length (EncodeToString s) = (4 * ((String.length s + 2) / 3))%nat.
Proof.
  induction s as [|a|a b|a b c s IH] using string_ind3; [done | done | done |].
  cbn [EncodeToString String.length]. rewrite IH. lia.
Qed.
End Base64.
