(* ===== verification/Domain.v ===== *)
(** * Value types of [internal/domain] and the identifier tools

    Country codes, tunnel ids, health snapshots and tunnel-change events, with
    the derivation of tunnel ids from config basenames ([internal/tools/hmackey]).
    Error texts are kept where the program classifies errors by their text
    ([Public] details); the others are reduced to their constant part. *)

From S2P Require Import Prelude GoStrings.

(** ** Errors

    [Public d] is a [loginjector.PublicDetailsError] with details [d], [Ctx] an
    error of a cancelled or expired context, [Plain] any other error. *)
Inductive err : Type :=
| Public (details : string)
| Plain (what : string)
| Ctx.

#[export] Instance err_eq_dec : EqDecision err.
Proof. solve_decision. Defined.

(** ** Countries ([domain/country.go]) *)

Definition isASCIILetter (b : ascii) : bool := is_lower b || is_upper b.

Definition ParseCountry (s : string) : res err string :=
  match s with
  | String a (String b "") =>
      if isASCIILetter a && isASCIILetter b then Ok (string_map lower_byte s)
      else Err (Plain "not a two-letter country code")
  | _ => Err (Plain "not a two-letter country code")
  end.

(** A well-formed [Country]: empty, or two lower-case letters. *)
Definition country_ok (c : string) : bool :=
  match c with
  | "" => true
  | String a (String b "") => is_lower a && is_lower b
  | _ => false
  end.

Lemma lower_byte_letter a : isASCIILetter a = true -> is_lower (lower_byte a) = true.
Proof. destruct a as [[] [] [] [] [] [] [] []]; by vm_compute. Qed.

Lemma lower_byte_lower a : is_lower a = true -> lower_byte a = a.
Proof. destruct a as [[] [] [] [] [] [] [] []]; by vm_compute. Qed.

Lemma ParseCountry_Ok s c :
  ParseCountry s = Ok c -> country_ok c = true /\ c <> "" /\ c = string_map lower_byte s.
Proof.
  unfold ParseCountry. intros H. split_hyps. split; [| done].
  apply andb_true_iff in Heqb as [Ha Hb]. by rewrite !lower_byte_letter.
Qed.

(** Parsing a well-formed code gives it back. *)
Lemma ParseCountry_idem c : country_ok c = true -> c <> "" -> ParseCountry c = Ok c.
Proof.
  unfold country_ok, ParseCountry. intros H Hne. split_hyps.
  apply andb_true_iff in H as [Ha Hb]. unfold isASCIILetter.
  rewrite Ha, Hb. cbn. by rewrite !lower_byte_lower.
Qed.

(** ** Tunnel ids ([domain/tunnel.go]) *)

Definition is_hex_lower (c : ascii) : bool := is_digit c || between "a" "f" c.

(** The regular expression [^[0-9a-f]{64}$]. *)
Definition tunnelIDPattern (s : string) : bool :=
  Nat.eqb (String.length s) 64 && string_forallb is_hex_lower s.

Definition ParseTunnelID (s : string) : res err string :=
  if tunnelIDPattern s then Ok s
  else Err (Plain "tunnel id must be 64 lowercase hex characters").

(** ** Identifier derivation ([tools/hmackey/hmackey.go]) *)

Definition hex_digit (n : nat) : ascii :=
  if Nat.ltb n 10 then Ascii.ascii_of_nat (48 + n) else Ascii.ascii_of_nat (87 + n).

(** [hex.EncodeToString]. *)
Fixpoint EncodeToString (s : string) : string :=
  match s with
  | "" => ""
  | String c s' =>
      String (hex_digit (code c / 16)) (String (hex_digit (code c mod 16)) (EncodeToString s'))
  end.

(** HMAC-SHA256 of [crypto/hmac] and [crypto/sha256]: the digest is 32 bytes. *)
Class HmacSha256 := {
  hmac_sum : string -> string -> string;
  hmac_sum_length : forall key msg, String.length (hmac_sum key msg) = 32%nat
}.

Definition DeriveID `{HmacSha256} (key name : string) : string :=
  EncodeToString (hmac_sum key name).

Lemma hex_digit_hex n : (n < 16)%nat -> is_hex_lower (hex_digit n) = true.
Proof. intros H. do 16 (destruct n as [|n]; [done |]). lia. Qed.

Lemma code_bound c : (code c < 256)%nat.
Proof. apply Ascii.nat_ascii_bounded. Qed.

Lemma EncodeToString_hex s : string_forallb is_hex_lower (EncodeToString s) = true.
Proof.
  induction s as [|c s IH]; [done |]. cbn [EncodeToString string_forallb].
  pose proof (code_bound c).
  rewrite !hex_digit_hex, IH; [done | | apply Nat.Div0.div_lt_upper_bound; lia].
  apply Nat.mod_upper_bound; lia.
Qed.

Lemma hex_EncodeToString_length s :
  String.length (EncodeToString s) = (2 * String.length s)%nat.
Proof. induction s as [|c s IH]; [done |]. cbn [EncodeToString String.length]. lia. Qed.

Lemma DeriveID_pattern `{HmacSha256} key name : tunnelIDPattern (DeriveID key name) = true.
Proof.
  unfold tunnelIDPattern, DeriveID.
  rewrite EncodeToString_hex, hex_EncodeToString_length, hmac_sum_length. done.
Qed.

(** ** Health snapshots ([domain/tunnel.go]) *)

Record TunnelHealth := mkTunnelHealth {
  th_ID : string;
  th_LastHandshake : Z;
  th_Err : option err
}.

(** ** Tunnel-change events ([domain/tunnelevent.go]) *)

Inductive TunnelChangeSource := SourceStreaming | SourceOnDemand.

#[export] Instance source_eq_dec : EqDecision TunnelChangeSource.
Proof. solve_decision. Defined.

Record TunnelChangeEvent (Dialer : Type) := mkEvent {
  ev_Source : TunnelChangeSource;
  ev_Title : string;
  ev_Country : string;
  ev_Filename : string;
  ev_Dialer : option Dialer
}.
Arguments mkEvent {Dialer}.
Arguments ev_Source {Dialer}.
Arguments ev_Title {Dialer}.
Arguments ev_Country {Dialer}.
Arguments ev_Filename {Dialer}.
Arguments ev_Dialer {Dialer}.

(** Access-log summary of one request ([domain/domain.go]). *)
Record RequestSummary := mkSummary {
  rs_Method : string;
  rs_Target : string;
  rs_ClientAddr : string;
  rs_StatusCode : Z;
  rs_BytesIn : Z;
  rs_BytesOut : Z;
  rs_DurationMS : Z;
  rs_UpstreamError : string
}.
