(* ===== verification/Eligible.v ===== *)
(** * The set of tunnel configs ([internal/application/tunnelpool/eligible.go],
    [discover.go])

    [DiscoverConfigs] lists the config files of the tunnels directory; [newSet]
    builds the immutable view the streaming supervisor (country-filtered, keyed
    by basename) and the on-demand scheduler (complete, keyed by HMAC id) pick
    from.  The working directory ([os.Getwd]) and the random index of
    [RandomPath] are arguments. *)

From S2P Require Import Prelude GoStrings GoText Domain.
From Stdlib Require Import Sorted.

Module Eligible.

Definition countryFromBasename (basename : string) : string :=
  match SplitN basename "-" 3 with
  | [] => ""
  | p0 :: rest =>
      match ParseCountry p0 with
      | Ok cc => cc
      | Err _ =>
          match rest with
          | [] => ""
          | p1 :: _ => match ParseCountry p1 with Ok cc => cc | Err _ => "" end
          end
      end
  end.

Record entry := mkEntry {
  basename : string;
  country : string;
  path : string
}.

Record EligibleSet := mkSet {
  byKey : gmap string entry;
  order : list string
}.

Record CatalogEntry := mkCatalog {
  ce_ID : string;
  ce_Basename : string;
  ce_Country : string
}.

Definition Lookup (e : EligibleSet) (id : string) : option string := path <$> byKey e !! id.

Definition IsEligible (e : EligibleSet) (id : string) : bool := bool_decide (is_Some (byKey e !! id)).

Definition Len (e : EligibleSet) : nat := length (order e).

(** [idx] is the result of [rng.IntN(len(e.order))]; [None] is its panic on an
    empty set. *)
Definition RandomPath (e : EligibleSet) (idx : nat) : option string :=
  match order e !! idx with
  | Some key => Some (default "" (path <$> byKey e !! key))
  | None => None
  end.

(** A missing key would give the zero [entry]. *)
Definition zero_entry : entry := mkEntry "" "" "".

Definition Entries (e : EligibleSet) : list CatalogEntry :=
  (fun key => let ent := default zero_entry (byKey e !! key) in
              mkCatalog key (basename ent) (country ent)) <$> order e.

Section Construction.
Context `{GoUnicode} (cwd : option string).

(** The absolute path of one config. *)
Definition resolve (configDir cfgPath : string) : res err string :=
  let p := if IsAbs cfgPath then cfgPath else JoinPath configDir cfgPath in
  match Abs cwd p with
  | Some abs => Ok abs
  | None => Err (Plain "tunnelpool: resolve config path")
  end.

Definition basenameOf (p : string) : string := TrimSuffix (Base p) ".conf".

(** The loop of [newSet] over the configs. *)
Fixpoint newSet_loop (configDir : string) (allowAll : bool) (allowedSet : gset string)
    (keyFn : string -> string) (rawConfigs : list string)
    (m : gmap string entry) (o : list string) : res err (gmap string entry * list string) :=
  match rawConfigs with
  | [] => Ok (m, o)
  | cfgPath :: rest =>
      let? p := resolve configDir cfgPath in
      let b := basenameOf p in
      let cc := countryFromBasename b in
      if negb allowAll && negb (bool_decide (cc ∈ allowedSet)) then
        newSet_loop configDir allowAll allowedSet keyFn rest m o
      else
        let key := keyFn b in
        match m !! key with
        | Some _ => newSet_loop configDir allowAll allowedSet keyFn rest m o
        | None =>
            newSet_loop configDir allowAll allowedSet keyFn rest
              (<[key := mkEntry b cc p]> m) (o ++ [key])
        end
  end.

Definition newSet (rawConfigs : list string) (configDir : string) (allowed : list string)
    (keyFn : string -> string) : res err EligibleSet :=
  let allowAll := match allowed with [] => true | _ => false end in
  let allowedSet : gset string := list_to_set (ToLower <$> allowed) in
  let? mo := newSet_loop configDir allowAll allowedSet keyFn rawConfigs ∅ [] in
  let '(m, o) := mo in
  if bool_decide (m = ∅) then
    match allowed with
    | [] => Err (Public "config.vpnstream: no eligible tunnel configs discovered in tunnels/; ensure at least one wg-quick .conf file is present")
    | _ => Err (Public ("config.upstream: no eligible tunnel configs after country filter "
             +:+ Join allowed ", "
             +:+ "; check that allowed_countries matches at least one of the discovered configs in tunnels/"))
    end
  else Ok (mkSet m o).

Definition NewEligibleSet (rawConfigs : list string) (configDir : string) (allowed : list string)
    : res err EligibleSet :=
  newSet rawConfigs configDir allowed (fun b => b).

Definition NewFullSet `{HmacSha256} (rawConfigs : list string) (configDir hmacKey : string)
    : res err EligibleSet :=
  match rawConfigs with
  | [] => Err (Public "config.vpnstream: no tunnel configs discovered in tunnels/; drop at least one wg-quick .conf file there")
  | _ => newSet rawConfigs configDir [] (fun b => DeriveID hmacKey b)
  end.
End Construction.

(** ** Discovery ([discover.go])

    A directory entry is its name and whether it is a regular file; [ReadDir]
    fails with [ErrNotExist] or another error. *)

Record dirEntry := mkDirEntry { de_name : string; de_regular : bool }.
Inductive readDirError := ErrNotExist | ErrOther.

Definition wantEntry (e : dirEntry) : bool :=
  negb (HasPrefix (de_name e) ".") && de_regular e && HasSuffix (de_name e) ".conf".

Fixpoint discover_loop (cwd : option string) (tunnelsDir : string) (entries : list dirEntry)
    : res err (list string) :=
  match entries with
  | [] => Ok []
  | e :: rest =>
      if HasPrefix (de_name e) "." then discover_loop cwd tunnelsDir rest
      else if negb (de_regular e) then discover_loop cwd tunnelsDir rest
      else if negb (HasSuffix (de_name e) ".conf") then discover_loop cwd tunnelsDir rest
      else match Abs cwd (JoinPath tunnelsDir (de_name e)) with
           | None => Err (Plain "tunnelpool: resolve config path")
           | Some abs => let? ps := discover_loop cwd tunnelsDir rest in Ok (abs :: ps)
           end
  end.

Definition DiscoverConfigs (cwd : option string) (tunnelsDir : string)
    (readDir : readDirError + list dirEntry) : res err (list string) :=
  match readDir with
  | inl ErrNotExist =>
      Err (Public ("config.upstream: tunnels directory " +:+ tunnelsDir
                   +:+ " not found; create it and drop your wg-quick .conf files there"))
  | inl ErrOther => Err (Plain "tunnelpool: read tunnels dir")
  | inr entries => let? ps := discover_loop cwd tunnelsDir entries in Ok (sortStrings ps)
  end.

(** ** Lemmas *)

Lemma countryFromBasename_ok b : country_ok (countryFromBasename b) = true.
Proof.
  unfold countryFromBasename.
  split_matches;
    repeat match goal with H : ParseCountry _ = Ok _ |- _ => apply ParseCountry_Ok in H as (? & ? & ?) end;
    done.
Qed.

(** What a built set guarantees: the keys are listed once and in step with the
    map, and every entry is derived from one of the raw configs that passes the
    country filter. *)
Record set_wf `{GoUnicode} (cwd : option string) (configDir : string) (raw allowed : list string)
    (keyFn : string -> string) (e : EligibleSet) : Prop := {
  wf_nodup : NoDup (order e);
  wf_dom : forall k, k ∈ order e <-> is_Some (byKey e !! k);
  wf_entry : forall k ent, byKey e !! k = Some ent ->
    exists cfg, cfg ∈ raw /\ resolve cwd configDir cfg = Ok (path ent)
      /\ basename ent = basenameOf (path ent)
      /\ country ent = countryFromBasename (basename ent)
      /\ k = keyFn (basename ent)
      /\ (allowed = [] \/ country ent ∈ ToLower <$> allowed)
}.

Section Lemmas.
Context `{GoUnicode} (cwd : option string) (configDir : string) (allowed : list string)
        (keyFn : string -> string).

Definition all_of : bool := match allowed with [] => true | _ => false end.
Definition set_of : gset string := list_to_set (ToLower <$> allowed).

(** A config passes the filter. *)
Definition passes (p : string) : Prop :=
  allowed = [] \/ countryFromBasename (basenameOf p) ∈ ToLower <$> allowed.

Lemma filter_test p :
  negb all_of && negb (bool_decide (countryFromBasename (basenameOf p) ∈ set_of)) = false
  <-> passes p.
Proof.
  unfold passes, all_of, set_of. case_bool_decide as E; rewrite elem_of_list_to_set in E;
    destruct allowed; naive_solver.
Qed.

Definition loop := newSet_loop cwd configDir all_of set_of keyFn.

Lemma loop_wf raw0 raw m o m' o' :
  raw ⊆ raw0 ->
  set_wf cwd configDir raw0 allowed keyFn (mkSet m o) ->
  loop raw m o = Ok (m', o') ->
  set_wf cwd configDir raw0 allowed keyFn (mkSet m' o').
Proof.
  unfold loop. revert m o.
  induction raw as [|cfg raw IH]; intros m o Hsub Hwf Hl; cbn [newSet_loop] in Hl; simplify_eq; [done |].
  destruct (resolve cwd configDir cfg) as [|p] eqn:Hr; [done |].
  assert (raw ⊆ raw0) by set_solver.
  destruct (negb all_of && _) eqn:Hf; [eauto |].
  destruct (m !! keyFn (basenameOf p)) eqn:Hk; [eauto |].
  refine (IH _ _ _ _ Hl); [done |]. destruct Hwf as [Hnd Hd He]. cbn in *. split; cbn.
  - apply NoDup_app. split; [done |]. split; [| apply NoDup_singleton].
    intros k Hko ->%list_elem_of_singleton. apply Hd in Hko as [? ?]. congruence.
  - intros k. rewrite elem_of_app, list_elem_of_singleton, Hd.
    destruct (decide (keyFn (basenameOf p) = k)) as [<-|E].
    + rewrite lookup_insert_eq. naive_solver.
    + rewrite lookup_insert_ne by done. naive_solver.
  - intros k ent. rewrite lookup_insert_Some. intros [[<- <-]|[_ ?]]; [| eauto].
    exists cfg. split_and!; [set_solver | done.. | by apply filter_test].
Qed.

(** Entries already present keep their value. *)
Lemma loop_mono raw m o m' o' k ent :
  loop raw m o = Ok (m', o') -> m !! k = Some ent -> m' !! k = Some ent.
Proof.
  unfold loop. revert m o.
  induction raw as [|cfg raw IH]; intros m o Hl Hk; cbn [newSet_loop] in Hl; simplify_eq; [done |].
  split_hyps; eauto. eapply IH; [done |]. rewrite lookup_insert_ne; [done | congruence].
Qed.

(** Every config that passes the filter is reachable through its key. *)
Lemma loop_complete raw m o m' o' cfg p :
  loop raw m o = Ok (m', o') -> cfg ∈ raw -> resolve cwd configDir cfg = Ok p -> passes p ->
  is_Some (m' !! keyFn (basenameOf p)).
Proof.
  unfold loop. revert m o.
  induction raw as [|cfg0 raw IH]; intros m o Hl Hin Hr Hp; [set_solver |].
  apply elem_of_cons in Hin as [->|Hin].
  - cbn [newSet_loop] in Hl. rewrite Hr in Hl. apply filter_test in Hp. rewrite Hp in Hl.
    destruct (m !! keyFn (basenameOf p)) eqn:Hk;
      eexists; eapply loop_mono; unfold loop; eauto. apply lookup_insert_eq.
  - cbn [newSet_loop] in Hl. split_hyps; eauto.
Qed.

Lemma loop_ok raw m o :
  (forall cfg, cfg ∈ raw -> is_ok (resolve cwd configDir cfg) = true) ->
  exists m' o', loop raw m o = Ok (m', o').
Proof.
  unfold loop. revert m o. induction raw as [|cfg raw IH]; intros m o Hok; cbn [newSet_loop]; [eauto |].
  pose proof (Hok cfg ltac:(set_solver)) as Hc. destruct (resolve cwd configDir cfg); [done |].
  repeat case_match; apply IH; set_solver.
Qed.

Lemma set_wf_empty raw : set_wf cwd configDir raw allowed keyFn (mkSet ∅ []).
Proof.
  split; cbn; [constructor | | ].
  - intros k. rewrite lookup_empty, elem_of_nil, is_Some_alt. done.
  - intros k ent. by rewrite lookup_empty.
Qed.

Lemma newSet_inv raw e :
  newSet cwd raw configDir allowed keyFn = Ok e ->
  loop raw ∅ [] = Ok (byKey e, order e) /\ byKey e <> ∅.
Proof.
  unfold newSet. fold all_of set_of. change (newSet_loop cwd configDir all_of set_of keyFn) with loop.
  intros He. destruct (loop raw ∅ []) as [|[m o]]; [done |].
  case_bool_decide; [by destruct allowed |]. by simplify_eq/=.
Qed.

Lemma newSet_wf raw e :
  newSet cwd raw configDir allowed keyFn = Ok e ->
  set_wf cwd configDir raw allowed keyFn e /\ order e <> [].
Proof.
  intros [Hl Hne]%newSet_inv.
  pose proof (loop_wf raw raw _ _ _ _ ltac:(done) (set_wf_empty raw) Hl) as Hwf.
  destruct e as [m ord]; cbn in *. split; [done |]. intros ->. destruct Hne. apply map_empty. intros k.
  destruct (m !! k) eqn:E; [| done]. assert (k ∈ @nil string) as Hk.
  { apply (wf_dom _ _ _ _ _ _ Hwf). cbn. eauto. }
  by apply elem_of_nil in Hk.
Qed.

Lemma newSet_complete raw e cfg p :
  newSet cwd raw configDir allowed keyFn = Ok e ->
  cfg ∈ raw -> resolve cwd configDir cfg = Ok p -> passes p ->
  is_Some (byKey e !! keyFn (basenameOf p)).
Proof. intros [Hl _]%newSet_inv. by eapply loop_complete. Qed.
End Lemmas.

Lemma discover_loop_spec cwd dir entries ps :
  discover_loop cwd dir entries = Ok ps ->
  (fun e => Abs cwd (JoinPath dir (de_name e))) <$> filter (fun e => wantEntry e = true) entries
  = Some <$> ps.
Proof.
  revert ps. induction entries as [|e entries IH]; intros ps; cbn [discover_loop]; [by intros [= <-] |].
  assert (wantEntry e = negb (HasPrefix (de_name e) ".") && de_regular e
    && HasSuffix (de_name e) ".conf") as Hw by done.
  destruct (HasPrefix (de_name e) "."), (de_regular e), (HasSuffix (de_name e) ".conf"); cbn [negb andb] in *;
    first [rewrite filter_cons_False by congruence; apply IH | rewrite filter_cons_True by done].
  destruct (Abs cwd _) as [p|] eqn:Hp; [| done].
  destruct (discover_loop cwd dir entries) as [|ps'] eqn:Hl; [done |]. intros [= <-]. cbn.
  rewrite Hp. f_equal. by apply IH.
Qed.

(** ** Theorems *)

(** A built set is well formed: its keys are distinct and listed in step with
    the map, it is not empty, and every entry is the resolution of a discovered
    config under the key of its basename, of an allowed country. *)
Theorem eligible_set_wf `{GoUnicode} cwd raw dir allowed keyFn e :
  newSet cwd raw dir allowed keyFn = Ok e ->
  set_wf cwd dir raw allowed keyFn e /\ order e <> [].
Proof. apply newSet_wf. Qed.

(** The on-demand set is complete and its keys are tunnel ids: every config
    is found under the HMAC id of its basename, every key parses as a tunnel id and
    is derived from the basename of its path, and the empty key is not in the set
    (the scheduler uses the empty zone id for none). *)
Theorem full_set_ids `{GoUnicode} `{HmacSha256} cwd raw dir key e :
  NewFullSet cwd raw dir key = Ok e ->
  (forall cfg p, cfg ∈ raw -> resolve cwd dir cfg = Ok p ->
     IsEligible e (DeriveID key (basenameOf p)) = true)
  /\ (forall id p, Lookup e id = Some p ->
     ParseTunnelID id = Ok id /\ id = DeriveID key (basenameOf p))
  /\ Lookup e "" = None.
Proof.
  unfold NewFullSet. intros He. destruct raw as [|r raw]; [done |].
  set (kf := fun b => DeriveID key b) in *.
  destruct (newSet_wf _ _ _ _ _ _ He) as [[_ _ Hent] _].
  assert (forall id p, Lookup e id = Some p -> ParseTunnelID id = Ok id /\ id = DeriveID key (basenameOf p)) as Hids.
  { intros id p. unfold Lookup. destruct (byKey e !! id) as [ent|] eqn:E; [| done]. intros [= <-].
    destruct (Hent _ _ E) as (_ & _ & _ & Hb & _ & Hk & _). unfold kf in Hk. rewrite <- Hb. subst id.
    unfold ParseTunnelID. by rewrite DeriveID_pattern. }
  split_and!; [| done |].
  - intros cfg p Hin Hr. apply bool_decide_eq_true.
    eapply (newSet_complete _ _ _ kf); try done. by left.
  - destruct (Lookup e "") as [p|] eqn:E; [| done]. destruct (Hids _ _ E) as [Hp _]. done.
Qed.

(** The country filter: when every path resolves, building the set fails
    exactly when no config is of an allowed country; otherwise each config of an
    allowed country is in the set. *)
Theorem country_filter_exact `{GoUnicode} cwd raw dir allowed :
  (forall cfg, cfg ∈ raw -> is_ok (resolve cwd dir cfg) = true) ->
  match NewEligibleSet cwd raw dir allowed with
  | Err _ => forall cfg p, cfg ∈ raw -> resolve cwd dir cfg = Ok p -> ~ passes allowed p
  | Ok e => forall cfg p, cfg ∈ raw -> resolve cwd dir cfg = Ok p ->
      (passes allowed p -> IsEligible e (basenameOf p) = true)
  end.
Proof.
  intros Hok. unfold NewEligibleSet. destruct (newSet cwd raw dir allowed _) as [er|e] eqn:He.
  - intros cfg p Hin Hr Hp. unfold newSet in He. fold (all_of allowed) (set_of allowed) in He.
    destruct (loop_ok cwd dir allowed (fun b => b) raw ∅ [] Hok) as (m & o & Hl).
    unfold loop in Hl. rewrite Hl in He. case_bool_decide as Hm; [| done].
    destruct (loop_complete _ _ _ _ _ _ _ _ _ _ _ Hl Hin Hr Hp) as [ent Hent].
    by rewrite Hm, lookup_empty in Hent.
  - intros cfg p Hin Hr Hp. apply bool_decide_eq_true.
    by eapply (newSet_complete _ _ _ (fun b => b)).
Qed.

(** The random pick of the streaming supervisor never fails on a built set
    and returns the path of one of its entries. *)
Theorem random_path_member `{GoUnicode} cwd raw dir allowed e (idx : nat) :
  NewEligibleSet cwd raw dir allowed = Ok e -> (idx < Len e)%nat ->
  exists key p, RandomPath e idx = Some p /\ order e !! idx = Some key /\ Lookup e key = Some p
    /\ passes allowed p.
Proof.
  intros He Hi. destruct (newSet_wf _ _ _ _ _ _ He) as [[_ Hdom Hent] _].
  apply lookup_lt_is_Some in Hi as [key Hk]. unfold RandomPath, Lookup. rewrite Hk.
  assert (is_Some (byKey e !! key)) as [ent E] by (apply Hdom, list_elem_of_lookup; eauto).
  exists key, (path ent). rewrite E. split_and!; try done.
  destruct (Hent _ _ E) as (_ & _ & _ & Hb & Hc & _ & Hp). unfold passes. by rewrite <- Hb, <- Hc.
Qed.

(** Discovery returns the paths of exactly the regular, non-hidden [.conf]
    entries of the directory, each once, in sorted order. *)
Theorem discover_configs_spec cwd dir entries ps :
  DiscoverConfigs cwd dir (inr entries) = Ok ps ->
  Sorted string_le ps
  /\ Some <$> ps ≡ₚ (fun e => Abs cwd (JoinPath dir (de_name e)))
                     <$> filter (fun e => wantEntry e = true) entries.
Proof.
  cbn. destruct (discover_loop cwd dir entries) as [|ps'] eqn:Hl; [done |]. intros [= <-].
  split; [apply sortStrings_Sorted |]. rewrite (discover_loop_spec _ _ _ _ Hl).
  by rewrite sortStrings_perm.
Qed.

(** ** The theorems on a directory of two configs *)

#[local] Instance demo_unicode : GoUnicode := {| unicode_lower := fun s => s |}.
#[local] Instance demo_hmac : HmacSha256.
Proof.
  refine {| hmac_sum := fun _ m => slice_to (m +:+ "................................") 32 |}.
  intros _ m. unfold slice_to.
  assert (forall n s, (n <= String.length s)%nat -> String.length (String.substring 0 n s) = n) as H.
  { induction n as [|n IH]; intros s Hn; [by destruct s |].
    destruct s as [|c s]; cbn in *; [lia |]. f_equal. apply IH. lia. }
  apply H. rewrite append_length. cbn. lia.
Defined.

Definition demo_dir : list dirEntry :=
  [mkDirEntry "se-sto-wg-1.conf" true; mkDirEntry ".hidden.conf" true; mkDirEntry "sub" false;
   mkDirEntry "mullvad-de-ber-wg-2.conf" true].
Definition demo_raw : list string := ["/t/mullvad-de-ber-wg-2.conf"; "/t/se-sto-wg-1.conf"].
Definition demo_set : EligibleSet :=
  match NewEligibleSet None demo_raw "/t" ["DE"] with Ok e => e | Err _ => mkSet ∅ [] end.
Definition demo_full : EligibleSet :=
  match NewFullSet None demo_raw "/t" "k" with Ok e => e | Err _ => mkSet ∅ [] end.

Lemma eligible_set_wf_witness :
  set_wf None "/t" demo_raw ["DE"] (fun b => b) demo_set /\ order demo_set <> [].
Proof. apply (eligible_set_wf None demo_raw "/t" ["DE"]). vm_compute. reflexivity. Defined.

Lemma full_set_ids_witness : Lookup demo_full "" = None.
Proof.
  refine (proj2 (proj2 (full_set_ids None demo_raw "/t" "k" demo_full _))). vm_compute. reflexivity.
Defined.

Lemma country_filter_exact_witness :
  match NewEligibleSet None demo_raw "/t" ["fr"] with
  | Err _ => forall cfg p, cfg ∈ demo_raw -> resolve None "/t" cfg = Ok p -> ~ passes ["fr"] p
  | Ok _ => False
  end.
Proof.
  apply (country_filter_exact None demo_raw "/t" ["fr"]). intros cfg Hin.
  repeat (apply elem_of_cons in Hin as [->|Hin]; [vm_compute; reflexivity |]).
  by apply elem_of_nil in Hin.
Defined.

Lemma random_path_member_witness :
  exists key p, RandomPath demo_set 0 = Some p /\ order demo_set !! 0%nat = Some key
    /\ Lookup demo_set key = Some p /\ passes ["DE"] p.
Proof.
  apply (random_path_member None demo_raw "/t" ["DE"] demo_set 0); vm_compute; [reflexivity | lia].
Defined.

Lemma discover_configs_spec_witness : Sorted string_le demo_raw.
Proof.
  refine (proj1 (discover_configs_spec None "/t" demo_dir demo_raw _)). vm_compute. reflexivity.
Defined.
End Eligible.
