(* ===== verification/Scheduler.v ===== *)
(** * The on-demand scheduler's Run loop
    ([internal/application/tunnelpool/scheduler.go])

    [Run] owns at most one WireGuard device, time-multiplexed across zones.  Its
    local variables are the record [loopState]; each closure of [Run] is a
    function on it and each [select] case a handler, executed at one reading
    [now] of the clock.  A timer channel is [None] (nil channel) or [Some t]
    (armed, ready from time [t] on).  What the loop does to the outside (replies
    on reply channels, device builds and closes, notifications) is appended to
    [effects], oldest first; log lines are not modelled.  A reply channel is
    identified by a number, and the device builder's answer is an argument of
    the handler that calls it. *)

From S2P Require Import Prelude GoStrings Domain Eligible.

Module Scheduler.

Definition PrefixUnknownZone : string := "unknown_zone:".
Definition PrefixZoneBringUpFailure : string := "zone_bring_up_failure:".

(** A Route call as enqueued to the loop. *)
Record routeRequest := mkReq {
  tunnelID : string;
  configPath : string;
  replyCh : nat
}.

#[export] Instance routeRequest_eq_dec : EqDecision routeRequest.
Proof. solve_decision. Defined.

(** [SchedulerOptions] as kept by the scheduler. *)
Record options := mkOptions {
  eligible : Eligible.EligibleSet;
  settleDelay : Z;
  grace : Z;
  idleTTL : Z
}.

(** The checks of [NewOnDemandScheduler]; [false] is a panic. *)
Definition NewOnDemandScheduler_ok (o : options) (configDir : string) : bool :=
  negb (settleDelay o <=? 0) && negb (grace o <=? 0) && negb (idleTTL o <=? 0)
  && negb (String.eqb configDir "").

Definition schedulerChanBuf : nat := 256.

Fixpoint removeFIFO (ss : list string) (v : string) : list string :=
  match ss with
  | [] => []
  | s :: ss' => if String.eqb s v then ss' else s :: removeFIFO ss' v
  end.

Section Loop.
Context {Device Resolver Reporter : Type}.
(** The type assertions [d.(Resolver)] and [d.(HealthReporter)]. *)
Context (asResolver : Device -> option Resolver) (asReporter : Device -> option Reporter).

Inductive routeReply :=
| Granted (dialer : Device) (resolver : option Resolver)
| Failed (e : err).

Inductive effect :=
| EReply (ch : nat) (r : routeReply)
| EBuild (t : Z) (path : string) (d : option Device)
| EClose (t : Z) (d : Device)
| ENotify (ev : TunnelChangeEvent Device).

Record loopState := mkLoop {
  currentZone : string;
  currentDevice : option Device;
  currentResolver : option Resolver;
  activeJobs : Z;
  pending : gmap string (list routeRequest);
  pendingFIFO : list string;
  graceTimer : option Z;
  idleTimer : option Z;
  settling : bool;
  settleZone : string;
  settleConfigPath : string;
  settleBatch : list routeRequest;
  settleTimer : option Z;
  snapID : string;
  snapReporter : option Reporter;
  effects : list effect
}.

Definition init : loopState :=
  mkLoop "" None None 0 ∅ [] None None false "" "" [] None "" None [].

(** ** Assignments to the loop variables *)

Definition set_current (z : string) (d : option Device) (r : option Resolver) (l : loopState) :=
  mkLoop z d r (activeJobs l) (pending l) (pendingFIFO l) (graceTimer l) (idleTimer l)
    (settling l) (settleZone l) (settleConfigPath l) (settleBatch l) (settleTimer l)
    (snapID l) (snapReporter l) (effects l).

Definition set_active (n : Z) (l : loopState) :=
  mkLoop (currentZone l) (currentDevice l) (currentResolver l) n (pending l) (pendingFIFO l)
    (graceTimer l) (idleTimer l) (settling l) (settleZone l) (settleConfigPath l)
    (settleBatch l) (settleTimer l) (snapID l) (snapReporter l) (effects l).

Definition set_pending (p : gmap string (list routeRequest)) (f : list string) (l : loopState) :=
  mkLoop (currentZone l) (currentDevice l) (currentResolver l) (activeJobs l) p f
    (graceTimer l) (idleTimer l) (settling l) (settleZone l) (settleConfigPath l)
    (settleBatch l) (settleTimer l) (snapID l) (snapReporter l) (effects l).

Definition set_timers (g i : option Z) (l : loopState) :=
  mkLoop (currentZone l) (currentDevice l) (currentResolver l) (activeJobs l) (pending l)
    (pendingFIFO l) g i (settling l) (settleZone l) (settleConfigPath l) (settleBatch l)
    (settleTimer l) (snapID l) (snapReporter l) (effects l).

Definition set_settle (s : bool) (z p : string) (b : list routeRequest) (t : option Z)
    (l : loopState) :=
  mkLoop (currentZone l) (currentDevice l) (currentResolver l) (activeJobs l) (pending l)
    (pendingFIFO l) (graceTimer l) (idleTimer l) s z p b t (snapID l) (snapReporter l) (effects l).

Definition setSnapshot (id : string) (rep : option Reporter) (l : loopState) :=
  mkLoop (currentZone l) (currentDevice l) (currentResolver l) (activeJobs l) (pending l)
    (pendingFIFO l) (graceTimer l) (idleTimer l) (settling l) (settleZone l)
    (settleConfigPath l) (settleBatch l) (settleTimer l) id rep (effects l).

Definition emit (es : list effect) (l : loopState) :=
  mkLoop (currentZone l) (currentDevice l) (currentResolver l) (activeJobs l) (pending l)
    (pendingFIFO l) (graceTimer l) (idleTimer l) (settling l) (settleZone l)
    (settleConfigPath l) (settleBatch l) (settleTimer l) (snapID l) (snapReporter l)
    (effects l ++ es).

(** ** The closures of Run *)

Definition grant (req : routeRequest) (d : Device) (res : option Resolver) (l : loopState) :=
  emit [EReply (replyCh req) (Granted d res)] (set_active (activeJobs l + 1) l).

Definition grantAll (reqs : list routeRequest) (d : Device) (res : option Resolver)
    (l : loopState) : loopState :=
  fold_left (fun l req => grant req d res l) reqs l.

Definition failAll (reqs : list routeRequest) (e : err) (l : loopState) : loopState :=
  fold_left (fun l req => emit [EReply (replyCh req) (Failed e)] l) reqs l.

Definition enqueuePending (req : routeRequest) (l : loopState) : loopState :=
  let fifo := match pending l !! tunnelID req with
              | Some _ => pendingFIFO l
              | None => pendingFIFO l ++ [tunnelID req]
              end in
  set_pending (<[tunnelID req := default [] (pending l !! tunnelID req) ++ [req]]> (pending l))
    fifo l.

Definition teardown (now : Z) (l : loopState) : loopState :=
  match currentDevice l with
  | None => l
  | Some d => emit [EClose now d] (setSnapshot "" None (set_current "" None None l))
  end.

(** [len(pending[z]) > 0]; an absent key reads as the nil slice. *)
Definition has_pending (p : gmap string (list routeRequest)) (z : string) : bool :=
  match p !! z with Some (_ :: _) => true | _ => false end.

Definition compactFIFO (l : loopState) : loopState :=
  set_pending (pending l) (filter (fun z => has_pending (pending l) z = true) (pendingFIFO l)) l.

(** The first zone of the queue that may be served next. *)
Definition next_zone (excludeZone : string) (p : gmap string (list routeRequest))
    (fifo : list string) : option string :=
  snd <$> list_find (fun z => negb (String.eqb z excludeZone) && has_pending p z) fifo.

Definition pickNextZone (excludeZone : string) (l0 : loopState)
    : string * list routeRequest * loopState :=
  let l := compactFIFO l0 in
  match next_zone excludeZone (pending l) (pendingFIFO l) with
  | Some z =>
      (z, default [] (pending l !! z),
       set_pending (delete z (pending l)) (removeFIFO (pendingFIFO l) z) l)
  | None => ("", [], l)
  end.

Definition hasCrossZonePending (l : loopState) : bool :=
  existsb (fun '(z, reqs) => negb (String.eqb z (currentZone l))
                             && match reqs with [] => false | _ => true end)
          (map_to_list (pending l)).

Definition beginSwitch (o : options) (now : Z) (tid path : string) (batch : list routeRequest)
    (l0 : loopState) : loopState :=
  let l := set_timers None None (teardown now l0) in
  set_settle true tid path batch (Some (now + settleDelay o)) l.

Definition startNextIfPending (o : options) (now : Z) (l0 : loopState) : loopState :=
  let '(tid, reqs, l) := pickNextZone "" l0 in
  if String.eqb tid "" then l
  else beginSwitch o now tid (default "" (Eligible.Lookup (eligible o) tid)) reqs l.

(** The notification of a successful switch. *)
Definition notifyChange (path : string) (d : Device) : effect :=
  let base := Base path in
  let cc := Eligible.countryFromBasename (TrimSuffix base ".conf") in
  let title := if String.eqb cc "" then "on-demand: " +:+ base else "on-demand: " +:+ cc in
  ENotify (mkEvent SourceOnDemand title cc base (Some d)).

(** [built] is the answer of [s.deviceBuilder]; [None] is an error. *)
Definition finishSwitch (o : options) (now : Z) (built : option Device) (l0 : loopState)
    : loopState :=
  let tid := settleZone l0 in
  let path := settleConfigPath l0 in
  let batch := settleBatch l0 in
  let l := set_settle false "" "" [] None l0 in
  let l := emit [EBuild now path built] l in
  match built with
  | None =>
      let buildErr := Public (PrefixZoneBringUpFailure +:+ " " +:+ tid
                              +:+ " device could not be started") in
      startNextIfPending o now (failAll batch buildErr l)
  | Some d =>
      let res := asResolver d in
      let l := set_current tid (Some d) res l in
      let l := setSnapshot tid (asReporter d) l in
      emit [notifyChange path d] (grantAll batch d res l)
  end.

(** ** The cases of the select *)

Definition onCtxDone (now : Z) (l0 : loopState) : loopState :=
  let l := if settling l0
           then set_settle (settling l0) (settleZone l0) (settleConfigPath l0) [] (settleTimer l0)
                  (failAll (settleBatch l0) Ctx l0)
           else l0 in
  let l := fold_left (fun l zr => failAll (snd zr) Ctx l) (map_to_list (pending l)) l in
  let l := set_pending ∅ (pendingFIFO l) l in
  teardown now l.

Definition onReq (o : options) (now : Z) (req : routeRequest) (l : loopState) : loopState :=
  if settling l then
    if String.eqb (tunnelID req) (settleZone l) then
      set_settle (settling l) (settleZone l) (settleConfigPath l) (settleBatch l ++ [req])
        (settleTimer l) l
    else enqueuePending req l
  else
    match currentDevice l with
    | Some d =>
        if String.eqb (currentZone l) (tunnelID req) then
          set_timers None None (grant req d (currentResolver l) l)
        else
          let l := enqueuePending req l in
          if (activeJobs l =? 0) && bool_decide (graceTimer l = None)
          then set_timers (Some (now + grace o)) None l
          else l
    | None =>
        let samePending := default [] (pending l !! tunnelID req) in
        let l := set_pending (delete (tunnelID req) (pending l))
                   (removeFIFO (pendingFIFO l) (tunnelID req)) l in
        beginSwitch o now (tunnelID req) (configPath req) (req :: samePending) l
    end.

Definition onRelease (o : options) (now : Z) (l0 : loopState) : loopState :=
  let l := if 0 <? activeJobs l0 then set_active (activeJobs l0 - 1) l0 else l0 in
  if (0 <? activeJobs l) || settling l then l
  else if hasCrossZonePending l then set_timers (Some (now + grace o)) None l
  else match currentDevice l with
       | Some _ => set_timers None (Some (now + idleTTL o)) l
       | None => l
       end.

Definition onGrace (o : options) (now : Z) (l0 : loopState) : loopState :=
  let l := set_timers None (idleTimer l0) l0 in
  let '(next, queued, l) := pickNextZone (currentZone l) l in
  if String.eqb next "" then
    match currentDevice l with
    | Some _ => set_timers (graceTimer l) (Some (now + idleTTL o)) l
    | None => l
    end
  else beginSwitch o now next (default "" (Eligible.Lookup (eligible o) next)) queued l.

Definition onIdle (now : Z) (l0 : loopState) : loopState :=
  let l := set_timers (graceTimer l0) None l0 in
  match currentDevice l with
  | Some _ => if activeJobs l =? 0 then teardown now l else l
  | None => l
  end.

(** One iteration of the loop: the event the select received. *)
Inductive event :=
| EvReq (req : routeRequest)
| EvSettle (built : option Device)
| EvRelease
| EvGrace
| EvIdle.

(** A timer case is ready once its channel is armed and due. *)
Definition due (t : option Z) (now : Z) : bool :=
  match t with Some t => t <=? now | None => false end.

Definition ready (now : Z) (ev : event) (l : loopState) : bool :=
  match ev with
  | EvReq _ | EvRelease => true
  | EvSettle _ => due (settleTimer l) now
  | EvGrace => due (graceTimer l) now
  | EvIdle => due (idleTimer l) now
  end.

Definition handle (o : options) (now : Z) (ev : event) (l : loopState) : loopState :=
  match ev with
  | EvReq req => onReq o now req l
  | EvSettle built => finishSwitch o now built l
  | EvRelease => onRelease o now l
  | EvGrace => onGrace o now l
  | EvIdle => onIdle now l
  end.

(** [LiveHealth]: the snapshot, with the reporter's answer. *)
Definition LiveHealth (lastHandshake : Reporter -> res err Z) (l : loopState)
    : TunnelHealth * bool :=
  match snapReporter l with
  | None => (mkTunnelHealth "" time_zero None, false)
  | Some rep =>
      match lastHandshake rep with
      | Ok hs => (mkTunnelHealth (snapID l) hs None, true)
      | Err e => (mkTunnelHealth (snapID l) time_zero (Some e), true)
      end
  end.
End Loop.
End Scheduler.
