(* ===== verification/SchedulerInv.v ===== *)
(** * Invariant of the on-demand scheduler's loop

    [inv] collects what holds of the loop variables between two iterations of
    [Run]; every case of the select preserves it ([handle_inv]).  It contains the
    absence of stalls: whenever requests are queued, a switch is settling, or a
    device is live with jobs that will release it or with the grace timer armed. *)

From S2P Require Import Prelude GoStrings Domain Eligible Scheduler.
Import Scheduler.

Lemma removeFIFO_filter ss v : NoDup ss -> removeFIFO ss v = filter (fun s => s <> v) ss.
Proof.
  induction 1 as [|s ss Hs Hnd IH]; [done |]. cbn [removeFIFO]. rewrite filter_cons.
  destruct (String.eqb_spec s v) as [->|]; case_decide; try done; [| by rewrite IH].
  symmetry. apply list_filter_all, Forall_forall. intros x Hx ->. done.
Qed.

Section Inv.
Context {Device Resolver Reporter : Type}.
Context (asResolver : Device -> option Resolver) (asReporter : Device -> option Reporter).
Context (o : options).
Notation loopState := (@loopState Device Resolver Reporter).
Implicit Types (l : loopState) (req : routeRequest) (z : string) (now : Z).

(** Requests reach the loop through [Route], which looked their tunnel up. *)
Definition valid_req (req : routeRequest) : Prop :=
  Eligible.Lookup (eligible o) (tunnelID req) = Some (configPath req).

(** Requests of zone [z], all valid. *)
Definition batch_of (z : string) (rs : list routeRequest) : Prop :=
  rs <> [] /\ Forall (fun r => tunnelID r = z /\ valid_req r) rs.

(** The queue: one entry per zone with waiting requests, in arrival order. *)
Record queue_ok (p : gmap string (list routeRequest)) (fifo : list string) : Prop := {
  q_nodup : NoDup fifo;
  q_fifo : forall z, z ∈ fifo <-> is_Some (p !! z);
  q_batch : forall z rs, p !! z = Some rs -> batch_of z rs
}.

(** The resolver and the health snapshot follow the current device. *)
Record dev_ok (zone : string) (d : option Device) (res : option Resolver) (id : string)
    (rep : option Reporter) : Prop := {
  v_zone : d = None -> zone = "";
  v_res : res = d ≫= asResolver;
  v_rep : rep = d ≫= asReporter;
  v_id : id = zone
}.
Notation device_ok l := (dev_ok (currentZone l) (currentDevice l) (currentResolver l)
  (snapID l) (snapReporter l)).

Record inv (l : loopState) : Prop := {
  i_active : 0 <= activeJobs l;
  i_queue : queue_ok (pending l) (pendingFIFO l);
  i_dev : device_ok l;
  i_none : currentDevice l = None ->
    activeJobs l = 0 /\ graceTimer l = None /\ idleTimer l = None;
  i_some : forall d, currentDevice l = Some d ->
    settling l = false /\ pending l !! currentZone l = None;
  i_settle : settling l = true ->
    batch_of (settleZone l) (settleBatch l) /\ pending l !! settleZone l = None
    /\ is_Some (settleTimer l)
    /\ Eligible.Lookup (eligible o) (settleZone l) = Some (settleConfigPath l);
  i_unsettle : settling l = false -> settleBatch l = [] /\ settleTimer l = None;
  i_grace : forall t, graceTimer l = Some t ->
    activeJobs l = 0 /\ pending l <> ∅ /\ idleTimer l = None;
  i_idle : forall t, idleTimer l = Some t -> activeJobs l = 0 /\ pending l = ∅;
  i_live : forall d, currentDevice l = Some d -> activeJobs l = 0 ->
    is_Some (graceTimer l) \/ is_Some (idleTimer l);
  i_stall : pending l <> ∅ -> settling l = true \/ is_Some (currentDevice l)
}.

Lemma queue_ok_empty : queue_ok ∅ [].
Proof.
  split; [constructor | | by intros z rs; rewrite lookup_empty].
  intros z. rewrite lookup_empty, elem_of_nil. by split; [| intros [? ?]].
Qed.

Lemma init_inv : inv init.
Proof. split; cbn; try done. apply queue_ok_empty. Qed.

(** ** Normal forms of the closures *)

Lemma emit_emit es es' l : emit es (emit es' l) = emit (es' ++ es) l.
Proof. unfold emit. cbn. by rewrite app_assoc. Qed.

Lemma emit_nil l : emit [] l = l.
Proof. unfold emit. destruct l; cbn. by rewrite app_nil_r. Qed.

Lemma grantAll_eq reqs d res l :
  grantAll reqs d res l
  = emit ((fun r => EReply (replyCh r) (Granted d res)) <$> reqs)
      (set_active (activeJobs l + Z.of_nat (length reqs)) l).
Proof.
  unfold grantAll. revert l. induction reqs as [|r reqs IH]; intros l; cbn [fold_left fmap list_fmap length].
  - rewrite emit_nil, Z.add_0_r. by destruct l.
  - rewrite IH. unfold grant, set_active, emit; cbn. rewrite <- app_assoc. cbn.
    f_equal. lia.
Qed.

Lemma failAll_eq reqs e l :
  failAll reqs e l = emit ((fun r => EReply (replyCh r) (Failed e)) <$> reqs) l.
Proof.
  unfold failAll. revert l. induction reqs as [|r reqs IH]; intros l; cbn [fold_left fmap list_fmap].
  - by rewrite emit_nil.
  - rewrite IH, emit_emit. done.
Qed.

Lemma compactFIFO_id l : queue_ok (pending l) (pendingFIFO l) -> compactFIFO l = l.
Proof.
  intros Hi. unfold compactFIFO. rewrite list_filter_all; [by destruct l |].
  apply Forall_forall. intros z Hz. apply (q_fifo _ _ Hi) in Hz as [rs Hrs].
  unfold has_pending. rewrite Hrs. destruct (q_batch _ _ Hi _ _ Hrs) as [Hne _]. by destruct rs.
Qed.

Lemma has_pending_inv l z : queue_ok (pending l) (pendingFIFO l) -> has_pending (pending l) z = true <-> is_Some (pending l !! z).
Proof.
  intros Hi. unfold has_pending. destruct (pending l !! z) as [rs|] eqn:E; [| by split; [| intros [? ?]]].
  destruct (q_batch _ _ Hi _ _ E) as [Hne _]. destruct rs; [done |]. by split.
Qed.

(** The zone picked is the oldest of the queue that is not excluded. *)
Lemma next_zone_Some l ex z :
  queue_ok (pending l) (pendingFIFO l) -> next_zone ex (pending l) (pendingFIFO l) = Some z ->
  z <> ex /\ exists rs pre post, pending l !! z = Some rs
    /\ pendingFIFO l = pre ++ z :: post /\ Forall (fun x => x = ex) pre.
Proof.
  intros Hi H. unfold next_zone in H.
  destruct (list_find _ _) as [[i z']|] eqn:Hf; simplify_eq/=.
  apply list_find_Some in Hf as (Hl & Hp & Hmin).
  apply andb_True in Hp as [Hne Hhp]. rewrite Is_true_true in Hhp.
  apply has_pending_inv in Hhp as [rs Hrs]; [| done].
  split. { intros ->. by rewrite String.eqb_refl in Hne. }
  exists rs, (take i (pendingFIFO l)), (drop (S i) (pendingFIFO l)).
  split_and!; [done | by rewrite take_drop_middle |].
  apply Forall_lookup. intros j x Hj. apply lookup_take_Some in Hj as [Hj Hji].
  specialize (Hmin j x Hj Hji). destruct (String.eqb_spec x ex) as [|Hx]; [done |].
  destruct Hmin. apply andb_True. split; [done |]. apply Is_true_true, has_pending_inv; [done |].
  apply (q_fifo _ _ Hi), list_elem_of_lookup. eauto.
Qed.

Lemma next_zone_None l ex z :
  queue_ok (pending l) (pendingFIFO l) -> next_zone ex (pending l) (pendingFIFO l) = None -> is_Some (pending l !! z) -> z = ex.
Proof.
  intros Hi H Hz. unfold next_zone in H.
  destruct (list_find _ _) as [|] eqn:Hf; [done |]. apply list_find_None in Hf.
  rewrite Forall_forall in Hf. specialize (Hf z ltac:(by apply (q_fifo _ _ Hi))).
  apply has_pending_inv in Hz; [| done]. rewrite Hz, andb_true_r in Hf.
  destruct (String.eqb_spec z ex); [done |]. by destruct Hf.
Qed.

Lemma hasCross_spec l :
  queue_ok (pending l) (pendingFIFO l) -> hasCrossZonePending l = true <-> exists z, z <> currentZone l /\ is_Some (pending l !! z).
Proof.
  intros Hi. unfold hasCrossZonePending. rewrite existsb_exists. split.
  - intros ([z rs] & Hin & Ht). apply list_elem_of_In, elem_of_map_to_list in Hin.
    apply andb_true_iff in Ht as [Hz _]. exists z. split; [| by eauto].
    intros ->. by rewrite String.eqb_refl in Hz.
  - intros (z & Hz & rs & Hrs). exists (z, rs).
    rewrite <- list_elem_of_In, elem_of_map_to_list. split; [done |].
    destruct (q_batch _ _ Hi _ _ Hrs) as [Hne _]. destruct rs; [done |].
    rewrite andb_true_r. destruct (String.eqb_spec z (currentZone l)); done.
Qed.

(** ** The queue operations *)

Lemma queue_enqueue l req :
  queue_ok (pending l) (pendingFIFO l) -> valid_req req ->
  queue_ok (pending (enqueuePending req l)) (pendingFIFO (enqueuePending req l)).
Proof.
  intros [Hnd Hf Hb] Hv. unfold enqueuePending; cbn. split.
  - destruct (pending l !! tunnelID req) eqn:E; [done |]. apply NoDup_app.
    split_and!; [done | | apply NoDup_singleton].
    intros z Hz ->%list_elem_of_singleton. apply Hf in Hz as [? ?]. congruence.
  - intros z. destruct (decide (z = tunnelID req)) as [->|Hz].
    + rewrite lookup_insert_eq. split; [by eauto |]. intros _.
      destruct (pending l !! tunnelID req) eqn:E; [apply Hf; by eauto | set_solver].
    + rewrite lookup_insert_ne by done. rewrite <- Hf.
      destruct (pending l !! tunnelID req); [done |]. set_solver.
  - intros z rs. destruct (decide (z = tunnelID req)) as [->|Hz].
    + rewrite lookup_insert_eq. intros [= <-]. split; [by destruct (default _ _) |].
      apply Forall_app. split; [| by repeat constructor].
      destruct (pending l !! tunnelID req) as [rs|] eqn:E; cbn; [| done].
      by destruct (Hb _ _ E).
    + rewrite lookup_insert_ne by done. apply Hb.
Qed.

Lemma queue_delete p fifo z :
  queue_ok p fifo -> queue_ok (delete z p) (removeFIFO fifo z).
Proof.
  intros [Hnd Hf Hb]. rewrite removeFIFO_filter by done. split.
  - by apply NoDup_filter.
  - intros x. rewrite list_elem_of_filter, Hf.
    destruct (decide (x = z)) as [->|Hx].
    + rewrite lookup_delete_eq. split; [by intros [? _] | by intros [? ?]].
    + rewrite lookup_delete_ne by done. tauto.
  - intros x rs [_ Hx]%lookup_delete_Some. by apply Hb.
Qed.

Lemma enqueue_nonempty req l : pending (enqueuePending req l) <> ∅.
Proof. unfold enqueuePending; cbn. apply insert_non_empty. Qed.

Lemma enqueue_lookup_ne req l z :
  z <> tunnelID req -> pending (enqueuePending req l) !! z = pending l !! z.
Proof. intros. unfold enqueuePending; cbn. by rewrite lookup_insert_ne. Qed.

(** What [pickNextZone] returns, on a well formed queue. *)
Lemma pickNextZone_spec l ex :
  queue_ok (pending l) (pendingFIFO l) -> Eligible.Lookup (eligible o) "" = None ->
  (exists z rs, pickNextZone ex l
      = (z, rs, set_pending (delete z (pending l)) (removeFIFO (pendingFIFO l) z) l)
      /\ z <> "" /\ z <> ex /\ pending l !! z = Some rs
      /\ Eligible.Lookup (eligible o) z <> None)
  \/ (pickNextZone ex l = ("", [], l) /\ forall z, is_Some (pending l !! z) -> z = ex).
Proof.
  intros Hq He. unfold pickNextZone. rewrite (compactFIFO_id l Hq).
  destruct (next_zone ex _ _) as [z|] eqn:Hz.
  - left. destruct (next_zone_Some _ _ _ Hq Hz) as (Hne & rs & _ & _ & Hrs & _).
    exists z, rs. rewrite Hrs.
    assert (Eligible.Lookup (eligible o) z <> None) as Hl.
    { destruct (q_batch _ _ Hq _ _ Hrs) as [Hrne Hall]. destruct rs as [|r rs]; [done |].
      apply Forall_cons in Hall as [[<- Hv] _]. unfold valid_req in Hv. by rewrite Hv. }
    split_and!; try done. intros ->. done.
  - right. split; [done |]. intros z. by apply next_zone_None.
Qed.

(** ** Switches *)

Lemma teardown_none now l : currentDevice (teardown now l) = None.
Proof. unfold teardown. by destruct (currentDevice l) eqn:E. Qed.

Lemma teardown_dev now l : device_ok l -> device_ok (teardown now l).
Proof.
  unfold teardown. intros Hd. destruct (currentDevice l) eqn:E; cbn; [by split | by rewrite E].
Qed.

Lemma teardown_frame now l :
  activeJobs (teardown now l) = activeJobs l /\ pending (teardown now l) = pending l
  /\ pendingFIFO (teardown now l) = pendingFIFO l /\ graceTimer (teardown now l) = graceTimer l
  /\ idleTimer (teardown now l) = idleTimer l /\ settling (teardown now l) = settling l
  /\ settleBatch (teardown now l) = settleBatch l /\ settleTimer (teardown now l) = settleTimer l.
Proof. unfold teardown. by destruct (currentDevice l). Qed.

Lemma beginSwitch_inv now z path batch l :
  queue_ok (pending l) (pendingFIFO l) -> device_ok l -> activeJobs l = 0 ->
  batch_of z batch -> pending l !! z = None -> Eligible.Lookup (eligible o) z = Some path ->
  inv (beginSwitch o now z path batch l).
Proof.
  intros Hq Hd Ha Hb Hp He. pose proof (teardown_none now l) as Hn.
  pose proof (teardown_dev now l Hd) as Hd'. rewrite Hn in Hd'.
  destruct (teardown_frame now l) as (E1 & E2 & E3 & _).
  unfold beginSwitch.
  split; cbn; rewrite ?E1, ?E2, ?E3, ?Hn, ?Ha; try done; eauto.
Qed.

Context (Hempty : Eligible.Lookup (eligible o) "" = None).

(** Begin a switch to a zone taken off the queue. *)
Lemma pick_switch_inv now ex l :
  queue_ok (pending l) (pendingFIFO l) -> device_ok l -> activeJobs l = 0 ->
  let '(z, rs, l') := pickNextZone ex l in
  if String.eqb z "" then l' = l /\ forall z, is_Some (pending l !! z) -> z = ex
  else inv (beginSwitch o now z (default "" (Eligible.Lookup (eligible o) z)) rs l').
Proof.
  intros Hq Hd Ha.
  destruct (pickNextZone_spec l ex Hq Hempty) as [(z & rs & -> & Hz & _ & Hrs & He) | [-> Hall]].
  - destruct (String.eqb_spec z "") as [|_]; [done |].
    destruct (Eligible.Lookup (eligible o) z) as [path|] eqn:El; [| done].
    apply beginSwitch_inv; cbn; try done.
    + by apply queue_delete.
    + by apply (q_batch _ _ Hq).
    + apply lookup_delete_eq.
  - cbn. done.
Qed.

(** Requests that arrive while a switch is settling join its batch or the queue. *)
Lemma onReq_settling_inv now req l :
  inv l -> valid_req req -> settling l = true -> inv (onReq o now req l).
Proof.
  intros Hi Hv Hs. assert (currentDevice l = None) as Hn.
  { destruct (currentDevice l) eqn:E; [| done]. destruct (i_some _ Hi _ E). congruence. }
  destruct (i_settle _ Hi Hs) as (Hb & Hp & Ht & He). destruct (i_none _ Hi Hn) as (Ha & Hg & Hid).
  unfold onReq. rewrite Hs. destruct (String.eqb_spec (tunnelID req) (settleZone l)) as [Hz|Hz].
  - destruct Hi. split; cbn; rewrite ?Hs, ?Hn, ?Hg, ?Hid in *; try done; auto.
    intros _. split_and!; try done. destruct Hb as [Hbn Hbf]. split; [by destruct (settleBatch l) |].
    apply Forall_app. split; [done |]. by repeat constructor.
  - pose proof (queue_enqueue _ _ (i_queue _ Hi) Hv).
    pose proof (enqueue_lookup_ne req l (settleZone l) ltac:(congruence)).
    destruct Hi. split; cbn in *; rewrite ?Hs, ?Hn, ?Hg, ?Hid in *; try done; auto.
    intros _. split_and!; try done. congruence.
Qed.

(** A request for the live zone is granted, one for another zone is queued. *)
Lemma onReq_live_inv now req l d :
  inv l -> valid_req req -> currentDevice l = Some d -> inv (onReq o now req l).
Proof.
  intros Hi Hv Hd. destruct (i_some _ Hi _ Hd) as [Hs Hp].
  unfold onReq. rewrite Hs, Hd.
  destruct (String.eqb_spec (currentZone l) (tunnelID req)) as [Hz|Hz].
  - destruct Hi. split; cbn; rewrite ?Hs, ?Hd in *; try done; auto; lia.
  - pose proof (queue_enqueue _ _ (i_queue _ Hi) Hv). pose proof (enqueue_nonempty req l).
    pose proof (enqueue_lookup_ne req l (currentZone l) Hz).
    pose proof (i_idle _ Hi) as Hid. pose proof (i_live _ Hi _ Hd) as Hl.
    destruct (_ && _) eqn:Hc.
    + apply andb_true_iff in Hc as [Hc1%Z.eqb_eq Hc2%bool_decide_eq_true].
      destruct Hi. split; cbn in *; rewrite ?Hs, ?Hd in *; try done; auto.
      intros d' _. split; congruence.
    + assert (idleTimer l = None) as Hin.
      { destruct (idleTimer l) as [t|] eqn:E; [| done]. destruct (Hid t eq_refl) as [Ha _].
        cbn in Hc. rewrite Ha in Hc. cbn in Hc. apply bool_decide_eq_false in Hc.
        destruct (graceTimer l) as [t'|] eqn:Eg; [| done].
        destruct (i_grace _ Hi _ Eg) as (_ & _ & ?). congruence. }
      destruct Hi. split; cbn in *; rewrite ?Hs, ?Hd, ?Hin in *; try done; auto.
      * intros d' _. split; congruence.
      * intros t Ht. split_and!; try done. by eapply i_grace0.
Qed.

Lemma onReq_inv now req l : inv l -> valid_req req -> inv (onReq o now req l).
Proof.
  intros Hi Hv. destruct (settling l) eqn:Hs; [by apply onReq_settling_inv |].
  destruct (currentDevice l) as [d|] eqn:Hd; [by eapply onReq_live_inv |].
  unfold onReq. rewrite Hs, Hd. destruct (i_none _ Hi Hd) as (Ha & _ & _).
  apply beginSwitch_inv; cbn; try done.
  - apply queue_delete, Hi.
  - apply Hi.
  - split; [done |]. constructor; [done |].
    destruct (pending l !! tunnelID req) as [rs|] eqn:E; cbn; [| done].
    by destruct (q_batch _ _ (i_queue _ Hi) _ _ E).
  - apply lookup_delete_eq.
Qed.

Lemma onRelease_inv now l : inv l -> inv (onRelease o now l).
Proof.
  intros Hi. unfold onRelease.
  set (n := if 0 <? activeJobs l then activeJobs l - 1 else activeJobs l).
  replace (if 0 <? activeJobs l then set_active (activeJobs l - 1) l else l)
    with (set_active n l) by (unfold n; destruct (0 <? activeJobs l); [done | by destruct l]).
  assert (0 <= n <= activeJobs l /\ (activeJobs l = 0 -> n = 0)) as [Hn1 Hn2].
  { pose proof (i_active _ Hi). unfold n. destruct (Z.ltb_spec 0 (activeJobs l)); lia. }
  cbn [activeJobs set_active settling].
  destruct (Z.ltb_spec 0 n) as [Hpos|Hz]; cbn [orb].
  { destruct Hi. split; cbn; try done; try lia; auto.
    - intros ?. destruct i_none0; try done. lia.
    - intros t Ht. destruct (i_grace0 t Ht). lia.
    - intros t Ht. destruct (i_idle0 t Ht). lia. }
  assert (n = 0) as -> by lia.
  destruct (settling l) eqn:Hs.
  { destruct Hi. split; cbn; rewrite ?Hs in *; try done; auto.
    - intros ?. by destruct i_none0 as (? & ? & ?).
    - intros t Ht. by destruct (i_grace0 t Ht) as (? & ? & ?).
    - intros t Ht. by destruct (i_idle0 t Ht) as (? & ?).
    - intros d Hd. by destruct (i_some0 _ Hd). }
  destruct (hasCrossZonePending (set_active 0 l)) eqn:Hc.
  - apply hasCross_spec in Hc as (z & _ & [rs Hrs]); [| apply Hi].
    assert (pending l <> ∅) as Hne by (intros E; cbn in Hrs; by rewrite E, lookup_empty in Hrs).
    destruct (i_stall _ Hi Hne) as [|[d Hd]]; [congruence |].
    destruct Hi. split; cbn; rewrite ?Hs, ?Hd in *; try done; eauto.
  - destruct (currentDevice l) as [d|] eqn:Hd; cbn; rewrite Hd.
    + assert (pending l = ∅) as He.
      { apply map_empty. intros z. destruct (pending l !! z) as [rs|] eqn:E; [| done].
        assert (hasCrossZonePending (set_active 0 l) = true) as Ht; [| congruence].
        apply hasCross_spec; [apply Hi |]. exists z. cbn. split; [| by eauto].
        intros ->. destruct (i_some _ Hi _ Hd). congruence. }
      destruct Hi. split; cbn; rewrite ?Hs, ?Hd, ?He in *; try done; eauto.
    + destruct (i_none _ Hi Hd) as (Ha & Hg & Hid). rewrite <- Ha. by destruct l.
Qed.

(** When the grace timer fires another zone is always waiting. *)
Lemma onGrace_inv now t l : inv l -> graceTimer l = Some t -> inv (onGrace o now l).
Proof.
  intros Hi Hg. destruct (i_grace _ Hi _ Hg) as (Ha & Hp & Hid).
  assert (exists d, currentDevice l = Some d) as [d Hd].
  { destruct (currentDevice l) eqn:E; [by eauto |]. destruct (i_none _ Hi E) as (_ & ? & _). congruence. }
  unfold onGrace. cbn [currentZone set_timers].
  pose proof (pick_switch_inv now (currentZone l) (set_timers None (idleTimer l) l)
                (i_queue _ Hi) (i_dev _ Hi) Ha) as Hpk.
  destruct (pickNextZone _ _) as [[z rs] l']. destruct (String.eqb z ""); [| done].
  destruct Hpk as [_ Hall]. destruct Hp. apply map_empty. intros z'.
  destruct (pending l !! z') eqn:E; [| done].
  assert (z' = currentZone l) as -> by (apply Hall; by eauto).
  destruct (i_some _ Hi _ Hd). congruence.
Qed.

Lemma onIdle_inv now t l : inv l -> idleTimer l = Some t -> inv (onIdle now l).
Proof.
  intros Hi Ht. destruct (i_idle _ Hi _ Ht) as (Ha & Hp).
  assert (graceTimer l = None) as Hg.
  { destruct (graceTimer l) eqn:E; [| done]. by destruct (i_grace _ Hi _ E) as (_ & ? & _). }
  assert (exists d, currentDevice l = Some d) as [d Hd].
  { destruct (currentDevice l) eqn:E; [by eauto |]. destruct (i_none _ Hi E) as (_ & _ & ?). congruence. }
  unfold onIdle. cbn [currentDevice set_timers activeJobs]. rewrite Hd, Ha. cbn.
  unfold teardown. cbn. rewrite Hd. destruct (i_some _ Hi _ Hd) as [Hs _].
  destruct Hi. split; cbn; rewrite ?Hs, ?Hd, ?Hp, ?Hg in *; try done; auto.
Qed.

(** The settle timer fires: the built device serves the whole batch; when it
    cannot be built the batch fails and the next zone's switch begins. *)
Lemma finishSwitch_inv now t built l :
  inv l -> settleTimer l = Some t -> inv (finishSwitch asResolver asReporter o now built l).
Proof.
  intros Hi Ht. assert (settling l = true) as Hs.
  { destruct (settling l) eqn:E; [done |]. destruct (i_unsettle _ Hi E). congruence. }
  destruct (i_settle _ Hi Hs) as (Hb & Hp & _ & He).
  assert (currentDevice l = None) as Hd.
  { destruct (currentDevice l) eqn:E; [| done]. destruct (i_some _ Hi _ E). congruence. }
  destruct (i_none _ Hi Hd) as (Ha & Hg & Hid). unfold finishSwitch.
  destruct built as [d|].
  - rewrite grantAll_eq. cbn -[Z.of_nat].
    assert (0 < Z.of_nat (length (settleBatch l))) by (destruct Hb as [? _]; destruct (settleBatch l); cbn; [done | lia]).
    destruct Hi. split; cbn -[Z.of_nat]; rewrite ?Ha, ?Hg, ?Hid in *; try done; eauto; lia.
  - rewrite failAll_eq. unfold startNextIfPending.
    match goal with |- context [pickNextZone "" ?x] =>
      pose proof (pick_switch_inv now "" x (i_queue _ Hi) (i_dev _ Hi) Ha) as Hpk end.
    destruct (pickNextZone _ _) as [[z rs] l']. destruct (String.eqb z ""); [| done].
    destruct Hpk as [-> Hall].
    assert (pending l = ∅) as Hpe.
    { apply map_empty. intros z'. destruct (pending l !! z') as [rs'|] eqn:E; [| done].
      assert (z' = "") as -> by (apply Hall; cbn; by eauto).
      destruct (q_batch _ _ (i_queue _ Hi) _ _ E) as [Hrne Hall']. destruct rs' as [|r rs']; [done |].
      apply Forall_cons in Hall' as [[Hr Hv] _]. unfold valid_req in Hv. congruence. }
    destruct Hi. split; cbn; rewrite ?Hd, ?Hpe in *; try done; eauto.
Qed.

Definition valid_event (ev : @event Device) : Prop :=
  match ev with EvReq req => valid_req req | _ => True end.

Lemma handle_inv now ev l :
  inv l -> valid_event ev -> ready now ev l = true ->
  inv (handle asResolver asReporter o now ev l).
Proof.
  intros Hi Hv Hr. unfold ready, due in Hr. destruct ev; cbn [handle].
  - by apply onReq_inv.
  - destruct (settleTimer l) eqn:E; [| done]. by eapply finishSwitch_inv.
  - by apply onRelease_inv.
  - destruct (graceTimer l) eqn:E; [| done]. by eapply onGrace_inv.
  - destruct (idleTimer l) eqn:E; [| done]. by eapply onIdle_inv.
Qed.
End Inv.
