(* ===== verification/SchedulerSpec.v ===== *)
(** * Abstract specification of the on-demand scheduler

    What [Run] promises to its clients, without the queue, the timers and the
    batches: a lease on one device at a time.  The zone is free, about to be
    brought up, or live with a number of jobs; [astep] lists the transitions a
    correct scheduler may make, with the effects each one has.  [handle_refines]
    shows that every iteration of the loop is one of them. *)

From S2P Require Import Prelude GoStrings Domain Eligible Scheduler SchedulerInv.
Import Scheduler.

Section Spec.
Context {Device Resolver Reporter : Type}.
Context (asResolver : Device -> option Resolver) (asReporter : Device -> option Reporter).
Context (o : options).
Notation loopState := (@loopState Device Resolver Reporter).
Notation effect := (@effect Device Resolver).
Implicit Types (l : loopState) (req : routeRequest) (z : string) (now : Z).

Inductive phase :=
| Idle
| Settling (z : string) (deadline : Z)
| Live (z : string) (d : Device) (jobs : Z).

(** [wait]: requests without an answer; [log]: the effects so far, oldest first. *)
Record lease := mkLease { ph : phase; wait : list routeRequest; log : list effect }.

Definition granted (d : Device) (r : routeRequest) : effect :=
  EReply (replyCh r) (Granted d (asResolver d)).
Definition failed (e : err) (r : routeRequest) : effect := EReply (replyCh r) (Failed e).
Definition bringUpError (z : string) : err :=
  Public (PrefixZoneBringUpFailure +:+ " " +:+ z +:+ " device could not be started").

(** The requests of zone [z] among [w], and the others. *)
Definition zone_split (z : string) (w batch rest : list routeRequest) : Prop :=
  w ≡ₚ batch ++ rest /\ batch <> [] /\ Forall (fun r => tunnelID r = z) batch
  /\ Forall (fun r => tunnelID r <> z) rest.

Inductive astep (now : Z) : @event Device -> lease -> lease -> Prop :=
| a_start req w w' lg :
    w' ≡ₚ req :: w ->
    astep now (EvReq req) (mkLease Idle w lg)
      (mkLease (Settling (tunnelID req) (now + settleDelay o)) w' lg)
| a_join req z t w w' lg :
    w' ≡ₚ req :: w ->
    astep now (EvReq req) (mkLease (Settling z t) w lg) (mkLease (Settling z t) w' lg)
| a_grant req d n w lg :
    astep now (EvReq req) (mkLease (Live (tunnelID req) d n) w lg)
      (mkLease (Live (tunnelID req) d (n + 1)) w (lg ++ [granted d req]))
| a_queue req z d n w w' lg :
    z <> tunnelID req -> w' ≡ₚ req :: w ->
    astep now (EvReq req) (mkLease (Live z d n) w lg) (mkLease (Live z d n) w' lg)
| a_release z d n w lg :
    astep now EvRelease (mkLease (Live z d n) w lg) (mkLease (Live z d (Z.max 0 (n - 1))) w lg)
| a_spurious p w lg :
    (forall z d n, p <> Live z d n) ->
    astep now EvRelease (mkLease p w lg) (mkLease p w lg)
| a_switch z d z' w w' lg :
    z' <> z -> w ≡ₚ w' -> Exists (fun r => tunnelID r = z') w ->
    astep now EvGrace (mkLease (Live z d 0) w lg)
      (mkLease (Settling z' (now + settleDelay o)) w' (lg ++ [EClose now d]))
| a_idle z d lg :
    astep now EvIdle (mkLease (Live z d 0) [] lg) (mkLease Idle [] (lg ++ [EClose now d]))
| a_built z t path d batch w w' lg :
    t <= now -> Eligible.Lookup (eligible o) z = Some path -> zone_split z w batch w' ->
    astep now (EvSettle (Some d)) (mkLease (Settling z t) w lg)
      (mkLease (Live z d (Z.of_nat (length batch))) w'
         (lg ++ EBuild now path (Some d) :: (granted d <$> batch) ++ [notifyChange path d]))
| a_failed z t path batch w lg :
    t <= now -> Eligible.Lookup (eligible o) z = Some path -> zone_split z w batch [] ->
    astep now (EvSettle None) (mkLease (Settling z t) w lg)
      (mkLease Idle [] (lg ++ EBuild now path None :: (failed (bringUpError z) <$> batch)))
| a_failed_next z t z' path batch w w' lg :
    t <= now -> Eligible.Lookup (eligible o) z = Some path -> zone_split z w batch w' ->
    Exists (fun r => tunnelID r = z') w' ->
    astep now (EvSettle None) (mkLease (Settling z t) w lg)
      (mkLease (Settling z' (now + settleDelay o)) w'
         (lg ++ EBuild now path None :: (failed (bringUpError z) <$> batch))).

(** ** Abstraction *)

Definition phase_of (l : loopState) : phase :=
  if settling l then Settling (settleZone l) (default 0 (settleTimer l))
  else match currentDevice l with
       | Some d => Live (currentZone l) d (activeJobs l)
       | None => Idle
       end.

Definition queued (p : gmap string (list routeRequest)) : list routeRequest :=
  concat (map_to_list p).*2.

Definition waiting (l : loopState) : list routeRequest := settleBatch l ++ queued (pending l).

Definition lease_of (l : loopState) : lease := mkLease (phase_of l) (waiting l) (effects l).

Lemma queued_insert_None p z rs : p !! z = None -> queued (<[z := rs]> p) ≡ₚ rs ++ queued p.
Proof. intros Hz. unfold queued. by rewrite (map_to_list_insert p z rs Hz). Qed.

Lemma queued_delete p z rs : p !! z = Some rs -> queued p ≡ₚ rs ++ queued (delete z p).
Proof.
  intros Hz. rewrite <- (insert_delete_id p z rs Hz) at 1.
  apply queued_insert_None, lookup_delete_eq.
Qed.

Lemma queued_enqueue req l : queued (pending (enqueuePending req l)) ≡ₚ req :: queued (pending l).
Proof.
  unfold enqueuePending; cbn. destruct (pending l !! tunnelID req) as [rs|] eqn:E; cbn.
  - rewrite <- (insert_delete_eq (pending l)), queued_insert_None by apply lookup_delete_eq.
    rewrite (queued_delete _ _ _ E). rewrite <- app_assoc. cbn.
    by rewrite Permutation_middle.
  - by rewrite queued_insert_None.
Qed.

Lemma queued_empty : queued ∅ = [].
Proof. unfold queued. by rewrite map_to_list_empty. Qed.

Lemma queued_elem p z rs r : p !! z = Some rs -> r ∈ rs -> r ∈ queued p.
Proof. intros Hz Hr. rewrite (queued_delete _ _ _ Hz). set_solver. Qed.

Lemma queued_inv p fifo r :
  queue_ok o p fifo -> r ∈ queued p -> exists rs, p !! tunnelID r = Some rs /\ r ∈ rs.
Proof.
  intros Hq Hr. unfold queued in Hr.
  apply list_elem_of_In, in_concat in Hr as (rs & Hrs & Hr).
  apply list_elem_of_In, list_elem_of_fmap in Hrs as ([z rs'] & -> & Hm).
  apply elem_of_map_to_list in Hm. apply list_elem_of_In in Hr.
  destruct (q_batch _ _ _ Hq _ _ Hm) as [_ Hall]. rewrite Forall_forall in Hall.
  destruct (Hall r Hr) as [<- _]. eauto.
Qed.

Lemma queued_other p fifo z :
  queue_ok o p fifo -> p !! z = None -> Forall (fun r => tunnelID r <> z) (queued p).
Proof.
  intros Hq Hz. apply Forall_forall. intros r Hr <-.
  destruct (queued_inv _ _ _ Hq Hr) as (rs & ? & _). congruence.
Qed.

Lemma batch_split z batch p fifo :
  queue_ok o p fifo -> batch_of o z batch -> p !! z = None ->
  zone_split z (batch ++ queued p) batch (queued p).
Proof.
  intros Hq [Hne Hb] Hz. split_and!; [done | done | | by eapply queued_other].
  eapply Forall_impl; [exact Hb |]. by intros r [? _].
Qed.

(** ** Refinement *)

Context (Hempty : Eligible.Lookup (eligible o) "" = None).
Notation inv := (inv asResolver asReporter o).

Definition closed_by (now : Z) (l : loopState) : list effect :=
  match currentDevice l with Some d => [EClose now d] | None => [] end.

Lemma lease_beginSwitch now z path batch l :
  lease_of (beginSwitch o now z path batch l)
  = mkLease (Settling z (now + settleDelay o)) (batch ++ queued (pending l))
      (effects l ++ closed_by now l).
Proof.
  unfold beginSwitch, lease_of, phase_of, waiting, closed_by, teardown; cbn.
  by destruct (currentDevice l); cbn; rewrite ?app_nil_r.
Qed.

Lemma onReq_refines now req l :
  inv l -> valid_req o req -> astep now (EvReq req) (lease_of l) (lease_of (onReq o now req l)).
Proof.
  intros Hi Hv. unfold onReq. destruct (settling l) eqn:Hs.
  - unfold lease_of at 1, phase_of. rewrite Hs.
    destruct (String.eqb_spec (tunnelID req) (settleZone l)) as [Hz|Hz];
      unfold lease_of, phase_of; cbn; rewrite ?Hs; apply a_join; unfold waiting.
    + cbn. rewrite <- app_assoc. cbn. by rewrite Permutation_middle.
    + rewrite (queued_enqueue req l). cbn. by rewrite Permutation_middle.
  - destruct (i_unsettle _ _ _ _ Hi Hs) as [Hb _]. unfold lease_of at 1, phase_of.
    unfold waiting at 1. rewrite Hs, Hb. destruct (currentDevice l) as [d|] eqn:Hd.
    + destruct (String.eqb_spec (currentZone l) (tunnelID req)) as [Hz|Hz].
      * unfold lease_of, phase_of, waiting; cbn. rewrite Hs, Hd, Hz, Hb. cbn.
        pose proof (v_res _ _ _ _ _ _ _ (i_dev _ _ _ _ Hi)) as Hres. rewrite Hd in Hres. cbn in Hres.
        rewrite Hres. apply a_grant.
      * pose proof (queued_enqueue req l) as Hq.
        destruct (_ && _); unfold lease_of, phase_of, waiting; cbn; rewrite ?Hs, ?Hd, ?Hb;
          by apply a_queue.
    + rewrite lease_beginSwitch. unfold closed_by. cbn. rewrite Hd, app_nil_r. apply a_start.
      apply Permutation_skip. destruct (pending l !! tunnelID req) as [rs|] eqn:E; cbn.
      * by rewrite (queued_delete _ _ _ E).
      * by rewrite delete_id.
Qed.

Lemma onRelease_refines now l :
  inv l -> astep now EvRelease (lease_of l) (lease_of (onRelease o now l)).
Proof.
  intros Hi. pose proof (i_active _ _ _ _ Hi).
  assert (lease_of (onRelease o now l)
    = mkLease (match phase_of l with Live z d n => Live z d (Z.max 0 (n - 1)) | p => p end)
        (waiting l) (effects l)) as ->.
  { unfold onRelease, lease_of, phase_of, waiting.
    destruct (Z.ltb_spec 0 (activeJobs l)); cbn [activeJobs set_active settling];
      repeat case_match; cbn in *; simplify_eq; try congruence; do 2 f_equal; lia. }
  unfold lease_of. destruct (phase_of l); [by apply a_spurious | by apply a_spurious | apply a_release].
Qed.

Lemma onGrace_refines now t l :
  inv l -> graceTimer l = Some t -> astep now EvGrace (lease_of l) (lease_of (onGrace o now l)).
Proof.
  intros Hi Hg. destruct (i_grace _ _ _ _ Hi _ Hg) as (Ha & Hp & Hid).
  destruct (currentDevice l) as [d|] eqn:Hd;
    [| destruct (i_none _ _ _ _ Hi Hd) as (_ & ? & _); congruence].
  destruct (i_some _ _ _ _ Hi _ Hd) as [Hs Hz]. destruct (i_unsettle _ _ _ _ Hi Hs) as [Hb _].
  unfold onGrace. cbn [currentZone set_timers].
  destruct (pickNextZone_spec o (set_timers None (idleTimer l) l) (currentZone l)
    (i_queue _ _ _ _ Hi) Hempty) as [(z & rs & -> & Hne & Hzc & Hrs & _) | [_ Hall]].
  - cbn in Hrs. destruct (String.eqb_spec z "") as [|_]; [done |].
    rewrite lease_beginSwitch. unfold lease_of, phase_of, waiting, closed_by. cbn.
    rewrite Hs, Hd, Hb, Ha. cbn. eapply a_switch; [done | by apply queued_delete |].
    destruct (q_batch _ _ _ (i_queue _ _ _ _ Hi) _ _ Hrs) as [Hrne Hr].
    apply Exists_exists. destruct rs as [|r rs]; [done |]. exists r.
    apply Forall_cons in Hr as [[? _] _]. split; [| done]. eapply queued_elem; [done | set_solver].
  - destruct Hp. apply map_empty. intros z'. destruct (pending l !! z') eqn:E; [| done].
    assert (z' = currentZone l) as -> by (apply Hall; cbn; by eauto). congruence.
Qed.

Lemma onIdle_refines now t l :
  inv l -> idleTimer l = Some t -> astep now EvIdle (lease_of l) (lease_of (onIdle now l)).
Proof.
  intros Hi Ht. destruct (i_idle _ _ _ _ Hi _ Ht) as (Ha & Hp).
  destruct (currentDevice l) as [d|] eqn:Hd;
    [| destruct (i_none _ _ _ _ Hi Hd) as (_ & _ & ?); congruence].
  destruct (i_some _ _ _ _ Hi _ Hd) as [Hs Hz]. destruct (i_unsettle _ _ _ _ Hi Hs) as [Hb _].
  unfold onIdle. cbn [currentDevice set_timers activeJobs]. rewrite Hd, Ha. cbn [Z.eqb].
  unfold lease_of, phase_of, waiting, teardown; cbn. rewrite Hs, Hd; cbn. rewrite Hs, Hb, Hp, Ha, queued_empty.
  apply a_idle.
Qed.

Lemma finishSwitch_refines now t built l :
  inv l -> settleTimer l = Some t -> t <= now ->
  astep now (EvSettle built) (lease_of l)
    (lease_of (finishSwitch asResolver asReporter o now built l)).
Proof.
  intros Hi Ht Hnow. assert (settling l = true) as Hs.
  { destruct (settling l) eqn:E; [done |]. destruct (i_unsettle _ _ _ _ Hi E). congruence. }
  destruct (i_settle _ _ _ _ Hi Hs) as (Hb & Hp & _ & He).
  assert (currentDevice l = None) as Hd.
  { destruct (currentDevice l) eqn:E; [| done]. destruct (i_some _ _ _ _ Hi _ E). congruence. }
  destruct (i_none _ _ _ _ Hi Hd) as (Ha & Hg & Hid).
  pose proof (batch_split _ _ _ _ (i_queue _ _ _ _ Hi) Hb Hp) as Hsplit.
  unfold lease_of at 1, phase_of. rewrite Hs, Ht. unfold waiting. cbn [default].
  unfold finishSwitch. destruct built as [d|].
  - rewrite grantAll_eq. unfold lease_of, phase_of, waiting. cbn -[Z.of_nat].
    rewrite Ha, <- !app_assoc, Z.add_0_l. cbn. by apply a_built with (t := t).
  - rewrite failAll_eq. unfold startNextIfPending.
    match goal with |- context [pickNextZone "" ?x] =>
      destruct (pickNextZone_spec o x "" (i_queue _ _ _ _ Hi) Hempty)
        as [(z & rs & -> & Hne & Hzc & Hrs & _) | [-> Hall]] end.
    + cbn in Hrs. destruct (String.eqb_spec z "") as [|_]; [done |].
      rewrite lease_beginSwitch. unfold closed_by. cbn. rewrite Hd, app_nil_r, <- app_assoc.
      eapply (a_failed_next _ _ _ z); try done.
      * destruct Hsplit as (E1 & E2 & E3 & E4). rewrite (queued_delete _ _ _ Hrs) in E4.
        split_and!; try done. by rewrite <- (queued_delete _ _ _ Hrs).
      * destruct (q_batch _ _ _ (i_queue _ _ _ _ Hi) _ _ Hrs) as [Hrne Hr].
        apply Exists_exists. destruct rs as [|r rs]; [done |]. exists r.
        apply Forall_cons in Hr as [[? _] _]. split; [by left | done].
    + cbn. unfold lease_of, phase_of, waiting; cbn. rewrite Hd.
      assert (queued (pending l) = []) as Hq.
      { destruct (queued (pending l)) as [|r w] eqn:E; [done |].
        destruct (queued_inv _ _ r (i_queue _ _ _ _ Hi)) as (rs & Hrs & Hr); [rewrite E; by left |].
        assert (tunnelID r = "") as Hr0 by (apply Hall; cbn; by eauto).
        destruct (q_batch _ _ _ (i_queue _ _ _ _ Hi) _ _ Hrs) as [_ Hf]. rewrite Forall_forall in Hf.
        destruct (Hf _ Hr) as [_ Hvr]. unfold valid_req in Hvr. congruence. }
      rewrite Hq in *. rewrite app_nil_r in *. rewrite <- app_assoc. cbn.
      eapply a_failed; done.
Qed.

Lemma handle_refines now ev l :
  inv l -> valid_event o ev -> ready now ev l = true ->
  astep now ev (lease_of l) (lease_of (handle asResolver asReporter o now ev l)).
Proof.
  intros Hi Hv Hr. unfold ready, due in Hr. destruct ev; cbn [handle].
  - by apply onReq_refines.
  - destruct (settleTimer l) eqn:E; [| done]. apply Z.leb_le in Hr. by eapply finishSwitch_refines.
  - by apply onRelease_refines.
  - destruct (graceTimer l) eqn:E; [| done]. by eapply onGrace_refines.
  - destruct (idleTimer l) eqn:E; [| done]. by eapply onIdle_refines.
Qed.
End Spec.
