(* ===== verification/SchedulerTrace.v ===== *)
(** * Properties of every run of the on-demand scheduler

    [run now recv l]: the loop has reached state [l] at time [now] after
    receiving the requests [recv].  The theorems speak of the log of effects: the
    devices it opens and closes, the settle gap between two devices, and the
    answers it sends.  They are proved on the abstract specification and carried
    to the loop by the refinement. *)

From S2P Require Import Prelude GoStrings Domain Eligible Scheduler SchedulerInv SchedulerSpec.
Import Scheduler.

Section Trace.
Context {Device Resolver Reporter : Type} `{EqDecision Device}.
Context (asResolver : Device -> option Resolver) (asReporter : Device -> option Reporter).
Context (o : options).
Notation loopState := (@loopState Device Resolver Reporter).
Notation effect := (@effect Device Resolver).
Implicit Types (l : loopState) (req : routeRequest) (es : list effect).

Definition received (ev : @event Device) : list routeRequest :=
  match ev with EvReq req => [req] | _ => [] end.

Inductive run : Z -> list routeRequest -> loopState -> Prop :=
| run_init now : run now [] init
| run_step t now recv ev l :
    run t recv l -> t <= now -> valid_event o ev -> ready now ev l = true ->
    run now (recv ++ received ev) (handle asResolver asReporter o now ev l).

(** ** What a log says *)

(** Replays the device operations of a log from the live device [cur]: a
    device is built only when none is live, only the live device is closed,
    granted or announced.  [None]: the protocol is violated. *)
Fixpoint replay (cur : option Device) (es : list effect) : option (option Device) :=
  match es with
  | [] => Some cur
  | e :: es' =>
      match e with
      | EBuild _ _ (Some d) => if decide (cur = None) then replay (Some d) es' else None
      | EBuild _ _ None => if decide (cur = None) then replay cur es' else None
      | EClose _ d => if decide (cur = Some d) then replay None es' else None
      | EReply _ (Granted d _) => if decide (cur = Some d) then replay cur es' else None
      | EReply _ (Failed _) => replay cur es'
      | ENotify ev => if decide (cur = ev_Dialer ev) then replay cur es' else None
      end
  end.

(** The time of the last close. *)
Fixpoint last_close (last : option Z) (es : list effect) : option Z :=
  match es with
  | [] => last
  | EClose t _ :: es' => last_close (Some t) es'
  | _ :: es' => last_close last es'
  end.

(** Every build comes at least [delay] after the last close before it. *)
Fixpoint gaps (delay : Z) (last : option Z) (es : list effect) : bool :=
  match es with
  | [] => true
  | EClose t _ :: es' => gaps delay (Some t) es'
  | EBuild t _ _ :: es' =>
      match last with Some c => c + delay <=? t | None => true end && gaps delay last es'
  | _ :: es' => gaps delay last es'
  end.

(** The reply channels answered. *)
Definition replied (es : list effect) : list nat :=
  omap (fun e => match e with EReply ch _ => Some ch | _ => None end) es.

Lemma replay_app cur es es' :
  replay cur (es ++ es') = replay cur es ≫= (fun c => replay c es').
Proof.
  revert cur. induction es as [|e es IH]; intros cur; [done |]. cbn [app replay].
  repeat (case_match || case_decide); try done; cbn; apply IH.
Qed.

Lemma last_close_app last es es' : last_close last (es ++ es') = last_close (last_close last es) es'.
Proof. revert last. induction es as [|e es IH]; intros last; [done |]. destruct e; cbn; apply IH. Qed.

Lemma gaps_app delay last es es' :
  gaps delay last (es ++ es') = gaps delay last es && gaps delay (last_close last es) es'.
Proof.
  revert last. induction es as [|e es IH]; intros last; [done |].
  destruct e; cbn; rewrite IH; try done. by rewrite andb_assoc.
Qed.

Lemma replied_app es es' : replied (es ++ es') = replied es ++ replied es'.
Proof. apply omap_app. Qed.

(** Batches of answers. *)
Lemma replay_granted d es rs :
  replay (Some d) ((granted asResolver d <$> rs) ++ es) = replay (Some d) es.
Proof. induction rs as [|r rs IH]; [done |]. cbn. rewrite decide_True by done. apply IH. Qed.

Lemma replay_failed cur e rs : replay cur (failed e <$> rs) = Some cur.
Proof. induction rs as [|r rs IH]; [done |]. apply IH. Qed.

Lemma last_close_replies last (f : routeRequest -> routeReply) rs es :
  last_close last (((fun r => EReply (replyCh r) (f r)) <$> rs) ++ es) = last_close last es.
Proof. by induction rs. Qed.

Lemma gaps_replies delay last (f : routeRequest -> routeReply) rs es :
  gaps delay last (((fun r => EReply (replyCh r) (f r)) <$> rs) ++ es) = gaps delay last es.
Proof. by induction rs. Qed.

Lemma replied_replies (f : routeRequest -> @routeReply Device Resolver) rs :
  replied ((fun r => EReply (replyCh r) (f r)) <$> rs) = replyCh <$> rs.
Proof. induction rs as [|r rs IH]; [done |]. cbn. f_equal. apply IH. Qed.

(** ** Invariant of the specification *)

Definition device_of (p : phase) : option Device :=
  match p with Live _ d _ => Some d | _ => None end.

Record lease_ok (now : Z) (recv : list routeRequest) (a : lease) : Prop := {
  k_replay : replay None (log a) = Some (device_of (ph a));
  k_gaps : gaps (settleDelay o) None (log a) = true;
  k_past : forall c, last_close None (log a) = Some c -> c <= now;
  k_gap : forall z t c, ph a = Settling z t -> last_close None (log a) = Some c ->
    c + settleDelay o <= t;
  k_account : replied (log a) ++ (replyCh <$> wait a) ≡ₚ replyCh <$> recv;
  k_wait : Forall (fun r => r ∈ recv /\ valid_req o r) (wait a);
  k_live : forall z d n, ph a = Live z d n ->
    exists t path, Eligible.Lookup (eligible o) z = Some path /\ EBuild t path (Some d) ∈ log a;
  k_grants : forall ch d r, EReply ch (Granted d r) ∈ log a ->
    exists req t, req ∈ recv /\ replyCh req = ch /\ r = asResolver d
      /\ EBuild t (configPath req) (Some d) ∈ log a
}.

Lemma lease_ok_init now : lease_ok now [] (mkLease Idle [] []).
Proof. split; cbn; try done. intros ch d r Hin. by apply elem_of_nil in Hin. Qed.

(** Time passes. *)
Lemma lease_ok_later t now recv a : lease_ok t recv a -> t <= now -> lease_ok now recv a.
Proof. intros [] Ht. split; try done. intros c Hc. specialize (k_past0 c Hc). lia. Qed.

Lemma forall_recv recv recv' (w : list routeRequest) :
  Forall (fun r => r ∈ recv /\ valid_req o r) w ->
  Forall (fun r => r ∈ recv ++ recv' /\ valid_req o r) w.
Proof. intros H. eapply Forall_impl; [exact H |]. intros r [? ?]. split; [set_solver | done]. Qed.

Lemma grants_recv recv recv' (lg lg' : list effect) :
  (forall ch d r, EReply ch (Granted d r) ∈ lg ->
    exists req t, req ∈ recv /\ replyCh req = ch /\ r = asResolver d
      /\ EBuild t (configPath req) (Some d) ∈ lg) ->
  (forall ch d r, EReply ch (Granted d r) ∈ lg' ->
    exists req t, req ∈ recv ++ recv' /\ replyCh req = ch /\ r = asResolver d
      /\ EBuild t (configPath req) (Some d) ∈ lg ++ lg') ->
  forall ch d r, EReply ch (Granted d r) ∈ lg ++ lg' ->
    exists req t, req ∈ recv ++ recv' /\ replyCh req = ch /\ r = asResolver d
      /\ EBuild t (configPath req) (Some d) ∈ lg ++ lg'.
Proof.
  intros H H' ch d r [Hin|Hin]%elem_of_app; [| by apply H'].
  destruct (H _ _ _ Hin) as (req & t & ? & ? & ? & ?). exists req, t. set_solver.
Qed.

(** A request joins the waiting ones. *)
Lemma lease_ok_wait now recv p p' w w' lg req :
  lease_ok now recv (mkLease p w lg) -> valid_req o req -> w' ≡ₚ req :: w ->
  device_of p' = device_of p ->
  (forall z d n, p' = Live z d n -> p = p') ->
  (forall z t c, p' = Settling z t -> last_close None lg = Some c -> c + settleDelay o <= t) ->
  lease_ok now (recv ++ [req]) (mkLease p' w' lg).
Proof.
  intros [] Hv Hw Hd Hl Hs. cbn in *. split; cbn; try done.
  - by rewrite Hd.
  - rewrite Hw, fmap_app, <- k_account0. cbn. solve_Permutation.
  - rewrite Hw. constructor; [set_solver | by apply forall_recv].
  - intros z d n E. rewrite <- (Hl _ _ _ E) in E. eauto.
  - intros ch d r Hin. destruct (k_grants0 _ _ _ Hin) as (rq & t & ? & ? & ? & ?).
    exists rq, t. set_solver.
Qed.

(** Nothing is sent or received. *)
Lemma lease_ok_silent now recv p p' w w' lg :
  lease_ok now recv (mkLease p w lg) -> w ≡ₚ w' -> device_of p' = device_of p ->
  (forall z d n, p' = Live z d n -> exists n', p = Live z d n') ->
  (forall z t c, p' = Settling z t -> last_close None lg = Some c -> c + settleDelay o <= t) ->
  lease_ok now recv (mkLease p' w' lg).
Proof.
  intros [] Hw Hd Hl Hs. cbn in *. split; cbn; try done.
  - by rewrite Hd.
  - by rewrite <- Hw.
  - by rewrite <- Hw.
  - intros z d n E. destruct (Hl _ _ _ E). eauto.
Qed.

(** The live device, without jobs, is closed. *)
Lemma lease_ok_close now recv z d w lg :
  lease_ok now recv (mkLease (Live z d 0) w lg) ->
  lease_ok now recv (mkLease Idle w (lg ++ [EClose now d])).
Proof.
  intros []. cbn in *. split; cbn; try done.
  - rewrite replay_app, k_replay0. cbn. by rewrite decide_True.
  - by rewrite gaps_app, k_gaps0.
  - intros c. rewrite last_close_app. cbn. intros [= <-]. lia.
  - rewrite replied_app. cbn. by rewrite app_nil_r.
  - rewrite <- (app_nil_r recv). apply grants_recv; [done |]. set_solver.
Qed.

Lemma gap_now now recv a c :
  lease_ok now recv a -> last_close None (log a) = Some c ->
  forall t, now + settleDelay o = t -> c + settleDelay o <= t.
Proof. intros Hk Hc t <-. pose proof (k_past _ _ _ Hk c Hc). lia. Qed.

(** The settled device is up and serves its batch. *)
Lemma lease_ok_built now recv z t path d batch w w' lg :
  lease_ok now recv (mkLease (Settling z t) w lg) -> t <= now ->
  Eligible.Lookup (eligible o) z = Some path -> zone_split z w batch w' ->
  lease_ok now recv (mkLease (Live z d (Z.of_nat (length batch))) w'
    (lg ++ EBuild now path (Some d) :: (granted asResolver d <$> batch) ++ [notifyChange path d])).
Proof.
  intros [] Ht He (Hw & _ & Hz & _). cbn in *. rewrite Hw in *. rewrite fmap_app in k_account0.
  apply Forall_app in k_wait0 as [Hwb Hww].
  split; cbn -[Z.of_nat]; try done.
  - rewrite replay_app, k_replay0. cbn. rewrite replay_granted.
    cbn. by rewrite !decide_True.
  - rewrite gaps_app, k_gaps0. cbn. unfold granted. rewrite gaps_replies. cbn.
    destruct (last_close None lg) as [c|] eqn:Hc; [| done].
    specialize (k_gap0 z t c eq_refl eq_refl). rewrite andb_true_r. apply Z.leb_le. lia.
  - intros c. rewrite last_close_app. cbn. unfold granted. rewrite last_close_replies. apply k_past0.
  - rewrite replied_app. cbn. rewrite replied_app. unfold granted. rewrite replied_replies. cbn.
    rewrite app_nil_r, <- app_assoc. done.
  - intros ? ? ? [= <- <- <-]. exists now, path. set_solver.
  - rewrite <- (app_nil_r recv). apply grants_recv; [done |]. intros ch d' r Hin.
    apply elem_of_cons in Hin as [|Hin]; [done |]. apply elem_of_app in Hin as [Hin|Hin].
    + apply list_elem_of_fmap in Hin as (rq & [= -> -> ->] & Hrq).
      rewrite Forall_forall in Hwb, Hz. destruct (Hwb _ Hrq) as [? Hv]. exists rq, now.
      unfold valid_req in Hv. rewrite (Hz _ Hrq), He in Hv. injection Hv as ->. set_solver.
    + by apply list_elem_of_singleton in Hin.
Qed.

(** The settled device cannot be built: its batch fails. *)
Lemma lease_ok_failed now recv z t path batch e w w' lg :
  lease_ok now recv (mkLease (Settling z t) w lg) -> t <= now -> zone_split z w batch w' ->
  lease_ok now recv (mkLease Idle w' (lg ++ EBuild now path None :: (failed e <$> batch))).
Proof.
  intros [] Ht (Hw & _ & Hz & _). cbn in *. rewrite Hw in *. rewrite fmap_app in k_account0.
  apply Forall_app in k_wait0 as [Hwb Hww]. rewrite <- (app_nil_r (failed e <$> batch)).
  split; cbn -[Z.of_nat]; try done.
  - rewrite replay_app, k_replay0. cbn. rewrite app_nil_r. apply replay_failed.
  - rewrite gaps_app, k_gaps0. cbn. unfold failed. rewrite gaps_replies. cbn.
    destruct (last_close None lg) as [c|] eqn:Hc; [| done].
    specialize (k_gap0 z t c eq_refl eq_refl). rewrite andb_true_r. apply Z.leb_le. lia.
  - intros c. rewrite last_close_app. cbn. unfold failed. rewrite last_close_replies. apply k_past0.
  - rewrite replied_app. cbn. rewrite app_nil_r. unfold failed. rewrite replied_replies, <- app_assoc. done.
  - rewrite <- (app_nil_r recv). apply grants_recv; [done |]. intros ch d' r Hin.
    apply elem_of_cons in Hin as [|Hin]; [done |]. rewrite app_nil_r in Hin.
    by apply list_elem_of_fmap in Hin as (rq & ? & Hrq).
Qed.

Lemma astep_ok now recv ev a a' :
  lease_ok now recv a -> valid_event o ev -> astep asResolver o now ev a a' ->
  lease_ok now (recv ++ received ev) a'.
Proof.
  intros Hk Hv Hs. destruct Hs; cbn [received]; rewrite ?app_nil_r.
  - eapply lease_ok_wait; try done. intros z t c [= <- <-] Hc. by eapply gap_now.
  - eapply lease_ok_wait; try done. intros z' t' c [= <- <-] Hc. by eapply (k_gap _ _ _ Hk).
  - destruct Hk. cbn in *. split; cbn; try done.
    + rewrite replay_app, k_replay0. cbn. by rewrite decide_True.
    + by rewrite gaps_app, k_gaps0.
    + intros c. rewrite last_close_app. apply k_past0.
    + rewrite replied_app, fmap_app, <- k_account0. cbn. solve_Permutation.
    + by apply forall_recv.
    + intros ? ? ? [= <- <- <-]. destruct (k_live0 _ _ _ eq_refl) as (t & path & ? & ?).
      exists t, path. set_solver.
    + apply grants_recv; [done |]. intros ch d' r Hin%list_elem_of_singleton. injection Hin as -> -> ->.
      destruct (k_live0 _ _ _ eq_refl) as (t & path & He & ?).
      cbn in Hv. unfold valid_req in Hv. rewrite He in Hv. injection Hv as ->.
      exists req, t. set_solver.
  - eapply lease_ok_wait; try done.
  - eapply lease_ok_silent; try done. intros ? ? ? [= -> -> _]. eauto.
  - done.
  - apply lease_ok_close in Hk. eapply lease_ok_silent; try done.
    intros ? ? c [= <- <-] Hc. by eapply gap_now.
  - by apply lease_ok_close in Hk.
  - by eapply lease_ok_built.
  - by eapply lease_ok_failed.
  - pose proof (lease_ok_failed _ _ _ _ path _ (bringUpError z) _ _ _ Hk H H1) as Hk'.
    eapply lease_ok_silent; try done. intros ? ? c [= <- <-] Hc. by eapply gap_now.
Qed.

Context (Hempty : Eligible.Lookup (eligible o) "" = None).

Lemma run_ok now recv l :
  run now recv l -> inv asResolver asReporter o l /\ lease_ok now recv (lease_of l).
Proof.
  induction 1 as [now | t now recv ev l _ [Hi Hk] Ht Hv Hr].
  - split; [apply init_inv |]. unfold lease_of, phase_of, waiting. cbn. rewrite queued_empty.
    apply lease_ok_init.
  - split; [by apply handle_inv |]. eapply astep_ok; [by eapply lease_ok_later | done |].
    by apply handle_refines.
Qed.

(** ** Shutdown *)

Lemma failAll_zones zs e l :
  fold_left (fun l (zr : string * list routeRequest) => failAll (snd zr) e l) zs l
  = emit (failed e <$> concat zs.*2) l.
Proof.
  revert l. induction zs as [|[z rs] zs IH]; intros l; cbn [fold_left fmap list_fmap concat snd].
  - by rewrite emit_nil.
  - rewrite IH, failAll_eq, emit_emit, fmap_app. done.
Qed.

Lemma onCtxDone_effects now l :
  inv asResolver asReporter o l ->
  effects (onCtxDone now l) = effects l ++ (failed Ctx <$> waiting l) ++ closed_by now l.
Proof.
  intros Hi. unfold onCtxDone. rewrite failAll_zones. unfold teardown, closed_by, waiting.
  destruct (settling l) eqn:Hs; cbn.
  - rewrite failAll_eq. cbn. destruct (currentDevice l); cbn;
      rewrite ?app_nil_r, fmap_app, <- !app_assoc; done.
  - destruct (i_unsettle _ _ _ _ Hi Hs) as [-> _].
    destruct (currentDevice l); cbn; rewrite ?app_nil_r, <- ?app_assoc; done.
Qed.

(** ** Executable runs *)

Definition valid_eventb (ev : @event Device) : bool :=
  match ev with
  | EvReq req => bool_decide (Eligible.Lookup (eligible o) (tunnelID req) = Some (configPath req))
  | _ => true
  end.

(** Feeds timed events to the loop; [None] when one of them cannot happen. *)
Fixpoint exec (evs : list (Z * @event Device)) (st : Z * list routeRequest * loopState)
    : option (Z * list routeRequest * loopState) :=
  match evs with
  | [] => Some st
  | (now, ev) :: evs' =>
      let '(t, recv, l) := st in
      if (t <=? now) && valid_eventb ev && ready now ev l
      then exec evs' (now, recv ++ received ev, handle asResolver asReporter o now ev l)
      else None
  end.

Lemma exec_sound evs t recv l t' recv' l' :
  run t recv l -> exec evs (t, recv, l) = Some (t', recv', l') -> run t' recv' l'.
Proof.
  revert t recv l. induction evs as [|[now ev] evs IH]; intros t recv l Hr He; cbn in He; [by simplify_eq |].
  destruct (_ && _ && _) eqn:Hc; [| done].
  apply andb_true_iff in Hc as [[Ht%Z.leb_le Hv]%andb_true_iff Hrd].
  refine (IH _ _ _ _ He). eapply run_step; try done.
  destruct ev; try done. by apply bool_decide_eq_true in Hv.
Qed.

Lemma exec_run evs t recv l :
  exec evs (0, [], init) = Some (t, recv, l) -> run t recv l.
Proof. apply exec_sound. constructor. Qed.
End Trace.
