(* ===== verification/SchedulerLive.v ===== *)
(** * Liveness of the on-demand scheduler

    Once no new request arrives, every waiting request is answered: whatever the
    order of the loop's events and whatever the device builder answers, as long
    as the jobs that hold the live device release it. *)

From S2P Require Import Prelude GoStrings Domain Eligible Scheduler SchedulerInv SchedulerSpec.
Import Scheduler.

Section Live.
Context {Device Resolver Reporter : Type}.
Context (asResolver : Device -> option Resolver) (asReporter : Device -> option Reporter).
Context (o : options) (Hempty : Eligible.Lookup (eligible o) "" = None).
Notation loopState := (@loopState Device Resolver Reporter).
Notation inv := (inv asResolver asReporter o).
Notation handle := (handle asResolver asReporter o).
Implicit Types (l : loopState).

(** Events other than the arrival of requests; a release comes from a job. *)
Definition internal (ev : @event Device) (l : loopState) : Prop :=
  match ev with
  | EvReq _ => False
  | EvRelease => 0 < activeJobs l
  | _ => True
  end.

(** On every execution without new requests, all waiting requests are answered
    after finitely many iterations, and until then some iteration can happen. *)
Inductive answered_eventually : Z -> loopState -> Prop :=
| ae_done now l : waiting l = [] -> answered_eventually now l
| ae_step now l :
    (exists now' ev, now <= now' /\ internal ev l /\ ready now' ev l = true) ->
    (forall now' ev, now <= now' -> internal ev l -> ready now' ev l = true ->
       answered_eventually now' (handle now' ev l)) ->
    answered_eventually now l.

(** The work left: a zone to bring up counts two, the one that settles one;
    then the jobs to release. *)
Definition switches (l : loopState) : nat :=
  2 * size (pending l) + (if settling l then 1 else 0).

Definition less (l' l : loopState) : Prop :=
  (switches l' < switches l)%nat
  \/ switches l' = switches l /\ (Z.to_nat (activeJobs l') < Z.to_nat (activeJobs l))%nat.

Lemma less_wf : well_founded less.
Proof.
  assert (forall n m l, switches l = n -> Z.to_nat (activeJobs l) = m -> Acc less l) as H.
  { intros n. induction n as [n IHn] using lt_wf_ind. intros m.
    induction m as [m IHm] using lt_wf_ind. intros l Hn Hm. constructor. intros l' [H|[H H']].
    - eapply IHn; eauto; lia.
    - eapply IHm; eauto; lia. }
  intros l. eauto.
Qed.

Lemma waiting_nil l :
  inv l -> settling l = false -> pending l = ∅ -> waiting l = [].
Proof.
  intros Hi Hs Hp. unfold waiting. rewrite Hp, queued_empty.
  by destruct (i_unsettle _ _ _ _ Hi Hs) as [-> _].
Qed.

(** Some event is due or will be. *)
Lemma can_step now l :
  inv l -> waiting l <> [] ->
  exists now' ev, now <= now' /\ internal ev l /\ ready now' ev l = true.
Proof.
  intros Hi Hw. destruct (settling l) eqn:Hs.
  - destruct (i_settle _ _ _ _ Hi Hs) as (_ & _ & [t Ht] & _).
    exists (Z.max now t), (EvSettle None). cbn. rewrite Ht. cbn. split_and!; [lia | done | apply Z.leb_le; lia].
  - destruct (decide (pending l = ∅)) as [Hp|Hp]; [by destruct Hw; apply waiting_nil |].
    destruct (i_stall _ _ _ _ Hi Hp) as [|[d Hd]]; [congruence |].
    pose proof (i_active _ _ _ _ Hi).
    destruct (Z.eq_dec (activeJobs l) 0) as [Ha|Ha].
    + destruct (i_live _ _ _ _ Hi _ Hd Ha) as [[t Ht]|[t Ht]].
      * exists (Z.max now t), EvGrace. cbn. rewrite Ht. cbn. split_and!; [lia | done | apply Z.leb_le; lia].
      * destruct (i_idle _ _ _ _ Hi _ Ht). done.
    + exists now, EvRelease. cbn. split_and!; [lia | lia | done].
Qed.

Lemma switches_delete (p : gmap string (list routeRequest)) z rs :
  p !! z = Some rs -> size p = S (size (delete z p)).
Proof.
  intros Hz. rewrite <- (insert_delete_id p z rs Hz) at 1.
  by rewrite map_size_insert_None by apply lookup_delete_eq.
Qed.

Lemma switches_beginSwitch now z path b l :
  switches (beginSwitch o now z path b l) = (2 * size (pending l) + 1)%nat.
Proof. unfold switches, beginSwitch, teardown. cbn. by destruct (currentDevice l). Qed.

Lemma grace_less now t l : inv l -> graceTimer l = Some t -> less (onGrace o now l) l.
Proof.
  intros Hi Hg. left. destruct (i_grace _ _ _ _ Hi _ Hg) as (Ha & Hp & Hid). unfold onGrace.
  destruct (pickNextZone_spec o (set_timers None (idleTimer l) l) (currentZone l)
    (i_queue _ _ _ _ Hi) Hempty) as [(z & rs & Hpk & Hne & _ & Hrs & _) | [_ Hall]].
  - cbn [currentZone set_timers] in *. rewrite Hpk. destruct (String.eqb_spec z "") as [|_]; [done |].
    rewrite switches_beginSwitch. cbn in *. unfold switches. rewrite (switches_delete _ _ _ Hrs). lia.
  - destruct (currentDevice l) as [d|] eqn:Hd;
      [| destruct (i_none _ _ _ _ Hi Hd) as (_ & ? & _); congruence].
    destruct Hp. apply map_empty. intros z'. destruct (pending l !! z') eqn:E; [| done].
    assert (z' = currentZone l) as -> by (apply Hall; cbn; by eauto).
    destruct (i_some _ _ _ _ Hi _ Hd). congruence.
Qed.

(** The head of the queue is served when the grace window elapses. *)
Lemma grace_head now t l z rest :
  inv l -> graceTimer l = Some t -> pendingFIFO l = z :: rest ->
  let l' := onGrace o now l in
  settling l' = true /\ settleZone l' = z /\ pendingFIFO l' = rest
  /\ pending l !! z = Some (settleBatch l') /\ pending l' !! z = None
  /\ settleTimer l' = Some (now + settleDelay o) /\ currentDevice l' = None.
Proof.
  intros Hi Hg Hf. destruct (i_grace _ _ _ _ Hi _ Hg) as (Ha & Hp & Hid). cbn zeta.
  destruct (currentDevice l) as [d|] eqn:Hd;
    [| destruct (i_none _ _ _ _ Hi Hd) as (_ & ? & _); congruence].
  destruct (i_some _ _ _ _ Hi _ Hd) as [_ Hnone].
  pose proof (i_queue _ _ _ _ Hi) as Hq.
  assert (is_Some (pending l !! z)) as [rs Hrs] by (apply (q_fifo _ _ _ Hq); rewrite Hf; by left).
  assert (z <> currentZone l) as Hz by (intros ->; congruence).
  assert (z <> "") as Hz0.
  { intros ->. destruct (q_batch _ _ _ Hq _ _ Hrs) as [Hrne Hall]. destruct rs as [|r rs]; [done |].
    apply Forall_cons in Hall as [[Hr Hv] _]. unfold valid_req in Hv. congruence. }
  unfold onGrace, pickNextZone. cbn [currentZone set_timers].
  rewrite (compactFIFO_id o (set_timers None (idleTimer l) l) Hq). cbn [pending pendingFIFO set_timers].
  unfold next_zone. rewrite Hf. cbn [list_find].
  rewrite decide_True.
  2:{ apply andb_True. split; [| apply Is_true_true, has_pending_inv with (o := o); by eauto].
      by destruct (String.eqb_spec z (currentZone l)). }
  cbn [fmap option_fmap option_map snd]. destruct (String.eqb_spec z "") as [|_]; [done |].
  rewrite Hrs. unfold beginSwitch, teardown. cbn. rewrite Hd; cbn.
  rewrite String.eqb_refl. split_and!; try done. apply lookup_delete_eq.
Qed.

Lemma settle_less now t built l :
  inv l -> settleTimer l = Some t ->
  less (finishSwitch asResolver asReporter o now built l) l.
Proof.
  intros Hi Ht. left. assert (settling l = true) as Hs.
  { destruct (settling l) eqn:E; [done |]. destruct (i_unsettle _ _ _ _ Hi E). congruence. }
  unfold finishSwitch. destruct built as [d|].
  - rewrite grantAll_eq. unfold switches; cbn. rewrite Hs. lia.
  - rewrite failAll_eq. unfold startNextIfPending.
    match goal with |- context [pickNextZone "" ?x] =>
      destruct (pickNextZone_spec o x "" (i_queue _ _ _ _ Hi) Hempty)
        as [(z & rs & -> & Hne & _ & Hrs & _) | [-> _]] end.
    + destruct (String.eqb_spec z "") as [|_]; [done |].
      rewrite switches_beginSwitch. cbn in *. unfold switches. rewrite Hs, (switches_delete _ _ _ Hrs). lia.
    + unfold switches; cbn. rewrite Hs. lia.
Qed.

Lemma release_less now l : inv l -> 0 < activeJobs l -> less (onRelease o now l) l.
Proof.
  intros Hi Ha. right. unfold onRelease, switches.
  destruct (Z.ltb_spec 0 (activeJobs l)) as [_|]; [| lia]. cbn [activeJobs set_active settling].
  repeat case_match; cbn in *; simplify_eq; split; try done; try lia; congruence.
Qed.

Lemma step_less now ev l :
  inv l -> waiting l <> [] -> internal ev l -> ready now ev l = true -> less (handle now ev l) l.
Proof.
  intros Hi Hw Hint Hr. destruct ev; cbn in Hint, Hr |- *; [done | | | |].
  - destruct (settleTimer l) eqn:E; [| done]. by eapply settle_less.
  - by apply release_less.
  - destruct (graceTimer l) eqn:E; [| done]. by eapply grace_less.
  - destruct (idleTimer l) as [t|] eqn:E; [| done]. destruct Hw.
    destruct (i_idle _ _ _ _ Hi _ E) as [_ Hp]. apply waiting_nil; [done | | done].
    destruct (settling l) eqn:Hs; [| done].
    destruct (currentDevice l) eqn:Hd; [destruct (i_some _ _ _ _ Hi _ Hd); congruence |].
    destruct (i_none _ _ _ _ Hi Hd) as (_ & _ & ?). congruence.
Qed.

Lemma inv_answered now l : inv l -> answered_eventually now l.
Proof.
  revert now. induction l as [l IH] using (well_founded_induction less_wf). intros now Hi.
  destruct (waiting l) eqn:Hw; [by apply ae_done |].
  assert (waiting l <> []) as Hne by congruence.
  apply ae_step; [by apply can_step |]. intros now' ev Hn Hint Hr.
  apply IH; [by apply step_less |]. apply handle_inv; try done. by destruct ev.
Qed.
End Live.
