(* ===== verification/SchedulerThms.v ===== *)
(** * Theorems of the on-demand scheduler

    The statements about [Run] that its callers rely on, each with a run of the
    loop on two zones that exercises it. *)

From S2P Require Import Prelude GoStrings Domain Eligible Scheduler SchedulerInv SchedulerSpec SchedulerTrace SchedulerLive.
Import Scheduler.

(** ** A concrete run

    Devices are numbers; zone [aa] is requested twice and brought up, [bb] waits,
    the two jobs end, the grace window elapses and the loop switches to [bb]. *)
Module Demo.
Definition zones : Eligible.EligibleSet :=
  Eligible.mkSet {[ "aa" := Eligible.mkEntry "aa" "aa" "/t/aa.conf";
                    "bb" := Eligible.mkEntry "bb" "bb" "/t/bb.conf" ]} ["aa"; "bb"].
Definition opts : options := mkOptions zones 5 3 20.
Definition noResolver (d : nat) : option unit := None.
Definition noReporter (d : nat) : option unit := None.
Definition rq (z : string) (ch : nat) : routeRequest := mkReq z ("/t/" +:+ z +:+ ".conf") ch.

Definition to_live : list (Z * @event nat) :=
  [(0, EvReq (rq "aa" 1)); (1, EvReq (rq "aa" 2)); (2, EvReq (rq "bb" 3)); (5, EvSettle (Some 7%nat))].
Definition to_grace : list (Z * @event nat) := to_live ++ [(6, EvRelease); (8, EvRelease)].
Definition to_second : list (Z * @event nat) := to_grace ++ [(11, EvGrace); (16, EvSettle (Some 8%nat))].

Definition final (evs : list (Z * @event nat)) : Z * list routeRequest * @loopState nat unit unit :=
  default (0, [], init) (exec noResolver noReporter opts evs (0, [], init)).

Definition state (evs : list (Z * @event nat)) := snd (final evs).

Lemma to_live_run : run noResolver noReporter opts 5 (snd (fst (final to_live))) (state to_live).
Proof. apply (exec_run noResolver noReporter opts to_live). vm_compute. reflexivity. Qed.

Lemma to_grace_run : run noResolver noReporter opts 8 (snd (fst (final to_grace))) (state to_grace).
Proof. apply (exec_run noResolver noReporter opts to_grace). vm_compute. reflexivity. Qed.

Lemma to_second_run : run noResolver noReporter opts 16 (snd (fst (final to_second))) (state to_second).
Proof. apply (exec_run noResolver noReporter opts to_second). vm_compute. reflexivity. Qed.
End Demo.

Section Theorems.
Context {Device Resolver Reporter : Type} `{EqDecision Device}.
Context (asResolver : Device -> option Resolver) (asReporter : Device -> option Reporter).
Context (o : options).
Notation loopState := (@loopState Device Resolver Reporter).
Notation run := (run asResolver asReporter o).
Implicit Types (l : loopState) (now : Z) (recv : list routeRequest).

(** C1: refinement.  Every iteration of the loop is a transition of the abstract
    zone lease: in particular a live zone is left only when it has no job. *)
Theorem scheduler_refines_lease now now' recv l ev :
  Eligible.Lookup (eligible o) "" = None ->
  run now recv l -> valid_event o ev -> ready now' ev l = true ->
  astep asResolver o now' ev (lease_of l) (lease_of (handle asResolver asReporter o now' ev l)).
Proof.
  intros He Hr Hv Hrd. destruct (run_ok _ _ _ He _ _ _ Hr) as [Hi _]. by apply handle_refines.
Qed.

(** C3: the scheduler owns at most one device: replaying the log of effects, a
    device is built only when none is live, only the live one is closed, and every
    grant and announcement carries the live one; the log ends with the loop's
    current device. *)
Theorem scheduler_one_device now recv l :
  Eligible.Lookup (eligible o) "" = None ->
  run now recv l -> replay None (effects l) = Some (currentDevice l).
Proof.
  intros He Hr. destruct (run_ok _ _ _ He _ _ _ Hr) as [Hi Hk].
  etransitivity; [exact (k_replay _ _ _ _ _ Hk) |]. cbn. unfold phase_of.
  destruct (settling l) eqn:Hs; destruct (currentDevice l) eqn:Hd; try done.
  destruct (i_some _ _ _ _ Hi _ Hd). congruence.
Qed.

(** C4: settle gap.  In the log of every run, each device build comes at least
    [settleDelay] after the close before it. *)
Theorem scheduler_settle_gap now recv l :
  Eligible.Lookup (eligible o) "" = None ->
  run now recv l -> gaps (settleDelay o) None (effects l) = true.
Proof. intros He Hr. destruct (run_ok _ _ _ He _ _ _ Hr) as [_ Hk]. apply (k_gaps _ _ _ _ _ Hk). Qed.

(** C5: no request is lost or answered twice: the channels answered so far and
    those of the waiting requests are, as multisets, the channels received. *)
Theorem scheduler_accounting now recv l :
  Eligible.Lookup (eligible o) "" = None ->
  run now recv l -> replied (effects l) ++ (replyCh <$> waiting l) ≡ₚ replyCh <$> recv.
Proof. intros He Hr. destruct (run_ok _ _ _ He _ _ _ Hr) as [_ Hk]. apply (k_account _ _ _ _ _ Hk). Qed.

(** C6: a granted device is the right one: it answers a request that was received
    on that channel and was built from the config of the tunnel it asked for. *)
Theorem scheduler_grants now recv l ch d res :
  Eligible.Lookup (eligible o) "" = None ->
  run now recv l -> EReply ch (Granted d res) ∈ effects l ->
  exists req t, req ∈ recv /\ replyCh req = ch /\ res = asResolver d
    /\ EBuild t (configPath req) (Some d) ∈ effects l.
Proof. intros He Hr. destruct (run_ok _ _ _ He _ _ _ Hr) as [_ Hk]. apply (k_grants _ _ _ _ _ Hk). Qed.

(** Shutdown.  When the context is cancelled the loop fails every waiting
    request with the context's error, so that each request received has exactly
    one answer, and closes the live device. *)
Theorem scheduler_shutdown now now' recv l :
  Eligible.Lookup (eligible o) "" = None ->
  run now recv l ->
  effects (onCtxDone now' l) = effects l ++ (failed Ctx <$> waiting l) ++ closed_by now' l
  /\ replied (effects (onCtxDone now' l)) ≡ₚ replyCh <$> recv
  /\ replay None (effects (onCtxDone now' l)) = Some None.
Proof.
  intros He Hr. destruct (run_ok _ _ _ He _ _ _ Hr) as [Hi Hk].
  rewrite (onCtxDone_effects _ _ _ _ _ Hi). split; [done |].
  pose proof (k_replay _ _ _ _ _ Hk) as Hrep. pose proof (k_account _ _ _ _ _ Hk) as Hacc.
  cbn in Hrep, Hacc. rewrite !replied_app, !replay_app, Hrep. cbn [mbind option_bind].
  rewrite replay_app, replay_failed. cbn.
  unfold failed, closed_by. rewrite replied_replies, <- Hacc. cbn.
  unfold phase_of. destruct (currentDevice l) as [d|] eqn:Hd.
  - destruct (i_some _ _ _ _ Hi _ Hd) as [-> _]. cbn. rewrite decide_True by done.
    by rewrite app_nil_r.
  - rewrite app_nil_r. by destruct (settling l).
Qed.

(** C7: liveness.  Without new requests, and with jobs that release the device,
    every waiting request is answered after finitely many iterations, in whatever
    order the loop's events happen and whatever the device builder answers. *)
Theorem scheduler_answers now recv l :
  Eligible.Lookup (eligible o) "" = None ->
  run now recv l -> answered_eventually asResolver asReporter o now l.
Proof. intros He Hr. destruct (run_ok _ _ _ He _ _ _ Hr) as [Hi _]. by apply inv_answered. Qed.

(** Fairness between zones.  When the grace window elapses, the loop closes
    the live device and settles for the zone at the head of the queue, with all
    the requests queued for it. *)
Theorem scheduler_fifo now now' recv l t z rest :
  Eligible.Lookup (eligible o) "" = None ->
  run now recv l -> graceTimer l = Some t -> pendingFIFO l = z :: rest ->
  let l' := onGrace o now' l in
  settling l' = true /\ settleZone l' = z /\ pendingFIFO l' = rest
  /\ pending l !! z = Some (settleBatch l') /\ pending l' !! z = None
  /\ settleTimer l' = Some (now' + settleDelay o) /\ currentDevice l' = None.
Proof.
  intros He Hr Hg Hf. destruct (run_ok _ _ _ He _ _ _ Hr) as [Hi _].
  by apply (grace_head asResolver asReporter o He now' t l z rest Hi Hg Hf).
Qed.

(** A request for the live zone is granted at once, with the live device, and
    cancels the grace and idle timers; nothing else changes. *)
Theorem scheduler_same_zone now now' recv l req d :
  Eligible.Lookup (eligible o) "" = None ->
  run now recv l -> currentDevice l = Some d -> currentZone l = tunnelID req ->
  onReq o now' req l
  = set_timers None None (emit [EReply (replyCh req) (Granted d (asResolver d))]
      (set_active (activeJobs l + 1) l)).
Proof.
  intros He Hr Hd Hz. destruct (run_ok _ _ _ He _ _ _ Hr) as [Hi _].
  destruct (i_some _ _ _ _ Hi _ Hd) as [Hs _]. unfold onReq. rewrite Hs, Hd, Hz, String.eqb_refl.
  pose proof (v_res _ _ _ _ _ _ _ (i_dev _ _ _ _ Hi)) as Hres. rewrite Hd in Hres. by rewrite Hres.
Qed.

(** The health snapshot served to other goroutines is that of the live
    device: no health without a device that reports, else the live zone's. *)
Theorem scheduler_live_health now recv l (lastHandshake : Reporter -> res err Z) :
  Eligible.Lookup (eligible o) "" = None ->
  run now recv l ->
  match currentDevice l ≫= asReporter with
  | None => snd (LiveHealth lastHandshake l) = false
  | Some rep => snd (LiveHealth lastHandshake l) = true
      /\ th_ID (fst (LiveHealth lastHandshake l)) = currentZone l
      /\ (th_Err (fst (LiveHealth lastHandshake l)) = None <-> is_ok (lastHandshake rep) = true)
  end.
Proof.
  intros He Hr. destruct (run_ok _ _ _ He _ _ _ Hr) as [Hi _].
  pose proof (v_rep _ _ _ _ _ _ _ (i_dev _ _ _ _ Hi)) as Hrep.
  pose proof (v_id _ _ _ _ _ _ _ (i_dev _ _ _ _ Hi)) as Hid.
  unfold LiveHealth. rewrite <- Hrep. destruct (snapReporter l) as [rep|]; [| done].
  destruct (lastHandshake rep); cbn; split_and!; done.
Qed.
End Theorems.

(** ** The theorems on the concrete run *)

Lemma scheduler_refines_lease_witness :
  let l := Demo.state Demo.to_grace in
  astep Demo.noResolver Demo.opts 11 EvGrace (lease_of l)
    (lease_of (handle Demo.noResolver Demo.noReporter Demo.opts 11 EvGrace l)).
Proof.
  apply (scheduler_refines_lease Demo.noResolver Demo.noReporter Demo.opts 8 11 _
    (Demo.state Demo.to_grace) EvGrace eq_refl Demo.to_grace_run I).
  vm_compute. reflexivity.
Defined.

Lemma scheduler_one_device_witness :
  replay None (effects (Demo.state Demo.to_second)) = Some (Some 8%nat).
Proof.
  exact (scheduler_one_device Demo.noResolver Demo.noReporter Demo.opts 16 _ _ eq_refl Demo.to_second_run).
Defined.

Lemma scheduler_settle_gap_witness : gaps 5 None (effects (Demo.state Demo.to_second)) = true.
Proof.
  exact (scheduler_settle_gap Demo.noResolver Demo.noReporter Demo.opts 16 _ _ eq_refl Demo.to_second_run).
Defined.

Lemma scheduler_accounting_witness :
  replied (effects (Demo.state Demo.to_grace)) ++ (replyCh <$> waiting (Demo.state Demo.to_grace))
  ≡ₚ [1; 2; 3]%nat.
Proof.
  exact (scheduler_accounting Demo.noResolver Demo.noReporter Demo.opts 8 _ _ eq_refl Demo.to_grace_run).
Defined.

Lemma scheduler_grants_witness :
  exists req t, req ∈ snd (fst (Demo.final Demo.to_second)) /\ replyCh req = 3%nat
    /\ None = Demo.noResolver 8%nat
    /\ EBuild t (configPath req) (Some 8%nat) ∈ effects (Demo.state Demo.to_second).
Proof.
  apply (scheduler_grants Demo.noResolver Demo.noReporter Demo.opts 16 _ _ 3%nat 8%nat None eq_refl
    Demo.to_second_run).
  apply (list_elem_of_lookup_2 _ 6). vm_compute. reflexivity.
Defined.

Lemma scheduler_shutdown_witness :
  replied (effects (onCtxDone 9 (Demo.state Demo.to_grace))) ≡ₚ [1; 2; 3]%nat.
Proof.
  exact (proj1 (proj2 (scheduler_shutdown Demo.noResolver Demo.noReporter Demo.opts 8 9 _ _ eq_refl
    Demo.to_grace_run))).
Defined.

Lemma scheduler_answers_witness :
  answered_eventually Demo.noResolver Demo.noReporter Demo.opts 5 (Demo.state Demo.to_live).
Proof.
  exact (scheduler_answers Demo.noResolver Demo.noReporter Demo.opts 5 _ _ eq_refl Demo.to_live_run).
Defined.

Lemma scheduler_fifo_witness :
  settleZone (onGrace Demo.opts 11 (Demo.state Demo.to_grace)) = "bb".
Proof.
  refine (proj1 (proj2 (scheduler_fifo Demo.noResolver Demo.noReporter Demo.opts 8 11 _
    (Demo.state Demo.to_grace) 11 "bb" [] eq_refl Demo.to_grace_run _ _))); vm_compute; reflexivity.
Defined.

Lemma scheduler_same_zone_witness :
  activeJobs (onReq Demo.opts 6 (Demo.rq "aa" 4) (Demo.state Demo.to_live)) = 3.
Proof.
  rewrite (scheduler_same_zone Demo.noResolver Demo.noReporter Demo.opts 5 6 _
    (Demo.state Demo.to_live) (Demo.rq "aa" 4) 7%nat eq_refl Demo.to_live_run ltac:(vm_compute; reflexivity)
    ltac:(vm_compute; reflexivity)).
  vm_compute. reflexivity.
Defined.

Lemma scheduler_live_health_witness :
  snd (LiveHealth (fun _ => Ok 0) (Demo.state Demo.to_live)) = false.
Proof.
  exact (scheduler_live_health Demo.noResolver Demo.noReporter Demo.opts 5 _ (Demo.state Demo.to_live)
    (fun _ => Ok 0) eq_refl Demo.to_live_run).
Defined.
