(* ===== verification/SchedulerSystem.v ===== *)
(** * The on-demand scheduler with its clients

    [Route] runs in the goroutine of each request and talks to the loop through
    [reqCh], [releaseCh] (both with [schedulerChanBuf] slots) and one reply
    channel with one slot per call.  The system's steps interleave the clients'
    [select]s with the iterations of the loop in any order. *)

From S2P Require Import Prelude GoStrings Domain Eligible Scheduler SchedulerInv SchedulerSpec.
Import Scheduler.

Section System.
Context {Device Resolver Reporter : Type}.
Context (asResolver : Device -> option Resolver) (asReporter : Device -> option Reporter).
Context (o : options) (Hempty : Eligible.Lookup (eligible o) "" = None).
Notation loopState := (@loopState Device Resolver Reporter).
Notation routeReply := (@routeReply Device Resolver).
Notation effect := (@effect Device Resolver).

(** Where a [Route] call stands: before the send on [reqCh], before the receive
    on its reply channel, returned with a device, returned after [release], or
    returned with an error (the context's, or the reply's). *)
Inductive client :=
| CSending (req : routeRequest)
| CWaiting
| CHolding (d : Device)
| CFinished
| CGaveUp
| CFailed (e : err).

Record sys := mkSys {
  clients : gmap nat client;
  reqCh : list routeRequest;
  releaseCh : nat;
  replies : gmap nat routeReply;
  loop : loopState;
  clock : Z;
  running : bool
}.

(** [Route] up to its first select: the lookup. *)
Definition Route_request (tid : string) (ch : nat) : res err routeRequest :=
  match Eligible.Lookup (eligible o) tid with
  | Some p => Ok (mkReq tid p ch)
  | None => Err (Public (PrefixUnknownZone +:+ " " +:+ tid +:+ " is not in the eligible set"))
  end.

(** [Route] after receiving the reply. *)
Definition Route_reply (r : routeReply) : client :=
  match r with Granted d _ => CHolding d | Failed e => CFailed e end.

Fixpoint deliver (es : list effect) (m : gmap nat routeReply) : gmap nat routeReply :=
  match es with
  | [] => m
  | EReply ch r :: es' => deliver es' (<[ch := r]> m)
  | _ :: es' => deliver es' m
  end.

Definition set_client (ch : nat) (c : client) (s : sys) : sys :=
  mkSys (<[ch := c]> (clients s)) (reqCh s) (releaseCh s) (replies s) (loop s) (clock s) (running s).

(** The loop moved to [l']; its new answers reach the reply channels. *)
Definition set_loop (rq : list routeRequest) (rel : nat) (l' : loopState) (run : bool) (s : sys) : sys :=
  mkSys (clients s) rq rel
    (deliver (drop (length (effects (loop s))) (effects l')) (replies s)) l' (clock s) run.

Notation handle := (handle asResolver asReporter o).

Inductive step (s : sys) : sys -> Prop :=
| s_call tid ch req :
    clients s !! ch = None -> replies s !! ch = None -> Route_request tid ch = Ok req ->
    step s (set_client ch (CSending req) s)
| s_send ch req :
    clients s !! ch = Some (CSending req) -> (length (reqCh s) < schedulerChanBuf)%nat ->
    step s (mkSys (<[ch := CWaiting]> (clients s)) (reqCh s ++ [req]) (releaseCh s) (replies s)
              (loop s) (clock s) (running s))
| s_cancel_send ch req :
    clients s !! ch = Some (CSending req) -> step s (set_client ch CGaveUp s)
| s_receive ch r :
    clients s !! ch = Some CWaiting -> replies s !! ch = Some r ->
    step s (mkSys (<[ch := Route_reply r]> (clients s)) (reqCh s) (releaseCh s)
              (delete ch (replies s)) (loop s) (clock s) (running s))
| s_cancel_wait ch :
    clients s !! ch = Some CWaiting -> step s (set_client ch CGaveUp s)
| s_release ch d :
    clients s !! ch = Some (CHolding d) -> (releaseCh s < schedulerChanBuf)%nat ->
    step s (mkSys (<[ch := CFinished]> (clients s)) (reqCh s) (S (releaseCh s)) (replies s)
              (loop s) (clock s) (running s))
| s_release_done ch d :
    clients s !! ch = Some (CHolding d) -> running s = false -> step s (set_client ch CFinished s)
| s_tick t :
    clock s <= t ->
    step s (mkSys (clients s) (reqCh s) (releaseCh s) (replies s) (loop s) t (running s))
| s_loop_req req rest :
    running s = true -> reqCh s = req :: rest ->
    step s (set_loop rest (releaseCh s) (handle (clock s) (EvReq req) (loop s)) true s)
| s_loop_release n :
    running s = true -> releaseCh s = S n ->
    step s (set_loop (reqCh s) n (handle (clock s) EvRelease (loop s)) true s)
| s_loop_timer ev :
    running s = true -> (forall req, ev <> EvReq req) -> ev <> EvRelease ->
    ready (clock s) ev (loop s) = true ->
    step s (set_loop (reqCh s) (releaseCh s) (handle (clock s) ev (loop s)) true s)
| s_stop :
    running s = true ->
    step s (set_loop (reqCh s) (releaseCh s) (onCtxDone (clock s) (loop s)) false s).

Definition start : sys := mkSys ∅ [] 0 ∅ init 0 true.

(** ** Outstanding grants *)

Definition is_granted (r : routeReply) : bool :=
  match r with Granted _ _ => true | Failed _ => false end.
Definition is_holding (c : client) : bool :=
  match c with CHolding _ => true | _ => false end.

(** ** Invariant *)

(** A client whose request or answer is still in a channel or with the loop. *)
Definition busy (c : client) : Prop := c = CWaiting \/ c = CGaveUp.

Definition jobs_of (p : @phase Device) : Z := match p with Live _ _ n => n | _ => 0 end.
Definition dev_of (p : @phase Device) : option Device :=
  match p with Live _ d _ => Some d | _ => None end.

(** Stated on the lease, so that the specification's steps preserve it. *)
Record good (cl : gmap nat client) (rq : list routeRequest) (rel : nat)
    (rp : gmap nat routeReply) (a : @lease Device Resolver) : Prop := {
  g_jobs : jobs_of (ph a) = Z.of_nat (count is_granted rp + count is_holding cl + rel);
  g_granted : forall ch d r, rp !! ch = Some (Granted d r) -> dev_of (ph a) = Some d;
  g_holding : forall ch d, cl !! ch = Some (CHolding d) -> dev_of (ph a) = Some d;
  g_nodup : NoDup (replyCh <$> (rq ++ wait a));
  g_open : Forall (fun req => valid_req o req /\ rp !! replyCh req = None
    /\ exists c, cl !! replyCh req = Some c /\ busy c) (rq ++ wait a);
  g_reply : forall ch r, rp !! ch = Some r -> exists c, cl !! ch = Some c /\ busy c;
  g_sending : forall ch req, cl !! ch = Some (CSending req) -> valid_req o req /\ replyCh req = ch
}.

(** Without jobs nobody holds a device or is about to. *)
Lemma good_no_jobs cl rq rel rp a :
  good cl rq rel rp a -> jobs_of (ph a) = 0 ->
  count is_granted rp = 0%nat /\ count is_holding cl = 0%nat /\ rel = 0%nat
  /\ (forall ch d r, rp !! ch <> Some (Granted d r)) /\ (forall ch d, cl !! ch <> Some (CHolding d)).
Proof.
  intros [Hj _ _ _ _ _ _] H0. rewrite H0 in Hj. split_and!; try lia.
  - intros ch d r E. pose proof (count_pos is_granted _ _ _ E eq_refl). lia.
  - intros ch d E. pose proof (count_pos is_holding _ _ _ E eq_refl). lia.
Qed.

(** The open requests move between the channel and the loop. *)
Lemma good_move cl rq rq' rel rp p p' w w' lg lg' :
  good cl rq rel rp (mkLease p w lg) -> rq ++ w ≡ₚ rq' ++ w' ->
  jobs_of p' = jobs_of p -> (dev_of p' = dev_of p \/ jobs_of p = 0) ->
  good cl rq' rel rp (mkLease p' w' lg').
Proof.
  intros Hg Hw Hj Hd. pose proof (good_no_jobs _ _ _ _ _ Hg) as H0. destruct Hg. cbn in *.
  split; cbn; try done.
  - by rewrite Hj.
  - intros ch d r E. destruct Hd as [->|Hz]; [by eauto |].
    destruct (H0 Hz) as (_ & _ & _ & H & _). by destruct (H ch d r).
  - intros ch d E. destruct Hd as [->|Hz]; [by eauto |].
    destruct (H0 Hz) as (_ & _ & _ & _ & H). by destruct (H ch d).
  - by rewrite <- Hw.
  - by rewrite <- Hw.
Qed.

Fixpoint deliver_all (r : routeReply) (batch : list routeRequest) (m : gmap nat routeReply) :=
  match batch with [] => m | req :: batch' => <[replyCh req := r]> (deliver_all r batch' m) end.

Lemma deliver_all_swap r batch m ch :
  ch ∉ replyCh <$> batch ->
  deliver_all r batch (<[ch := r]> m) = <[ch := r]> (deliver_all r batch m).
Proof.
  induction batch as [|q batch IH]; [done |]. cbn. intros Hch. rewrite IH by set_solver.
  apply insert_insert_ne. set_solver.
Qed.

Lemma deliver_fmap (r : routeReply) batch m es :
  NoDup (replyCh <$> batch) ->
  deliver (((fun q => EReply (replyCh q) r) <$> batch) ++ es) m = deliver es (deliver_all r batch m).
Proof.
  intros Hnd. revert m Hnd. induction batch as [|q batch IH]; intros m Hnd; [done |]. cbn in *.
  apply NoDup_cons in Hnd as [Hq Hnd]. rewrite IH by done. by rewrite deliver_all_swap.
Qed.

Lemma deliver_all_lookup r batch m ch x :
  deliver_all r batch m !! ch = Some x ->
  (ch ∈ replyCh <$> batch /\ x = r) \/ m !! ch = Some x.
Proof.
  induction batch as [|q batch IH]; cbn; [by right |].
  rewrite lookup_insert_Some. intros [[<- <-]|[Hne H]]; [left; set_solver |].
  destruct (IH H) as [[? ?]|?]; [left; set_solver | by right].
Qed.

Lemma deliver_all_other r batch m ch :
  ch ∉ replyCh <$> batch -> deliver_all r batch m !! ch = m !! ch.
Proof.
  induction batch as [|q batch IH]; cbn; [done |]. intros Hch.
  rewrite lookup_insert_ne by set_solver. apply IH. set_solver.
Qed.

Lemma deliver_all_count r batch m :
  NoDup (replyCh <$> batch) -> Forall (fun q => m !! replyCh q = None) batch ->
  count is_granted (deliver_all r batch m)
  = ((if is_granted r then length batch else 0) + count is_granted m)%nat.
Proof.
  induction batch as [|q batch IH]; cbn; [by destruct (is_granted r) |].
  intros [Hq Hnd]%NoDup_cons [Hm Hall]%Forall_cons.
  rewrite count_insert by (by rewrite deliver_all_other). rewrite IH by done.
  destruct (is_granted r); lia.
Qed.

(** The loop answers a batch. *)
Lemma good_answer cl rq rq' rel rp p p' w w' lg lg' batch rep :
  good cl rq rel rp (mkLease p w lg) -> rq ++ w ≡ₚ batch ++ rq' ++ w' ->
  jobs_of p' = jobs_of p + (if is_granted rep then Z.of_nat (length batch) else 0) ->
  (dev_of p' = dev_of p \/ jobs_of p = 0) ->
  (forall d r, rep = Granted d r -> dev_of p' = Some d) ->
  NoDup (replyCh <$> batch) /\ good cl rq' rel (deliver_all rep batch rp) (mkLease p' w' lg').
Proof.
  intros Hg Hw Hj Hd Hr. pose proof (good_no_jobs _ _ _ _ _ Hg) as H0. destruct Hg. cbn in *.
  rewrite Hw in g_nodup0. rewrite fmap_app in g_nodup0. apply NoDup_app in g_nodup0 as (Hn1 & Hn12 & Hn2).
  rewrite Hw in g_open0. apply Forall_app in g_open0 as [Ho1 Ho2].
  split; [done |]. split; cbn; try done.
  - rewrite deliver_all_count; [| done | by eapply Forall_impl; [exact Ho1 |]; intros ? (_ & ? & _)].
    rewrite Hj, g_jobs0. destruct (is_granted rep); lia.
  - intros ch d r [[_ E]|E]%deliver_all_lookup; [by eapply Hr |].
    destruct Hd as [->|Hz]; [by eauto |]. destruct (H0 Hz) as (_ & _ & _ & H & _). by destruct (H ch d r).
  - intros ch d E. destruct Hd as [->|Hz]; [by eauto |].
    destruct (H0 Hz) as (_ & _ & _ & _ & H). by destruct (H ch d).
  - apply Forall_forall. intros q Hq. rewrite Forall_forall in Ho2.
    destruct (Ho2 q Hq) as (Hv & Hrp & Hc). split_and!; try done. rewrite deliver_all_other; [done |].
    intros Hin. apply (Hn12 _ Hin). apply list_elem_of_fmap. eauto.
  - intros ch r [[Hin _]|E]%deliver_all_lookup; [| by eauto].
    apply list_elem_of_fmap in Hin as (q & -> & Hq). rewrite Forall_forall in Ho1.
    by destruct (Ho1 q Hq) as (_ & _ & ?).
Qed.

Definition taken (ev : @event Device) : list routeRequest :=
  match ev with EvReq req => [req] | _ => [] end.
Definition released (ev : @event Device) : nat := match ev with EvRelease => 1 | _ => 0 end.
Definition news (a a' : @lease Device Resolver) : list effect := drop (length (log a)) (log a').

Lemma news_app p w p' w' (lg es : list effect) : news (mkLease p w lg) (mkLease p' w' (lg ++ es)) = es.
Proof. unfold news; cbn. apply drop_app_length. Qed.

Lemma news_same p w p' w' (lg : list effect) : news (mkLease p w lg) (mkLease p' w' lg) = [].
Proof. unfold news; cbn. apply drop_all. Qed.

(** Every step of the specification keeps the clients consistent. *)
Lemma good_astep now ev cl rq rel rp a a' :
  good cl (taken ev ++ rq) (released ev + rel) rp a -> astep asResolver o now ev a a' ->
  good cl rq rel (deliver (news a a') rp) a'.
Proof.
  intros Hg Hs. destruct Hs; rewrite ?news_app, ?news_same; cbn [deliver taken released app Nat.add] in *.
  - eapply good_move; [done | | done | by left]. rewrite H. cbn. by rewrite Permutation_middle.
  - eapply good_move; [done | | done | by left]. rewrite H. cbn. by rewrite Permutation_middle.
  - eapply (good_answer _ _ rq _ _ _ _ _ w _ _ [req] (Granted d (asResolver d))) in Hg as [_ Hg];
      [apply Hg | done | cbn; lia | by left | by intros ? ? [= <- _]].
  - eapply good_move; [done | | done | by left]. rewrite H0. cbn. by rewrite Permutation_middle.
  - destruct Hg. split; cbn in *; try done. lia.
  - destruct Hg as [Hj _ _ _ _ _ _]. destruct p; cbn in Hj; try lia. by destruct (H z d jobs).
  - eapply good_move; [done | | done | by right]. by rewrite H0.
  - eapply good_move; [done | done | done | by right].
  - destruct H1 as (Hw & _). unfold granted.
    eapply (good_answer _ _ rq _ _ _ (Live z d (Z.of_nat (length batch))) _ w' _ _ batch
      (Granted d (asResolver d))) in Hg as [Hnd Hg].
    + rewrite deliver_fmap by done. apply Hg.
    + rewrite Hw. solve_Permutation.
    + done.
    + by right.
    + by intros ? ? [= <- _].
  - destruct H1 as (Hw & _). rewrite <- (app_nil_r (failed _ <$> batch)). unfold failed.
    eapply (good_answer _ _ rq _ _ _ Idle _ [] _ _ batch (Failed (bringUpError z))) in Hg as [Hnd Hg].
    + rewrite deliver_fmap by done. apply Hg.
    + rewrite Hw. solve_Permutation.
    + done.
    + by left.
    + done.
  - destruct H1 as (Hw & _). rewrite <- (app_nil_r (failed _ <$> batch)). unfold failed.
    eapply (good_answer _ _ rq _ _ _ (Settling z' (now + settleDelay o)) _ w' _ _ batch
      (Failed (bringUpError z))) in Hg as [Hnd Hg].
    + rewrite deliver_fmap by done. apply Hg.
    + rewrite Hw. solve_Permutation.
    + done.
    + by left.
    + done.
Qed.

(** ** The clients' steps *)

Lemma good_set_client cl rq rel rp a ch c' :
  good cl rq rel rp a -> is_holding c' = false ->
  (forall c, cl !! ch = Some c -> is_holding c = false /\ (busy c -> busy c')) ->
  (forall req, c' = CSending req -> valid_req o req /\ replyCh req = ch) ->
  good (<[ch := c']> cl) rq rel rp a.
Proof.
  intros [] Hh Hc Hsnd.
  assert (forall k, (exists c, cl !! k = Some c /\ busy c) ->
    exists c, <[ch := c']> cl !! k = Some c /\ busy c) as Hbusy.
  { intros k (c & Hk & Hb). destruct (decide (ch = k)) as [->|Hne].
    - exists c'. rewrite lookup_insert_eq. split; [done |]. by eapply Hc.
    - exists c. by rewrite lookup_insert_ne. }
  split; try done.
  - rewrite g_jobs0. do 2 f_equal. destruct (cl !! ch) as [c|] eqn:E.
    + pose proof (count_update is_holding _ _ _ c' E) as Hu. rewrite Hh in Hu.
      destruct (Hc c eq_refl) as [Hcf _]. rewrite Hcf in Hu. lia.
    + rewrite count_insert, Hh by done. lia.
  - intros k d. rewrite lookup_insert_Some. intros [[_ ->]|[_ ?]]; [done | by eauto].
  - eapply Forall_impl; [exact g_open0 |]. cbn. intros q (? & ? & ?). split_and!; auto.
  - intros k r Hk. eauto.
  - intros k q. rewrite lookup_insert_Some. intros [[<- ->]|[_ ?]]; eauto.
Qed.

(** A channel of a client that is not busy is in nobody's hands. *)
Lemma good_fresh cl rq rel rp a ch c :
  good cl rq rel rp a -> cl !! ch = Some c -> ~ busy c ->
  rp !! ch = None /\ ch ∉ replyCh <$> (rq ++ wait a).
Proof.
  intros [] Hc Hb. split.
  - destruct (rp !! ch) as [r|] eqn:E; [| done]. destruct (g_reply0 _ _ E) as (? & ? & ?). congruence.
  - intros (q & -> & Hq)%list_elem_of_fmap. rewrite Forall_forall in g_open0.
    destruct (g_open0 q Hq) as (_ & _ & ? & ? & ?). congruence.
Qed.

Lemma good_send cl rq rel rp a ch req :
  good cl rq rel rp a -> cl !! ch = Some (CSending req) ->
  good (<[ch := CWaiting]> cl) (rq ++ [req]) rel rp a.
Proof.
  intros Hg Hc.
  destruct (good_fresh _ _ _ _ _ _ _ Hg Hc) as [Hrp Hch]; [by intros [?|?] |].
  destruct (g_sending _ _ _ _ _ Hg _ _ Hc) as [Hv <-].
  assert (good (<[replyCh req := CWaiting]> cl) rq rel rp a) as Hg'.
  { apply good_set_client; try done. intros c Hc'. rewrite Hc in Hc'. injection Hc' as <-.
    split; [done |]. by intros [?|?]. }
  destruct Hg'. split; try done.
  - rewrite <- app_assoc. cbn. rewrite <- Permutation_middle. cbn. by apply NoDup_cons.
  - rewrite <- app_assoc. cbn. rewrite <- Permutation_middle. constructor; [| done].
    split_and!; try done. exists CWaiting. rewrite lookup_insert_eq. split; [done | by left].
Qed.

Lemma good_receive cl rq rel rp a ch r :
  good cl rq rel rp a -> cl !! ch = Some CWaiting -> rp !! ch = Some r ->
  good (<[ch := Route_reply r]> cl) rq rel (delete ch rp) a.
Proof.
  intros [] Hc Hr.
  assert (forall q, q ∈ rq ++ wait a -> replyCh q <> ch) as Hne.
  { intros q Hq <-. rewrite Forall_forall in g_open0. destruct (g_open0 q Hq) as (_ & ? & _). congruence. }
  split; try done.
  - rewrite g_jobs0. pose proof (count_update is_holding _ _ _ (Route_reply r) Hc) as Hu.
    rewrite (count_delete is_granted _ _ _ Hr). cbn in Hu. destruct r; cbn in *; lia.
  - intros k d res [_ Hk]%lookup_delete_Some. eauto.
  - intros k d. rewrite lookup_insert_Some. intros [[_ E]|[_ ?]]; [| by eauto].
    destruct r; [| done]. injection E as <-. eauto.
  - apply Forall_forall. intros q Hq. rewrite Forall_forall in g_open0.
    destruct (g_open0 q Hq) as (? & ? & ? & ? & ?). specialize (Hne q Hq).
    rewrite lookup_delete_ne, lookup_insert_ne by done. eauto.
  - intros k x [Hk ?]%lookup_delete_Some. rewrite lookup_insert_ne by done. eauto.
  - intros k q. rewrite lookup_insert_Some. intros [[_ E]|[_ ?]]; [by destruct r | by eauto].
Qed.

Lemma good_release cl rq rel rp a ch d :
  good cl rq rel rp a -> cl !! ch = Some (CHolding d) ->
  good (<[ch := CFinished]> cl) rq (S rel) rp a.
Proof.
  intros Hg Hc. destruct (good_fresh _ _ _ _ _ _ _ Hg Hc) as [Hrp Hch]; [by intros [?|?] |].
  destruct Hg. split; try done.
  - rewrite g_jobs0. pose proof (count_update is_holding _ _ _ CFinished Hc) as Hu. cbn in Hu. lia.
  - intros k d'. rewrite lookup_insert_Some. intros [[_ ?]|[_ ?]]; [done | by eauto].
  - apply Forall_forall. intros q Hq. rewrite Forall_forall in g_open0.
    destruct (g_open0 q Hq) as (? & ? & ? & ? & ?). rewrite lookup_insert_ne; [by eauto |].
    intros ->. apply Hch, list_elem_of_fmap. eauto.
  - intros k x Hk. rewrite lookup_insert_ne; [by eauto |]. congruence.
  - intros k q. rewrite lookup_insert_Some. intros [[_ ?]|[_ ?]]; [done | by eauto].
Qed.

(** ** Reachable states *)

Definition sys_ok (s : sys) : Prop :=
  running s = true ->
  inv asResolver asReporter o (loop s)
  /\ good (clients s) (reqCh s) (releaseCh s) (replies s) (lease_of (loop s)).

Lemma sys_ok_start : sys_ok start.
Proof.
  intros _. split; [apply init_inv |]. unfold lease_of, phase_of, waiting. cbn. rewrite queued_empty.
  split; cbn; try done; try constructor.
Qed.

Lemma sys_ok_loop ev s rq rel :
  sys_ok s -> running s = true -> reqCh s = taken ev ++ rq -> releaseCh s = (released ev + rel)%nat ->
  ready (clock s) ev (loop s) = true ->
  sys_ok (set_loop rq rel (handle (clock s) ev (loop s)) true s).
Proof.
  intros Hok Hr Hq Hrel Hrd _. destruct (Hok Hr) as [Hi Hg]. rewrite Hq, Hrel in Hg.
  assert (valid_event o ev) as Hv.
  { destruct ev; try done. destruct Hg as [_ _ _ _ Ho _ _]. cbn in Ho.
    by apply Forall_cons in Ho as [(? & _) _]. }
  split; cbn; [by apply handle_inv |]. 
  refine (good_astep (clock s) ev _ _ _ _ _ (lease_of (handle (clock s) ev (loop s))) Hg _).
  by apply handle_refines.
Qed.

Lemma step_ok s s' : sys_ok s -> step s s' -> sys_ok s'.
Proof.
  intros Hok Hs. destruct Hs.
  - intros Hr. destruct (Hok Hr) as [Hi Hg]. split; [done |]. apply good_set_client; try done.
    + intros c Hc. congruence.
    + intros q [= <-]. unfold Route_request in H1.
      destruct (Eligible.Lookup (eligible o) tid) eqn:E; [| done]. injection H1 as <-. done.
  - intros Hr. destruct (Hok Hr) as [Hi Hg]. split; [done |]. by apply good_send.
  - intros Hr. destruct (Hok Hr) as [Hi Hg]. split; [done |]. apply good_set_client; try done.
    intros c Hc. rewrite H in Hc. injection Hc as <-. split; [done |]. by right.
  - intros Hr. destruct (Hok Hr) as [Hi Hg]. split; [done |]. by apply good_receive.
  - intros Hr. destruct (Hok Hr) as [Hi Hg]. split; [done |]. apply good_set_client; try done.
    intros c Hc. rewrite H in Hc. injection Hc as <-. split; [done |]. by right.
  - intros Hr. destruct (Hok Hr) as [Hi Hg]. split; [done |]. by eapply good_release.
  - intros Hr. cbn in Hr. congruence.
  - intros Hr. destruct (Hok Hr) as [Hi Hg]. by split.
  - apply (sys_ok_loop (EvReq req)); auto.
  - apply (sys_ok_loop EvRelease); auto.
  - apply (sys_ok_loop ev); auto; destruct ev; try done. by destruct (H0 req).
  - by intros ?.
Qed.

Definition reach (s : sys) : Prop := reachable (fun s0 => s0 = start) step s.

Lemma reach_ok s : reach s -> sys_ok s.
Proof.
  apply reachable_invariant; [intros ? ->; apply sys_ok_start |]. intros s1 s2 _. apply step_ok.
Qed.

Lemma phase_device l :
  inv asResolver asReporter o l ->
  currentDevice l = dev_of (phase_of l) /\ activeJobs l = jobs_of (phase_of l).
Proof.
  intros Hi. unfold phase_of. destruct (currentDevice l) as [d|] eqn:Hd.
  - by destruct (i_some _ _ _ _ Hi _ Hd) as [-> _].
  - destruct (i_none _ _ _ _ Hi Hd) as (Ha & _). by destruct (settling l).
Qed.

Lemma running_step s s' : step s s' -> running s' = true -> running s = true.
Proof. destruct 1; cbn; congruence. Qed.

(** An answer stays in its channel when nobody receives it. *)
Lemma deliver_keeps cl rq rel rp a now ev a' ch r :
  good cl (taken ev ++ rq) (released ev + rel) rp a -> astep asResolver o now ev a a' ->
  rp !! ch = Some r -> deliver (news a a') rp !! ch = Some r.
Proof.
  intros Hg Hs Hr.
  assert (forall batch rep es w', (taken ev ++ rq) ++ wait a ≡ₚ batch ++ w' ->
    deliver (((fun q => EReply (replyCh q) rep) <$> batch) ++ es) rp !! ch
    = deliver es (deliver_all rep batch rp) !! ch /\ deliver_all rep batch rp !! ch = Some r) as Hkey.
  { intros batch rep es w' Hw. destruct Hg as [_ _ _ Hnd Ho _ _]. rewrite Hw in Hnd, Ho.
    rewrite fmap_app in Hnd. apply NoDup_app in Hnd as (Hn & _ & _). apply Forall_app in Ho as [Ho _].
    rewrite deliver_fmap by done. split; [done |]. rewrite deliver_all_other; [done |].
    intros (q & -> & Hq)%list_elem_of_fmap. rewrite Forall_forall in Ho.
    destruct (Ho q Hq) as (_ & ? & _). congruence. }
  destruct Hs; rewrite ?news_app, ?news_same; try done; cbn [deliver].
  - by destruct (Hkey [req] (Granted d (asResolver d)) [] (rq ++ w)) as [_ ?].
  - destruct H1 as (Hw & _). unfold granted.
    destruct (Hkey batch (Granted d (asResolver d)) [notifyChange path d] (rq ++ w')) as [-> ?]; [| done].
    cbn. rewrite Hw. solve_Permutation.
  - destruct H1 as (Hw & _). rewrite <- (app_nil_r (failed _ <$> batch)). unfold failed.
    destruct (Hkey batch (Failed (bringUpError z)) [] rq) as [-> ?]; [| done].
    cbn. rewrite Hw. solve_Permutation.
  - destruct H1 as (Hw & _). rewrite <- (app_nil_r (failed _ <$> batch)). unfold failed.
    destruct (Hkey batch (Failed (bringUpError z)) [] (rq ++ w')) as [-> ?]; [| done].
    cbn. rewrite Hw. solve_Permutation.
Qed.

(** A grant nobody will collect: the client returned with its context's error. *)
Definition abandoned (ch : nat) (d : Device) (s : sys) : Prop :=
  clients s !! ch = Some CGaveUp /\ exists r, replies s !! ch = Some (Granted d r).

Lemma astep_live now ev a a' z d n :
  astep asResolver o now ev a a' -> ph a = Live z d n -> n <> 0 ->
  (exists n', ph a' = Live z d n') /\ (forall req, req ∈ wait a -> req ∈ wait a').
Proof.
  intros Hs Hp Hn. destruct Hs; cbn in *; simplify_eq; try done.
  - by eauto.
  - split; [by eauto |]. intros q Hq. rewrite H0. by right.
  - by eauto.
  - by destruct (H z d n).
Qed.

Lemma abandoned_step ch z d s s' :
  sys_ok s -> step s s' -> running s' = true -> abandoned ch d s ->
  (exists n, phase_of (loop s) = Live z d n) ->
  abandoned ch d s' /\ (exists n, phase_of (loop s') = Live z d n)
  /\ (forall req, req ∈ waiting (loop s) -> req ∈ waiting (loop s')).
Proof.
  intros Hok Hst Hr' [Hc [r Hrp]] [n Hp].
  pose proof (running_step _ _ Hst Hr') as Hr. destruct (Hok Hr) as [Hi Hg].
  assert (n <> 0) as Hn.
  { pose proof (g_jobs _ _ _ _ _ Hg) as Hj. cbn in Hj. rewrite Hp in Hj. cbn in Hj.
    pose proof (count_pos is_granted _ _ _ Hrp eq_refl). lia. }
  assert (forall ev rq rel, reqCh s = taken ev ++ rq -> releaseCh s = (released ev + rel)%nat ->
    ready (clock s) ev (loop s) = true ->
    let s' := set_loop rq rel (handle (clock s) ev (loop s)) true s in
    abandoned ch d s' /\ (exists n, phase_of (loop s') = Live z d n)
    /\ (forall req, req ∈ waiting (loop s) -> req ∈ waiting (loop s'))) as Hloop.
  { intros ev rq rel Hq Hrel Hrd. rewrite Hq, Hrel in Hg.
    assert (valid_event o ev) as Hv.
    { destruct ev; try done. destruct Hg as [_ _ _ _ Ho _ _]. cbn in Ho.
      by apply Forall_cons in Ho as [(? & _) _]. }
    pose proof (handle_refines asResolver asReporter o Hempty _ _ _ Hi Hv Hrd) as Hs.
    destruct (astep_live _ _ _ _ _ _ _ Hs Hp Hn) as [? ?]. split; [| done].
    split; [done |]. exists r. by apply (deliver_keeps _ _ _ _ _ _ _ _ _ _ Hg Hs). }
  assert (forall k c', (forall c, clients s !! k = Some c -> c <> CGaveUp) ->
    <[k := c']> (clients s) !! ch = Some CGaveUp) as Hset.
  { intros k c' Hk. rewrite lookup_insert_ne; [done |]. intros ->. by destruct (Hk _ Hc). }
  destruct Hst; [| | | | | | | | by apply (Hloop (EvReq req)) | by apply (Hloop EvRelease)
    | by apply (Hloop ev); auto; destruct ev; try done; destruct (H0 req) | done];
    (split; [| by eauto]); split; cbn; try (apply Hset; intros c Hc'; congruence); eauto.
  exists r. rewrite lookup_delete_ne; [done |]. congruence.
Qed.

(** C2: while the scheduler runs, a client that holds a device and has not
    released it holds the live one: no interleaving of clients and loop closes the
    device under a client or grants a second one. *)
Theorem holder_device_live s ch d :
  reach s -> running s = true -> clients s !! ch = Some (CHolding d) ->
  currentDevice (loop s) = Some d.
Proof.
  intros Hre Hr Hc. destruct (reach_ok s Hre Hr) as [Hi Hg].
  rewrite (proj1 (phase_device _ Hi)). exact (g_holding _ _ _ _ _ Hg _ _ Hc).
Qed.

(** The loop's job counter is exact: it counts the grants in reply channels,
    the clients that hold a device and the releases in flight. *)
Theorem active_jobs_exact s :
  reach s -> running s = true ->
  activeJobs (loop s)
  = Z.of_nat (count is_granted (replies s) + count is_holding (clients s) + releaseCh s).
Proof.
  intros Hre Hr. destruct (reach_ok s Hre Hr) as [Hi Hg].
  rewrite (proj2 (phase_device _ Hi)). exact (g_jobs _ _ _ _ _ Hg).
Qed.

(** A cancelled caller wedges the scheduler: once a [Route] call returned
    with its context's error while its grant is in the reply channel, as long as the
    scheduler runs its device stays live in the same zone, with at least one job,
    and every request waiting for another zone waits forever. *)
Theorem abandoned_grant_wedges s s' ch z d n :
  reach s -> abandoned ch d s -> running s = true -> phase_of (loop s) = Live z d n ->
  rtc step s s' -> running s' = true ->
  (exists n', 0 < n' /\ phase_of (loop s') = Live z d n')
  /\ (forall req, req ∈ waiting (loop s) -> req ∈ waiting (loop s')).
Proof.
  intros Hre Hab Hr Hp Hrtc Hr'.
  assert (reach s' /\ abandoned ch d s' /\ (exists n, phase_of (loop s') = Live z d n)
    /\ (forall req, req ∈ waiting (loop s) -> req ∈ waiting (loop s'))) as (Hre' & [_ [r Hrp]] & [n' Hp'] & Hw).
  { revert s' Hrtc Hr'. apply (rtc_ind_r (fun s' => running s' = true -> _)); [by eauto 6 |].
    intros s1 s2 _ Hstep IH Hr2.
    destruct (IH (running_step _ _ Hstep Hr2)) as (Hre1 & Hab1 & Hp1 & Hw1).
    destruct (abandoned_step ch z d s1 s2 (reach_ok _ Hre1) Hstep Hr2 Hab1 Hp1) as (? & ? & ?).
    split_and!; auto. by eapply reachable_step. }
  split; [| done]. exists n'. split; [| done].
  destruct (reach_ok s' Hre' Hr') as [Hi Hg]. pose proof (g_jobs _ _ _ _ _ Hg) as Hj.
  cbn in Hj. rewrite Hp' in Hj. cbn in Hj. pose proof (count_pos is_granted _ _ _ Hrp eq_refl). lia.
Qed.
End System.

(** ** A run with a cancelled caller

    Caller 1 asks for zone [aa] and gives up after the device is up; caller 2
    asks for [bb]. *)
Module SystemDemo.
Definition zones : Eligible.EligibleSet :=
  Eligible.mkSet {[ "aa" := Eligible.mkEntry "aa" "aa" "/t/aa.conf";
                    "bb" := Eligible.mkEntry "bb" "bb" "/t/bb.conf" ]} ["aa"; "bb"].
Definition opts : options := mkOptions zones 5 3 20.
Definition nores (d : nat) : option unit := None.
Notation system := (@sys nat unit unit).
Notation stepd := (step nores nores opts).

Definition req_of (z : string) (ch : nat) : routeRequest := mkReq z ("/t/" +:+ z +:+ ".conf") ch.
Definition h (now : Z) (ev : event) (s : system) := handle nores nores opts now ev (loop s).

Definition s1 : system := set_client 1 (CSending (req_of "aa" 1)) start.
Definition s2 : system := mkSys (<[1%nat := CWaiting]> (clients s1)) [req_of "aa" 1] 0 ∅ init 0 true.
Definition s3 : system := set_loop [] 0 (h 0 (EvReq (req_of "aa" 1)) s2) true s2.
Definition s4 : system :=
  mkSys (clients s3) (reqCh s3) (releaseCh s3) (replies s3) (loop s3) 5 (running s3).
Definition s5 : system := set_loop [] 0 (h 5 (EvSettle (Some 7%nat)) s4) true s4.

Lemma s5_reach : reach nores nores opts s5.
Proof.
  exists start. split; [done |].
  eapply (rtc_l _ _ s1); [apply (s_call _ _ _ _ "aa" 1 (req_of "aa" 1)); vm_compute; reflexivity |].
  eapply (rtc_l _ _ s2); [apply (s_send _ _ _ s1 1 (req_of "aa" 1)); vm_compute; [reflexivity | lia] |].
  eapply (rtc_l _ _ s3); [apply (s_loop_req _ _ _ s2 (req_of "aa" 1) []); vm_compute; reflexivity |].
  eapply (rtc_l _ _ s4); [apply (s_tick _ _ _ s3 5); vm_compute; congruence |].
  eapply (rtc_l _ _ s5); [| apply rtc_refl].
  apply (s_loop_timer _ _ _ s4 (EvSettle (Some 7%nat))); done.
Qed.

Definition s6 : system := set_client 1 CGaveUp s5.
Definition s6h : system :=
  mkSys (<[1%nat := CHolding 7%nat]> (clients s5)) [] 0 (delete 1%nat (replies s5)) (loop s5) 5 true.

Lemma s6_reach : reach nores nores opts s6.
Proof.
  eapply reachable_step; [apply s5_reach |]. apply s_cancel_wait. vm_compute. reflexivity.
Qed.

Lemma s6h_reach : reach nores nores opts s6h.
Proof.
  eapply reachable_step; [apply s5_reach |].
  apply (s_receive _ _ _ s5 1 (Granted 7%nat None)); vm_compute; reflexivity.
Qed.
End SystemDemo.

Lemma holder_device_live_witness : currentDevice (loop SystemDemo.s6h) = Some 7%nat.
Proof.
  apply (holder_device_live SystemDemo.nores SystemDemo.nores SystemDemo.opts eq_refl _ 1 7%nat
    SystemDemo.s6h_reach); vm_compute; reflexivity.
Defined.

Lemma active_jobs_exact_witness : activeJobs (loop SystemDemo.s6h) = 1.
Proof.
  rewrite (active_jobs_exact SystemDemo.nores SystemDemo.nores SystemDemo.opts eq_refl _
    SystemDemo.s6h_reach eq_refl). vm_compute. reflexivity.
Defined.

Lemma abandoned_grant_wedges_witness :
  exists n', 0 < n' /\ phase_of (loop SystemDemo.s6) = Live "aa" 7%nat n'.
Proof.
  refine (proj1 (abandoned_grant_wedges SystemDemo.nores SystemDemo.nores SystemDemo.opts eq_refl
    SystemDemo.s6 SystemDemo.s6 1 "aa" 7%nat 1 SystemDemo.s6_reach _ eq_refl _ (rtc_refl _ _) eq_refl)).
  - split; [vm_compute; reflexivity | exists None; vm_compute; reflexivity].
  - vm_compute. reflexivity.
Defined.
