(* ===== verification/Supervisor.v ===== *)
(** * The streaming supervisor ([internal/application/tunnelpool/supervisor.go])

    One goroutine ([loop]) keeps one WireGuard device alive: it polls the
    handshake age, reconnects with exponential backoff and serves rotation
    requests.  The state is the record [sup]; where the goroutine waits is its
    field [at_] (the loop's [select] or the settle of [handleRotate]).  Between two
    waits the code runs to completion at one reading [now] of the clock.  The
    random index of [RandomPath], the device builder's answer, the handshake query
    and the readings of [busy] are arguments of the handlers.  Log lines are not
    modelled. *)

From S2P Require Import Prelude GoStrings Domain Eligible.

Module Supervisor.

Inductive RotateOutcome := RotateRotated | RotateSkippedActive | RotateUnavailable.

#[export] Instance RotateOutcome_eq_dec : EqDecision RotateOutcome.
Proof. solve_decision. Defined.

Record RotateResult := mkRotateResult { rr_Outcome : RotateOutcome; rr_Country : string }.

Definition DefaultHandshakeMaxAge : Z := 180 * Second.

Record options := mkOptions {
  eligible : Eligible.EligibleSet;
  handshakeMaxAge : Z;
  reconnectMin : Z;
  reconnectMax : Z;
  pollInterval : Z;
  rotateSettle : Z
}.

(** [NewStreamingSupervisor]: [None] is a panic on a missing field. *)
Definition NewStreamingSupervisor (e : option Eligible.EligibleSet)
    (maxAge rmin rmax poll settle : Z) (configDir : string) : option options :=
  match e with
  | None => None
  | Some e =>
      if (maxAge <=? 0) || (rmin <=? 0) || (rmax <? rmin) || (settle <=? 0)
         || String.eqb configDir "" then None
      else
        let p := if poll <=? 0 then
                   let third := Z.quot maxAge 3 in
                   if third <? 10 * Second then 10 * Second else third
                 else poll in
        Some (mkOptions e maxAge rmin rmax p settle)
  end.

(** [growBackoff], on 64-bit durations. *)
Definition growBackoff (d max : Z) : Z :=
  if d <=? 0 then max
  else
    let doubled := wrap64 (d * 2) in
    if (max <? doubled) || (doubled <=? 0) then max else doubled.

Definition tunnelIDFromPath (path : string) : string := TrimSuffix (Base path) ".conf".

Section Supervisor.
Context {Device Reporter : Type} (asReporter : Device -> option Reporter).

Inductive effect :=
| SBuild (t : Z) (path : string) (d : option Device)
| SClose (t : Z) (d : Device) (gap : Z)
| SNotify (ev : TunnelChangeEvent Device)
| SReply (ch : nat) (r : RotateResult).

(** A rotation request as the loop sees it: its reply channel is a number. *)
Record rotateReq := mkRotateReq { force : bool; reply : nat }.

Inductive waitPoint :=
| AtSelect (since : Z)
| AtSettle (since : Z) (req : rotateReq)
| Exited.

Record sup := mkSup {
  device : option Device;
  deviceID : string;
  reporter : option Reporter;
  backoff : Z;
  at_ : waitPoint;
  effects : list effect
}.

Definition set_dev (d : option Device) (id : string) (rep : option Reporter) (s : sup) : sup :=
  mkSup d id rep (backoff s) (at_ s) (effects s).
Definition set_backoff (b : Z) (s : sup) : sup :=
  mkSup (device s) (deviceID s) (reporter s) b (at_ s) (effects s).
Definition set_at (w : waitPoint) (s : sup) : sup :=
  mkSup (device s) (deviceID s) (reporter s) (backoff s) w (effects s).
Definition emit (es : list effect) (s : sup) : sup :=
  mkSup (device s) (deviceID s) (reporter s) (backoff s) (at_ s) (effects s ++ es).

Definition notifyChange (title id : string) (d : Device) : effect :=
  SNotify (mkEvent SourceStreaming title (Eligible.countryFromBasename id) (id +:+ ".conf") (Some d)).

(** [build]: the device with its id and reporter, when the builder succeeds. *)
Definition build (path : string) (built : option Device)
    : option (Device * string * option Reporter) :=
  match built with
  | None => None
  | Some d => Some (d, tunnelIDFromPath path, asReporter d)
  end.

Definition swapDevice (d : Device) (id : string) (rep : option Reporter) (s : sup) : sup :=
  set_dev (Some d) id rep s.

(** [gap] records how long the session is kept free before the next build. *)
Definition teardown (now gap : Z) (s : sup) : sup :=
  match device s with
  | Some d => emit [SClose now d gap] (set_dev None "" None s)
  | None => set_dev None "" None s
  end.

Definition shutdown (now : Z) (s : sup) : sup := set_at Exited (teardown now 0 s).

(** [isHealthy]: the query's answer, [None] without a reporter. *)
Definition isHealthy (o : options) (now : Z) (answer : option (res err Z)) : bool * string :=
  match answer with
  | None => (true, "")
  | Some (Err _) => (false, "health_query_error")
  | Some (Ok hs) =>
      if IsZero hs then (false, "no_handshake")
      else if handshakeMaxAge o <? Sub now hs then (false, "stale_handshake")
      else (true, "")
  end.

(** [Start]: the first connect, then the goroutine at its first select. *)
Definition Start (o : options) (now : Z) (idx : nat) (built : option Device) : sup :=
  let path := default "" (Eligible.RandomPath (eligible o) idx) in
  let s := mkSup None "" None (reconnectMin o) (AtSelect now) [SBuild now path built] in
  match build path built with
  | None => s
  | Some (d, id, rep) => emit [notifyChange "started" id d] (swapDevice d id rep s)
  end.

(** [loop] after the backoff timer fired. *)
Definition reconnect (o : options) (now : Z) (idx : nat) (built : option Device) (s0 : sup) : sup :=
  let path := default "" (Eligible.RandomPath (eligible o) idx) in
  let s := set_at (AtSelect now) (emit [SBuild now path built] s0) in
  match build path built with
  | None => set_backoff (growBackoff (backoff s) (reconnectMax o)) s
  | Some (d, id, rep) => emit [notifyChange "switched tunnel" id d] (swapDevice d id rep s)
  end.

(** [loop] after the poll timer fired. *)
Definition poll (o : options) (now : Z) (answer : option (res err Z)) (s0 : sup) : sup :=
  let s := set_at (AtSelect now) s0 in
  if fst (isHealthy o now answer) then set_backoff (reconnectMin o) s
  else teardown now (backoff s) s.

(** [handleRotate] up to the settle; [busy1], [busy2] are the two readings. *)
Definition handleRotate (o : options) (now : Z) (req : rotateReq) (busy1 busy2 : bool) (s0 : sup)
    : sup :=
  let s := set_at (AtSelect now) s0 in
  if negb (force req) && busy1 then emit [SReply (reply req) (mkRotateResult RotateSkippedActive "")] s
  else if negb (force req) && busy2 then
    emit [SReply (reply req) (mkRotateResult RotateSkippedActive "")] s
  else
    match device s with
    | None => emit [SReply (reply req) (mkRotateResult RotateUnavailable "")] s
    | Some old =>
        set_at (AtSettle now req) (emit [SClose now old (rotateSettle o)] (set_dev None "" None s))
    end.

(** [handleRotate] when the context is cancelled during the settle. *)
Definition settleCancelled (now : Z) (req : rotateReq) (s : sup) : sup :=
  set_at (AtSelect now) (emit [SReply (reply req) (mkRotateResult RotateUnavailable "")] s).

(** [handleRotate] after the settle. *)
Definition rotateRebuild (o : options) (now : Z) (req : rotateReq) (idx : nat)
    (built : option Device) (s0 : sup) : sup :=
  let path := default "" (Eligible.RandomPath (eligible o) idx) in
  let s := set_at (AtSelect now) (emit [SBuild now path built] s0) in
  match build path built with
  | None => emit [SReply (reply req) (mkRotateResult RotateUnavailable "")] s
  | Some (d, id, rep) =>
      let newCountry := Eligible.countryFromBasename id in
      emit [notifyChange "rotated" id d; SReply (reply req) (mkRotateResult RotateRotated newCountry)]
        (set_dev (Some d) id rep s)
  end.

Inductive event :=
| EvStop
| EvRotate (req : rotateReq) (busy1 busy2 : bool)
| EvTimer (idx : nat) (built : option Device) (answer : option (res err Z))
| EvSettleCancelled
| EvSettled (idx : nat) (built : option Device).

(** The duration the select's timer was armed with. *)
Definition timer (o : options) (s : sup) : Z :=
  match device s with None => backoff s | Some _ => pollInterval o end.

Definition ready (o : options) (now : Z) (ev : event) (s : sup) : bool :=
  match ev, at_ s with
  | EvStop, AtSelect _ | EvRotate _ _ _, AtSelect _ => true
  | EvTimer idx _ _, AtSelect since =>
      (since + timer o s <=? now) && Nat.ltb idx (Eligible.Len (eligible o))
  | EvSettleCancelled, AtSettle _ _ => true
  | EvSettled idx _, AtSettle since _ =>
      (since + rotateSettle o <=? now) && Nat.ltb idx (Eligible.Len (eligible o))
  | _, _ => false
  end.

(** One passage from a wait to the next. *)
Definition handle (o : options) (now : Z) (ev : event) (s : sup) : sup :=
  match ev with
  | EvStop => shutdown now s
  | EvRotate req b1 b2 => handleRotate o now req b1 b2 s
  | EvTimer idx built answer =>
      match device s with
      | None => reconnect o now idx built s
      | Some _ => poll o now answer s
      end
  | EvSettleCancelled =>
      match at_ s with AtSettle _ req => settleCancelled now req s | _ => s end
  | EvSettled idx built =>
      match at_ s with AtSettle _ req => rotateRebuild o now req idx built s | _ => s end
  end.

(** ** Readers on other goroutines *)

(** [DialContext]: the device to delegate to. *)
Definition DialContext (s : sup) : res err Device :=
  match device s with
  | None => Err (Public "Streaming tunnel temporarily unavailable; reconnecting.")
  | Some d => Ok d
  end.

Definition LiveHealth (lastHandshake : Reporter -> res err Z) (s : sup) : TunnelHealth * bool :=
  match reporter s with
  | None => (mkTunnelHealth "" time_zero None, false)
  | Some rep =>
      match lastHandshake rep with
      | Ok hs => (mkTunnelHealth (deviceID s) hs None, true)
      | Err e => (mkTunnelHealth (deviceID s) time_zero (Some e), true)
      end
  end.

(** [RotateIfIdle], by the cases its two selects took. *)
Inductive firstSelect := Sent | CtxDone1 | LoopDone.
Inductive secondSelect := Replied (r : RotateResult) | CtxDone2.

Definition RotateIfIdle (started : bool) (s1 : firstSelect) (s2 : secondSelect)
    : res err RotateResult :=
  if negb started then Ok (mkRotateResult RotateUnavailable "")
  else match s1 with
       | CtxDone1 => Err Ctx
       | LoopDone => Ok (mkRotateResult RotateUnavailable "")
       | Sent => match s2 with Replied r => Ok r | CtxDone2 => Err Ctx end
       end.
End Supervisor.
End Supervisor.
