(* ===== verification/SupervisorThms.v ===== *)
(** * Theorems of the streaming supervisor

    [run c now recv s]: the goroutine started by [Start] is in state [s] at time
    [now], after the rotation requests [recv]; [c] tells whether its context was
    cancelled during a settle. *)

From S2P Require Import Prelude GoStrings Domain Eligible Supervisor.
Import Supervisor.

Section Run.
Context {Device Reporter : Type} `{EqDecision Device} (asReporter : Device -> option Reporter).
Context (o : options).
Notation sup := (@sup Device Reporter).
Notation effect := (@effect Device).
Implicit Types (s : sup) (es : list effect).

Definition received (ev : @event Device) : list nat :=
  match ev with EvRotate req _ _ => [reply req] | _ => [] end.
Definition cancelled (ev : @event Device) : bool :=
  match ev with EvSettleCancelled => true | _ => false end.

Inductive run : bool -> Z -> list nat -> sup -> Prop :=
| run_start now idx built :
    (idx < Eligible.Len (eligible o))%nat -> run false now [] (Start asReporter o now idx built)
| run_step c t now recv ev s :
    run c t recv s -> t <= now -> ready o now ev s = true ->
    run (c || cancelled ev) now (recv ++ received ev) (handle asReporter o now ev s).

(** The protocol of the device operations in a log, as for the scheduler. *)
Fixpoint replay (cur : option Device) (es : list effect) : option (option Device) :=
  match es with
  | [] => Some cur
  | e :: es' =>
      match e with
      | SBuild _ _ (Some d) => if decide (cur = None) then replay (Some d) es' else None
      | SBuild _ _ None => if decide (cur = None) then replay cur es' else None
      | SClose _ d _ => if decide (cur = Some d) then replay None es' else None
      | SNotify ev => if decide (cur = ev_Dialer ev) then replay cur es' else None
      | SReply _ _ => replay cur es'
      end
  end.

(** The earliest time of the next build: after the last close and its gap. *)
Fixpoint free_at (last : option Z) (es : list effect) : option Z :=
  match es with
  | [] => last
  | SClose t _ gap :: es' => free_at (Some (t + gap)) es'
  | _ :: es' => free_at last es'
  end.

Fixpoint gaps (last : option Z) (es : list effect) : bool :=
  match es with
  | [] => true
  | SClose t _ gap :: es' => gaps (Some (t + gap)) es'
  | SBuild t _ _ :: es' => match last with Some f => f <=? t | None => true end && gaps last es'
  | _ :: es' => gaps last es'
  end.

Definition replied (es : list effect) : list nat :=
  omap (fun e => match e with SReply ch _ => Some ch | _ => None end) es.

Definition open_request (s : sup) : list nat :=
  match at_ s with AtSettle _ req => [reply req] | _ => [] end.

Lemma sup_replay_app cur es es' : replay cur (es ++ es') = replay cur es ≫= (fun c => replay c es').
Proof.
  revert cur. induction es as [|e es IH]; intros cur; [done |]. cbn [app replay].
  repeat (case_match || case_decide); try done; cbn; apply IH.
Qed.

Lemma free_at_app last es es' : free_at last (es ++ es') = free_at (free_at last es) es'.
Proof. revert last. induction es as [|e es IH]; intros last; [done |]. destruct e; cbn; apply IH. Qed.

Lemma sup_gaps_app last es es' : gaps last (es ++ es') = gaps last es && gaps (free_at last es) es'.
Proof.
  revert last. induction es as [|e es IH]; intros last; [done |].
  destruct e; cbn; rewrite IH; try done. by rewrite andb_assoc.
Qed.

Lemma sup_replied_app es es' : replied (es ++ es') = replied es ++ replied es'.
Proof. apply omap_app. Qed.

(** ** Backoff *)

Lemma growBackoff_spec d :
  0 < d <= reconnectMax o -> in_int64 (reconnectMax o) ->
  growBackoff d (reconnectMax o) = Z.min (reconnectMax o) (2 * d).
Proof.
  intros Hd Hm. unfold growBackoff. destruct (Z.leb_spec d 0); [lia |].
  destruct (Z_le_gt_dec (2 * d) int64_max) as [Hs|Hb].
  - rewrite wrap64_id by (unfold in_int64, int64_min, int64_max in *; lia).
    destruct (Z.ltb_spec (reconnectMax o) (d * 2)), (Z.leb_spec (d * 2) 0); cbn; lia.
  - assert (wrap64 (d * 2) <= 0) as Hw.
    { unfold wrap64, in_int64, int64_min, int64_max in *.
      rewrite <- (Z.mod_unique (d * 2 + 2 ^ 63) (2 ^ 64) 1 (d * 2 + 2 ^ 63 - 2 ^ 64)); lia. }
    destruct (Z.leb_spec (wrap64 (d * 2)) 0); [| lia]. rewrite orb_true_r.
    unfold in_int64, int64_max in *. lia.
Qed.

(** ** Invariant *)

Context (Hmin : 0 < reconnectMin o <= reconnectMax o) (Hmax : in_int64 (reconnectMax o)).

Record ok (c : bool) (now : Z) (recv : list nat) (s : sup) : Prop := {
  k_replay : replay None (effects s) = Some (device s);
  k_rep : reporter s = device s ≫= asReporter;
  k_id : device s = None -> deviceID s = "";
  k_backoff : reconnectMin o <= backoff s <= reconnectMax o;
  k_settle : forall since req, at_ s = AtSettle since req -> device s = None /\ since <= now;
  k_select : forall since, at_ s = AtSelect since -> since <= now;
  k_exit : at_ s = Exited -> device s = None;
  k_gaps : c = false -> gaps None (effects s) = true;
  k_free_select : forall since f, c = false -> at_ s = AtSelect since -> device s = None ->
    free_at None (effects s) = Some f -> f <= since + backoff s;
  k_free_settle : forall since req f, at_ s = AtSettle since req ->
    free_at None (effects s) = Some f -> f <= since + rotateSettle o;
  k_account : replied (effects s) ++ open_request s ≡ₚ recv
}.

Lemma ok_start now idx built : ok false now [] (Start asReporter o now idx built).
Proof.
  unfold Start. destruct built as [d|]; split; cbn; try done; try lia;
    try (intros; simplify_eq; lia). by rewrite !decide_True.
Qed.

Ltac gap_goal H := rewrite sup_gaps_app, H; cbn; try done.

Lemma ok_shutdown c t now recv s since :
  ok c t recv s -> t <= now -> at_ s = AtSelect since -> ok c now recv (shutdown now s).
Proof.
  intros [] Ht Hat. unfold shutdown, teardown, open_request in *. rewrite Hat in *. cbn in *.
  rewrite app_nil_r in *. destruct (device s) as [d|] eqn:Hd; split; cbn; try done;
    rewrite ?app_nil_r; try done.
  - rewrite sup_replay_app, k_replay0. cbn. by rewrite decide_True.
  - intros Hc. gap_goal (k_gaps0 Hc).
  - rewrite sup_replied_app. cbn. by rewrite app_nil_r.
Qed.

Lemma ok_poll c t now recv s d since answer :
  ok c t recv s -> t <= now -> at_ s = AtSelect since -> device s = Some d ->
  ok c now recv (poll o now answer s).
Proof.
  intros [] Ht Hat Hd. unfold poll, open_request in *. rewrite Hat in *.
  destruct (fst (isHealthy o now answer)).
  - split; cbn; rewrite ?Hd in *; try done; try lia. intros ? [= <-]. lia.
  - unfold teardown. cbn. rewrite Hd in *. cbn in *. rewrite app_nil_r in *.
    split; cbn; try done; rewrite ?app_nil_r.
    + rewrite sup_replay_app, k_replay0. cbn. by rewrite decide_True.
    + intros ? [= <-]. lia.
    + intros Hc. gap_goal (k_gaps0 Hc).
    + intros ? f _ [= <-] _. rewrite free_at_app. cbn. intros [= <-]. lia.
    + rewrite sup_replied_app. cbn. by rewrite app_nil_r.
Qed.

Lemma ok_reconnect c t now recv s since idx built :
  ok c t recv s -> t <= now -> at_ s = AtSelect since -> device s = None ->
  since + backoff s <= now -> ok c now recv (reconnect asReporter o now idx built s).
Proof.
  intros [] Ht Hat Hd Hdue. unfold reconnect, open_request in *. rewrite Hat in *. rewrite Hd in *.
  set (path := default "" _). cbn in *. rewrite app_nil_r in *.
  assert (c = false -> gaps None (effects s ++ [SBuild now path built]) = true) as Hgap.
  { intros Hc. gap_goal (k_gaps0 Hc). destruct (free_at None (effects s)) as [f|] eqn:Hf; [| done].
    specialize (k_free_select0 since f Hc eq_refl eq_refl eq_refl). rewrite andb_true_r. apply Z.leb_le. lia. }
  assert (forall f, c = false -> free_at None (effects s) = Some f -> f <= now) as Hfree.
  { intros f Hc Hf. specialize (k_free_select0 since f Hc eq_refl eq_refl Hf). lia. }
  destruct built as [d|]; cbn.
  - split; cbn; try done; rewrite <- ?app_assoc; cbn; try done.
    + rewrite sup_replay_app, k_replay0. cbn. by rewrite !decide_True.
    + intros ? [= <-]. lia.
    + intros Hc. specialize (Hgap Hc). rewrite sup_gaps_app in *. cbn in *. done.
    + rewrite sup_replied_app. cbn. by rewrite !app_nil_r.
  - split; cbn; try done; rewrite ?Hd; try done.
    + rewrite sup_replay_app, k_replay0. cbn. done.
    + rewrite growBackoff_spec by (done || lia). lia.
    + intros ? [= <-]. lia.
    + intros ? f Hc [= <-] _. rewrite free_at_app. cbn. intros Hf.
      specialize (Hfree f Hc Hf). rewrite growBackoff_spec by (done || lia). lia.
    + rewrite sup_replied_app. cbn. by rewrite !app_nil_r.
Qed.

Lemma ok_reply c t now recv s since ch r :
  ok c t recv s -> t <= now -> at_ s = AtSelect since ->
  ok c now (recv ++ [ch]) (emit [SReply ch r] (set_at (AtSelect now) s)).
Proof.
  intros [] Ht Hat. unfold open_request in *. rewrite Hat, app_nil_r in *.
  split; cbn; try done; rewrite ?app_nil_r.
  - by rewrite sup_replay_app, k_replay0.
  - intros ? [= <-]. lia.
  - intros Hc. gap_goal (k_gaps0 Hc).
  - intros ? f Hc [= <-] Hd. rewrite free_at_app. cbn. intros Hf.
    specialize (k_select0 since eq_refl). specialize (k_free_select0 since f Hc eq_refl Hd Hf). lia.
  - rewrite sup_replied_app. cbn. by rewrite k_account0.
Qed.

Lemma ok_rotate c t now recv s since req b1 b2 :
  ok c t recv s -> t <= now -> at_ s = AtSelect since ->
  ok c now (recv ++ [reply req]) (handleRotate o now req b1 b2 s).
Proof.
  intros Hok Ht Hat. unfold handleRotate.
  destruct (negb (force req) && b1); [by eapply ok_reply |].
  destruct (negb (force req) && b2); [by eapply ok_reply |]. cbn [device set_at].
  destruct (device s) as [d|] eqn:Hd; [| by eapply ok_reply].
  destruct Hok. unfold open_request in *. rewrite Hat, Hd, app_nil_r in *.
  split; cbn; try done.
  - rewrite sup_replay_app, k_replay0. cbn. by rewrite decide_True.
  - intros ? ? [= <- <-]. split; [done | lia].
  - intros Hc. gap_goal (k_gaps0 Hc).
  - intros ? ? f [= <- <-]. rewrite free_at_app. cbn. intros [= <-]. lia.
  - rewrite sup_replied_app. cbn. by rewrite app_nil_r, k_account0.
Qed.

Lemma ok_cancel c t now recv s since req :
  ok c t recv s -> t <= now -> at_ s = AtSettle since req -> ok true now recv (settleCancelled now req s).
Proof.
  intros [] Ht Hat. unfold open_request in *. rewrite Hat in *. unfold settleCancelled.
  split; cbn; try done; rewrite ?app_nil_r.
  - by rewrite sup_replay_app, k_replay0.
  - intros ? [= <-]. lia.
  - rewrite sup_replied_app. cbn. by rewrite k_account0.
Qed.

Lemma ok_rebuild c t now recv s since req idx built :
  ok c t recv s -> t <= now -> at_ s = AtSettle since req -> since + rotateSettle o <= now ->
  ok c now recv (rotateRebuild asReporter o now req idx built s).
Proof.
  intros [] Ht Hat Hdue. unfold open_request in *. rewrite Hat in *. unfold rotateRebuild.
  destruct (k_settle0 since req eq_refl) as [Hd _]. rewrite Hd in *. set (path := default "" _). cbn in *.
  assert (forall f, free_at None (effects s) = Some f -> f <= now) as Hfree.
  { intros f Hf. specialize (k_free_settle0 since req f eq_refl Hf). lia. }
  assert (c = false -> gaps None (effects s ++ [SBuild now path built]) = true) as Hgap.
  { intros Hc. gap_goal (k_gaps0 Hc). destruct (free_at None (effects s)) as [f|] eqn:Hf; [| done].
    rewrite andb_true_r. apply Z.leb_le. by apply Hfree. }
  destruct built as [d|]; cbn.
  - split; cbn; try done; rewrite <- ?app_assoc, ?app_nil_r; cbn; try done.
    + rewrite sup_replay_app, k_replay0. cbn. by rewrite !decide_True.
    + intros ? [= <-]. lia.
    + intros Hc. specialize (Hgap Hc). rewrite sup_gaps_app in *. cbn in *. done.
    + rewrite sup_replied_app. cbn. by rewrite k_account0.
  - split; cbn; try done; rewrite ?Hd, <- ?app_assoc, ?app_nil_r; try done.
    + rewrite sup_replay_app, k_replay0. cbn. done.
    + intros ? [= <-]. lia.
    + intros Hc. specialize (Hgap Hc). rewrite sup_gaps_app in *. cbn in *. done.
    + intros ? f Hc [= <-] _. rewrite free_at_app. cbn. intros Hf. specialize (Hfree f Hf). lia.
    + rewrite sup_replied_app. cbn. by rewrite k_account0.
Qed.

Lemma sup_run_ok c now recv s : run c now recv s -> ok c now recv s.
Proof.
  induction 1 as [now idx built _ | c t now recv ev s _ IH Ht Hr]; [apply ok_start |].
  unfold ready in Hr. destruct ev, (at_ s) as [since|since rq|] eqn:Hat; try done;
    cbn [handle received cancelled]; rewrite ?app_nil_r, ?orb_false_r, ?Hat.
  - by eapply ok_shutdown.
  - by eapply ok_rotate.
  - apply andb_true_iff in Hr as [Hdue%Z.leb_le _]. unfold timer in Hdue.
    destruct (device s) eqn:Hd; [by eapply ok_poll | by eapply ok_reconnect].
  - rewrite orb_true_r. by eapply ok_cancel.
  - apply andb_true_iff in Hr as [Hdue%Z.leb_le _]. by eapply ok_rebuild.
Qed.

(** Feeds timed events; [None] when one of them cannot happen. *)
Fixpoint exec (evs : list (Z * @event Device)) (st : bool * Z * list nat * sup)
    : option (bool * Z * list nat * sup) :=
  match evs with
  | [] => Some st
  | (now, ev) :: evs' =>
      let '(c, t, recv, s) := st in
      if (t <=? now) && ready o now ev s
      then exec evs' (c || cancelled ev, now, recv ++ received ev, handle asReporter o now ev s)
      else None
  end.

Lemma sup_exec_run evs c t recv s c' t' recv' s' :
  run c t recv s -> exec evs (c, t, recv, s) = Some (c', t', recv', s') -> run c' t' recv' s'.
Proof.
  revert c t recv s. induction evs as [|[now ev] evs IH]; intros c t recv s Hr He; cbn in He;
    [by simplify_eq |].
  destruct (_ && _) eqn:Hc; [| done]. apply andb_true_iff in Hc as [Ht%Z.leb_le Hrd].
  refine (IH _ _ _ _ _ He). by eapply run_step.
Qed.






End Run.

(** ** Theorems *)

Section Theorems.
Context {Device Reporter : Type} `{EqDecision Device} (asReporter : Device -> option Reporter).
Context (o : options).
Notation sup := (@sup Device Reporter).

(** What [NewStreamingSupervisor] checks of the options, on 64-bit durations. *)
Definition options_ok : Prop :=
  0 < reconnectMin o <= reconnectMax o /\ in_int64 (reconnectMax o) /\ 0 < rotateSettle o.

(** C8: the supervisor owns at most one device: in the log of every run a device
    is built only when none is live, only the live one is closed or announced, and
    the log ends with the field [device]; after the loop's exit no device is live. *)
Theorem supervisor_one_device c now recv (s : sup) :
  options_ok -> run asReporter o c now recv s ->
  replay None (effects s) = Some (device s) /\ (at_ s = Exited -> device s = None).
Proof. intros (H1 & H2 & H3) Hr. by destruct (sup_run_ok asReporter o H1 H2 _ _ _ _ Hr). Qed.

(** C9: session gap.  Until the context is cancelled, every build comes at least
    [rotateSettle] after a rotation closed the device before it, and at least the
    backoff after a failed health check closed it. *)
Theorem supervisor_gaps now recv (s : sup) :
  options_ok -> run asReporter o false now recv s -> gaps None (effects s) = true.
Proof.
  intros (H1 & H2 & H3) Hr. destruct (sup_run_ok asReporter o H1 H2 _ _ _ _ Hr). by apply k_gaps0.
Qed.


(** Every rotation request is answered exactly once: the replies sent and
    the request whose rotation is settling are, as a multiset, those received. *)
Theorem supervisor_rotate_accounting c now recv (s : sup) :
  options_ok -> run asReporter o c now recv s -> replied (effects s) ++ open_request s ≡ₚ recv.
Proof. intros (H1 & H2 & H3) Hr. by destruct (sup_run_ok asReporter o H1 H2 _ _ _ _ Hr). Qed.

(** What a rotation request does on each branch.  Unforced with active
    sessions it only replies that it skipped; without a device it only replies that
    it is unavailable; otherwise it closes the device and settles, and the rebuild
    replies [rotated] with the country of the new exit and installs it, or replies
    unavailable and leaves the reconnect to the backoff. *)
Theorem rotate_branches now now' idx req b1 b2 (built : option Device) (s : sup) since :
  at_ s = AtSelect since ->
  let s' := handleRotate o now req b1 b2 s in
  if negb (force req) && (b1 || b2) then
    s' = emit [SReply (reply req) (mkRotateResult RotateSkippedActive "")] (set_at (AtSelect now) s)
  else match device s with
  | None => s' = emit [SReply (reply req) (mkRotateResult RotateUnavailable "")] (set_at (AtSelect now) s)
  | Some d =>
      DialContext s' = Err (Public "Streaming tunnel temporarily unavailable; reconnecting.")
      /\ effects s' = effects s ++ [SClose now d (rotateSettle o)] /\ at_ s' = AtSettle now req
      /\ let path := default "" (Eligible.RandomPath (eligible o) idx) in
         let s2 := rotateRebuild asReporter o now' req idx built s' in
         device s2 = built /\ backoff s2 = backoff s /\ at_ s2 = AtSelect now'
         /\ last (effects s2) = Some (SReply (reply req)
             (match built with
              | Some _ => mkRotateResult RotateRotated
                            (Eligible.countryFromBasename (tunnelIDFromPath path))
              | None => mkRotateResult RotateUnavailable ""
              end))
  end.
Proof.
  intros Hat. cbn zeta. unfold handleRotate. rewrite andb_orb_distrib_r.
  destruct (negb (force req) && b1); cbn [orb]; [done |].
  destruct (negb (force req) && b2); [done |]. cbn [device set_at].
  destruct (device s) as [d|] eqn:Hd; [| done]. split_and!; try done.
  - by destruct built.
  - by destruct built.
  - by destruct built.
  - unfold rotateRebuild. destruct built; cbn [build]; unfold emit; cbn [effects set_dev set_at].
    + by rewrite last_app_cons.
    + by rewrite last_snoc.
Qed.

(** The health poll keeps a device exactly when it reports nothing or a
    handshake no older than the maximum age; otherwise the device is closed and the
    next attempt waits for the current backoff. *)
Theorem poll_health now answer (s : sup) d :
  device s = Some d ->
  let s' := poll o now answer s in
  let fresh := match answer with
               | None => True
               | Some (Err _) => False
               | Some (Ok hs) => hs <> time_zero /\ Sub now hs <= handshakeMaxAge o
               end in
  (fresh -> device s' = Some d /\ backoff s' = reconnectMin o /\ effects s' = effects s)
  /\ (~ fresh -> device s' = None /\ timer o s' = backoff s
       /\ effects s' = effects s ++ [SClose now d (backoff s)]).
Proof.
  intros Hd. cbn zeta. unfold poll, isHealthy, IsZero, teardown, timer.
  destruct answer as [[e|hs]|]; cbn; rewrite ?Hd; cbn.
  - split; [done |]. done.
  - destruct (Z.eqb_spec hs time_zero) as [->|Hz]; cbn.
    + split; [by intros [? _] | done].
    + destruct (Z.ltb_spec (handshakeMaxAge o) (Sub now hs)) as [Hl|Hl]; cbn; rewrite ?Hd.
      * split; [intros [_ ?]; lia | done].
      * split; [done |]. intros Hn. by destruct Hn.
  - split; [done |]. by intros [].
Qed.
End Theorems.

(** ** A concrete run

    The first device goes stale and is replaced after a failed attempt; a rotation
    then replaces it again. *)
Module SupDemo.
Definition opts : options :=
  mkOptions (Eligible.mkSet {[ "aa" := Eligible.mkEntry "aa" "aa" "/t/aa.conf" ]} ["aa"]) 30 2 16 10 5.
Definition norep (d : nat) : option unit := None.
Definition st0 : @sup nat unit := Start norep opts 0 0 (Some 1%nat).
Definition evs : list (Z * @event nat) :=
  [(10, EvTimer 0 None (Some (Ok 5))); (20, EvTimer 0 None (Some (Err Ctx)));
   (22, EvTimer 0 None None); (26, EvTimer 0 (Some 2%nat) None);
   (27, EvRotate (mkRotateReq false 1) true true); (28, EvRotate (mkRotateReq false 2) false false);
   (33, EvSettled 0 (Some 3%nat))].
Definition final := default (false, 0, [], st0) (exec norep opts evs (false, 0, [], st0)).

Lemma final_run : run norep opts false 33 [1; 2]%nat (snd final).
Proof.
  apply (sup_exec_run norep opts evs false 0 [] st0); [apply run_start; vm_compute; lia |].
  vm_compute. reflexivity.
Qed.

Lemma opts_ok : options_ok opts.
Proof. vm_compute. done. Qed.
End SupDemo.

Lemma supervisor_one_device_witness : replay None (effects (snd SupDemo.final)) = Some (Some 3%nat).
Proof.
  exact (proj1 (supervisor_one_device SupDemo.norep SupDemo.opts _ _ _ _ SupDemo.opts_ok SupDemo.final_run)).
Defined.

Lemma supervisor_gaps_witness : gaps None (effects (snd SupDemo.final)) = true.
Proof. exact (supervisor_gaps SupDemo.norep SupDemo.opts _ _ _ SupDemo.opts_ok SupDemo.final_run). Defined.



Lemma supervisor_rotate_accounting_witness :
  replied (effects (snd SupDemo.final)) ++ open_request (snd SupDemo.final) ≡ₚ [1; 2]%nat.
Proof.
  exact (supervisor_rotate_accounting SupDemo.norep SupDemo.opts _ _ _ _ SupDemo.opts_ok SupDemo.final_run).
Defined.

Lemma rotate_branches_witness :
  effects (handleRotate SupDemo.opts 1 (mkRotateReq true 9) true true SupDemo.st0)
  = effects SupDemo.st0 ++ [SClose 1 1%nat 5].
Proof.
  exact (proj1 (proj2 (rotate_branches SupDemo.norep SupDemo.opts 1 6 0 (mkRotateReq true 9) true true
    None SupDemo.st0 0 eq_refl))).
Defined.

Lemma poll_health_witness : device (poll SupDemo.opts 50 (Some (Ok 5)) SupDemo.st0) = None.
Proof.
  refine (proj1 (proj2 (poll_health SupDemo.opts 50 (Some (Ok 5)) SupDemo.st0 1%nat eq_refl) _)).
  intros [_ H]. vm_compute in H. by destruct H.
Defined.
