(* ===== verification/SupervisorRace.v ===== *)
(** * Rotations against concurrent sessions

    The race-freedom argument of [handleRotate] ([tunnelpool/supervisor.go]) with
    the session gauge of [ProxyService] ([application/proxy.go]).  A session counts
    itself, reads the device under the read lock, uses it and counts itself out;
    the loop goroutine checks the gauge, takes the write lock, checks it again,
    clears the device, unlocks and closes.  Every lock operation and every access
    to the gauge is a step of its own, and all of them interleave freely. *)

From S2P Require Import Prelude GoStrings Domain.

Section Race.
Context {Device : Type}.

(** A handler of [HandleCONNECT] or [HandleHTTP] and its [DialContext] call. *)
Inductive session :=
| SCounted                      (* activeSessions.Add(1) done *)
| SReading                      (* s.mu.RLock() held, device not read yet *)
| SRead (d : option Device)     (* d := s.device, read lock still held *)
| SUsing (d : option Device)    (* s.mu.RUnlock() done; dials and copies through d *)
| SEnded.                       (* activeSessions.Add(-1) done *)

(** Where the loop goroutine is. *)
Inductive loopAt :=
| LLoop                         (* in its select *)
| LPrecheck (force : bool)      (* about to call busy() without the lock *)
| LLock (force : bool)          (* about to take s.mu.Lock() *)
| LRecheck (force : bool)       (* holds the write lock, about to call busy() again *)
| LClear (force : bool)         (* holds the write lock, about to clear s.device *)
| LUnlock (force : bool) (d : Device)  (* cleared, about to unlock *)
| LClose (force : bool) (d : Device)   (* unlocked, about to call old.Close() *)
| LSwap (d : Device).           (* new device built, about to lock and install it *)

Record rstate := mkR {
  device : option Device;
  gauge : Z;
  sessions : gmap nat session;
  lat : loopAt
}.

Definition holds_read (x : session) : bool :=
  match x with SReading | SRead _ => true | _ => false end.
Definition counted (x : session) : bool := match x with SEnded => false | _ => true end.

(** The write lock is free or held by the loop goroutine. *)
Definition write_locked (w : loopAt) : bool :=
  match w with LRecheck _ | LClear _ | LUnlock _ _ => true | _ => false end.

Definition set_session (k : nat) (x : session) (s : rstate) : rstate :=
  mkR (device s) (gauge s) (<[k := x]> (sessions s)) (lat s).
Definition set_lat (w : loopAt) (s : rstate) : rstate := mkR (device s) (gauge s) (sessions s) w.

(** [busy] is [svc.ActiveSessions() > 0]. *)
Definition busy (s : rstate) : bool := 0 <? gauge s.

Inductive rstep (s : rstate) : rstate -> Prop :=
| r_begin k :
    sessions s !! k = None ->
    rstep s (mkR (device s) (gauge s + 1) (<[k := SCounted]> (sessions s)) (lat s))
| r_rlock k :
    sessions s !! k = Some SCounted -> write_locked (lat s) = false ->
    rstep s (set_session k SReading s)
| r_read k :
    sessions s !! k = Some SReading -> rstep s (set_session k (SRead (device s)) s)
| r_runlock k d :
    sessions s !! k = Some (SRead d) -> rstep s (set_session k (SUsing d) s)
| r_end k x :
    sessions s !! k = Some x -> x = SCounted \/ (exists d, x = SUsing d) ->
    rstep s (mkR (device s) (gauge s - 1) (<[k := SEnded]> (sessions s)) (lat s))
| r_request force : lat s = LLoop -> rstep s (set_lat (LPrecheck force) s)
| r_precheck force :
    lat s = LPrecheck force ->
    rstep s (set_lat (if negb force && busy s then LLoop else LLock force) s)
| r_lock force :
    lat s = LLock force -> count holds_read (sessions s) = 0%nat ->
    rstep s (set_lat (LRecheck force) s)
| r_recheck force :
    lat s = LRecheck force ->
    rstep s (set_lat (if negb force && busy s then LLoop
                      else match device s with None => LLoop | Some _ => LClear force end) s)
| r_clear force d :
    lat s = LClear force -> device s = Some d ->
    rstep s (mkR None (gauge s) (sessions s) (LUnlock force d))
| r_unlock force d : lat s = LUnlock force d -> rstep s (set_lat (LClose force d) s)
| r_close force d : lat s = LClose force d -> rstep s (set_lat LLoop s)
| r_built d : lat s = LLoop -> device s = None -> rstep s (set_lat (LSwap d) s)
| r_swap d :
    lat s = LSwap d -> count holds_read (sessions s) = 0%nat ->
    rstep s (mkR (Some d) (gauge s) (sessions s) LLoop)
| r_unhealthy d :
    lat s = LLoop -> device s = Some d -> count holds_read (sessions s) = 0%nat ->
    rstep s (mkR None (gauge s) (sessions s) (LClose true d)).

Definition rinit (s : rstate) : Prop := gauge s = 0 /\ sessions s = ∅ /\ lat s = LLoop.

  (** ** Invariant *)

(** The device a session has in its hands. *)
Definition has (d : Device) (x : session) : Prop := x = SRead (Some d) \/ x = SUsing (Some d).

Record rinv (s : rstate) : Prop := {
  ri_gauge : gauge s = Z.of_nat (count counted (sessions s));
  ri_lock : write_locked (lat s) = true -> count holds_read (sessions s) = 0%nat;
  ri_clear : forall k d x, lat s = LClear false -> device s = Some d ->
    sessions s !! k = Some x -> ~ has d x;
  ri_gone : forall k d x, lat s = LUnlock false d \/ lat s = LClose false d ->
    device s = None /\ (sessions s !! k = Some x -> ~ has d x);
  ri_swap : forall d, lat s = LSwap d -> device s = None
}.

Lemma rinv_init s : rinit s -> rinv s.
Proof.
  intros (Hg & Hs & Hl). split; rewrite ?Hl; cbn; try done; [by rewrite Hg, Hs |].
  intros k d x [|]; done.
Qed.

(** A session moves without obtaining a device. *)
Lemma rinv_session s k x x' :
  rinv s -> sessions s !! k = Some x -> counted x' = counted x ->
  (holds_read x' = true -> holds_read x = true \/ write_locked (lat s) = false) ->
  (forall d, has d x' -> has d x \/ device s = Some d /\ holds_read x = true) ->
  rinv (set_session k x' s).
Proof.
  intros [Hg Hl Hc Hgo Hsw] Hk Hcnt Hread Hhas. split; cbn.
  - rewrite Hg. pose proof (count_update counted _ _ _ x' Hk) as Hu. rewrite Hcnt in Hu. lia.
  - intros Hw. specialize (Hl Hw). pose proof (count_update holds_read _ _ _ x' Hk) as Hu.
    destruct (holds_read x') eqn:E'; [| destruct (holds_read x); lia].
    destruct (Hread eq_refl) as [Hr|]; [| congruence]. rewrite Hr in Hu. lia.
  - intros j d y Hlat Hdev. rewrite lookup_insert_Some. intros [[<- <-]|[_ Hj]]; [| by eapply Hc].
    intros Hh. destruct (Hhas d Hh) as [Hx|[_ Hx]]; [by eapply Hc |].
    assert (write_locked (lat s) = true) as Hw by by rewrite Hlat.
    pose proof (count_pos holds_read _ _ _ Hk Hx). rewrite (Hl Hw) in *. lia.
  - intros j d y Hlat. destruct (Hgo k d x Hlat) as [Hdn Hx]. split; [done |].
    rewrite lookup_insert_Some. intros [[<- <-]|[_ Hj]]; [| by apply (Hgo j d y Hlat)].
    intros Hh. destruct (Hhas d Hh) as [?|[? _]]; [by apply Hx | congruence].
  - done.
Qed.

Lemma rinv_begin s k :
  rinv s -> sessions s !! k = None ->
  rinv (mkR (device s) (gauge s + 1) (<[k := SCounted]> (sessions s)) (lat s)).
Proof.
  intros [Hg Hl Hc Hgo Hsw] Hk. split; cbn; try done.
  - rewrite count_insert, Hg by done. cbn. lia.
  - intros Hw. rewrite count_insert by done. cbn. by apply Hl.
  - intros j d y Hlat Hdev. rewrite lookup_insert_Some. intros [[_ <-]|[_ Hj]]; [by intros [|] | by eapply Hc].
  - intros j d y Hlat. split; [by apply (Hgo j d y) |].
    rewrite lookup_insert_Some. intros [[_ <-]|[_ Hj]]; [by intros [|] | by apply (Hgo j d y Hlat)].
Qed.

Lemma rinv_end s k x :
  rinv s -> sessions s !! k = Some x -> counted x = true -> holds_read x = false ->
  rinv (mkR (device s) (gauge s - 1) (<[k := SEnded]> (sessions s)) (lat s)).
Proof.
  intros [Hg Hl Hc Hgo Hsw] Hk Hx Hr. split; cbn; try done.
  - pose proof (count_update counted _ _ _ SEnded Hk) as Hu. rewrite Hx in Hu. cbn in Hu. lia.
  - intros Hw. pose proof (count_update holds_read _ _ _ SEnded Hk) as Hu. rewrite Hr in Hu.
    cbn in Hu. specialize (Hl Hw). lia.
  - intros j d y Hlat Hdev. rewrite lookup_insert_Some. intros [[_ <-]|[_ Hj]]; [by intros [|] | by eapply Hc].
  - intros j d y Hlat. split; [by apply (Hgo j d y) |].
    rewrite lookup_insert_Some. intros [[_ <-]|[_ Hj]]; [by intros [|] | by apply (Hgo j d y Hlat)].
Qed.

(** An idle gauge: nobody has a device. *)
Lemma idle_gauge s k d x :
  rinv s -> busy s = false -> sessions s !! k = Some x -> ~ has d x.
Proof.
  intros [Hg _ _ _ _] Hb Hk Hh. unfold busy in Hb. apply Z.ltb_ge in Hb.
  assert (counted x = true) as Hx by (by destruct Hh as [->| ->]).
  pose proof (count_pos counted _ _ _ Hk Hx). lia.
Qed.

Lemma rinv_step s s' : rinv s -> rstep s s' -> rinv s'.
Proof.
  intros Hi Hs. destruct Hs.
  - by apply rinv_begin.
  - eapply rinv_session; try done; [by right |]. by intros d [|].
  - eapply rinv_session; try done; [by left |]. intros d [[= E]|]; [by right | done].
  - eapply rinv_session; try done. intros d' [|[= ->]]; [done | left; by left].
  - destruct H0 as [->|[d ->]]; by eapply rinv_end.
  - destruct Hi. split; cbn; try done. by intros ? ? ? [|].
  - destruct Hi. split; cbn; destruct (negb force && busy s); cbn; try done; by intros ? ? ? [|].
  - destruct Hi. split; cbn; try done. by intros ? ? ? [|].
  - pose proof (idle_gauge s) as Hidle. pose proof Hi as [Hg Hl Hc Hgo Hsw]. rewrite H in *. cbn in *.
    split; cbn; try done.
    + intros _. by apply Hl.
    + intros k d x Hlat Hdev Hk. apply (Hidle k d x Hi); [| done].
      destruct force, (busy s); cbn in Hlat; try done; destruct (device s); simplify_eq.
    + intros k d x Hlat. destruct (negb force && busy s), (device s); cbn in Hlat; by destruct Hlat.
    + intros d Hlat. destruct (negb force && busy s), (device s); done.
  - destruct Hi as [Hg Hl Hc Hgo Hsw]. rewrite H in *. split; cbn; try done.
    intros k d' x [[= -> ->]|]; [| done]. split; [done |]. by apply Hc.
  - destruct Hi as [Hg Hl Hc Hgo Hsw]. rewrite H in *. split; cbn; try done.
    intros k d' x [|[= -> ->]]; [done |]. apply (Hgo k d' x). by left.
  - destruct Hi as [Hg Hl Hc Hgo Hsw]. split; cbn; try done. by intros ? ? ? [|].
  - destruct Hi as [Hg Hl Hc Hgo Hsw]. split; cbn; try done. by intros ? ? ? [|].
  - destruct Hi as [Hg Hl Hc Hgo Hsw]. split; cbn; try done. by intros ? ? ? [|].
  - destruct Hi as [Hg Hl Hc Hgo Hsw]. split; cbn; try done. by intros ? ? ? [|].
Qed.

Lemma reachable_rinv s : reachable rinit rstep s -> rinv s.
Proof.
  apply reachable_invariant; [apply rinv_init |]. intros s1 s2 _. apply rinv_step.
Qed.


(** The session gauge is exact: it counts the sessions that have begun and
    not ended. *)
Theorem session_gauge_exact s :
  reachable rinit rstep s -> gauge s = Z.of_nat (count counted (sessions s)).
Proof. intros Hr. by destruct (reachable_rinv s Hr). Qed.
End Race.

(** ** A rotation between two sessions *)
Module RaceDemo.
Definition r0 : @rstate nat := mkR (Some 1%nat) 0 ∅ LLoop.
Definition r1 := set_lat (LPrecheck false) r0.
Definition r2 := set_lat (LLock false) r1.
Definition r3 := set_lat (LRecheck false) r2.

(** The session counts itself between the lock and the second check. *)
Definition r3' := set_lat (LClear false) r3.
Definition r5 := mkR (device r3') (gauge r3' + 1) (<[5%nat := SCounted]> (sessions r3')) (lat r3').
Definition r6 := mkR None (gauge r5) (sessions r5) (LUnlock false 1%nat).
Definition r7 := set_lat (LClose false 1%nat) r6.

Lemma r7_reach : reachable rinit rstep r7.
Proof.
  exists r0. split; [by vm_compute |].
  eapply (rtc_l _ _ r1); [by apply r_request |].
  eapply (rtc_l _ _ r2); [by apply (r_precheck r1 false) |].
  eapply (rtc_l _ _ r3); [by apply (r_lock r2 false) |].
  eapply (rtc_l _ _ r3'); [by apply (r_recheck r3 false) |].
  eapply (rtc_l _ _ r5); [by apply (r_begin r3' 5) |].
  eapply (rtc_l _ _ r6); [by apply (r_clear r5 false 1%nat) |].
  eapply (rtc_l _ _ r7); [by apply (r_unlock r6 false 1%nat) | apply rtc_refl].
Qed.
End RaceDemo.


Lemma session_gauge_exact_witness : gauge RaceDemo.r7 = 1.
Proof. rewrite (session_gauge_exact RaceDemo.r7 RaceDemo.r7_reach). vm_compute. reflexivity. Defined.
