(* ===== verification/SupervisorSystem.v ===== *)
(** * The supervisor and its callers ([supervisor.go]: [Start], [Stop], [RotateIfIdle])

    The goroutine of the supervisor together with the goroutines that call
    [RotateIfIdle] and [Stop], and the channels between them: [rotateCh] (unbuffered, so
    a send is one step with the receive), the reply channel of each rotation (one place,
    written once), [stopCh], and [loopDone], which the goroutine closes after its loop has
    returned.  Each test of [started] and each select is a step; a caller's context may be
    cancelled whenever it is looked at. *)

From S2P Require Import Prelude GoStrings Domain Eligible Supervisor SupervisorThms.
Import Supervisor.

Module SupervisorSystem.

(** A call of [RotateIfIdle]: before the test of [started], in its two selects, returned. *)
Inductive rotCall := RCalled (force : bool) | RSend (force : bool) | RWait | RReturned (r : res err RotateResult).

(** A call of [Stop]: before [stopOnce], before the test of [started], at the join, and
    returned, with the value of [started] it saw. *)
Inductive stopCall := TCalled | TClosed | TJoin | TReturned (joined : bool).

Section System.
Context {Device Reporter : Type} (asReporter : Device -> option Reporter) (o : options).
Notation sup := (@sup Device Reporter).
Notation event := (@event Device).

Record ssys := mkS {
  loop : option sup;      (* once [Start] has built the first device *)
  now : Z;
  started : bool;
  stopCh : bool;          (* closed *)
  ctx : bool;             (* the context of [Start] is done *)
  loopDone : bool;        (* closed *)
  rots : gmap nat rotCall;
  stops : gmap nat stopCall
}.

Definition set_loop (l : sup) (t : Z) (s : ssys) : ssys :=
  mkS (Some l) t (started s) (stopCh s) (ctx s) (loopDone s) (rots s) (stops s).
Definition set_rots (m : gmap nat rotCall) (s : ssys) : ssys :=
  mkS (loop s) (now s) (started s) (stopCh s) (ctx s) (loopDone s) m (stops s).
Definition set_stops (m : gmap nat stopCall) (c : bool) (s : ssys) : ssys :=
  mkS (loop s) (now s) (started s) c (ctx s) (loopDone s) (rots s) m.
Definition set_flags (st c d : bool) (s : ssys) : ssys :=
  mkS (loop s) (now s) st (stopCh s) c d (rots s) (stops s).

(** When the loop may take a case of its select: a timer any time it is due. *)
Definition allowed (s : ssys) (ev : event) : bool :=
  match ev with
  | EvStop => stopCh s || ctx s
  | EvSettleCancelled => ctx s
  | EvRotate _ _ _ => false
  | _ => true
  end.
Definition is_timer (ev : event) : bool := match ev with EvTimer _ _ _ => true | _ => false end.

(** The steps of calls that are under way, and of the loop but for its poll and backoff
    timer.  None of them depends on a caller's context. *)
Inductive inner (s : ssys) : ssys -> Prop :=
| i_loop l t ev :
    loop s = Some l -> started s = true -> now s <= t -> ready o t ev l = true -> allowed s ev = true -> is_timer ev = false ->
    inner s (set_loop (handle asReporter o t ev l) t s)
| i_exit l :
    loop s = Some l -> started s = true -> at_ l = Exited -> loopDone s = false ->
    inner s (set_flags (started s) (ctx s) true s)
| i_rotate l t k f b1 b2 :
    loop s = Some l -> started s = true -> now s <= t -> rots s !! k = Some (RSend f) ->
    ready o t (EvRotate (mkRotateReq f k) b1 b2) l = true ->
    inner s (set_rots (<[k := RWait]> (rots s)) (set_loop (handle asReporter o t (EvRotate (mkRotateReq f k) b1 b2) l) t s))
| i_check k f :
    rots s !! k = Some (RCalled f) ->
    inner s (set_rots (<[k := if started s then RSend f else RReturned (RotateIfIdle false Sent CtxDone2)]> (rots s)) s)
| i_gone k f :
    rots s !! k = Some (RSend f) -> loopDone s = true ->
    inner s (set_rots (<[k := RReturned (RotateIfIdle true LoopDone CtxDone2)]> (rots s)) s)
| i_reply l k r :
    loop s = Some l -> rots s !! k = Some RWait -> SReply k r ∈ effects l ->
    inner s (set_rots (<[k := RReturned (RotateIfIdle true Sent (Replied r))]> (rots s)) s)
| i_once k :
    stops s !! k = Some TCalled ->
    inner s (set_stops (<[k := TClosed]> (stops s)) true s)
| i_load k :
    stops s !! k = Some TClosed ->
    inner s (set_stops (<[k := if started s then TJoin else TReturned false]> (stops s)) (stopCh s) s)
| i_join k :
    stops s !! k = Some TJoin -> loopDone s = true ->
    inner s (set_stops (<[k := TReturned true]> (stops s)) (stopCh s) s).

(** A call of [RotateIfIdle] that ends because its own context is done, in either select. *)
Inductive cancel (s : ssys) : ssys -> Prop :=
| c_send k f :
    rots s !! k = Some (RSend f) ->
    cancel s (set_rots (<[k := RReturned (RotateIfIdle true CtxDone1 CtxDone2)]> (rots s)) s)
| c_wait k :
    rots s !! k = Some RWait ->
    cancel s (set_rots (<[k := RReturned (RotateIfIdle true Sent CtxDone2)]> (rots s)) s).

Definition under_way (s s' : ssys) : Prop := inner s s' \/ cancel s s'.

Inductive step (s : ssys) : ssys -> Prop :=
| s_inner s' : inner s s' -> step s s'
| s_cancel s' : cancel s s' -> step s s'
| s_timer l t ev :
    loop s = Some l -> started s = true -> now s <= t -> ready o t ev l = true -> is_timer ev = true ->
    step s (set_loop (handle asReporter o t ev l) t s)
| s_build t idx built :
    loop s = None -> now s <= t -> (idx < Eligible.Len (eligible o))%nat ->
    step s (set_loop (Start asReporter o t idx built) t s)
| s_go l :
    loop s = Some l -> started s = false -> step s (set_flags true (ctx s) (loopDone s) s)
| s_ctx : step s (set_flags (started s) true (loopDone s) s)
| s_rotate k f : rots s !! k = None -> step s (set_rots (<[k := RCalled f]> (rots s)) s)
| s_stop k : stops s !! k = None -> step s (set_stops (<[k := TCalled]> (stops s)) (stopCh s) s).

Definition init (s : ssys) : Prop := exists t, s = mkS None t false false false false ∅ ∅.
End System.
End SupervisorSystem.
Import SupervisorSystem.

Section Thms.
Context {Device Reporter : Type} `{EqDecision Device} (asReporter : Device -> option Reporter) (o : options).
Notation sup := (@sup Device Reporter).
Notation ssys := (@ssys Device Reporter).
Notation run := (run asReporter o).
Implicit Types (s : ssys) (l : sup).

(** ** The calls and the loop *)

(** Requests that the loop has received. *)
Definition sent (c : rotCall) : Prop := match c with RWait | RReturned _ => True | _ => False end.

Record inv (s : ssys) : Prop := mk_inv {
  v_loop : match loop s with
           | None => started s = false /\ forall k, rots s !! k <> Some RWait
           | Some l => exists c recv, run c (now s) recv l /\ NoDup recv
               /\ (forall k, rots s !! k = Some RWait -> k ∈ recv)
               /\ (forall k, k ∈ recv -> exists x, rots s !! k = Some x /\ sent x)
           end;
  v_done : loopDone s = true -> exists l, loop s = Some l /\ at_ l = Exited;
  v_result : forall k r, rots s !! k = Some (RReturned (Ok r)) ->
    r = mkRotateResult RotateUnavailable "" \/ exists l, loop s = Some l /\ SReply k r ∈ effects l;
  v_joined : forall k, stops s !! k = Some (TReturned true) -> loopDone s = true
}.

(** The log of the loop only grows, and an exited loop takes no event. *)
Lemma effects_grow t ev l e : e ∈ effects l -> e ∈ effects (handle asReporter o t ev l).
Proof.
  intros He. destruct ev as [|req b1 b2|idx built answer| |idx built]; cbn [handle].
  - unfold shutdown, teardown. destruct (device l); cbn; rewrite ?elem_of_app; auto.
  - unfold handleRotate. repeat case_match; cbn; rewrite ?elem_of_app; auto.
  - destruct (device l) eqn:Hd.
    + unfold poll, teardown. repeat case_match; cbn; rewrite ?elem_of_app; auto.
    + unfold reconnect. destruct built; cbn; rewrite ?elem_of_app; auto.
  - destruct (at_ l); cbn; rewrite ?elem_of_app; auto.
  - destruct (at_ l); [done | | done]. unfold rotateRebuild. destruct built; cbn; rewrite ?elem_of_app; auto.
Qed.

Lemma exited_stuck t ev l : at_ l = Exited -> ready o t ev l = false.
Proof. intros E. unfold ready. rewrite E. by destruct ev. Qed.

Lemma run_handle c t t' recv l ev :
  run c t recv l -> t <= t' -> ready o t' ev l = true ->
  run (c || cancelled ev) t' (recv ++ received ev) (handle asReporter o t' ev l).
Proof. intros. by eapply run_step. Qed.

(** A step of the loop that receives nothing. *)
Lemma inv_loop s l t ev :
  inv s -> loop s = Some l -> now s <= t -> ready o t ev l = true -> received ev = [] ->
  inv (set_loop (handle asReporter o t ev l) t s).
Proof.
  intros [H1 H2 H3 H4] Hl Ht Hr Hn. rewrite Hl in H1. destruct H1 as (c & recv & Hrun & Hnd & Hw & Hs). split; cbn.
  - exists (c || cancelled ev), recv. split; [| done].
    pose proof (run_handle _ _ _ _ _ _ Hrun Ht Hr) as Hrun'. by rewrite Hn, app_nil_r in Hrun'.
  - intros Hd. destruct (H2 Hd) as (l' & Hl' & He). rewrite Hl in Hl'. injection Hl' as <-. by rewrite exited_stuck in Hr.
  - intros k r Hk. destruct (H3 k r Hk) as [?|(l' & Hl' & Hin)]; [by left |]. right. rewrite Hl in Hl'. injection Hl' as <-.
    eexists. split; [done |]. by apply effects_grow.
  - exact H4.
Qed.

(** A call that goes on without the loop. *)
Lemma inv_rots s k x y :
  inv s -> rots s !! k = Some x -> y <> RWait -> (sent x -> sent y) ->
  (forall r, y = RReturned (Ok r) -> r = mkRotateResult RotateUnavailable "" \/ exists l, loop s = Some l /\ SReply k r ∈ effects l) ->
  inv (set_rots (<[k := y]> (rots s)) s).
Proof.
  intros [H1 H2 H3 H4] Hk Hy Hsent Hr. split; cbn; [| done | | done].
  - destruct (loop s) as [l|].
    + destruct H1 as (c & recv & Hrun & Hnd & Hw & Hs). exists c, recv. split_and!; [done | done | |].
      * intros k'. rewrite lookup_insert_Some. intros [[_ ?]|[_ ?]]; [done | by apply Hw].
      * intros k' Hin. destruct (Hs k' Hin) as (z & Hz & Hsz). destruct (decide (k = k')) as [<-|Hne].
        -- exists y. rewrite lookup_insert_eq. split; [done |]. apply Hsent. congruence.
        -- exists z. by rewrite lookup_insert_ne.
    + destruct H1 as [H0 Hn]. split; [done |]. intros k'. rewrite lookup_insert_Some. by intros [[_ ?]|[_ ?%Hn]].
  - intros k' r. rewrite lookup_insert_Some. intros [[<- ->]|[_ Hk']]; [by apply Hr | by apply H3].
Qed.

(** A rotation handed to the loop. *)
Lemma inv_rotate s l t k f b1 b2 :
  inv s -> loop s = Some l -> now s <= t -> rots s !! k = Some (RSend f) ->
  ready o t (EvRotate (mkRotateReq f k) b1 b2) l = true ->
  inv (set_rots (<[k := RWait]> (rots s)) (set_loop (handle asReporter o t (EvRotate (mkRotateReq f k) b1 b2) l) t s)).
Proof.
  intros [H1 H2 H3 H4] Hl Ht Hk Hr. rewrite Hl in H1. destruct H1 as (c & recv & Hrun & Hnd & Hw & Hs).
  assert (k ∉ recv) as Hfresh by (intros Hin; destruct (Hs k Hin) as (x & Hx & Hsx); rewrite Hk in Hx; by injection Hx as <-).
  split; cbn [set_rots set_loop loop now started loopDone rots stops].
  - eexists _, (recv ++ [k]). split_and!; [exact (run_handle _ _ _ _ _ _ Hrun Ht Hr) | | |].
    + apply NoDup_app. split_and!; [done | | apply NoDup_singleton]. intros x Hx ->%list_elem_of_singleton. done.
    + intros k'. rewrite lookup_insert_Some, elem_of_app, list_elem_of_singleton. intros [[<- _]|[_ ?%Hw]]; auto.
    + intros k' [Hin| ->%list_elem_of_singleton]%elem_of_app; [| exists RWait; by rewrite lookup_insert_eq].
      destruct (Hs k' Hin) as (x & Hx & Hsx). exists x. rewrite lookup_insert_ne; [done |]. by intros ->.
  - intros Hd. destruct (H2 Hd) as (l' & Hl' & He). rewrite Hl in Hl'. injection Hl' as <-. by rewrite exited_stuck in Hr.
  - intros k' r. rewrite lookup_insert_Some. intros [[_ ?]|[_ Hk']]; [done |]. destruct (H3 k' r Hk') as [?|(l' & Hl' & Hin)]; [by left |].
    right. rewrite Hl in Hl'. injection Hl' as <-. eexists. split; [done |]. by apply effects_grow.
  - exact H4.
Qed.

Lemma inv_stops s k y c :
  inv s -> (y = TReturned true -> loopDone s = true) -> inv (set_stops (<[k := y]> (stops s)) c s).
Proof.
  intros [H1 H2 H3 H4] Hy. split; cbn; [done | done | done |].
  intros k'. rewrite lookup_insert_Some. intros [[_ ->]|[_ ?]]; eauto.
Qed.

Lemma inv_inner s s' : inv s -> inner asReporter o s s' -> inv s'.
Proof.
  intros Hv Hs. destruct Hs as [l t ev Hl _ Ht Hr Ha _|l Hl _ He _|l t k f b1 b2 Hl _ Ht Hk Hr|k f Hk|k f Hk _|l k r Hl Hk Hin|k Hk|k Hk|k Hk Hd].
  - eapply inv_loop; eauto. by destruct ev.
  - destruct Hv as [H1 H2 H3 H4]. split; cbn; eauto.
  - by apply inv_rotate.
  - destruct (started s); (eapply inv_rots; [done | exact Hk | done | by auto |]); [done |]. intros r [= <-]. by left.
  - eapply inv_rots; [done | exact Hk | done | done |]. intros r [= <-]. by left.
  - eapply inv_rots; [done | exact Hk | done | done |]. intros r' [= <-]. right. eauto.
  - by apply inv_stops.
  - apply inv_stops; [done |]. by destruct (started s).
  - by apply inv_stops.
Qed.

Lemma inv_cancel s s' : inv s -> cancel s s' -> inv s'.
Proof. intros Hv [k f Hk|k Hk]; by eapply inv_rots. Qed.

Lemma calls_step s s' : inv s -> step asReporter o s s' -> inv s'.
Proof.
  intros Hv Hs. destruct Hs as [s' Hs|s' Hs|l t ev Hl _ Ht Hr Hti|t idx built Hl Ht Hidx|l Hl _| |k f Hk|k Hk].
  - by eapply inv_inner.
  - by eapply inv_cancel.
  - eapply inv_loop; eauto. by destruct ev.
  - destruct Hv as [H1 H2 H3 H4]. rewrite Hl in H1. destruct H1 as [Hst Hw]. split; cbn; [| | | done].
    + exists false, []. split_and!; [by apply run_start | constructor | | by intros k ?%elem_of_nil]. intros k Hk. by destruct (Hw k).
    + intros Hd. destruct (H2 Hd) as (l & Hl' & _). by rewrite Hl in Hl'.
    + intros k r Hk. destruct (H3 k r Hk) as [?|(l & Hl' & _)]; [by left |]. by rewrite Hl in Hl'.
  - destruct Hv as [H1 H2 H3 H4]. split; cbn; rewrite ?Hl in *; eauto.
  - destruct Hv as [H1 H2 H3 H4]. split; cbn; eauto.
  - destruct Hv as [H1 H2 H3 H4]. split; cbn; [| done | | done].
    + destruct (loop s) as [l|].
      * destruct H1 as (c & recv & Hrun & Hnd & Hw & Hs). exists c, recv. split_and!; [done | done | |].
        -- intros k'. rewrite lookup_insert_Some. intros [[_ ?]|[_ ?]]; [done | by apply Hw].
        -- intros k' Hin. destruct (Hs k' Hin) as (x & Hx & Hsx). exists x. rewrite lookup_insert_ne; [done |]. intros ->. congruence.
      * destruct H1 as [Hst Hw]. split; [done |]. intros k'. rewrite lookup_insert_Some. by intros [[_ ?]|[_ ?%Hw]].
    + intros k' r. rewrite lookup_insert_Some. intros [[_ ?]|[_ Hk']]; [done | by apply H3].
  - by apply inv_stops.
Qed.

Lemma inv_reachable s : reachable init (step asReporter o) s -> inv s.
Proof.
  revert s. apply reachable_invariant; [| intros s s' _; apply calls_step].
  intros s (t & ->). split; cbn; try done; intros k r Hk; by rewrite lookup_empty in Hk.
Qed.

(** ** Termination *)

Definition loop_work (s : ssys) : nat :=
  if loopDone s then 0
  else match loop s with
       | None => 0
       | Some l => match at_ l with Exited => 1 | AtSelect _ => 2 | AtSettle _ _ => 3 end
       end.
Definition rot_work (c : rotCall) : nat := match c with RCalled _ => 4 | RSend _ => 3 | RWait => 1 | RReturned _ => 0 end.
Definition stop_work (c : stopCall) : nat := match c with TCalled => 3 | TClosed => 2 | TJoin => 1 | TReturned _ => 0 end.
Definition work (s : ssys) : nat := (loop_work s + total rot_work (rots s) + total stop_work (stops s))%nat.

(** Where an event of the loop leads. *)
Lemma handle_at t ev l : ready o t ev l = true -> is_timer ev = false ->
  match ev, at_ l with
  | EvStop, AtSelect _ => at_ (handle asReporter o t ev l) = Exited
  | EvRotate _ _ _, AtSelect _ => at_ (handle asReporter o t ev l) <> Exited
  | EvSettleCancelled, AtSettle _ _ | EvSettled _ _, AtSettle _ _ => exists u, at_ (handle asReporter o t ev l) = AtSelect u
  | _, _ => False
  end.
Proof.
  intros Hr Ht. unfold ready in Hr. destruct ev as [|req b1 b2|idx built answer| |idx built], (at_ l) eqn:E; try done; cbn [handle].
  - unfold handleRotate. repeat case_match; done.
  - rewrite E. by eexists.
  - rewrite E. unfold rotateRebuild. destruct built; by eexists.
Qed.

Lemma work_rots s k x y :
  rots s !! k = Some x -> (rot_work y < rot_work x)%nat -> (work (set_rots (<[k := y]> (rots s)) s) < work s)%nat.
Proof. intros Hk Hlt. pose proof (total_update rot_work (rots s) k x y Hk). unfold work, loop_work. cbn. lia. Qed.

Lemma work_stops s k x y c :
  stops s !! k = Some x -> (stop_work y < stop_work x)%nat -> (work (set_stops (<[k := y]> (stops s)) c s) < work s)%nat.
Proof. intros Hk Hlt. pose proof (total_update stop_work (stops s) k x y Hk). unfold work, loop_work. cbn. lia. Qed.

(** While the loop takes events it has not announced its end. *)
Lemma ready_running s l t ev : inv s -> loop s = Some l -> ready o t ev l = true -> loopDone s = false.
Proof.
  intros Hv Hl Hr. destruct (loopDone s) eqn:Hd; [| done]. destruct (v_done _ Hv Hd) as (l' & Hl' & He).
  rewrite Hl in Hl'. injection Hl' as <-. by rewrite exited_stuck in Hr.
Qed.

Lemma inner_work s s' : inv s -> inner asReporter o s s' -> (work s' < work s)%nat.
Proof.
  intros Hv Hs. destruct Hs as [l t ev Hl _ Ht Hr Ha Hti|l Hl _ He Hd|l t k f b1 b2 Hl _ Ht Hk Hr|k f Hk|k f Hk _|l k r Hl Hk Hin|k Hk|k Hk|k Hk Hd].
  - pose proof (handle_at t ev l Hr Hti) as Hat. unfold work, loop_work. cbn [set_loop loop loopDone rots stops].
    rewrite (ready_running _ _ _ _ Hv Hl Hr), Hl.
    destruct ev, (at_ l); try done; [rewrite Hat; lia | destruct Hat as [u ->]; lia | destruct Hat as [u ->]; lia].
  - unfold work, loop_work. cbn. rewrite Hd, Hl, He. lia.
  - pose proof (handle_at t (EvRotate (mkRotateReq f k) b1 b2) l Hr eq_refl) as Hat.
    pose proof (total_update rot_work (rots s) k _ RWait Hk) as Hu. unfold work, loop_work.
    cbn [set_rots set_loop loop loopDone rots stops]. rewrite (ready_running _ _ _ _ Hv Hl Hr), Hl. cbn [rot_work] in Hu.
    destruct (at_ l); [| done | done]. destruct (at_ (handle _ _ _ _ _)); cbn; [lia | lia | done].
  - eapply work_rots; [exact Hk |]. destruct (started s); cbn; lia.
  - eapply work_rots; [exact Hk | cbn; lia].
  - eapply work_rots; [exact Hk | cbn; lia].
  - eapply work_stops; [exact Hk | cbn; lia].
  - eapply work_stops; [exact Hk |]. destruct (started s); cbn; lia.
  - eapply work_stops; [exact Hk | cbn; lia].
Qed.

(** ** Where the steps end *)

Lemma inv_under_way s s' : inv s -> under_way asReporter o s s' -> inv s'.
Proof. intros Hv [Hs|Hs]; [by eapply inv_inner | by eapply inv_cancel]. Qed.

Lemma under_way_work s s' : inv s -> under_way asReporter o s s' -> (work s' < work s)%nat.
Proof. intros Hv [Hs|[k f Hk|k Hk]]; [by apply inner_work | |]; (eapply work_rots; [exact Hk | cbn; lia]). Qed.

Lemma under_way_nsteps s n s' : inv s -> nsteps (under_way asReporter o) n s s' -> inv s' /\ (n + work s' <= work s)%nat.
Proof.
  intros Hv Hn. induction Hn as [s|n s s1 s' Hs Hn IH]; [split; [done | lia] |].
  pose proof (under_way_work _ _ Hv Hs). destruct (IH (inv_under_way _ _ Hv Hs)). split; [done | lia].
Qed.

(** Nothing under way, and the loop told to stop. *)
Definition told (s : ssys) : Prop := started s = true /\ stopCh s || ctx s = true.

Lemma told_under_way s s' : told s -> under_way asReporter o s s' -> told s'.
Proof. intros [H1 H2] [Hs|Hs]; unfold told; destruct Hs; cbn; auto. Qed.

Lemma told_nsteps s n s' : told s -> nsteps (under_way asReporter o) n s s' -> told s'.
Proof. intros Ht Hn. induction Hn; eauto using told_under_way. Qed.

(** No step is left that happens without a caller's context being cancelled. *)
Definition stuck (s : ssys) : Prop := forall s', ~ inner asReporter o s s'.

(** A loop that was told to stop goes on until it is gone. *)
Lemma stuck_done s : (0 < Eligible.Len (eligible o))%nat -> inv s -> told s -> stuck s -> loopDone s = true.
Proof.
  intros He Hv [Hst Hstop] Hs. pose proof (v_loop _ Hv) as Hl. destruct (loop s) as [l|] eqn:El; [| destruct Hl; congruence].
  destruct (loopDone s) eqn:Hd; [done |]. destruct (at_ l) as [since|since req|] eqn:Ea.
  - destruct (Hs (set_loop (handle asReporter o (now s) EvStop l) (now s) s)). apply i_loop; try done. unfold ready. by rewrite Ea.
  - set (t := Z.max (now s) (since + rotateSettle o)).
    destruct (Hs (set_loop (handle asReporter o t (EvSettled 0 None) l) t s)). apply i_loop; try done; [lia |].
    unfold ready. rewrite Ea. apply andb_true_iff. split; [apply Z.leb_le; lia | by apply Nat.ltb_lt].
  - destruct (Hs (set_flags (started s) (ctx s) true s)). by apply (i_exit asReporter o s l).
Qed.

(** A reply that was promised is in the log of a loop that is gone. *)
Lemma waiting_replied s l k :
  options_ok o -> inv s -> loop s = Some l -> at_ l = Exited -> rots s !! k = Some RWait -> exists r, SReply k r ∈ effects l.
Proof.
  intros (Ho1 & Ho2 & _) Hv Hl Ha Hk. pose proof (v_loop _ Hv) as H1. rewrite Hl in H1. destruct H1 as (c & recv & Hrun & _ & Hw & _).
  pose proof (k_account _ _ _ _ _ _ (sup_run_ok asReporter o Ho1 Ho2 _ _ _ _ Hrun)) as Hp.
  assert (open_request l = []) as Hopen by (unfold open_request; by rewrite Ha). rewrite Hopen, app_nil_r in Hp.
  assert (k ∈ replied (effects l)) as Hin by (rewrite Hp; by apply Hw). apply list_elem_of_omap in Hin as (e & He & Hm).
  destruct e; try done. injection Hm as ->. eauto.
Qed.

Definition returned (s : ssys) : Prop :=
  (forall k c, rots s !! k = Some c -> exists r, c = RReturned r) /\ (forall k c, stops s !! k = Some c -> exists b, c = TReturned b).

Lemma stuck_returned s :
  options_ok o -> (0 < Eligible.Len (eligible o))%nat -> inv s -> told s -> stuck s -> loopDone s = true /\ returned s.
Proof.
  intros Ho He Hv Ht Hs. pose proof (stuck_done s He Hv Ht Hs) as Hd. split; [done |]. split.
  - intros k [f|f| |r] Hk; [| | | by eauto]; exfalso.
    + eapply Hs. by eapply i_check.
    + eapply Hs. by eapply i_gone.
    + destruct (v_done _ Hv Hd) as (l & Hl & Ha). destruct (waiting_replied s l k Ho Hv Hl Ha Hk) as [r Hr].
      eapply Hs. by eapply i_reply.
  - intros k [| | |b] Hk; [| | | by eauto]; exfalso; eapply Hs.
    + by eapply i_once.
    + by eapply i_load.
    + by eapply i_join.
Qed.

Lemma exited_closed s l : options_ok o -> inv s -> loop s = Some l -> at_ l = Exited -> device l = None /\ replay None (effects l) = Some None.
Proof.
  intros (Ho1 & Ho2 & _) Hv Hl Ha. pose proof (v_loop _ Hv) as H1. rewrite Hl in H1. destruct H1 as (c & recv & Hrun & _).
  pose proof (sup_run_ok asReporter o Ho1 Ho2 _ _ _ _ Hrun) as Hok. pose proof (k_exit _ _ _ _ _ _ Hok Ha) as Hd.
  split; [done |]. by rewrite (k_replay _ _ _ _ _ _ Hok), Hd.
Qed.

(** C11: The supervisor stops, and nobody waits forever.  Once the loop runs and was told to
    stop (by [Stop] or its context), whatever calls of [RotateIfIdle] and [Stop] are under
    way: the steps of the loop (its poll and backoff timers apart) and of the calls,
    cancellations of callers' contexts among them or not, are at most [work] in number, in
    whatever order; and where no step is left but, perhaps, such a cancellation, the loop's
    goroutine is gone with its device closed, every rotation has its result and every
    [Stop] has returned, so nobody needs a context to be cancelled to get out. *)
Theorem supervisor_stops s n s' :
  options_ok o -> (0 < Eligible.Len (eligible o))%nat ->
  reachable init (step asReporter o) s -> told s -> nsteps (under_way asReporter o) n s s' ->
  (n <= work s)%nat
  /\ (stuck s' -> loopDone s' = true /\ returned s'
      /\ exists l, loop s' = Some l /\ at_ l = Exited /\ device l = None /\ replay None (effects l) = Some None).
Proof.
  intros Ho He Hr Ht Hn. destruct (under_way_nsteps s n s' (inv_reachable s Hr) Hn) as [Hv Hw]. split; [lia |]. intros Hs.
  destruct (stuck_returned s' Ho He Hv (told_nsteps _ _ _ Ht Hn) Hs) as [Hd Hret]. split; [done |]. split; [done |].
  destruct (v_done _ Hv Hd) as (l & Hl & Ha). exists l. split; [done |]. split; [done |]. by eapply exited_closed.
Qed.

(** ** What the callers get *)

(** One reply for each request. *)
Lemma replied_once (es : list (@effect Device)) k r r' :
  NoDup (replied es) -> SReply k r ∈ es -> SReply k r' ∈ es -> r = r'.
Proof.
  induction es as [|e es IH]; intros Hnd; [by intros ?%elem_of_nil |].
  assert (forall x, SReply k x ∈ es -> k ∈ replied es) as Hin.
  { intros x Hx. apply list_elem_of_omap. by exists (SReply k x). }
  rewrite !elem_of_cons. cbn [replied omap list_omap] in Hnd. fold (replied es) in Hnd. intros [<-|H1] [E|H2].
  - by injection E.
  - apply NoDup_cons in Hnd as [Hn _]. by destruct Hn; eapply Hin.
  - subst e. apply NoDup_cons in Hnd as [Hn _]. by destruct Hn; eapply Hin.
  - apply IH; [| done | done]. destruct e; try done. by apply NoDup_cons in Hnd as [_ ?].
Qed.

(** A call of [Stop] that found the supervisor started returns only when the loop's
    goroutine has ended: its device is closed, and no further step of the loop is possible.
    A rotation that returns without an error returns the one reply to its own request, or
    that the supervisor is unavailable. *)
Theorem supervisor_calls s :
  options_ok o -> reachable init (step asReporter o) s ->
  (forall k, stops s !! k = Some (TReturned true) ->
     exists l, loop s = Some l /\ at_ l = Exited /\ device l = None /\ forall t ev, ready o t ev l = false)
  /\ (forall k r, rots s !! k = Some (RReturned (Ok r)) ->
       r = mkRotateResult RotateUnavailable ""
       \/ exists l, loop s = Some l /\ SReply k r ∈ effects l /\ forall r', SReply k r' ∈ effects l -> r' = r).
Proof.
  intros Ho Hr. pose proof (inv_reachable s Hr) as Hv. split.
  - intros k Hk. destruct (v_done _ Hv (v_joined _ Hv k Hk)) as (l & Hl & Ha). exists l. split_and!; [done | done | |].
    + by eapply exited_closed.
    + intros t ev. by apply exited_stuck.
  - intros k r Hk. destruct (v_result _ Hv k r Hk) as [?|(l & Hl & Hin)]; [by left |]. right. exists l. split_and!; [done | done |].
    intros r' Hin'. pose proof (v_loop _ Hv) as H1. rewrite Hl in H1. destruct H1 as (c & recv & Hrun & Hnd & _).
    destruct Ho as (Ho1 & Ho2 & _). pose proof (k_account _ _ _ _ _ _ (sup_run_ok asReporter o Ho1 Ho2 _ _ _ _ Hrun)) as Hp.
    rewrite <- Hp in Hnd. apply NoDup_app in Hnd as (Hnd & _ & _). by eapply replied_once.
Qed.
End Thms.

(** ** A rotation that the stop overtakes *)
Module StopDemo.
Import SupDemo.
Definition sysd := @ssys nat unit.
Definition s0 : sysd := mkS None 0 false false false false ∅ ∅.
Definition s1 : sysd := set_loop (Start norep opts 0 0 (Some 1%nat)) 0 s0.
Definition s2 : sysd := set_flags true false false s1.
Definition s3 : sysd := set_rots (<[1%nat := RCalled true]> (rots s2)) s2.
Definition s4 : sysd := set_rots (<[1%nat := RSend true]> (rots s3)) s3.
Definition s5 : sysd := set_stops (<[7%nat := TCalled]> (stops s4)) false s4.
(** The stop channel is closed, then the loop takes the rotation. *)
Definition s6 : sysd := set_stops (<[7%nat := TClosed]> (stops s5)) true s5.
Definition the_loop (s : sysd) : @sup nat unit := default st0 (loop s).
Definition req : @event nat := EvRotate (mkRotateReq true 1) true true.
Definition s7 : sysd := set_rots (<[1%nat := RWait]> (rots s6)) (set_loop (handle norep opts 1 req (the_loop s6)) 1 s6).
Definition s8 : sysd := set_stops (<[7%nat := TJoin]> (stops s7)) true s7.
Definition s9 : sysd := set_loop (handle norep opts 6 (EvSettled 0 (Some 2%nat)) (the_loop s8)) 6 s8.
Definition s10 : sysd := set_loop (handle norep opts 6 EvStop (the_loop s9)) 6 s9.
Definition s11 : sysd := set_flags true false true s10.
Definition s12 : sysd := set_stops (<[7%nat := TReturned true]> (stops s11)) true s11.
Definition answer : RotateResult := mkRotateResult RotateRotated (Eligible.countryFromBasename "aa").
Definition s13 : sysd := set_rots (<[1%nat := RReturned (Ok answer)]> (rots s12)) s12.

Lemma reach : reachable init (step norep opts) s6.
Proof.
  exists s0. split; [by exists 0 |].
  eapply (rtc_l _ _ s1); [apply (s_build norep opts s0 0 0 (Some 1%nat)); vm_compute; first [done | lia] |].
  eapply (rtc_l _ _ s2); [by apply (s_go norep opts s1 (the_loop s1)) |].
  eapply (rtc_l _ _ s3); [by apply (s_rotate norep opts s2 1 true) |].
  eapply (rtc_l _ _ s4); [by apply s_inner, (i_check norep opts s3 1 true) |].
  eapply (rtc_l _ _ s5); [by apply (s_stop norep opts s4 7) |].
  eapply (rtc_l _ _ s6); [by apply s_inner, (i_once norep opts s5 7) | apply rtc_refl].
Qed.

Lemma ends : nsteps (under_way norep opts) 7 s6 s13.
Proof.
  eapply (nsteps_l _ _ _ s7); [left; by apply (i_rotate norep opts s6 (the_loop s6) 1 1 true true true) |].
  eapply (nsteps_l _ _ _ s8); [left; by apply (i_load norep opts s7 7) |].
  eapply (nsteps_l _ _ _ s9); [left; by apply (i_loop norep opts s8 (the_loop s8) 6 (EvSettled 0 (Some 2%nat))) |].
  eapply (nsteps_l _ _ _ s10); [left; by apply (i_loop norep opts s9 (the_loop s9) 6 EvStop) |].
  eapply (nsteps_l _ _ _ s11); [left; by apply (i_exit norep opts s10 (the_loop s10)) |].
  eapply (nsteps_l _ _ _ s12); [left; by apply (i_join norep opts s11 7) |].
  eapply (nsteps_l _ _ _ s13); [| apply nsteps_O].
  left. apply (i_reply norep opts s12 (the_loop s12) 1 answer); [done | done |]. vm_compute. set_solver.
Qed.

Lemma over : stuck norep opts s13.
Proof.
  assert (forall k c, rots s13 !! k = Some c -> c = RReturned (Ok answer)) as Hr.
  { intros k c. assert (rots s13 = {[1%nat := RReturned (Ok answer)]}) as -> by (by vm_compute). by intros [_ <-]%lookup_singleton_Some. }
  assert (forall k c, stops s13 !! k = Some c -> c = TReturned true) as Ht.
  { intros k c. assert (stops s13 = {[7%nat := TReturned true]}) as -> by (by vm_compute). by intros [_ <-]%lookup_singleton_Some. }
  intros s' Hs. destruct Hs as [l t ev Hl _ _ Hx _ _| |l t k f b1 b2 _ _ _ Hk _|k f Hk|k f Hk _|l k r _ Hk _|k Hk|k Hk|k Hk _];
    try (apply Hr in Hk; done); try (apply Ht in Hk; done); [| done].
  assert (l = the_loop s13) as -> by (unfold the_loop; by rewrite Hl). by rewrite exited_stuck in Hx.
Qed.
End StopDemo.

Lemma supervisor_stops_witness :
  (7 <= work StopDemo.s6)%nat /\ loopDone StopDemo.s13 = true
  /\ exists l, loop StopDemo.s13 = Some l /\ at_ l = Exited /\ device l = None /\ replay None (effects l) = Some None.
Proof.
  destruct (supervisor_stops SupDemo.norep SupDemo.opts StopDemo.s6 7 StopDemo.s13 SupDemo.opts_ok ltac:(vm_compute; lia)
    StopDemo.reach ltac:(by vm_compute) StopDemo.ends) as [Hn Hs].
  destruct (Hs StopDemo.over) as (Hd & _ & Hl). split; [exact Hn |]. split; [exact Hd | exact Hl].
Defined.

Lemma supervisor_calls_witness : exists l, loop StopDemo.s13 = Some l /\ at_ l = Exited /\ device l = None.
Proof.
  assert (reachable init (step SupDemo.norep SupDemo.opts) StopDemo.s13) as Hr.
  { destruct StopDemo.reach as (s & Hi & Hs). exists s. split; [exact Hi |]. etrans; [exact Hs |].
    apply (rtc_subrel (under_way SupDemo.norep SupDemo.opts)); [intros x y [H|H]; [by apply s_inner | by apply s_cancel] |]. eapply rtc_nsteps_2. exact StopDemo.ends. }
  destruct (proj1 (supervisor_calls SupDemo.norep SupDemo.opts StopDemo.s13 SupDemo.opts_ok Hr) 7%nat eq_refl) as (l & Hl & Ha & Hd & _).
  exists l. split; [exact Hl |]. split; [exact Ha | exact Hd].
Defined.
