(* ===== verification/AsyncRecord.v ===== *)
(** * Async job records ([internal/application/asyncjob/record.go])

    A stored record and the bytes it is stored as: the JSON text of [JsonText], with
    invalid UTF-8 in its strings replaced.  [Unmarshal] reads the text and decodes the wire
    record with the decoders of [GoJson].  A time is its nanoseconds since the epoch; UTC
    conversions do not change it. *)

From S2P Require Import Prelude GoStrings GoText GoUtf8 GoJson JsonText Domain Base64.
Import Utf8.

Module AsyncRecord.

Definition Status := string.
Definition StatusPending : Status := "pending".
Definition StatusCompleted : Status := "completed".
Definition StatusFailed : Status := "failed".
Definition StatusFailedTimeout : Status := "failed_timeout".
Definition StatusTombstone : Status := "tombstone".

(** Header maps; a nil map is [None].  A nil [Body] is [None]. *)
Record UpstreamResponse := mkResponse {
  StatusCode : Z;
  Header : option (gmap string (list string));
  Body : option string
}.

Record Record_ := mkRecord {
  Tag : string;
  Status_ : Status;
  CreatedAt : Z;
  UpdatedAt : Z;
  EvictedAt : Z;
  Response : option UpstreamResponse
}.

Inductive recordError := ErrUnknownStatus | ErrUnmarshal.

#[export] Instance response_eq_dec : EqDecision UpstreamResponse.
Proof. solve_decision. Defined.
#[export] Instance record_eq_dec : EqDecision Record_.
Proof. solve_decision. Defined.

Definition validateStatus (s : Status) : option recordError :=
  if String.eqb s StatusPending || String.eqb s StatusCompleted || String.eqb s StatusFailed
     || String.eqb s StatusFailedTimeout || String.eqb s StatusTombstone
  then None else Some ErrUnknownStatus.

Definition NewPendingRecord (tag : string) (now : Z) : Record_ :=
  mkRecord tag StatusPending now now time_zero None.

(** ** Encoding *)

(** [json.Marshal] writes the entries of a map in the order of their keys. *)
Definition entries (m : gmap string (list string)) : list (string * list string) :=
  (fun k => (k, default [] (m !! k))) <$> sortStrings (map_to_list m).*1.

Definition json_header (h : option (gmap string (list string))) : json :=
  match h with
  | None => JNull
  | Some m => JObj ((fun kv => (fst kv, JArr (JStr <$> snd kv))) <$> entries m)
  end.

Definition json_body (b : option string) : json :=
  match b with None => JNull | Some s => JStr (Base64.EncodeToString s) end.

Definition json_response (r : UpstreamResponse) : json :=
  JObj [("status_code", JNum (StatusCode r)); ("header", json_header (Header r));
        ("body", json_body (Body r))].

(** Fields with [omitempty] are left out when nil. *)
Definition omitempty (k : string) (v : option json) : list (string * json) :=
  match v with Some j => [(k, j)] | None => [] end.

Definition json_record (r : Record_) : json :=
  JObj ([("tag", JStr (Tag r)); ("status", JStr (Status_ r));
         ("created_at", JNum (Unix (CreatedAt r))); ("updated_at", JNum (Unix (UpdatedAt r)))]
        ++ omitempty "evicted_at" (if negb (IsZero (EvictedAt r))
                                   then Some (JNum (Unix (EvictedAt r))) else None)
        ++ omitempty "upstream_response" (json_response <$> Response r)).

Definition Marshal (r : Record_) : res recordError string :=
  match validateStatus (Status_ r) with
  | Some e => Err e
  | None => Ok (JsonText.print (json_record r))
  end.

(** ** Decoding *)

(** [http.Header]: keys are added to the old map, values replaced. *)
Fixpoint dec_header_keys (fs : list (string * json)) (m : gmap string (list string))
    : option (gmap string (list string)) :=
  match fs with
  | [] => Some m
  | (k, j) :: fs' =>
      v ← dec_slice "" dec_string j nil_slice;
      dec_header_keys fs' (<[k := elems v]> m)
  end.

Definition dec_header : decoder (option (gmap string (list string))) := fun j old =>
  match j with
  | JNull => Some None
  | JObj fs => Some <$> dec_header_keys fs (default ∅ old)
  | _ => None
  end.

(** A byte slice decodes from base64 text, or from an array of numbers onto the old
    bytes. *)
Fixpoint dec_bytes (l : list json) (old : string) : option string :=
  match l with
  | [] => Some ""
  | j :: l' =>
      let '(b, old') := match old with "" => (Ascii.ascii_of_nat 0, "") | String c o => (c, o) end in
      match j with
      | JNum n =>
          if (0 <=? n) && (n <? 256) then String (Ascii.ascii_of_nat (Z.to_nat n)) <$> dec_bytes l' old' else None
      | JNull => String b <$> dec_bytes l' old'
      | _ => None
      end
  end.

Definition dec_body : decoder (option string) := fun j old =>
  match j with
  | JNull => Some None
  | JStr s => Some <$> Base64.DecodeString s
  | JArr l => Some <$> dec_bytes l (default "" old)
  | _ => None
  end.

Definition zero_response : UpstreamResponse := mkResponse 0 None None.

Definition response_fields : fields UpstreamResponse :=
  [("status_code", on StatusCode (fun v r => mkResponse v (Header r) (Body r)) dec_int64);
   ("header", on Header (fun v r => mkResponse (StatusCode r) v (Body r)) dec_header);
   ("body", on Body (fun v r => mkResponse (StatusCode r) (Header r) v) dec_body)].

Record wireRecord := mkWire {
  w_tag : string;
  w_status : Status;
  w_created : Z;
  w_updated : Z;
  w_evicted : option Z;
  w_response : option UpstreamResponse
}.

Definition wire_fields : fields wireRecord :=
  [("tag", on w_tag (fun v w => mkWire v (w_status w) (w_created w) (w_updated w) (w_evicted w) (w_response w))
      dec_string);
   ("status", on w_status (fun v w => mkWire (w_tag w) v (w_created w) (w_updated w) (w_evicted w) (w_response w))
      dec_string);
   ("created_at", on w_created (fun v w => mkWire (w_tag w) (w_status w) v (w_updated w) (w_evicted w) (w_response w))
      dec_int64);
   ("updated_at", on w_updated (fun v w => mkWire (w_tag w) (w_status w) (w_created w) v (w_evicted w) (w_response w))
      dec_int64);
   ("evicted_at", on w_evicted (fun v w => mkWire (w_tag w) (w_status w) (w_created w) (w_updated w) v (w_response w))
      (dec_ptr 0 dec_int64));
   ("upstream_response",
      on w_response (fun v w => mkWire (w_tag w) (w_status w) (w_created w) (w_updated w) (w_evicted w) v)
      (dec_ptr zero_response (dec_struct response_fields)))].

Definition zero_wire : wireRecord := mkWire "" "" 0 0 None None.

Definition Unmarshal (data : string) : res recordError Record_ :=
  match JsonText.Parse data ≫= fun doc => dec_struct wire_fields doc zero_wire with
  | None => Err ErrUnmarshal
  | Some w =>
      match validateStatus (w_status w) with
      | Some e => Err e
      | None =>
          Ok (mkRecord (w_tag w) (w_status w) (fromUnix (w_created w)) (fromUnix (w_updated w))
                (match w_evicted w with Some t => fromUnix t | None => time_zero end) (w_response w))
      end
  end.

Definition status_fields : fields string := [("status", dec_string)].

Definition unmarshalStatus (data : string) : res recordError Status :=
  match JsonText.Parse data ≫= fun doc => dec_struct status_fields doc "" with
  | None => Err ErrUnmarshal
  | Some st => match validateStatus st with Some e => Err e | None => Ok st end
  end.

(** ** Round trip *)

(** What is stored of a record: its times to the second, its tag and headers in valid
    UTF-8 (of two names that become equal the later one counts). *)
Definition put_entry (m : gmap string (list string)) (kv : string * list string) : gmap string (list string) :=
  <[valid (fst kv) := valid <$> snd kv]> m.
Definition stored_header (m : gmap string (list string)) : gmap string (list string) := fold_left put_entry (entries m) ∅.
Definition stored_response (r : UpstreamResponse) : UpstreamResponse :=
  mkResponse (StatusCode r) (stored_header <$> Header r) (Body r).

Definition stored (r : Record_) : Record_ :=
  mkRecord (valid (Tag r)) (Status_ r) (fromUnix (Unix (CreatedAt r))) (fromUnix (Unix (UpdatedAt r)))
    (if IsZero (EvictedAt r) then time_zero else fromUnix (Unix (EvictedAt r))) (stored_response <$> Response r).

(** The times and the status code fit 64 bits. *)
Definition representable (r : Record_) : Prop :=
  in_int64 (Unix (CreatedAt r)) /\ in_int64 (Unix (UpdatedAt r)) /\ in_int64 (Unix (EvictedAt r))
  /\ match Response r with Some u => in_int64 (StatusCode u) | None => True end.

(** A header map whose names and values are valid UTF-8. *)
Definition utf8_header (m : gmap string (list string)) : Prop :=
  map_Forall (fun k vs => ValidString k = true /\ Forall (fun v => ValidString v = true) vs) m.

Lemma valid_all vs : Forall (fun v => ValidString v = true) (valid <$> vs).
Proof. apply Forall_fmap, Forall_true. intros v. apply valid_valid. Qed.

Lemma valid_all_id vs : Forall (fun v => ValidString v = true) vs -> valid <$> vs = vs.
Proof. induction 1 as [|v vs Hv _ IH]; [done |]. cbn. by rewrite valid_id, IH. Qed.

Lemma elem_of_entries m k vs : (k, vs) ∈ entries m <-> m !! k = Some vs.
Proof.
  unfold entries. rewrite list_elem_of_fmap. setoid_rewrite sortStrings_perm. split.
  - intros (k' & [= -> ->] & ((k1 & vs') & -> & Hin)%list_elem_of_fmap). apply elem_of_map_to_list in Hin. cbn. by rewrite Hin.
  - intros Hm. exists k. rewrite Hm. split; [done |]. apply list_elem_of_fmap. exists (k, vs). by rewrite elem_of_map_to_list.
Qed.

Lemma entries_nodup m : NoDup (entries m).*1.
Proof.
  unfold entries. rewrite <- list_fmap_compose. erewrite (list_fmap_ext _ id); [| by intros]. rewrite list_fmap_id.
  rewrite sortStrings_perm. apply NoDup_fst_map_to_list.
Qed.

Lemma put_entries_utf8 l m : utf8_header m -> utf8_header (fold_left put_entry l m).
Proof.
  revert m. induction l as [|[k vs] l IH]; intros m Hm; [done |]. cbn [fold_left]. apply IH.
  intros k' vs'. unfold put_entry. cbn. intros [[<- <-]|[_ Hk]]%lookup_insert_Some; [| by apply Hm].
  split; [apply valid_valid | apply valid_all].
Qed.

Lemma put_entries_id l m :
  Forall (fun kv => ValidString (fst kv) = true /\ Forall (fun v => ValidString v = true) (snd kv)) l -> NoDup l.*1 ->
  fold_left put_entry l m = list_to_map l ∪ m.
Proof.
  intros Hl. revert m. induction Hl as [|[k vs] l [Hk Hv] _ IH]; intros m Hnd; cbn [fold_left].
  - cbn. by rewrite (left_id_L ∅ (∪)).
  - cbn in Hnd. apply NoDup_cons in Hnd as [Hni Hnd]. rewrite IH by done. unfold put_entry. cbn in Hk, Hv |- *.
    rewrite valid_id, valid_all_id by done. rewrite <- insert_union_r by (by apply not_elem_of_list_to_map_1).
    by rewrite insert_union_l.
Qed.

Lemma stored_header_id m : utf8_header m -> stored_header m = m.
Proof.
  intros Hm. unfold stored_header. rewrite put_entries_id; [| | apply entries_nodup].
  - rewrite (right_id_L ∅ (∪)). apply map_eq. intros k. apply option_eq. intros vs.
    rewrite <- elem_of_list_to_map by apply entries_nodup. apply elem_of_entries.
  - apply Forall_forall. intros [k vs] Hin%elem_of_entries. by apply Hm.
Qed.

Lemma stored_header_utf8 m : utf8_header (stored_header m).
Proof. apply put_entries_utf8. by intros k vs ?%lookup_empty_Some. Qed.

Lemma stored_response_idem u : stored_response (stored_response u) = stored_response u.
Proof. destruct u as [c [m|] b]; [| done]. unfold stored_response. cbn. by rewrite (stored_header_id _ (stored_header_utf8 m)). Qed.

Lemma dec_strings_JStr ss : dec_elems "" dec_string (JStr <$> ss) [] = Some ss.
Proof. induction ss as [|s ss IH]; [done |]. cbn. by rewrite IH. Qed.

Lemma dec_slice_JStr ss :
  exists v, dec_slice "" dec_string (JArr (JStr <$> ss)) nil_slice = Some v /\ elems v = ss.
Proof. apply dec_slice_fresh; [apply dec_strings_JStr | by rewrite length_fmap]. Qed.

(** The header as it is read back. *)
Lemma norm_strings (ss : list string) : norm <$> (JStr <$> ss) = JStr <$> (valid <$> ss).
Proof. induction ss as [|s ss IH]; [done |]. cbn. by f_equal. Qed.

Lemma dec_header_keys_json l m :
  dec_header_keys ((fun '(k, v) => (valid k, norm v))
    <$> ((fun kv : string * list string => (fst kv, JArr (JStr <$> snd kv))) <$> l)) m
  = Some (fold_left put_entry l m).
Proof.
  revert m. induction l as [|[k ss] l IH]; intros m; [done |]. cbn [fmap list_fmap dec_header_keys fst snd norm].
  change (list_fmap json json norm (list_fmap string json JStr ss)) with (norm <$> (JStr <$> ss)).
  rewrite norm_strings. destruct (dec_slice_JStr (valid <$> ss)) as (v & Hd & Hv). rewrite Hd. cbn [mbind option_bind]. rewrite Hv. apply IH.
Qed.

Lemma dec_header_json h : dec_header (norm (json_header h)) None = Some (stored_header <$> h).
Proof. destruct h as [m|]; [| done]. cbn [json_header norm dec_header default]. by rewrite dec_header_keys_json. Qed.

Lemma dec_body_json b : dec_body (norm (json_body b)) None = Some b.
Proof.
  destruct b as [s|]; [| done]. cbn. rewrite valid_id by apply ascii_valid, Base64.EncodeToString_ascii.
  by rewrite Base64.DecodeString_EncodeToString.
Qed.

Lemma dec_response_json r :
  in_int64 (StatusCode r) -> dec_struct response_fields (norm (json_response r)) zero_response = Some (stored_response r).
Proof.
  intros Hc. unfold json_response, dec_struct. cbn [norm fmap list_fmap].
  erewrite dec_keys_cons; [| reflexivity | unfold on; by rewrite dec_int64_num].
  erewrite dec_keys_cons; [| reflexivity | unfold on; cbn [Header zero_response]; by rewrite dec_header_json].
  erewrite dec_keys_cons; [| reflexivity | unfold on; cbn [Body zero_response]; by rewrite dec_body_json].
  by destruct r.
Qed.

(** The wire form of a record, as it is read back. *)
Definition wire_of (r : Record_) : wireRecord :=
  mkWire (valid (Tag r)) (Status_ r) (Unix (CreatedAt r)) (Unix (UpdatedAt r))
    (if IsZero (EvictedAt r) then None else Some (Unix (EvictedAt r))) (stored_response <$> Response r).

Lemma known_status_valid st : validateStatus st = None -> valid st = st.
Proof.
  unfold validateStatus. intros Hs. assert (st ∈ [StatusPending; StatusCompleted; StatusFailed; StatusFailedTimeout; StatusTombstone]) as Hin.
  { rewrite !elem_of_cons. repeat (match goal with H : context [String.eqb st ?x] |- _ => destruct (String.eqb_spec st x); [auto 10 |] end). done. }
  rewrite !elem_of_cons, elem_of_nil in Hin. destruct_or! Hin; subst; done.
Qed.

Lemma dec_wire_json r :
  representable r -> validateStatus (Status_ r) = None ->
  dec_struct wire_fields (norm (json_record r)) zero_wire = Some (wire_of r).
Proof.
  intros (Hc & Hu & He & Hr) Hs. unfold json_record, dec_struct. cbn [norm]. rewrite fmap_app. cbn [fmap list_fmap app norm].
  rewrite (known_status_valid _ Hs).
  do 2 (erewrite dec_keys_cons; [| reflexivity | reflexivity]).
  do 2 (erewrite dec_keys_cons; [| reflexivity | unfold on; by rewrite dec_int64_num]).
  unfold wire_of. destruct (IsZero (EvictedAt r)); cbn [negb omitempty app fmap list_fmap].
  - destruct (Response r) as [u|]; [| done]. cbn [fmap option_fmap option_map omitempty list_fmap].
    erewrite dec_keys_cons; [| reflexivity |]; [reflexivity |].
    unfold on. cbn [w_response zero_wire]. unfold dec_ptr. change (norm (json_response u)) with
      (JObj ((fun '(k, v) => (valid k, norm v)) <$> [("status_code", JNum (StatusCode u)); ("header", json_header (Header u)); ("body", json_body (Body u))])).
    cbn [default]. change (JObj (_ <$> _)) with (norm (json_response u)). by rewrite (dec_response_json u Hr).
  - erewrite dec_keys_cons; [| reflexivity |];
      [| unfold on; cbn [w_evicted zero_wire]; unfold dec_ptr; cbn [default norm]; by rewrite dec_int64_num].
    destruct (Response r) as [u|]; [| done]. cbn [fmap option_fmap option_map omitempty list_fmap].
    erewrite dec_keys_cons; [| reflexivity |]; [reflexivity |].
    unfold on. cbn [w_response zero_wire]. unfold dec_ptr. change (norm (json_response u)) with
      (JObj ((fun '(k, v) => (valid k, norm v)) <$> [("status_code", JNum (StatusCode u)); ("header", json_header (Header u)); ("body", json_body (Body u))])).
    cbn [default]. change (JObj (_ <$> _)) with (norm (json_response u)). by rewrite (dec_response_json u Hr).
Qed.

(** The document of a record can be read: its numbers are integers, its nesting is small. *)
Lemma json_record_ok r : integral (json_record r) = true /\ nesting (json_record r) <= JsonText.maxNestingDepth.
Proof.
  assert (forall h, integral (json_header h) = true /\ 0 <= nesting (json_header h) <= 2) as Hh.
  { intros [m|]; [| cbn; split; [done | lia]]. cbn [json_header integral nesting]. induction (entries m) as [|[k ss] l [IH1 IH2]]; [done |].
    destruct (json_strings_ok ss) as [Hi Hn]. cbn [fmap list_fmap forallb fst snd integral foldr nesting] in *.
    change (list_fmap json Z nesting (list_fmap string json JStr ss)) with (nesting <$> (JStr <$> ss)). rewrite Hn.
    change (list_fmap string json JStr ss) with (JStr <$> ss). rewrite Hi. split; [done |]. lia. }
  assert (forall u, integral (json_response u) = true /\ 0 <= nesting (json_response u) <= 3) as Hu.
  { intros u. destruct (Hh (Header u)) as [H1 H2]. unfold json_response. cbn. rewrite H1. split; [by destruct (Body u) |].
    assert (nesting (json_body (Body u)) = 0) as -> by (by destruct (Body u)). lia. }
  unfold json_record. cbn [integral nesting]. rewrite forallb_app, fmap_app.
  unfold JsonText.maxNestingDepth. destruct (Response r) as [u|].
  - destruct (Hu u) as [H1 H2]. destruct (IsZero (EvictedAt r)); cbn in H1, H2 |- *; rewrite ?H1; (split; [done | lia]).
  - destruct (IsZero (EvictedAt r)); cbn; (split; [done | lia]).
Qed.

Lemma Unmarshal_Marshal r data :
  representable r -> Marshal r = Ok data -> Unmarshal data = Ok (stored r).
Proof.
  intros Hr Hm. unfold Marshal in Hm. destruct (validateStatus (Status_ r)) eqn:Hs; [done |].
  assert (data = JsonText.print (json_record r)) as -> by congruence. clear Hm.
  unfold Unmarshal. destruct (json_record_ok r) as [Hi Hn]. rewrite (Parse_print _ _ Hi Hn). cbn [mbind option_bind].
  rewrite (dec_wire_json r Hr Hs).
  unfold wire_of, stored. cbn [w_status w_tag w_created w_updated w_evicted w_response]. rewrite Hs.
  by destruct (IsZero (EvictedAt r)).
Qed.

Lemma Marshal_ok r : is_ok (Marshal r) = true <-> validateStatus (Status_ r) = None.
Proof. unfold Marshal. by destruct (validateStatus (Status_ r)). Qed.

Lemma stored_idem r : stored (stored r) = stored r.
Proof.
  unfold stored. cbn [Tag Status_ CreatedAt UpdatedAt EvictedAt Response]. rewrite !Unix_fromUnix, valid_idem.
  assert (stored_response <$> (stored_response <$> Response r) = stored_response <$> Response r) as ->
    by (destruct (Response r); [cbn; by rewrite stored_response_idem | done]).
  f_equal. destruct (IsZero (EvictedAt r)); [done |].
  destruct (IsZero (fromUnix (Unix (EvictedAt r)))) eqn:E; [| by rewrite Unix_fromUnix].
  apply Z.eqb_eq in E. by rewrite E.
Qed.

(** A document that decodes carries a known status, the one [unmarshalStatus] reads. *)
Lemma Unmarshal_status data r :
  Unmarshal data = Ok r -> validateStatus (Status_ r) = None /\ unmarshalStatus data = Ok (Status_ r).
Proof.
  unfold Unmarshal, unmarshalStatus. destruct (JsonText.Parse data) as [doc|]; [| done]. cbn [mbind option_bind]. destruct (dec_struct wire_fields doc zero_wire) as [w|] eqn:Hw; [| done].
  destruct (validateStatus (w_status w)) eqn:Hs; [done |]. intros [= <-]. cbn [Status_]. split; [done |].
  destruct (dec_struct_sim (fun w (s : string) => w_status w = s) wire_fields status_fields doc zero_wire "" w)
    as (st & Hst & <-); [| done | done | by rewrite Hst, Hs].
  intros k v x x' y <-. assert (NoDup (fold_case <$> wire_fields.*1)) as Hnd by (eapply bool_decide_eq_true_1; vm_compute; reflexivity).
  assert (NoDup (fold_case <$> status_fields.*1)) as Hnd' by (eapply bool_decide_eq_true_1; vm_compute; reflexivity).
  destruct (find_field wire_fields k) as [d|] eqn:E; intros Hx.
  - apply find_field_Some in E as (n & Hin & Hf); [| done]. unfold wire_fields in Hin. rewrite !elem_of_cons in Hin.
    destruct (decide (n = "status")) as [->|Hn].
    + rewrite (proj2 (find_field_Some _ k dec_string Hnd')) by (exists "status"; split; [by left | done]).
      destruct Hin as [[=] | [[= ->] | [[=] | [[=] | [[=] | [[=] | Hin]]]]]]; [| by apply not_elem_of_nil in Hin].
      unfold on in Hx. apply fmap_Some in Hx as (u & Hu & ->). by exists u.
    + rewrite find_field_None; [| done |].
      * exists (w_status x). split; [done |].
        destruct Hin as [[= -> ->] | [[= -> ->] | [[= -> ->] | [[= -> ->] | [[= -> ->] | [[= -> ->] | Hin]]]]]];
          [.. | by apply not_elem_of_nil in Hin]; try done;
          unfold on in Hx; apply fmap_Some in Hx as (u & _ & ->); done.
      * intros n' d' Hn'. apply list_elem_of_singleton in Hn' as [= -> ->]. rewrite Hf.
        destruct Hin as [[= -> ->] | [[= -> ->] | [[= -> ->] | [[= -> ->] | [[= -> ->] | [[= -> ->] | Hin]]]]]];
          [.. | by apply not_elem_of_nil in Hin]; done.
  - subst x'. exists (w_status x). split; [| done]. rewrite find_field_None; [done | done |].
    intros n d Hn Hf. apply list_elem_of_singleton in Hn as [= -> ->].
    assert (is_Some (find_field wire_fields k)) as [? Hs']; [| by rewrite Hs' in E].
    eexists. apply find_field_Some; [done |]. exists "status". split; [right; by left | done].
Qed.

(** Decoded numbers fit 64 bits. *)
Lemma wire_range doc w :
  dec_struct wire_fields doc zero_wire = Some w ->
  in_int64 (w_created w) /\ in_int64 (w_updated w) /\ match w_evicted w with Some t => in_int64 t | None => True end
  /\ match w_response w with Some u => in_int64 (StatusCode u) | None => True end.
Proof.
  assert (in_int64 0) as H0 by (unfold in_int64, int64_min, int64_max; lia).
  apply (dec_struct_inv (fun w => in_int64 (w_created w) /\ in_int64 (w_updated w)
    /\ match w_evicted w with Some t => in_int64 t | None => True end
    /\ match w_response w with Some u => in_int64 (StatusCode u) | None => True end)); [| done].
  intros k d v x x' Hd (Hc & Hu & He & Hr) Hx. unfold wire_fields in Hd. rewrite !elem_of_cons in Hd.
  destruct Hd as [[= -> ->] | [[= -> ->] | [[= -> ->] | [[= -> ->] | [[= -> ->] | [[= -> ->] | Hd]]]]]];
    [.. | by apply not_elem_of_nil in Hd];
    unfold on in Hx; apply fmap_Some in Hx as (u & Hv & ->); cbn [w_created w_updated w_evicted w_response];
    split_and!; try done; try (eapply dec_int64_range; [| exact Hv]; done).
  - destruct u as [t|]; [| done].
    assert (dec_int64 v (default 0 (w_evicted x)) = Some t) as Ht
      by (unfold dec_ptr in Hv; destruct v; try done; by apply fmap_Some in Hv as (? & ? & [= <-])).
    eapply dec_int64_range; [| exact Ht]. by destruct (w_evicted x).
  - destruct u as [u|]; [| done]. unfold dec_ptr in Hv.
    assert (dec_struct response_fields v (default zero_response (w_response x)) = Some u) as Hs
      by (destruct v; cbn [fmap option_fmap option_map] in Hv; try done; by apply fmap_Some in Hv as (? & ? & [= <-])).
    revert Hs. apply (dec_struct_inv (fun u => in_int64 (StatusCode u))); [| by destruct (w_response x)].
    intros k d j y y' Hd Hy Hj. unfold response_fields in Hd. rewrite !elem_of_cons in Hd.
    destruct Hd as [[= -> ->] | [[= -> ->] | [[= -> ->] | Hd]]]; [.. | by apply not_elem_of_nil in Hd];
      unfold on in Hj; apply fmap_Some in Hj as (c & Hc' & ->); cbn [StatusCode]; try done.
    eapply dec_int64_range; [| exact Hc']; done.
Qed.

(** ** Strings of a decoded record *)

Lemma norm_fields fs : norm (JObj fs) = JObj fs -> Forall (fun kv => valid (fst kv) = fst kv /\ norm (snd kv) = snd kv) fs.
Proof.
  cbn [norm]. intros [= H]. induction fs as [|[k v] fs IH]; [constructor |]. cbn in H. injection H as Hk Hv Hf.
  constructor; [done |]. by apply IH.
Qed.

Lemma norm_elems l : norm (JArr l) = JArr l -> Forall (fun j => norm j = j) l.
Proof.
  cbn [norm]. intros [= H]. induction l as [|j l IH]; [constructor |]. cbn in H. injection H as Hj Hl. constructor; [done |]. by apply IH.
Qed.

Lemma valid_iff s : valid s = s <-> ValidString s = true.
Proof. split; [intros <-; apply valid_valid | apply valid_id]. Qed.

Lemma dec_string_valid j old s : norm j = j -> valid old = old -> dec_string j old = Some s -> valid s = s.
Proof. destruct j; cbn; try done; [by intros _ Ho [= <-] |]. by intros [= Hs] _ [= <-]. Qed.

Lemma dec_strings_valid l old r : Forall (fun j => norm j = j) l -> Forall (fun s => ValidString s = true) old ->
  dec_elems "" dec_string l old = Some r -> Forall (fun s => ValidString s = true) r.
Proof.
  intros Hl. revert old r. induction Hl as [|j l Hj _ IH]; intros old r Ho; cbn [dec_elems]; [by intros [= <-] |].
  destruct (dec_string j (default "" (head old))) as [x|] eqn:Ex; cbn; [| done].
  destruct (dec_elems "" dec_string l (tail old)) as [r'|] eqn:Er; cbn; [| done]. intros [= <-]. constructor.
  - apply valid_iff. eapply dec_string_valid; [exact Hj | | exact Ex]. destruct Ho as [|o old Ho]; [done |]. by apply valid_iff.
  - eapply IH; [| exact Er]. by destruct Ho.
Qed.

Lemma dec_header_valid j old h :
  norm j = j -> (forall m, old = Some m -> utf8_header m) -> dec_header j old = Some h -> forall m, h = Some m -> utf8_header m.
Proof.
  intros Hj Ho. destruct j as [| | | | | |fs]; cbn [dec_header]; try done; [by intros [= <-] |].
  assert (utf8_header (default ∅ old)) as Hd by (destruct old; [by apply Ho | apply map_Forall_empty]).
  revert Hd. generalize (default ∅ old). intros m0 Hd. destruct (dec_header_keys fs m0) as [m1|] eqn:E; cbn; [| done].
  intros [= <-] m [= <-]. apply norm_fields in Hj. revert m0 Hd E. induction Hj as [|[k v] fs [Hk Hv] _ IH]; intros m0 Hd; cbn [dec_header_keys];
    [by intros [= <-] |].
  destruct (dec_slice "" dec_string v nil_slice) as [sl|] eqn:Es; cbn [mbind option_bind]; [| done]. apply IH.
  intros k' vs' [[<- <-]|[_ Hin]]%lookup_insert_Some; [| by apply Hd]. split; [by apply valid_iff |].
  unfold dec_slice in Es. destruct v as [| | | | |[|j l]|]; try done; [by injection Es as <- | by injection Es as <- |].
  destruct (dec_elems "" dec_string (j :: l) (s_array nil_slice)) as [r|] eqn:Ee; [| done]. injection Es as <-.
  apply Forall_take. cbn [s_array]. apply norm_elems in Hv. by eapply dec_strings_valid; [exact Hv | | exact Ee].
Qed.

Definition utf8_response (u : UpstreamResponse) : Prop := forall m, Header u = Some m -> utf8_header m.

Lemma stored_response_id u : utf8_response u -> stored_response u = u.
Proof. destruct u as [c [m|] b]; [| done]. intros Hu. unfold stored_response. cbn. by rewrite stored_header_id by (by apply Hu). Qed.

Lemma dec_response_valid j u0 u :
  norm j = j -> utf8_response u0 -> dec_struct response_fields j u0 = Some u -> utf8_response u.
Proof.
  intros Hj. apply (dec_struct_inv_on utf8_response (fun j => norm j = j)).
  - intros k d v x x' Hd Hv Hx Hdec. unfold response_fields in Hd. rewrite !elem_of_cons in Hd.
    destruct Hd as [[= -> ->] | [[= -> ->] | [[= -> ->] | Hd]]]; [.. | by apply not_elem_of_nil in Hd];
      unfold on in Hdec; apply fmap_Some in Hdec as (y & Hy & ->); try exact Hx.
    intros m. cbn. by eapply dec_header_valid.
  - destruct j; try done. apply norm_fields in Hj. eapply Forall_impl; [exact Hj |]. by intros [k v] [_ ?].
Qed.

(** What is read is stored unchanged. *)
Lemma wire_valid doc w :
  norm doc = doc -> dec_struct wire_fields doc zero_wire = Some w ->
  valid (w_tag w) = w_tag w /\ stored_response <$> w_response w = w_response w.
Proof.
  intros Hj Hw. assert (valid (w_tag w) = w_tag w /\ forall u, w_response w = Some u -> utf8_response u) as [Ht Hr].
  { revert Hw. apply (dec_struct_inv_on (fun w => valid (w_tag w) = w_tag w /\ forall u, w_response w = Some u -> utf8_response u) (fun j => norm j = j));
      [| destruct doc; try done; apply norm_fields in Hj; eapply Forall_impl; [exact Hj |]; by intros [k v] [_ ?] | done].
    intros k d v x x' Hd Hv [Hx1 Hx2] Hdec. unfold wire_fields in Hd. rewrite !elem_of_cons in Hd.
    destruct Hd as [[= -> ->] | [[= -> ->] | [[= -> ->] | [[= -> ->] | [[= -> ->] | [[= -> ->] | Hd]]]]]];
      [.. | by apply not_elem_of_nil in Hd]; unfold on in Hdec; apply fmap_Some in Hdec as (y & Hy & ->); cbn [w_tag w_response];
      try (split; [done | exact Hx2]).
    - split; [| exact Hx2]. by eapply dec_string_valid.
    - split; [done |]. intros u ->. unfold dec_ptr in Hy.
      assert (dec_struct response_fields v (default zero_response (w_response x)) = Some u) as Hs
        by (destruct v; cbn [fmap option_fmap option_map] in Hy; try done; by apply fmap_Some in Hy as (? & ? & [= <-])).
      eapply dec_response_valid; [exact Hv | | exact Hs]. destruct (w_response x); [by apply Hx2 | by intros m]. }
  split; [done |]. destruct (w_response w) as [u|]; [| done]. cbn. by rewrite stored_response_id by (by apply Hr).
Qed.
End AsyncRecord.
