(* ===== verification/AsyncStore.v ===== *)
(** * The job store ([internal/application/asyncjob/store.go])

    The bbolt bucket is an interface ([Bolt]): a finite map from keys to
    documents, scanned in some order without repetition; [bput] fails on keys the
    database refuses.  Every operation of the store runs in one transaction:
    [Update] commits what its body wrote, or keeps the old bucket when the body
    returns an error or the commit fails (argument [io] false). *)

From S2P Require Import Prelude GoStrings GoText GoUtf8 GoJson JsonText Domain Base64 AsyncRecord.
Import AsyncRecord.

Class Bolt (B : Type) := {
  bget : B -> string -> option string;
  bput : B -> string -> string -> option B;
  bdelete : B -> string -> B;
  bforeach : B -> list (string * string);
  bput_existing : forall b k v v', bget b k = Some v' -> is_Some (bput b k v);
  bget_put : forall b k v b' k', bput b k v = Some b' ->
    bget b' k' = if String.eqb k k' then Some v else bget b k';
  bget_delete : forall b k k', bget (bdelete b k) k' = if String.eqb k k' then None else bget b k';
  bforeach_nodup : forall b, NoDup (bforeach b).*1;
  bforeach_get : forall b k v, (k, v) ∈ bforeach b <-> bget b k = Some v
}.

Module AsyncStore.

Inductive storeError :=
| ErrNotFound
| ErrStatusMismatch
| ErrRecord (e : recordError)
| ErrIO.

#[export] Instance recordError_eq_dec : EqDecision recordError.
Proof. solve_decision. Defined.
#[export] Instance storeError_eq_dec : EqDecision storeError.
Proof. solve_decision. Defined.

Record JobCounts := mkCounts { nPending : Z; nCompleted : Z; nTombstone : Z }.

Section Store.
Context `{Bolt B}.

(** [db.Update]: all or nothing. *)
Definition Update {A} (io : bool) (b : B) (body : res storeError (A * B)) : res storeError A * B :=
  match body with
  | Err e => (Err e, b)
  | Ok (x, b') => if io then (Ok x, b') else (Err ErrIO, b)
  end.

Definition decode (v : string) : res storeError Record_ :=
  match Unmarshal v with Ok r => Ok r | Err e => Err (ErrRecord e) end.

Definition encode (r : Record_) : res storeError string :=
  match Marshal r with Ok v => Ok v | Err e => Err (ErrRecord e) end.

Definition put (b : B) (k : string) (v : string) : res storeError B :=
  match bput b k v with Some b' => Ok b' | None => Err ErrIO end.

Definition Get (io : bool) (b : B) (tag : string) : res storeError (option Record_) :=
  if negb io then Err ErrIO
  else match bget b tag with
       | None => Ok None
       | Some v => let? r := decode v in Ok (Some r)
       end.

Definition Put (io : bool) (b : B) (tag : string) (rec : Record_) : res storeError unit * B :=
  match encode rec with
  | Err e => (Err e, b)
  | Ok data => Update io b (let? b' := put b tag data in Ok (tt, b'))
  end.

Definition CompareAndSwapStatus (io : bool) (b : B) (tag : string) (expected : Status)
    (mutate : Record_ -> Record_) : res storeError Record_ * B :=
  Update io b
    match bget b tag with
    | None => Err ErrNotFound
    | Some v =>
        let? rec := decode v in
        if negb (String.eqb (Status_ rec) expected) then Err ErrStatusMismatch
        else
          let updated := mutate rec in
          let? data := encode updated in
          let? b' := put b tag data in
          Ok (updated, b')
    end.

(** The key in an error message, cut at [maxTagEchoLen] bytes and marked with an ellipsis. *)
Definition maxTagEchoLen : nat := 128.
Definition ellipsis : string := String "226" (String "128" (String "166" "")).
Definition tagForError (k : string) : string :=
  if Nat.ltb maxTagEchoLen (String.length k) then String.substring 0 maxTagEchoLen k +:+ ellipsis else k.

(** Pass 1 of the batches: the keys of the matching records. *)
Fixpoint matching (filter : Record_ -> bool) (l : list (string * string))
    : res storeError (list string) :=
  match l with
  | [] => Ok []
  | (k, v) :: l' =>
      let? rec := decode v in
      let? ks := matching filter l' in
      Ok (if filter rec then k :: ks else ks)
  end.

(** Pass 2 of [BatchTransition]. *)
Fixpoint transition_all (mutate : Record_ -> Record_) (ks : list string) (count : Z) (b : B)
    : res storeError (Z * B) :=
  match ks with
  | [] => Ok (count, b)
  | k :: ks' =>
      match bget b k with
      | None => transition_all mutate ks' count b
      | Some v =>
          let? rec := decode v in
          let? data := encode (mutate rec) in
          let? b' := put b k data in
          transition_all mutate ks' (count + 1) b'
      end
  end.

Definition BatchTransition (io : bool) (b : B) (filter : Record_ -> bool)
    (mutate : Record_ -> Record_) : res storeError Z * B :=
  Update io b (let? ks := matching filter (bforeach b) in transition_all mutate ks 0 b).

(** Pass 2 of [BatchDelete]. *)
Fixpoint delete_all (ks : list string) (count : Z) (b : B) : Z * B :=
  match ks with
  | [] => (count, b)
  | k :: ks' => delete_all ks' (count + 1) (bdelete b k)
  end.

Definition BatchDelete (io : bool) (b : B) (filter : Record_ -> bool) : res storeError Z * B :=
  Update io b (let? ks := matching filter (bforeach b) in Ok (delete_all ks 0 b)).

Fixpoint count_scan (l : list (string * string)) (c : JobCounts) : res storeError JobCounts :=
  match l with
  | [] => Ok c
  | (_, v) :: l' =>
      match unmarshalStatus v with
      | Err e => Err (ErrRecord e)
      | Ok st =>
          count_scan l'
            (if String.eqb st StatusPending then mkCounts (nPending c + 1) (nCompleted c) (nTombstone c)
             else if String.eqb st StatusCompleted then mkCounts (nPending c) (nCompleted c + 1) (nTombstone c)
             else if String.eqb st StatusTombstone then mkCounts (nPending c) (nCompleted c) (nTombstone c + 1)
             else c)
      end
  end.

Definition Counts (io : bool) (b : B) : res storeError JobCounts :=
  if negb io then Err ErrIO else count_scan (bforeach b) (mkCounts 0 0 0).

(** ** What a bucket holds *)

(** The record under a key, when its document decodes. *)
Definition rec_at (b : B) (k : string) : option Record_ :=
  match bget b k with
  | Some v => match Unmarshal v with Ok r => Some r | Err _ => None end
  | None => None
  end.

(** Every document decodes. *)
Definition intact (b : B) : Prop := forall k v, bget b k = Some v -> exists r, Unmarshal v = Ok r.

Lemma rec_at_Some b k r : rec_at b k = Some r <-> exists v, bget b k = Some v /\ Unmarshal v = Ok r.
Proof.
  unfold rec_at. destruct (bget b k) as [v|]; [| split; [done | by intros (? & ? & _)]].
  split.
  - destruct (Unmarshal v) eqn:E; [done |]. intros [= <-]. eauto.
  - by intros (? & [= <-] & ->).
Qed.

Lemma rec_at_None b k : intact b -> rec_at b k = None <-> bget b k = None.
Proof.
  intros Hi. unfold rec_at. destruct (bget b k) as [v|] eqn:E; [| done].
  destruct (Hi _ _ E) as [r ->]. done.
Qed.

(** A decoded record is representable and unchanged by storing it. *)
Lemma Unmarshal_stored v r : Unmarshal v = Ok r -> representable r /\ stored r = r.
Proof.
  unfold Unmarshal. destruct (JsonText.Parse v) as [doc|] eqn:Hp; [| done]. cbn [mbind option_bind].
  destruct (dec_struct wire_fields doc zero_wire) as [w|] eqn:Hw; [| done].
  apply Parse_norm in Hp. destruct (wire_valid _ _ Hp Hw) as [Ht Hresp].
  apply wire_range in Hw as (Hc & Hu & He & Hr). destruct (validateStatus (w_status w)); [done |]. intros [= <-]. split.
  - split_and!; cbn; rewrite ?Unix_fromUnix; try done.
    destruct (w_evicted w); cbn in *; [by rewrite Unix_fromUnix |]. by vm_compute.
  - unfold stored. cbn. rewrite !Unix_fromUnix, Ht, Hresp. f_equal. destruct (w_evicted w) as [t|]; [| done].
    cbn. destruct (IsZero (fromUnix t)) eqn:E; [| by rewrite Unix_fromUnix].
    apply Z.eqb_eq in E. by rewrite E.
Qed.

(** A mutation that keeps records storable. *)
Definition storable (r : Record_) : Prop := representable r /\ validateStatus (Status_ r) = None.

Lemma rec_at_storable b k r : rec_at b k = Some r -> storable r /\ stored r = r.
Proof.
  intros (v & _ & Hu)%rec_at_Some. destruct (Unmarshal_stored _ _ Hu).
  destruct (Unmarshal_status _ _ Hu). done.
Qed.

Lemma encode_storable r : storable r -> exists v, encode r = Ok v /\ Unmarshal v = Ok (stored r).
Proof.
  intros [Hr Hs]. unfold encode. destruct (Marshal r) as [e|v] eqn:Hm.
  - apply Marshal_ok in Hs. by rewrite Hm in Hs.
  - exists v. split; [done |]. by apply Unmarshal_Marshal.
Qed.

(** Writing a record. *)
Lemma put_rec b k v b' r :
  put b k v = Ok b' -> Unmarshal v = Ok r ->
  (forall k', rec_at b' k' = if String.eqb k k' then Some r else rec_at b k')
  /\ (intact b -> intact b').
Proof.
  unfold put. intros Hp Hu. destruct (bput b k v) as [b1|] eqn:Hb; [| done]. injection Hp as <-.
  pose proof (fun k' => bget_put _ _ _ _ k' Hb) as Hg. split.
  - intros k'. unfold rec_at. rewrite Hg. destruct (String.eqb k k'); [by rewrite Hu | done].
  - intros Hi k' v'. rewrite Hg. destruct (String.eqb k k'); [intros [= <-]; by eauto | apply Hi].
Qed.

(** Pass 1 on documents that all decode. *)
Lemma matching_spec f l :
  (forall k v, (k, v) ∈ l -> exists r, Unmarshal v = Ok r) ->
  exists ks, matching f l = Ok ks /\ ks `sublist_of` l.*1
    /\ forall k, k ∈ ks <-> exists v r, (k, v) ∈ l /\ Unmarshal v = Ok r /\ f r = true.
Proof.
  induction l as [|[k v] l IH]; intros Hl; cbn [matching fmap list_fmap fst].
  { exists []. split_and!; [done | done |]. intros k. rewrite elem_of_nil. split; [done |].
    intros (v & r & Hin & _). by apply elem_of_nil in Hin. }
  destruct IH as (ks & -> & Hsub & Hks); [intros; eapply Hl; by right |].
  destruct (Hl k v) as [r Hr]; [by left |]. unfold decode. rewrite Hr.
  eexists. split; [done |]. split.
  - destruct (f r); by constructor.
  - intros k'. assert (k' ∈ ks -> exists v0 r0, (k', v0) ∈ (k, v) :: l /\ Unmarshal v0 = Ok r0 /\ f r0 = true).
    { intros (v0 & r0 & ? & ? & ?)%Hks. exists v0, r0. split_and!; try done. by right. }
    split.
    + destruct (f r) eqn:Hf; [| done]. intros [->|]%elem_of_cons; [| by auto].
      exists v, r. split_and!; try done. by left.
    + intros (v0 & r0 & [[= -> ->]|Hin]%elem_of_cons & Hu & Hf0).
      * rewrite Hr in Hu. injection Hu as ->. rewrite Hf0. by left.
      * assert (k' ∈ ks) by (apply Hks; eauto). destruct (f r); [by right | done].
Qed.

(** The records of an intact bucket that match. *)
Lemma matching_intact f b :
  intact b ->
  exists ks, matching f (bforeach b) = Ok ks /\ NoDup ks
    /\ forall k, k ∈ ks <-> exists r, rec_at b k = Some r /\ f r = true.
Proof.
  intros Hi. destruct (matching_spec f (bforeach b)) as (ks & Hm & Hsub & Hks).
  { intros k v Hin. apply bforeach_get in Hin. by eapply Hi. }
  exists ks. split_and!; [done | |].
  - eapply sublist_NoDup; [apply bforeach_nodup | exact Hsub].
  - intros k. rewrite Hks. split.
    + intros (v & r & Hin%bforeach_get & Hu & Hf). exists r. split; [| done]. apply rec_at_Some. eauto.
    + intros (r & (v & Hg & Hu)%rec_at_Some & Hf). exists v, r. by rewrite bforeach_get.
Qed.

Lemma transition_all_spec m ks c b :
  intact b -> NoDup ks -> (forall k, k ∈ ks -> is_Some (rec_at b k)) ->
  (forall r, storable r -> storable (m r)) ->
  exists b', transition_all m ks c b = Ok (c + Z.of_nat (length ks), b') /\ intact b'
    /\ forall k, rec_at b' k = if bool_decide (k ∈ ks) then (fun r => stored (m r)) <$> rec_at b k
                                else rec_at b k.
Proof.
  intros Hi Hnd Hks Hm. revert c b Hi Hks. induction Hnd as [|k ks Hk Hnd IH]; intros c b Hi Hks.
  { exists b. cbn. rewrite Z.add_0_r. by split_and!. }
  destruct (Hks k) as [r Hr]; [by left |]. destruct (rec_at_storable _ _ _ Hr) as [Hst _].
  pose proof Hr as (v & Hg & Hu)%rec_at_Some. destruct (encode_storable _ (Hm _ Hst)) as (v' & He & Hu').
  destruct (bput_existing _ _ v' _ Hg) as [b1 Hb1].
  assert (put b k v' = Ok b1) as Hp by (unfold put; by rewrite Hb1).
  destruct (put_rec _ _ _ _ _ Hp Hu') as [Hrec Hint].
  cbn [transition_all]. rewrite Hg. unfold decode. rewrite Hu, He, Hp.
  destruct (IH (c + 1) b1 (Hint Hi)) as (b' & -> & Hi' & Hrec').
  { intros k' Hk'. rewrite Hrec. destruct (String.eqb_spec k k'); [by eauto |]. apply Hks. by right. }
  exists b'. split_and!; [do 2 f_equal; cbn [length]; lia | done |].
  intros k'. rewrite Hrec', Hrec. destruct (String.eqb_spec k k') as [->|Hne].
  - rewrite bool_decide_eq_false_2 by done. rewrite bool_decide_eq_true_2 by (by left). by rewrite Hr.
  - rewrite (bool_decide_ext (k' ∈ ks) (k' ∈ k :: ks)); [done |]. rewrite elem_of_cons. naive_solver.
Qed.

Lemma delete_all_spec ks c b :
  intact b ->
  exists b', delete_all ks c b = (c + Z.of_nat (length ks), b') /\ intact b'
    /\ forall k, rec_at b' k = if bool_decide (k ∈ ks) then None else rec_at b k.
Proof.
  revert c b. induction ks as [|k ks IH]; intros c b Hi; cbn [delete_all].
  { exists b. cbn. rewrite Z.add_0_r. by split_and!. }
  destruct (IH (c + 1) (bdelete b k)) as (b' & -> & Hi' & Hrec).
  { intros k' v. rewrite bget_delete. destruct (String.eqb k k'); [done |]. apply Hi. }
  exists b'. split_and!; [f_equal; cbn [length]; lia | done |]. intros k'. rewrite Hrec.
  assert (rec_at (bdelete b k) k' = if String.eqb k k' then None else rec_at b k') as ->
    by (unfold rec_at; rewrite bget_delete; by destruct (String.eqb k k')).
  destruct (String.eqb_spec k k') as [->|Hne].
  - rewrite (bool_decide_eq_true_2 (k' ∈ k' :: ks)) by (by left). by case_bool_decide.
  - rewrite (bool_decide_ext (k' ∈ ks) (k' ∈ k :: ks)); [done |]. rewrite elem_of_cons. naive_solver.
Qed.

(** [BatchTransition] on an intact bucket. *)
Lemma BatchTransition_spec b f m :
  intact b -> (forall r, storable r -> storable (m r)) ->
  exists n b', BatchTransition true b f m = (Ok n, b') /\ intact b'
    /\ forall k, rec_at b' k = (fun r => if f r then stored (m r) else r) <$> rec_at b k.
Proof.
  intros Hi Hm. destruct (matching_intact f b Hi) as (ks & Hmt & Hnd & Hks).
  destruct (transition_all_spec m ks 0 b Hi Hnd) as (b' & Ht & Hi' & Hrec); [| done |].
  { intros k (r & -> & _)%Hks. eauto. }
  exists (0 + Z.of_nat (length ks)), b'. unfold BatchTransition. rewrite Hmt, Ht. split_and!; [done | done |].
  intros k. rewrite Hrec. destruct (rec_at b k) as [r|] eqn:Hr; [| by case_bool_decide].
  case_bool_decide as Hin; cbn.
  - apply Hks in Hin as (r' & Hr' & Hf). assert (r' = r) as -> by congruence. by rewrite Hf.
  - destruct (f r) eqn:Hf; [| done]. destruct Hin. apply Hks. eauto.
Qed.

(** [BatchDelete] on an intact bucket. *)
Lemma BatchDelete_spec b f :
  intact b ->
  exists n b', BatchDelete true b f = (Ok n, b') /\ intact b'
    /\ forall k, rec_at b' k = rec_at b k ≫= (fun r => if f r then None else Some r).
Proof.
  intros Hi. destruct (matching_intact f b Hi) as (ks & Hmt & Hnd & Hks).
  destruct (delete_all_spec ks 0 b Hi) as (b' & Ht & Hi' & Hrec).
  exists (0 + Z.of_nat (length ks)), b'. unfold BatchDelete. rewrite Hmt, Ht. split_and!; [done | done |].
  intros k. rewrite Hrec. destruct (rec_at b k) as [r|] eqn:Hr; [| by case_bool_decide].
  case_bool_decide as Hin; cbn.
  - apply Hks in Hin as (r' & Hr' & Hf). assert (r' = r) as -> by congruence. by rewrite Hf.
  - destruct (f r) eqn:Hf; [| done]. destruct Hin. apply Hks. eauto.
Qed.

(** One document that does not decode fails the whole scan. *)
Lemma matching_corrupt f l k v e :
  (k, v) ∈ l -> Unmarshal v = Err e -> exists e', matching f l = Err e'.
Proof.
  intros Hin Hu. induction l as [|[k0 v0] l IH]; [by apply elem_of_nil in Hin |]. cbn [matching].
  unfold decode. destruct (Unmarshal v0) as [e0|r0] eqn:Hu0; [by eauto |].
  apply elem_of_cons in Hin as [[= <- <-]|Hin]; [congruence |].
  destruct (IH Hin) as [e' ->]. eauto.
Qed.
End Store.

(** Buckets as finite maps; the empty key and keys over 32768 bytes are refused. *)
Definition bad_key (k : string) : bool :=
  String.eqb k "" || (32768 <? Z.of_nat (String.length k)).

#[export] Program Instance gmap_bolt : Bolt (gmap string string) := {|
  bget := fun b k => if bad_key k then None else b !! k;
  bput := fun b k v => if bad_key k then None else Some (<[k := v]> b);
  bdelete := fun b k => delete k b;
  bforeach := fun b => map_to_list (filter (fun kv => bad_key (fst kv) = false) b)
|}.
Next Obligation. intros b k v v' Hg. cbn in *. destruct (bad_key k); [done | by eauto]. Qed.
Next Obligation.
  intros b k v b' k' Hp. cbn in *. destruct (bad_key k) eqn:Hk; [done |]. injection Hp as <-.
  destruct (String.eqb_spec k k') as [->|Hne]; [by rewrite Hk, lookup_insert_eq |].
  by rewrite lookup_insert_ne.
Qed.
Next Obligation.
  intros b k k'. cbn. destruct (String.eqb_spec k k') as [->|Hne].
  - rewrite lookup_delete_eq. by destruct (bad_key k').
  - by rewrite lookup_delete_ne.
Qed.
Next Obligation. intros b. apply NoDup_fst_map_to_list. Qed.
Next Obligation.
  intros b k v. cbn. rewrite elem_of_map_to_list, map_lookup_filter_Some. cbn.
  destruct (bad_key k); naive_solver.
Qed.
End AsyncStore.
