(* ===== verification/AsyncJobs.v ===== *)
(** * Async jobs: garbage collection, recovery and the worker pool
    ([internal/application/asyncjob/gc.go], [recovery.go], [pool.go])

    The three of them act on the store through its transactions.  Log lines are
    not modelled.  [time.Now] is an argument; so is the result of every database
    transaction ([io], false for an error or a recovered panic: both leave the
    bucket as it was).  A request is its body with the rest of it ([Rest]) carried
    along unchanged. *)

From S2P Require Import Prelude GoStrings GoJson Domain Base64 AsyncRecord AsyncStore.
Import AsyncRecord AsyncStore.

Module AsyncJobs.

Definition has_status (st : Status) (r : Record_) : bool := String.eqb (Status_ r) st.

(** ** Garbage collection *)

Record GCConfig := mkGC { pendingTimeout : Z; completeTTL : Z; tombstoneTTL : Z; tickInterval : Z }.

(** The default of [NewGC]. *)
Definition NewGC (pt ct tt tick : Z) : GCConfig :=
  mkGC pt ct tt (if Z.eqb tick 0 then 60 * Second else tick).

Definition timeout_filter (g : GCConfig) (now : Z) (r : Record_) : bool :=
  has_status StatusPending r && (pendingTimeout g <? Sub now (UpdatedAt r)).
Definition timeout_mutate (now : Z) (r : Record_) : Record_ :=
  mkRecord (Tag r) StatusFailedTimeout (CreatedAt r) now (EvictedAt r) (Response r).

Definition complete_filter (g : GCConfig) (now : Z) (r : Record_) : bool :=
  (has_status StatusCompleted r || has_status StatusFailed r || has_status StatusFailedTimeout r)
  && (completeTTL g <? Sub now (UpdatedAt r)).
Definition tombstone_mutate (now : Z) (r : Record_) : Record_ :=
  mkRecord (Tag r) StatusTombstone (CreatedAt r) now now None.

Definition tombstone_filter (g : GCConfig) (now : Z) (r : Record_) : bool :=
  has_status StatusTombstone r && (tombstoneTTL g <? Sub now (EvictedAt r)).

Section GC.
Context `{Bolt B}.

Definition runBatchTransition (io : bool) (f : Record_ -> bool) (m : Record_ -> Record_) (b : B)
    : Z * B :=
  match BatchTransition io b f m with
  | (Ok n, b') => (n, b')
  | (Err _, b') => (0, b')
  end.

Definition runBatchDelete (io : bool) (f : Record_ -> bool) (b : B) : Z * B :=
  match BatchDelete io b f with
  | (Ok n, b') => (n, b')
  | (Err _, b') => (0, b')
  end.

Definition passOnce (g : GCConfig) (now : Z) (io1 io2 io3 : bool) (b : B) : Z * Z * Z * B :=
  let '(timedOut, b) := runBatchTransition io1 (timeout_filter g now) (timeout_mutate now) b in
  let '(tombstoned, b) := runBatchTransition io2 (complete_filter g now) (tombstone_mutate now) b in
  let '(deleted, b) := runBatchDelete io3 (tombstone_filter g now) b in
  (timedOut, tombstoned, deleted, b).

Definition RunRecovery (io : bool) (b : B) : res storeError Z * B :=
  BatchDelete io b (has_status StatusPending).
End GC.

(** ** The worker pool *)

Inductive Outcome :=
| OutcomePending
| OutcomeCompleted (r : UpstreamResponse)
| OutcomeTombstoned
| OutcomeQueueFull.

Inductive poolError := ErrBodyTooLarge | ErrPoolClosed | ErrDrain | ErrStore (e : storeError).

Definition maxBodyBytes : Z := 10 * 1024 * 1024.

Definition outcomeForRecord (rec : Record_) : Outcome :=
  if has_status StatusPending rec then OutcomePending
  else if has_status StatusCompleted rec || has_status StatusFailed rec || has_status StatusFailedTimeout rec then
    OutcomeCompleted (default zero_response (Response rec))
  else if has_status StatusTombstone rec then OutcomeTombstoned
  else OutcomePending.

(** What reading a request body gives: no body, a read error, or the bytes. *)
Inductive bodyReader := NoReader | ReadError | Bytes (data : string).

Definition drainBody (rd : bodyReader) : res poolError string :=
  match rd with
  | NoReader => Ok ""
  | ReadError => Err ErrDrain
  | Bytes data => if maxBodyBytes <? Z.of_nat (String.length data) then Err ErrBodyTooLarge else Ok data
  end.

Section Pool.
Context `{Bolt B} {Rest : Type}.

(** The request handed to the forwarder: [http.NoBody] when there are no bytes. *)
Record freshRequest := mkFresh { rest : Rest; f_body : option string; f_contentLength : Z }.

Definition cloneRequest (src : Rest) (body : string) : freshRequest :=
  if String.eqb body "" then mkFresh src None 0
  else mkFresh src (Some body) (Z.of_nat (String.length body)).

Record pool := mkPool {
  store : B;
  slots : nat;           (* tokens in the channel [slots] *)
  maxConcurrent : nat;
  cancelled : bool
}.

Definition set_store (b : B) (p : pool) : pool := mkPool b (slots p) (maxConcurrent p) (cancelled p).
Definition set_slots (n : nat) (p : pool) : pool := mkPool (store p) n (maxConcurrent p) (cancelled p).

Definition NewPool (b : B) (maxConcurrent : nat) : pool := mkPool b 0 maxConcurrent false.

(** [SubmitOrFetch] from the lookup to the claim of a slot: an answer, or a claimed slot. *)
Definition submit_get (io : bool) (tag : string) (p : pool) : res poolError (option Outcome) * pool :=
  match Get io (store p) tag with
  | Err e => (Err (ErrStore e), p)
  | Ok (Some rec) => (Ok (Some (outcomeForRecord rec)), p)
  | Ok None =>
      if Nat.ltb (slots p) (maxConcurrent p) then (Ok None, set_slots (S (slots p)) p)
      else (Ok (Some OutcomeQueueFull), p)
  end.
(** The same with the test of the pool's context before it. *)
Definition submit_check (io : bool) (tag : string) (p : pool) : res poolError (option Outcome) * pool :=
  if cancelled p then (Err ErrPoolClosed, p) else submit_get io tag p.

(** The rest, with a slot claimed: the worker to start, or the slot released. *)
Definition submit_start (io : bool) (tag : string) (rd : bodyReader) (src : Rest) (now : Z) (p : pool)
    : res poolError freshRequest * pool :=
  match drainBody rd with
  | Err e => (Err e, set_slots (pred (slots p)) p)
  | Ok body =>
      match Put io (store p) tag (NewPendingRecord tag now) with
      | (Err e, b) => (Err (ErrStore e), set_slots (pred (slots p)) (set_store b p))
      | (Ok _, b) => (Ok (cloneRequest src body), set_store b p)
      end
  end.

(** [SubmitOrFetch] without interference: the outcome and the worker started. *)
Definition SubmitOrFetch (io1 io2 : bool) (tag : string) (rd : bodyReader) (src : Rest) (now : Z)
    (p : pool) : res poolError (Outcome * option freshRequest) * pool :=
  match submit_check io1 tag p with
  | (Err e, p1) => (Err e, p1)
  | (Ok (Some out), p1) => (Ok (out, None), p1)
  | (Ok None, p1) =>
      match submit_start io2 tag rd src now p1 with
      | (Err e, p2) => (Err e, p2)
      | (Ok req, p2) => (Ok (OutcomePending, Some req), p2)
      end
  end.

(** [runWorker]: [fwd] is the forwarder's result, [None] for an error. *)
Definition synthetic_502 : UpstreamResponse := mkResponse 502 None (Some "upstream error").

Definition runWorker (io : bool) (tag : string) (fwd : option UpstreamResponse) (now : Z) (b : B) : B :=
  let target := match fwd with Some resp => (StatusCompleted, resp) | None => (StatusFailed, synthetic_502) end in
  snd (CompareAndSwapStatus io b tag StatusPending
    (fun r => mkRecord (Tag r) (fst target) (CreatedAt r) now (EvictedAt r) (Some (snd target)))).

(** The worker goroutine, with its deferred slot release. *)
Definition worker_exit (io : bool) (tag : string) (fwd : option UpstreamResponse) (now : Z) (p : pool)
    : pool :=
  set_slots (pred (slots p)) (set_store (runWorker io tag fwd now (store p)) p).

Definition Shutdown_cancel (p : pool) : pool := mkPool (store p) (slots p) (maxConcurrent p) true.
End Pool.
End AsyncJobs.
