(* ===== verification/AsyncThms.v ===== *)
(** * Theorems of the async jobs

    Records survive the store to the second; a GC pass moves every record by at
    most one state and the passes remove it in the end; recovery drops exactly the
    pending records; what a record that does not decode does to all of them. *)

From S2P Require Import Prelude GoStrings GoText GoUtf8 GoJson JsonText Domain Base64 AsyncRecord AsyncStore AsyncJobs.
Import Utf8 AsyncRecord AsyncStore AsyncJobs.

Lemma has_status_eq st r : has_status st r = true <-> Status_ r = st.
Proof. apply String.eqb_eq. Qed.

Lemma has_status_stored st r : has_status st (stored r) = has_status st r.
Proof. done. Qed.

(** ** Garbage collection, record by record *)

Section GCStep.
Context (g : GCConfig) (now : Z).

(** What one pass does to a record. *)
Definition gc_step (r : Record_) : option Record_ :=
  if timeout_filter g now r then Some (stored (timeout_mutate now r))
  else if complete_filter g now r then Some (stored (tombstone_mutate now r))
  else if tombstone_filter g now r then None
  else Some r.

(** The age of what a pass has just written. *)
Lemma fresh_age t : 0 <= now - fromUnix (Unix now) < Second /\ Second <= t -> (t <? Sub now (fromUnix (Unix now))) = false.
Proof.
  intros [Ha Ht]. apply Z.ltb_ge. unfold Sub, int64_min, int64_max.
  assert (Second = 1000000000) by reflexivity. lia.
Qed.

Lemma now_age : 0 <= now - fromUnix (Unix now) < Second.
Proof. pose proof (fromUnix_Unix_le now). pose proof (fromUnix_Unix_gt now). lia. Qed.

Lemma timeout_storable r : in_int64 (Unix now) -> storable r -> storable (timeout_mutate now r).
Proof. intros Hn [(? & ? & ? & ?) _]. split; [unfold representable; cbn; by split_and! | done]. Qed.

Lemma tombstone_storable r : in_int64 (Unix now) -> storable r -> storable (tombstone_mutate now r).
Proof. intros Hn [(? & ? & ? & ?) _]. split; [unfold representable; cbn; by split_and! | done]. Qed.

Lemma complete_after_timeout r :
  Second <= completeTTL g -> complete_filter g now (stored (timeout_mutate now r)) = false.
Proof.
  intros Hc. unfold complete_filter. cbn [UpdatedAt stored timeout_mutate].
  rewrite fresh_age by (split; [apply now_age | done]). apply andb_false_r.
Qed.

Lemma delete_after_tombstone r :
  Second <= tombstoneTTL g -> tombstone_filter g now (stored (tombstone_mutate now r)) = false.
Proof.
  intros Ht. unfold tombstone_filter. cbn [EvictedAt stored tombstone_mutate].
  destruct (IsZero now) eqn:E.
  - apply Z.eqb_eq in E. rewrite E. unfold Sub, int64_min, int64_max.
    assert (Second = 1000000000) by reflexivity. rewrite (proj2 (Z.ltb_ge _ _)); [apply andb_false_r | lia].
  - rewrite fresh_age by (split; [apply now_age | done]). apply andb_false_r.
Qed.

Lemma tombstone_after_timeout r : tombstone_filter g now (stored (timeout_mutate now r)) = false.
Proof. done. Qed.

Lemma not_timeout_other r :
  complete_filter g now r = true -> timeout_filter g now r = false.
Proof.
  unfold complete_filter, timeout_filter. intros [Hs _]%andb_true_iff.
  destruct (has_status StatusPending r) eqn:E; [| done]. apply has_status_eq in E.
  unfold has_status in Hs. by rewrite E in Hs.
Qed.

Context `{Bolt B}.

Lemma passOnce_spec b :
  intact b -> in_int64 (Unix now) -> Second <= completeTTL g -> Second <= tombstoneTTL g ->
  intact (snd (passOnce g now true true true b))
  /\ forall k, rec_at (snd (passOnce g now true true true b)) k = rec_at b k ≫= gc_step.
Proof.
  intros Hi Hn Hc Ht. unfold passOnce, runBatchTransition, runBatchDelete.
  destruct (BatchTransition_spec b (timeout_filter g now) (timeout_mutate now) Hi)
    as (n1 & b1 & -> & Hi1 & H1); [intros; by apply timeout_storable |].
  destruct (BatchTransition_spec b1 (complete_filter g now) (tombstone_mutate now) Hi1)
    as (n2 & b2 & -> & Hi2 & H2); [intros; by apply tombstone_storable |].
  destruct (BatchDelete_spec b2 (tombstone_filter g now) Hi2) as (n3 & b3 & -> & Hi3 & H3).
  cbn [snd]. split; [done |]. intros k. rewrite H3, H2, H1. unfold gc_step.
  destruct (rec_at b k) as [r|] eqn:Hr; [| done]. cbn.
  destruct (timeout_filter g now r).
  - by rewrite complete_after_timeout, tombstone_after_timeout.
  - destruct (complete_filter g now r); [by rewrite delete_after_tombstone |]. done.
Qed.
End GCStep.

(** C18: the bytes of a record.  Every record with a known status and representable times
    has a JSON text, and reading the text gives the record back with its times truncated
    to the second and the invalid UTF-8 of its tag and headers replaced; [unmarshalStatus]
    reads the same status; storing the result again changes nothing.  A response whose
    headers are valid UTF-8 survives unchanged, its body whatever its bytes are. *)
Theorem record_roundtrip r :
  representable r -> validateStatus (Status_ r) = None ->
  exists data, Marshal r = Ok data /\ Unmarshal data = Ok (stored r)
    /\ unmarshalStatus data = Ok (Status_ r) /\ stored (stored r) = stored r
    /\ (ValidString (Tag r) = true -> (forall u, Response r = Some u -> utf8_response u) ->
        Tag (stored r) = Tag r /\ Response (stored r) = Response r)
    /\ Body <$> Response (stored r) = Body <$> Response r.
Proof.
  intros Hr Hs. apply Marshal_ok in Hs. destruct (Marshal r) as [|data] eqn:Hm; [done |].
  exists data. pose proof (Unmarshal_Marshal r data Hr Hm) as Hu.
  split_and!; [done | done | | apply stored_idem | |].
  - by destruct (Unmarshal_status _ _ Hu).
  - intros Ht Hresp. cbn. rewrite valid_id by done. split; [done |]. destruct (Response r) as [u|]; [| done].
    cbn. by rewrite stored_response_id by (by apply Hresp).
  - cbn. by destruct (Response r).
Qed.

(** A GC pass moves each record by at most one state (pending to
    failed_timeout, terminal to tombstone, tombstone to deleted), by its own age
    only, and touches no other record. *)
Theorem gc_one_step `{Bolt B} g now (b : B) :
  intact b -> in_int64 (Unix now) -> Second <= completeTTL g -> Second <= tombstoneTTL g ->
  let b' := snd (passOnce g now true true true b) in
  intact b' /\ forall k, rec_at b' k = rec_at b k ≫= gc_step g now.
Proof. intros. by apply passOnce_spec. Qed.

(** ** When a record moves *)

(** The statuses a job has once it was answered. *)
Definition answered (st : Status) : Prop := st = StatusCompleted \/ st = StatusFailed \/ st = StatusFailedTimeout.

Lemma status_cases r : validateStatus (Status_ r) = None -> Status_ r = StatusPending \/ answered (Status_ r) \/ Status_ r = StatusTombstone.
Proof.
  unfold validateStatus, answered.
  destruct (String.eqb_spec (Status_ r) StatusPending), (String.eqb_spec (Status_ r) StatusCompleted),
    (String.eqb_spec (Status_ r) StatusFailed), (String.eqb_spec (Status_ r) StatusFailedTimeout),
    (String.eqb_spec (Status_ r) StatusTombstone); tauto || done.
Qed.

Lemma aged t u d : t < u - d -> t < int64_max -> (t <? Sub u d) = true.
Proof. intros Hd Hm. apply Z.ltb_lt. unfold Sub. lia. Qed.
Lemma not_aged t u d : u - d <= t -> 0 <= t < int64_max -> (t <? Sub u d) = false.
Proof. intros Hd Hm. apply Z.ltb_ge. unfold Sub. unfold int64_min, int64_max in *. lia. Qed.

Section Moves.
Context (g : GCConfig) (now : Z) (r : Record_).

Lemma gc_step_pending : Status_ r = StatusPending ->
  gc_step g now r = if pendingTimeout g <? Sub now (UpdatedAt r) then Some (stored (timeout_mutate now r)) else Some r.
Proof. intros E. unfold gc_step, timeout_filter, complete_filter, tombstone_filter, has_status. rewrite E. by destruct (_ <? _). Qed.

Lemma gc_step_answered : answered (Status_ r) ->
  gc_step g now r = if completeTTL g <? Sub now (UpdatedAt r) then Some (stored (tombstone_mutate now r)) else Some r.
Proof. intros [E|[E|E]]; unfold gc_step, timeout_filter, complete_filter, tombstone_filter, has_status; rewrite E; by destruct (_ <? _). Qed.

Lemma gc_step_tombstone : Status_ r = StatusTombstone ->
  gc_step g now r = if tombstoneTTL g <? Sub now (EvictedAt r) then None else Some r.
Proof. intros E. unfold gc_step, timeout_filter, complete_filter, tombstone_filter, has_status. rewrite E. by destruct (_ <? _). Qed.

(** The two moves out of an answered record. *)
Lemma gc_step_answered_gone t2 : answered (Status_ r) ->
  completeTTL g < int64_max -> tombstoneTTL g < int64_max -> now <> time_zero ->
  completeTTL g < now - UpdatedAt r -> tombstoneTTL g < t2 - now ->
  exists r1, gc_step g now r = Some r1 /\ Status_ r1 = StatusTombstone /\ gc_step g t2 r1 = None.
Proof.
  intros Hs Hc Ht Hz A1 A2. exists (stored (tombstone_mutate now r)).
  rewrite gc_step_answered, aged by done. split; [done |]. split; [done |]. unfold gc_step, tombstone_filter.
  cbn [EvictedAt stored tombstone_mutate]. unfold IsZero. rewrite (proj2 (Z.eqb_neq now time_zero) Hz).
  pose proof (fromUnix_Unix_le now). by rewrite aged by lia.
Qed.
End Moves.

(** C17: GC is complete, and not early.  In a bucket whose records all decode, under passes
    whose transactions succeed, with TTLs of at least a second, and whatever the status of a
    record that nobody else touches: a pending one is timed out by the first pass later
    than the timeout after its last update, is a tombstone after a pass later than the
    complete TTL after that, and gone after one later than the tombstone TTL after that; a
    completed, failed or timed-out one is a tombstone after the first pass later than the
    complete TTL and gone after the next; a tombstone is gone after one pass later than its
    TTL; and a pass that comes no later leaves the record as it is.  Every record has one of
    these statuses. *)
Theorem gc_evicts `{Bolt B} g (b : B) k r t1 t2 t3 :
  intact b -> rec_at b k = Some r ->
  Second <= completeTTL g < int64_max -> Second <= tombstoneTTL g < int64_max -> 0 <= pendingTimeout g < int64_max ->
  in_int64 (Unix t1) -> in_int64 (Unix t2) -> in_int64 (Unix t3) -> t1 <> time_zero -> t2 <> time_zero ->
  let b1 := snd (passOnce g t1 true true true b) in
  let b2 := snd (passOnce g t2 true true true b1) in
  let b3 := snd (passOnce g t3 true true true b2) in
  (Status_ r = StatusPending \/ answered (Status_ r) \/ Status_ r = StatusTombstone)
  /\ (Status_ r = StatusPending ->
        (pendingTimeout g < t1 - UpdatedAt r -> Status_ <$> rec_at b1 k = Some StatusFailedTimeout
           /\ (completeTTL g < t2 - t1 -> Status_ <$> rec_at b2 k = Some StatusTombstone
               /\ (tombstoneTTL g < t3 - t2 -> rec_at b3 k = None)))
        /\ (t1 - UpdatedAt r <= pendingTimeout g -> rec_at b1 k = Some r))
  /\ (answered (Status_ r) ->
        (completeTTL g < t1 - UpdatedAt r -> tombstoneTTL g < t2 - t1 ->
           Status_ <$> rec_at b1 k = Some StatusTombstone /\ rec_at b2 k = None)
        /\ (t1 - UpdatedAt r <= completeTTL g -> rec_at b1 k = Some r))
  /\ (Status_ r = StatusTombstone ->
        (tombstoneTTL g < t1 - EvictedAt r -> rec_at b1 k = None)
        /\ (t1 - EvictedAt r <= tombstoneTTL g -> rec_at b1 k = Some r)).
Proof.
  intros Hi Hr Hc Ht Hp H1 H2 H3 Hz1 Hz2. cbn zeta. assert (0 < Second) by reflexivity.
  destruct (passOnce_spec g t1 b Hi H1 ltac:(lia) ltac:(lia)) as [Hi1 R1].
  destruct (passOnce_spec g t2 _ Hi1 H2 ltac:(lia) ltac:(lia)) as [Hi2 R2].
  destruct (passOnce_spec g t3 _ Hi2 H3 ltac:(lia) ltac:(lia)) as [Hi3 R3].
  rewrite R3, R2, R1, Hr. cbn [mbind option_bind]. split_and!.
  - apply status_cases. by destruct (rec_at_storable _ _ _ Hr) as [[_ Hs] _].
  - intros Hs. rewrite (gc_step_pending g t1 r Hs). split; [intros A1 | intros A1; by rewrite not_aged by lia].
    rewrite aged by lia. cbn [mbind option_bind]. split; [done |]. intros A2. set (r1 := stored (timeout_mutate t1 r)).
    pose proof (fromUnix_Unix_le t1). assert (answered (Status_ r1)) as Ha by (right; by right).
    assert (completeTTL g < t2 - UpdatedAt r1) as A2' by (cbn [UpdatedAt r1 stored timeout_mutate]; lia).
    split; [by rewrite gc_step_answered, aged by (done || lia) |]. intros A3.
    destruct (gc_step_answered_gone g t2 r1 t3 Ha) as (r2 & -> & _ & Hg); [lia | lia | done | done | done | exact Hg].
  - intros Ha. split; [intros A1 A2 | intros A1; by rewrite gc_step_answered, not_aged by (done || lia)].
    destruct (gc_step_answered_gone g t1 r t2 Ha) as (r1 & -> & Hs & Hg); [lia | lia | done | done | done |].
    cbn. by rewrite Hs.
  - intros Hs. rewrite (gc_step_tombstone g t1 r Hs). split; intros A1; [by rewrite aged by lia | by rewrite not_aged by lia].
Qed.

(** A job that GC timed out while it was pending is reported as completed
    with the zero response (status code 0), because the timeout sets no response. *)
Theorem gc_timeout_zero_response g now r :
  timeout_filter g now r = true -> Response r = None ->
  exists r', gc_step g now r = Some r' /\ Status_ r' = StatusFailedTimeout
    /\ outcomeForRecord r' = OutcomeCompleted zero_response /\ StatusCode zero_response = 0.
Proof.
  intros Hf Hr. unfold gc_step. rewrite Hf. eexists. split; [done |]. split; [done |].
  unfold outcomeForRecord. cbn. by rewrite Hr.
Qed.

(** Recovery deletes exactly the pending records. *)
Theorem recovery_drops_pending `{Bolt B} (b : B) :
  intact b ->
  exists n b', RunRecovery true b = (Ok n, b') /\ intact b'
    /\ forall k, rec_at b' k = rec_at b k ≫= (fun r => if has_status StatusPending r then None else Some r).
Proof. intros Hi. by apply BatchDelete_spec. Qed.

(** One stored document that does not decode disables recovery and all
    three GC batches: each fails and leaves the whole bucket as it was. *)
Theorem corrupt_record_blocks `{Bolt B} (b : B) k v e g now io1 io2 io3 :
  bget b k = Some v -> Unmarshal v = Err e ->
  snd (passOnce g now io1 io2 io3 b) = b
  /\ (exists e', fst (RunRecovery true b) = Err e') /\ snd (RunRecovery true b) = b.
Proof.
  intros Hg Hu. apply bforeach_get in Hg.
  assert (forall f, exists e', matching f (bforeach b) = Err e') as Hm
    by (intros f; by eapply matching_corrupt).
  assert (forall io f m, runBatchTransition io f m b = (0, b)) as Ht.
  { intros io f m. unfold runBatchTransition, BatchTransition. by destruct (Hm f) as [e' ->]. }
  assert (forall io f, runBatchDelete io f b = (0, b)) as Hd.
  { intros io f. unfold runBatchDelete, BatchDelete. by destruct (Hm f) as [e' ->]. }
  unfold passOnce. rewrite !Ht, Hd. split; [done |].
  unfold RunRecovery, BatchDelete. destruct (Hm (has_status StatusPending)) as [e' ->]. cbn. eauto.
Qed.

(** ** The theorems on a bucket with one job *)
Module GCDemo.
Definition g : GCConfig := NewGC (10 * Second) (20 * Second) (30 * Second) 0.
Definition r0 : Record_ := NewPendingRecord "t" (100 * Second).
Definition doc : string := match Marshal r0 with Ok d => d | Err _ => "" end.
Definition b : gmap string string := {[ "t" := doc ]}.

Lemma b_intact : intact b.
Proof.
  intros k v Hk. unfold bget in Hk; cbn in Hk. destruct (bad_key k); [done |].
  unfold b in Hk. apply lookup_singleton_Some in Hk as [_ <-]. exists r0. vm_compute. reflexivity.
Qed.

Definition bad : gmap string string := {[ "t" := JsonText.print (JObj [("status", JStr "odd")]) ]}.
End GCDemo.

Lemma record_roundtrip_witness :
  exists data, Marshal GCDemo.r0 = Ok data /\ Unmarshal data = Ok (stored GCDemo.r0)
    /\ unmarshalStatus data = Ok StatusPending /\ stored (stored GCDemo.r0) = stored GCDemo.r0.
Proof.
  destruct (record_roundtrip GCDemo.r0) as (data & H1 & H2 & H3 & H4 & _); [by vm_compute | by vm_compute |].
  exists data. split; [exact H1 |]. split; [exact H2 |]. split; [exact H3 | exact H4].
Defined.

Lemma gc_one_step_witness :
  rec_at (snd (passOnce GCDemo.g (111 * Second) true true true GCDemo.b)) "t"
  = Some (stored (timeout_mutate (111 * Second) GCDemo.r0)).
Proof.
  rewrite (proj2 (gc_one_step GCDemo.g (111 * Second) GCDemo.b GCDemo.b_intact
    ltac:(by vm_compute) ltac:(by vm_compute) ltac:(by vm_compute)) "t").
  vm_compute. reflexivity.
Defined.

Lemma gc_evicts_witness :
  rec_at (snd (passOnce GCDemo.g (190 * Second) true true true
    (snd (passOnce GCDemo.g (150 * Second) true true true
      (snd (passOnce GCDemo.g (120 * Second) true true true GCDemo.b)))))) "t" = None.
Proof.
  destruct (gc_evicts GCDemo.g GCDemo.b "t" GCDemo.r0 (120 * Second) (150 * Second) (190 * Second)
    GCDemo.b_intact) as (_ & Hp & _); [by vm_compute .. |].
  refine (proj2 (proj2 (proj1 (Hp _) _) _) _); by vm_compute.
Defined.

Lemma gc_timeout_zero_response_witness :
  exists r', gc_step GCDemo.g (120 * Second) GCDemo.r0 = Some r' /\ Status_ r' = StatusFailedTimeout
    /\ outcomeForRecord r' = OutcomeCompleted zero_response /\ StatusCode zero_response = 0.
Proof. apply (gc_timeout_zero_response GCDemo.g (120 * Second) GCDemo.r0); by vm_compute. Defined.

Lemma recovery_drops_pending_witness :
  exists n b', RunRecovery true GCDemo.b = (Ok n, b') /\ rec_at b' "t" = None.
Proof.
  destruct (recovery_drops_pending GCDemo.b GCDemo.b_intact) as (n & b' & E & _ & Hrec).
  exists n, b'. split; [exact E |]. rewrite Hrec. vm_compute. reflexivity.
Defined.

Lemma corrupt_record_blocks_witness :
  snd (passOnce GCDemo.g 0 true true true GCDemo.bad) = GCDemo.bad.
Proof.
  refine (proj1 (corrupt_record_blocks GCDemo.bad "t" (JsonText.print (JObj [("status", JStr "odd")])) ErrUnknownStatus
    GCDemo.g 0 true true true _ _)); vm_compute; reflexivity.
Defined.
