(* ===== verification/AsyncPool.v ===== *)
(** * Theorems of the worker pool

    One job from its submission to its answer, and the pool under concurrent
    callers: [SubmitOrFetch] reads the store and claims a slot in one step and
    writes the pending record in another, so the steps of different callers, of
    the workers and of the GC interleave. *)

From S2P Require Import Prelude GoStrings GoJson Domain Base64 AsyncRecord AsyncStore AsyncJobs.
Import AsyncRecord AsyncStore AsyncJobs.

Section Ops.
Context `{Bolt B}.

Lemma Get_spec (b : B) tag : intact b -> Get true b tag = Ok (rec_at b tag).
Proof.
  intros Hi. unfold Get, rec_at. cbn. destruct (bget b tag) as [v|] eqn:Hg; [| done].
  unfold decode. by destruct (Hi _ _ Hg) as [r ->].
Qed.

Lemma Put_spec (b : B) tag r b' :
  storable r -> Put true b tag r = (Ok tt, b') ->
  (forall k, rec_at b' k = if String.eqb tag k then Some (stored r) else rec_at b k)
  /\ (intact b -> intact b').
Proof.
  intros Hs Hp. unfold Put in Hp. destruct (encode_storable _ Hs) as (v & He & Hu). rewrite He in Hp.
  unfold Update in Hp. destruct (put b tag v) as [|b1] eqn:Hb; [done |]. injection Hp as <-.
  by eapply put_rec.
Qed.

(** The compare-and-swap on an intact bucket, on each branch. *)
Lemma CAS_spec (b : B) tag expected m :
  intact b -> (forall r, storable r -> storable (m r)) ->
  match rec_at b tag with
  | None => CompareAndSwapStatus true b tag expected m = (Err ErrNotFound, b)
  | Some r =>
      if String.eqb (Status_ r) expected then
        exists b', CompareAndSwapStatus true b tag expected m = (Ok (m r), b') /\ intact b'
          /\ forall k, rec_at b' k = if String.eqb tag k then Some (stored (m r)) else rec_at b k
      else CompareAndSwapStatus true b tag expected m = (Err ErrStatusMismatch, b)
  end.
Proof.
  intros Hi Hm. destruct (rec_at b tag) as [r|] eqn:Hr.
  - destruct (rec_at_storable _ _ _ Hr) as [Hst _].
    pose proof Hr as (v & Hg & Hu)%rec_at_Some. unfold CompareAndSwapStatus. rewrite Hg.
    unfold decode. rewrite Hu. destruct (String.eqb (Status_ r) expected); [| done]. cbn [negb].
    destruct (encode_storable _ (Hm _ Hst)) as (v' & He & Hu'). rewrite He.
    destruct (bput_existing _ _ v' _ Hg) as [b1 Hb1].
    assert (put b tag v' = Ok b1) as Hp by (unfold put; by rewrite Hb1). rewrite Hp.
    destruct (put_rec _ _ _ _ _ Hp Hu') as [Hrec Hint]. exists b1. split_and!; auto.
  - apply rec_at_None in Hr; [| done]. unfold CompareAndSwapStatus. by rewrite Hr.
Qed.
End Ops.

Section Worker.
Context `{Bolt B}.

Definition result_of (fwd : option UpstreamResponse) : UpstreamResponse :=
  default synthetic_502 fwd.

Lemma runWorker_spec (b : B) tag fwd now :
  intact b -> in_int64 (Unix now) -> in_int64 (StatusCode (result_of fwd)) ->
  intact (runWorker true tag fwd now b)
  /\ forall k, rec_at (runWorker true tag fwd now b) k
    = if String.eqb tag k
      then (fun r => if has_status StatusPending r
                     then stored (mkRecord (Tag r)
                            (if fwd then StatusCompleted else StatusFailed)
                            (CreatedAt r) now (EvictedAt r) (Some (result_of fwd)))
                     else r) <$> rec_at b k
      else rec_at b k.
Proof.
  intros Hi Hn Hc. unfold runWorker.
  set (t := match fwd with Some resp => (StatusCompleted, resp) | None => (StatusFailed, synthetic_502) end).
  assert (t = (if fwd then StatusCompleted else StatusFailed, result_of fwd)) as -> by (by destruct fwd).
  cbn [fst snd].
  match goal with |- context [CompareAndSwapStatus true b tag StatusPending ?m] =>
    pose proof (CAS_spec b tag StatusPending m Hi) as Hcas end.
  destruct (rec_at b tag) as [r|] eqn:Hr.
  - unfold has_status. destruct (String.eqb (Status_ r) StatusPending) eqn:Hs.
    + destruct Hcas as (b' & -> & Hi' & Hrec).
      { intros r' [(? & ? & ? & ?) _]. split; [unfold representable; cbn; by split_and! |]. by destruct fwd. }
      split; [done |]. intros k. cbn [snd]. rewrite Hrec. destruct (String.eqb_spec tag k) as [<-|]; [| done].
      rewrite Hr. cbn. by rewrite Hs.
    + rewrite Hcas; [| intros r' [(? & ? & ? & ?) _]; split; [unfold representable; cbn; by split_and! | by destruct fwd]].
      split; [done |]. intros k. cbn [snd]. destruct (String.eqb_spec tag k) as [<-|]; [| done].
      rewrite Hr. cbn. by rewrite Hs.
  - rewrite Hcas; [| intros r' [(? & ? & ? & ?) _]; split; [unfold representable; cbn; by split_and! | by destruct fwd]].
    split; [done |]. intros k. cbn [snd]. destruct (String.eqb_spec tag k) as [<-|]; [| done]. by rewrite Hr.
Qed.
End Worker.

Section Claims.
Context `{Bolt B} {Rest : Type}.

(** A worker never overwrites a finished job: its compare-and-swap changes
    the record of its tag only while it is pending, and no other record. *)
Theorem worker_only_pending (b : B) tag fwd now k r :
  intact b -> in_int64 (Unix now) -> in_int64 (StatusCode (result_of fwd)) ->
  rec_at b k = Some r -> (k <> tag \/ Status_ r <> StatusPending) ->
  rec_at (runWorker true tag fwd now b) k = Some r.
Proof.
  intros Hi Hn Hc Hr Hk. destruct (runWorker_spec b tag fwd now Hi Hn Hc) as [_ ->].
  destruct (String.eqb_spec tag k) as [<-|]; [| done]. rewrite Hr. cbn.
  destruct Hk as [|Hs]; [done |]. unfold has_status.
  destruct (String.eqb_spec (Status_ r) StatusPending); done.
Qed.

(** [Put] of a record that can be stored under a key the bucket takes. *)
Lemma Put_takes (b : B) tag r : storable r -> (forall v, is_Some (bput b tag v)) -> exists b', Put true b tag r = (Ok tt, b').
Proof.
  intros Hs Hp. unfold Put. destruct (encode_storable _ Hs) as (v & -> & _). unfold put. destruct (Hp v) as [b' ->]. by exists b'.
Qed.

Lemma drainBody_reads rd body :
  rd = Bytes body \/ rd = NoReader /\ body = "" -> Z.of_nat (String.length body) <= 10485760 -> drainBody rd = Ok body.
Proof. intros [->|[-> ->]] Hle; [| done]. unfold drainBody, maxBodyBytes. destruct (Z.ltb_spec (10 * 1024 * 1024) (Z.of_nat (String.length body))); [lia | done]. Qed.

(** C15: one job, end to end.  Submitting an unknown tag that the bucket takes as a key, with
    a slot free and a body of at most 10 MiB (or no body), stores a pending record, claims a
    slot and starts a worker on a request that is the submitted one with the whole body and
    its length (no body and length 0 when it is empty); fetching the tag meanwhile says
    pending; when the worker ends its slot is free again and fetching the tag gives the
    upstream's response (status, headers, body), or the synthetic 502 if the upstream failed,
    as it survives the store: unchanged if its headers are valid UTF-8. *)
Theorem job_end_to_end (p : pool) tag rd body (src : Rest) now now' fwd rd' (src' : Rest) t' :
  intact (store p) -> cancelled p = false -> rec_at (store p) tag = None ->
  (slots p < maxConcurrent p)%nat -> (forall v, is_Some (bput (store p) tag v)) ->
  rd = Bytes body \/ rd = NoReader /\ body = "" -> Z.of_nat (String.length body) <= 10485760 ->
  in_int64 (Unix now) -> in_int64 (Unix now') -> in_int64 (StatusCode (result_of fwd)) ->
  exists req p1, SubmitOrFetch true true tag rd src now p = (Ok (OutcomePending, Some req), p1)
  /\ rest req = src /\ f_body req = (if String.eqb body "" then None else Some body)
  /\ f_contentLength req = Z.of_nat (String.length body) /\ slots p1 = S (slots p)
  /\ fst (SubmitOrFetch true true tag rd' src' t' p1) = Ok (OutcomePending, None)
  /\ let p2 := worker_exit true tag fwd now' p1 in
     slots p2 = slots p
     /\ SubmitOrFetch true true tag rd' src' t' p2 = (Ok (OutcomeCompleted (stored_response (result_of fwd)), None), p2)
     /\ (utf8_response (result_of fwd) -> stored_response (result_of fwd) = result_of fwd)
     /\ (forall k, k <> tag -> rec_at (store p2) k = rec_at (store p) k).
Proof.
  intros Hi Hcan Hnone Hslot Hkey Hrd Hlen Hn Hn' Hc.
  assert (storable (NewPendingRecord tag now)) as Hst by (split; [unfold representable; cbn; by split_and! | done]).
  destruct (Put_takes (store p) tag _ Hst Hkey) as [b1 Hput].
  destruct (Put_spec _ _ _ _ Hst Hput) as [Hrec1 Hi1]. specialize (Hi1 Hi).
  destruct (runWorker_spec b1 tag fwd now' Hi1 Hn' Hc) as [Hi2 Hrec2].
  eexists _, _. split.
  { unfold SubmitOrFetch, submit_check, submit_get. rewrite Hcan, Get_spec, Hnone by done.
    rewrite (proj2 (Nat.ltb_lt _ _) Hslot). unfold submit_start. rewrite (drainBody_reads rd body Hrd Hlen).
    cbn [store set_slots]. by rewrite Hput. }
  unfold worker_exit. cbn [store slots set_store set_slots pred]. unfold cloneRequest.
  split_and!; [by destruct body | by destruct body | by destruct body | done | | done | | apply stored_response_id |].
  - unfold SubmitOrFetch, submit_check, submit_get. cbn [cancelled store set_store set_slots]. rewrite Hcan.
    rewrite Get_spec by done. rewrite Hrec1, String.eqb_refl. done.
  - unfold SubmitOrFetch, submit_check, submit_get. cbn [cancelled store set_store set_slots]. rewrite Hcan.
    rewrite Get_spec by done. rewrite Hrec2, Hrec1, String.eqb_refl. cbn [fmap option_fmap option_map].
    by destruct fwd.
  - intros k Hk. rewrite Hrec2, Hrec1. destruct (String.eqb_spec tag k); [by subst | done].
Qed.

(** The refusals of [SubmitOrFetch] change nothing: a full pool, an oversize
    or unreadable body, a closed pool and a known tag leave the records as they
    were and hold no slot. *)
Theorem submit_refusals (p : pool) io2 tag rd (src : Rest) now :
  intact (store p) ->
  (cancelled p = true \/ is_Some (rec_at (store p) tag) \/ (maxConcurrent p <= slots p)%nat
   \/ is_ok (drainBody rd) = false) ->
  snd (SubmitOrFetch true io2 tag rd src now p) = p
  /\ fst (SubmitOrFetch true io2 tag rd src now p) =
     if cancelled p then Err ErrPoolClosed
     else match rec_at (store p) tag with
          | Some r => Ok (outcomeForRecord r, None)
          | None => if Nat.ltb (slots p) (maxConcurrent p)
                    then match drainBody rd with Err e => Err e | Ok _ => Ok (OutcomePending, None) end
                    else Ok (OutcomeQueueFull, None)
          end.
Proof.
  intros Hi Hcase. unfold SubmitOrFetch, submit_check, submit_get. destruct (cancelled p) eqn:Hc; [done |].
  rewrite Get_spec by done. destruct (rec_at (store p) tag) as [r|]; [done |].
  destruct (Nat.ltb_spec (slots p) (maxConcurrent p)) as [Hlt|]; [| done].
  destruct Hcase as [|[[? ?]|[|Hd]]]; [done | done | lia |].
  unfold submit_start. destruct (drainBody rd) as [e|]; [| done]. cbn. split; [| done].
  unfold set_slots. cbn. by destruct p.
Qed.
End Claims.

(** ** Concurrent callers *)

Section System.
Context `{Bolt B}.

(** [subs]: callers that claimed a slot and have not written their record yet;
    [workers]: running workers; both by number, with their tags. *)
Record psys := mkPsys { pl : @pool B; subs : gmap nat string; workers : gmap nat string }.

Inductive pstep (s : psys) : psys -> Prop :=
| p_check id tag io p' :
    subs s !! id = None -> workers s !! id = None ->
    submit_check io tag (pl s) = (Ok None, p') ->
    pstep s (mkPsys p' (<[id := tag]> (subs s)) (workers s))
| p_start id tag io rd now p' (req : @freshRequest unit) :
    subs s !! id = Some tag -> submit_start io tag rd tt now (pl s) = (Ok req, p') ->
    pstep s (mkPsys p' (delete id (subs s)) (<[id := tag]> (workers s)))
| p_start_fails id tag io rd now p' e :
    subs s !! id = Some tag -> submit_start (Rest := unit) io tag rd tt now (pl s) = (Err e, p') ->
    pstep s (mkPsys p' (delete id (subs s)) (workers s))
| p_exit id tag io fwd now :
    workers s !! id = Some tag ->
    pstep s (mkPsys (worker_exit io tag fwd now (pl s)) (subs s) (delete id (workers s)))
| p_gc g now io1 io2 io3 :
    pstep s (mkPsys (set_store (snd (passOnce g now io1 io2 io3 (store (pl s)))) (pl s))
               (subs s) (workers s))
| p_shutdown : pstep s (mkPsys (Shutdown_cancel (pl s)) (subs s) (workers s)).

Definition pinit (s : psys) : Prop := slots (pl s) = 0%nat /\ subs s = ∅ /\ workers s = ∅.

Record pinv (s : psys) : Prop := {
  pi_slots : slots (pl s) = (size (subs s) + size (workers s))%nat;
  pi_bound : (slots (pl s) <= maxConcurrent (pl s))%nat;
  pi_apart : forall id, is_Some (subs s !! id) -> workers s !! id = None
}.

Lemma size_delete_S (m : gmap nat string) id x :
  m !! id = Some x -> size m = S (size (delete id m)).
Proof.
  intros Hm. rewrite <- (insert_delete_id m id x Hm) at 1.
  by rewrite map_size_insert_None by apply lookup_delete_eq.
Qed.

Lemma pinv_step s s' : pinv s -> pstep s s' -> pinv s'.
Proof.
  intros [Hs Hb Ha] Hst. destruct Hst as [id tag io p' Hsub Hw Hc | id tag io rd now p' req Hsub Hst
    | id tag io rd now p' e Hsub Hst | id tag io fwd now Hw | g now io1 io2 io3 |].
  - unfold submit_check, submit_get in Hc. destruct (cancelled (pl s)); [done |].
    destruct (Get io (store (pl s)) tag) as [|[r|]]; [done | done |].
    destruct (Nat.ltb_spec (slots (pl s)) (maxConcurrent (pl s))); [| done]. injection Hc as <-.
    split; cbn; [rewrite map_size_insert_None by done; lia | lia |].
    intros id'. destruct (decide (id = id')) as [<-|Hne]; [done |].
    rewrite lookup_insert_ne by done. apply Ha.
  - unfold submit_start in Hst. destruct (drainBody rd); [done |].
    destruct (Put io (store (pl s)) tag _) as [[|[]] b]; [done |]. injection Hst as _ <-.
    pose proof (size_delete_S _ _ _ Hsub). assert (workers s !! id = None) as Hwn by eauto.
    split; cbn; [rewrite map_size_insert_None by done; lia | lia |].
    intros id' [x Hx]. apply lookup_delete_Some in Hx as [Hne Hx]. rewrite lookup_insert_ne by done. eauto.
  - unfold submit_start in Hst. pose proof (size_delete_S _ _ _ Hsub).
    assert (slots p' = pred (slots (pl s)) /\ maxConcurrent p' = maxConcurrent (pl s)) as [E1 E2].
    { destruct (drainBody rd); [by injection Hst as _ <- |].
      by destruct (Put io (store (pl s)) tag _) as [[|[]] b]; [injection Hst as _ <- |]. }
    split; cbn; [lia | lia |].
    intros id' [x Hx]. apply lookup_delete_Some in Hx as [Hne Hx]. eauto.
  - pose proof (size_delete_S _ _ _ Hw). split; cbn; [lia | lia |].
    intros id' Hx. specialize (Ha id' Hx). by rewrite lookup_delete_None; right.
  - by split.
  - by split.
Qed.

(** The pool's concurrency bound: in every interleaving of callers, workers,
    GC and shutdown, the claimed slots are exactly the callers about to write their
    record plus the running workers, and never more than [maxConcurrent]. *)
Theorem pool_slots_bound s :
  reachable pinit pstep s ->
  slots (pl s) = (size (subs s) + size (workers s))%nat
  /\ (size (workers s) <= maxConcurrent (pl s))%nat.
Proof.
  intros Hr. assert (pinv s) as [H1 H2 _]; [| lia].
  revert s Hr. apply reachable_invariant.
  - intros s (Hs & Hsub & Hw). split; rewrite ?Hs, ?Hsub, ?Hw; [done | lia | by intros id [? ?]].
  - intros s s' _. apply pinv_step.
Qed.
End System.

(** The check and the write of [SubmitOrFetch] are not atomic: two callers
    with one tag can both find it absent, and the second write turns the first
    job's completed record back to pending and starts a second worker. *)
Theorem submit_race :
  exists (s1 s2 : @psys (gmap string string)) resp,
    reachable pinit pstep s1 /\ rtc pstep s1 s2
    /\ outcomeForRecord <$> rec_at (store (pl s1)) "t" = Some (OutcomeCompleted resp)
    /\ outcomeForRecord <$> rec_at (store (pl s2)) "t" = Some OutcomePending
    /\ workers s2 !! 2%nat = Some "t".
Proof.
  pose (resp := mkResponse 200 None (Some "hi")).
  pose (p0 := mkPool (∅ : gmap string string) 0 2 false).
  pose (a1 := mkPsys (set_slots 1 p0) (<[1%nat := "t"]> ∅) ∅).
  pose (a2 := mkPsys (set_slots 2 p0) (<[2%nat := "t"]> (subs a1)) ∅).
  pose (a3 := mkPsys (snd (submit_start true "t" NoReader tt 0 (pl a2))) (delete 1%nat (subs a2)) (<[1%nat := "t"]> ∅)).
  pose (a4 := mkPsys (worker_exit true "t" (Some resp) 0 (pl a3)) (subs a3) (delete 1%nat (workers a3))).
  pose (a5 := mkPsys (snd (submit_start true "t" NoReader tt 0 (pl a4))) (delete 2%nat (subs a4))
                (<[2%nat := "t"]> (workers a4))).
  exists a4, a5, resp. split; [| split_and!].
  - exists (mkPsys p0 ∅ ∅). split; [done |].
    eapply (rtc_l _ _ a1); [apply (p_check (mkPsys p0 ∅ ∅) 1 "t" true (pl a1)); vm_compute; reflexivity |].
    eapply (rtc_l _ _ a2); [apply (p_check a1 2 "t" true (pl a2)); vm_compute; reflexivity |].
    eapply (rtc_l _ _ a3); [apply (p_start a2 1 "t" true NoReader 0 (pl a3) (mkFresh tt None 0)); vm_compute; reflexivity |].
    eapply (rtc_l _ _ a4); [apply (p_exit a3 1 "t" true (Some resp) 0); vm_compute; reflexivity | apply rtc_refl].
  - eapply (rtc_l _ _ a5); [apply (p_start a4 2 "t" true NoReader 0 (pl a5) (mkFresh tt None 0)); vm_compute; reflexivity | apply rtc_refl].
  - vm_compute. reflexivity.
  - vm_compute. reflexivity.
  - vm_compute. reflexivity.
Qed.

(** ** The theorems on a concrete pool *)
Module PoolDemo.
Definition resp : UpstreamResponse := mkResponse 200 (Some {[ "A" := ["x"; "y"] ]}) (Some "hello").
Definition p0 : @pool (gmap string string) := mkPool ∅ 0 1 false.
Definition p1 : @pool (gmap string string) := snd (SubmitOrFetch true true "t" (Bytes "in") tt Second p0).
Definition p2 : @pool (gmap string string) := worker_exit true "t" (Some resp) (2 * Second) p1.

Lemma p0_intact : intact (store p0).
Proof. intros k v Hk. cbn in Hk. destruct (bad_key k); [done |]. by rewrite lookup_empty in Hk. Qed.

Lemma second_ok n : 0 <= n < 100 -> in_int64 (Unix (n * Second)).
Proof. intros Hn. change (n * Second) with (fromUnix n). rewrite Unix_fromUnix. unfold in_int64, int64_min, int64_max. lia. Qed.

Lemma p1_intact : intact (store p1).
Proof.
  eapply (Put_spec (store p0) "t" (NewPendingRecord "t" Second)); [| vm_compute; reflexivity | apply p0_intact].
  split; [by vm_compute | done].
Qed.

Lemma p2_intact : intact (store p2).
Proof.
  apply (runWorker_spec (store p1) "t" (Some resp) (2 * Second) p1_intact); [apply second_ok; lia | by vm_compute].
Qed.
End PoolDemo.

Lemma worker_only_pending_witness :
  rec_at (runWorker true "t" None (3 * Second) (store PoolDemo.p2)) "t" = rec_at (store PoolDemo.p2) "t".
Proof.
  destruct (rec_at (store PoolDemo.p2) "t") as [r|] eqn:E; [| vm_compute in E; discriminate E].
  apply (worker_only_pending (store PoolDemo.p2) "t" None (3 * Second) "t" r PoolDemo.p2_intact).
  - apply PoolDemo.second_ok. lia.
  - by vm_compute.
  - exact E.
  - right. vm_compute in E. injection E as <-. by vm_compute.
Defined.

Lemma job_end_to_end_witness : exists req p1,
  SubmitOrFetch true true "t" (Bytes "in") tt Second PoolDemo.p0 = (Ok (OutcomePending, Some req), p1)
  /\ f_body req = Some "in"
  /\ SubmitOrFetch true true "t" NoReader tt 0 (worker_exit true "t" (Some PoolDemo.resp) (2 * Second) p1)
     = (Ok (OutcomeCompleted PoolDemo.resp, None), worker_exit true "t" (Some PoolDemo.resp) (2 * Second) p1).
Proof.
  destruct (job_end_to_end PoolDemo.p0 "t" (Bytes "in") "in" tt Second (2 * Second) (Some PoolDemo.resp) NoReader tt 0
    PoolDemo.p0_intact eq_refl) as (req & p1 & H1 & _ & H2 & _ & _ & _ & _ & H3 & _);
    [vm_compute; reflexivity | vm_compute; lia | intros v; by eexists | by left | vm_compute; discriminate
    | apply (PoolDemo.second_ok 1); lia | apply PoolDemo.second_ok; lia | by vm_compute |].
  exists req, p1. split; [exact H1 |]. split; [exact H2 | exact H3].
Defined.

Lemma submit_refusals_witness :
  SubmitOrFetch true true "u" NoReader tt 0 PoolDemo.p1 = (Ok (OutcomeQueueFull, None), PoolDemo.p1).
Proof.
  destruct (submit_refusals PoolDemo.p1 true "u" NoReader tt 0 PoolDemo.p1_intact) as [H1 H2].
  - right. right. left. vm_compute. lia.
  - destruct (SubmitOrFetch true true "u" NoReader tt 0 PoolDemo.p1) as [out p'] eqn:E. cbn in H1, H2.
    rewrite H1, H2. vm_compute. reflexivity.
Defined.

Lemma pool_slots_bound_witness :
  slots (set_slots 1 PoolDemo.p0) = (size (<[1%nat := "t"]> (∅ : gmap nat string)) + 0)%nat.
Proof.
  refine (proj1 (pool_slots_bound (mkPsys (set_slots 1 PoolDemo.p0) (<[1%nat := "t"]> ∅) ∅) _)).
  exists (mkPsys PoolDemo.p0 ∅ ∅). split; [by split_and! |].
  eapply rtc_l; [| apply rtc_refl].
  apply (p_check (mkPsys PoolDemo.p0 ∅ ∅) 1 "t" true (set_slots 1 PoolDemo.p0)); vm_compute; reflexivity.
Defined.
