(* ===== verification/JobLife.v ===== *)
(** * The async jobs from the start of the daemon to its end
    ([asyncjob]: [NewStore], [Close], [GC.Run], [Pool.Shutdown]; the shutdown of [run])

    The requests inside [SubmitOrFetch] and the health handler, the workers, the loop of
    the collector and the shutdown sequence of [run] after a signal interleave freely;
    each store transaction, each test of a context and each wait is a step.  A
    transaction succeeds while the database is open and fails after [Close] (disk errors
    are left out here).  The waits of the shutdown (for the API's requests, for the
    workers, for the collector) end when what they wait for is gone, or by their
    timeout; [timedOut] remembers whether one did.  The waits for the scheduler, the
    supervisor and the notifier, which do not use the store, are left out.  [late] remembers whether a
    transaction was attempted after [Close].

    [http.Server.Shutdown] accepts no request from its start on and returns without an
    error only when none is being handled. *)

From S2P Require Import Prelude GoStrings GoJson Domain Base64 AsyncRecord AsyncStore AsyncJobs AsyncThms AsyncPool.
Import AsyncRecord AsyncStore AsyncJobs.

Module JobLife.

(** ** The store's file *)

Inductive newStoreError := EOpenDB | ECreateBucket.

(** The database after [NewStore] (open or not), and its error. *)
Definition NewStore (openOk bucketOk : bool) : bool * option newStoreError :=
  if negb openOk then (false, Some EOpenDB)
  else if negb bucketOk then (false, Some ECreateBucket) else (true, None).

(** [closeErr] is the result of the one [db.Close] call; true is nil. *)
Record bboltStore := mkStore { db_open : bool; closeErr : option bool }.

Definition Close (dbClose : bool) (s : bboltStore) : bool * bboltStore :=
  match closeErr s with
  | Some e => (e, s)
  | None => (dbClose, mkStore false (Some dbClose))
  end.

(** ** The parts *)

(** A request: before the test of the pool's context, before the lookup, with a slot
    claimed, with its record written; or a health request before [Counts]. *)
Inductive point := Entered | Checked | Claimed | Written | Health.

(** The collector: before its first pass, in the select, before each of the three
    transactions of a pass, gone. *)
Inductive gcPoint := GStart | GSelect | GTimeout (now : Z) | GComplete (now : Z) | GTombstone (now : Z) | GExited.

(** [run] after the listeners are up: serving, in each of the waits, done. *)
Inductive mainPoint := MServe | MProxy | MApi | MPool | MJoinGC | MClose | MDone.

Section Life.
Context `{Bolt B} (g : GCConfig).

Record sys := mkSys {
  pl : @pool B;
  db : bboltStore;
  accepting : bool;
  reqs : gmap nat (string * point);
  workers : gmap nat string;
  gc : gcPoint;
  ctxDone : bool;
  main : mainPoint;
  timedOut : bool;
  late : bool
}.

Definition open_ (s : sys) : bool := db_open (db s).
(** A transaction is attempted. *)
Definition touch (s : sys) : bool := late s || negb (open_ s).

Definition with_req (p : @pool B) (m : gmap nat (string * point)) (l : bool) (s : sys) : sys :=
  mkSys p (db s) (accepting s) m (workers s) (gc s) (ctxDone s) (main s) (timedOut s) l.
Definition with_workers (p : @pool B) (m : gmap nat (string * point)) (w : gmap nat string) (l : bool) (s : sys) : sys :=
  mkSys p (db s) (accepting s) m w (gc s) (ctxDone s) (main s) (timedOut s) l.
Definition with_gc (b : B) (x : gcPoint) (l : bool) (s : sys) : sys :=
  mkSys (set_store b (pl s)) (db s) (accepting s) (reqs s) (workers s) x (ctxDone s) (main s) (timedOut s) l.
Definition with_main (p : @pool B) (d : bboltStore) (acc done : bool) (m : mainPoint) (t : bool) (s : sys) : sys :=
  mkSys p d acc (reqs s) (workers s) (gc s) done m t (late s).

Inductive step (s : sys) : sys -> Prop :=
(* requests *)
| j_request id tag :
    accepting s = true -> reqs s !! id = None -> workers s !! id = None ->
    step s (with_req (pl s) (<[id := (tag, Entered)]> (reqs s)) (late s) s)
| j_health id :
    accepting s = true -> reqs s !! id = None -> workers s !! id = None ->
    step s (with_req (pl s) (<[id := (EmptyString, Health)]> (reqs s)) (late s) s)
| j_counts id tag :
    reqs s !! id = Some (tag, Health) ->
    step s (with_req (pl s) (delete id (reqs s)) (touch s) s)
| j_closed id tag :
    reqs s !! id = Some (tag, Entered) -> cancelled (pl s) = true ->
    step s (with_req (pl s) (delete id (reqs s)) (late s) s)
| j_check id tag :
    reqs s !! id = Some (tag, Entered) -> cancelled (pl s) = false ->
    step s (with_req (pl s) (<[id := (tag, Checked)]> (reqs s)) (late s) s)
| j_claim id tag p' :
    reqs s !! id = Some (tag, Checked) -> submit_get (open_ s) tag (pl s) = (Ok None, p') ->
    step s (with_req p' (<[id := (tag, Claimed)]> (reqs s)) (touch s) s)
| j_answer id tag r p' :
    reqs s !! id = Some (tag, Checked) -> submit_get (open_ s) tag (pl s) = (r, p') -> r <> Ok None ->
    step s (with_req p' (delete id (reqs s)) (touch s) s)
| j_write id tag rd now p' (req : @freshRequest unit) :
    reqs s !! id = Some (tag, Claimed) -> in_int64 (Unix now) ->
    submit_start (open_ s) tag rd tt now (pl s) = (Ok req, p') ->
    step s (with_req p' (<[id := (tag, Written)]> (reqs s)) (touch s) s)
| j_write_fails id tag rd now p' e :
    reqs s !! id = Some (tag, Claimed) ->
    submit_start (Rest := unit) (open_ s) tag rd tt now (pl s) = (Err e, p') ->
    step s (with_req p' (delete id (reqs s))
              (match drainBody rd with Ok _ => touch s | Err _ => late s end) s)
| j_spawn id tag :
    reqs s !! id = Some (tag, Written) -> workers s !! id = None ->
    step s (with_workers (pl s) (delete id (reqs s)) (<[id := tag]> (workers s)) (late s) s)
(* workers *)
| j_exit id tag fwd now :
    workers s !! id = Some tag -> in_int64 (Unix now) -> in_int64 (StatusCode (result_of fwd)) ->
    step s (with_workers (worker_exit (open_ s) tag fwd now (pl s)) (reqs s) (delete id (workers s)) (touch s) s)
(* GC.Run: a pass at the start and at every tick, until the context is done *)
| j_pass now :
    gc s = GStart \/ gc s = GSelect ->
    step s (with_gc (store (pl s)) (GTimeout now) (late s) s)
| j_timeouts now :
    gc s = GTimeout now -> in_int64 (Unix now) ->
    step s (with_gc (snd (runBatchTransition (open_ s) (timeout_filter g now) (timeout_mutate now) (store (pl s))))
              (GComplete now) (touch s) s)
| j_completes now :
    gc s = GComplete now -> in_int64 (Unix now) ->
    step s (with_gc (snd (runBatchTransition (open_ s) (complete_filter g now) (tombstone_mutate now) (store (pl s))))
              (GTombstone now) (touch s) s)
| j_tombstones now :
    gc s = GTombstone now ->
    step s (with_gc (snd (runBatchDelete (open_ s) (tombstone_filter g now) (store (pl s)))) GSelect (touch s) s)
| j_gc_exit :
    gc s = GSelect -> ctxDone s = true ->
    step s (with_gc (store (pl s)) GExited (late s) s)
(* run: the signal, and the steps of the shutdown in order *)
| j_signal :
    main s = MServe -> step s (with_main (pl s) (db s) (accepting s) true MProxy (timedOut s) s)
| j_proxy_down :
    main s = MProxy -> step s (with_main (pl s) (db s) false (ctxDone s) MApi (timedOut s) s)
| j_api_down (timeout : bool) :
    main s = MApi -> (timeout = false -> reqs s = ∅) ->
    step s (with_main (Shutdown_cancel (pl s)) (db s) (accepting s) (ctxDone s) MPool (timedOut s || timeout) s)
| j_pool_down (timeout : bool) :
    main s = MPool -> (timeout = false -> workers s = ∅) ->
    step s (with_main (pl s) (db s) (accepting s) (ctxDone s) MJoinGC (timedOut s || timeout) s)
| j_gc_joined (timeout : bool) :
    main s = MJoinGC -> (timeout = false -> gc s = GExited) ->
    step s (with_main (pl s) (db s) (accepting s) (ctxDone s) MClose (timedOut s || timeout) s)
| j_close ok :
    main s = MClose ->
    step s (with_main (pl s) (snd (Close ok (db s))) (accepting s) (ctxDone s) MDone (timedOut s) s).

(** After [NewStore] and [RunRecovery]: every record decodes and none is pending. *)
Definition init (s : sys) : Prop :=
  exists b n, s = mkSys (NewPool b n) (mkStore true None) true ∅ ∅ GStart false MServe false false
    /\ intact b /\ forall k r, rec_at b k = Some r -> Status_ r <> StatusPending.
End Life.
End JobLife.
Import JobLife.

Section Thms.
Context `{Bolt B} (g : GCConfig).

(** ** The order of the shutdown *)

Definition rank (m : mainPoint) : Z :=
  match m with MServe => 0 | MProxy => 1 | MApi => 2 | MPool => 3 | MJoinGC => 4 | MClose => 5 | MDone => 6 end.

Record order (s : @sys B) : Prop := mk_order {
  o_accept : accepting s = true -> rank (main s) < 2;
  o_reqs : timedOut s = false -> 3 <= rank (main s) -> reqs s = ∅;
  o_workers : timedOut s = false -> 4 <= rank (main s) -> workers s = ∅;
  o_gc : timedOut s = false -> 5 <= rank (main s) -> gc s = GExited;
  o_open : open_ s = false -> main s = MDone;
  o_late : timedOut s = false -> late s = false
}.

(** A part that is still there finds the database open, unless a wait timed out. *)
Lemma order_open s :
  order s -> timedOut s = false -> reqs s <> ∅ \/ workers s <> ∅ \/ gc s <> GExited -> open_ s = true.
Proof.
  intros [_ H1 H2 H3 H4 _] Ht Hp. destruct (open_ s) eqn:E; [done |]. specialize (H4 eq_refl). rewrite H4 in *.
  destruct Hp as [Hp|[Hp|Hp]]; destruct Hp; [apply H1 | apply H2 | apply H3]; cbn; try done; lia.
Qed.

Lemma order_touch s :
  order s -> timedOut s = false -> reqs s <> ∅ \/ workers s <> ∅ \/ gc s <> GExited -> touch s = false.
Proof. intros Ho Ht Hp. unfold touch. by rewrite (o_late _ Ho Ht), (order_open _ Ho Ht Hp). Qed.

Lemma some_ne {A} (m : gmap nat A) id x : m !! id = Some x -> m <> ∅.
Proof. intros Hm ->. by rewrite lookup_empty in Hm. Qed.

Lemma order_req (s : sys) p m l id x :
  order s -> reqs s !! id = Some x -> l = late s \/ l = touch s -> order (with_req p m l s).
Proof.
  intros Ho Hid Hl. pose proof (some_ne _ _ _ Hid) as Hne. pose proof (order_touch _ Ho) as Ht.
  destruct Ho as [H0 H1 H2 H3 H4 H5]. split; cbn; auto.
  - intros E1 E2. by rewrite (H1 E1 E2) in Hne.
  - intros E. destruct Hl as [->| ->]; [auto | apply Ht; auto].
Qed.

Lemma order_gc (s : sys) b x l :
  order s -> gc s <> GExited -> l = late s \/ l = touch s -> order (with_gc b x l s).
Proof.
  intros Ho Hne Hl. pose proof (order_touch _ Ho) as Ht.
  destruct Ho as [H0 H1 H2 H3 H4 H5]. split; cbn; auto.
  - intros E1 E2. by rewrite (H3 E1 E2) in Hne.
  - intros E. destruct Hl as [->| ->]; [auto | apply Ht; auto].
Qed.

(** A step of [run]: the wait it ends is over. *)
Lemma order_main (s : sys) p d acc done m t :
  order s -> rank m = rank (main s) + 1 -> (acc = true -> accepting s = true /\ rank m < 2) ->
  (t = false -> timedOut s = false
     /\ match main s with MApi => reqs s = ∅ | MPool => workers s = ∅ | MJoinGC => gc s = GExited | _ => True end) ->
  (db_open d = false -> m = MDone) ->
  order (with_main p d acc done m t s).
Proof.
  intros [H0 H1 H2 H3 H4 H5] Hm Ha Ht Hd. split; cbn.
  - intros E. by apply Ha.
  - intros [E Hw]%Ht Hr. destruct (main s); cbn in *; try lia; try done; apply H1; auto; lia.
  - intros [E Hw]%Ht Hr. destruct (main s); cbn in *; try lia; try done; apply H2; auto; lia.
  - intros [E Hw]%Ht Hr. destruct (main s); cbn in *; try lia; try done; apply H3; auto; lia.
  - exact Hd.
  - intros [E _]%Ht. auto.
Qed.

Ltac run_step :=
  match goal with Ho : order ?s, Hm : main ?s = _ |- _ =>
    let Hd := fresh in let E := fresh in
    pose proof (o_open _ Ho) as Hd; unfold open_ in Hd; rewrite Hm in Hd; apply order_main; rewrite ?Hm; try done;
    try (intros E%orb_false_iff; destruct E; by auto);
    try (intros E; pose proof (o_accept _ Ho E) as Hlt; rewrite Hm in Hlt; cbn in Hlt |- *; first [lia | by split]);
    intros E; by specialize (Hd E)
  end.

Lemma order_step s s' : order s -> step g s s' -> order s'.
Proof.
  intros Ho Hs. pose proof (order_touch _ Ho) as Ht.
  destruct Hs as [id tag Ha Hr Hw|id Ha Hr Hw|id tag Hr|id tag Hr Hc|id tag Hr Hc|id tag p' Hr Hg|id tag r p' Hr Hg Hne
    |id tag rd now p' req Hr Hn Hst|id tag rd now p' e Hr Hst|id tag Hr Hwn|id tag fwd now Hw Hn Hc
    |now Hg|now Hg Hn|now Hg Hn|now Hg|Hg Hd|Hm|Hm|t Hm Hw|t Hm Hw|t Hm Hw|ok Hm].
  - destruct Ho as [H0 H1 H2 H3 H4 H5]. specialize (H0 Ha). split; cbn; auto; lia.
  - destruct Ho as [H0 H1 H2 H3 H4 H5]. specialize (H0 Ha). split; cbn; auto; lia.
  - eapply order_req; eauto.
  - eapply order_req; eauto.
  - eapply order_req; eauto.
  - eapply order_req; eauto.
  - eapply order_req; eauto.
  - eapply order_req; eauto.
  - eapply order_req; eauto. destruct (drainBody rd); eauto.
  - pose proof (some_ne _ _ _ Hr) as Hne. destruct Ho as [H0 H1 H2 H3 H4 H5]. split; cbn; auto.
    + intros E1 E2. by rewrite (H1 E1 E2) in Hne.
    + intros E1 E2. rewrite (H1 E1) in Hne by lia. done.
  - pose proof (some_ne _ _ _ Hw) as Hne. destruct Ho as [H0 H1 H2 H3 H4 H5]. split; cbn; auto.
    intros E1 E2. by rewrite (H2 E1 E2) in Hne.
  - apply order_gc; [done | by destruct Hg as [-> | ->] | by left].
  - apply order_gc; [done | by rewrite Hg | by right].
  - apply order_gc; [done | by rewrite Hg | by right].
  - apply order_gc; [done | by rewrite Hg | by right].
  - apply order_gc; [done | by rewrite Hg | by left].
  - run_step.
  - run_step.
  - run_step.
  - run_step.
  - run_step.
  - run_step.
Qed.

Lemma order_reachable s : reachable init (step g) s -> order s.
Proof.
  intros Hr. revert s Hr. apply reachable_invariant; [| intros s s' _; apply order_step].
  intros s (b & n & -> & _). split; cbn; try done; lia.
Qed.

(** ** Who looks after a pending record *)

Definition tended (s : @sys B) (k : string) : Prop :=
  exists id, reqs s !! id = Some (k, Written) \/ workers s !! id = Some k.

(** Every record decodes, and a pending one has a worker, or a request about to start one. *)
Definition kept (s : @sys B) : Prop :=
  intact (store (pl s)) /\ forall k r, rec_at (store (pl s)) k = Some r -> Status_ r = StatusPending -> tended s k.

(** A step that makes no record pending and takes nobody away. *)
Lemma kept_by (s s' : @sys B) :
  kept s -> intact (store (pl s')) ->
  (forall k r', rec_at (store (pl s')) k = Some r' -> Status_ r' = StatusPending ->
     exists r, rec_at (store (pl s)) k = Some r /\ Status_ r = StatusPending) ->
  (forall k, tended s k -> tended s' k) -> kept s'.
Proof. intros [Hi Hk] Hi' Hr Ht. split; [done |]. intros k r' H1 H2. destruct (Hr k r' H1 H2) as (r & H3 & H4). eauto. Qed.

Lemma kept_same (s s' : @sys B) :
  kept s -> store (pl s') = store (pl s) -> (forall k, tended s k -> tended s' k) -> kept s'.
Proof. intros Hk He. apply kept_by; [done | rewrite He; apply Hk | rewrite He; eauto]. Qed.

(** Changing a request that has not written its record, or is gone. *)
Lemma tended_insert (s : @sys B) p m l id x k :
  reqs s !! id = Some x -> x.2 <> Written -> (exists y, m = <[id := y]> (reqs s)) \/ m = delete id (reqs s) ->
  tended s k -> tended (with_req p m l s) k.
Proof.
  intros Hid Hx Hm (id' & [Hr|Hw]); exists id'; [| by right]. left. cbn.
  assert (id <> id') as Hne by (intros ->; rewrite Hid in Hr; injection Hr as ->; done).
  destruct Hm as [[y ->]| ->]; [by rewrite lookup_insert_ne | by rewrite lookup_delete_ne].
Qed.

Lemma tended_new (s : @sys B) p l id y k :
  reqs s !! id = None -> tended s k -> tended (with_req p (<[id := y]> (reqs s)) l s) k.
Proof.
  intros Hid (id' & [Hr|Hw]); exists id'; [| by right]. left. cbn. rewrite lookup_insert_ne; [done |]. intros ->. congruence.
Qed.

Lemma submit_get_store io tag (p p' : @pool B) r : submit_get io tag p = (r, p') -> store p' = store p.
Proof.
  unfold submit_get. destruct (Get io (store p) tag) as [e|[rec|]]; [by intros [= _ <-] | by intros [= _ <-] |].
  destruct (Nat.ltb _ _); by intros [= _ <-].
Qed.

Lemma Update_closed {A} (b : B) (body : res storeError (A * B)) : snd (Update false b body) = b.
Proof. unfold Update. by destruct body as [|[]]. Qed.

Lemma transition_closed f m (b : B) : snd (runBatchTransition false f m b) = b.
Proof.
  unfold runBatchTransition, BatchTransition. pose proof (Update_closed b (let? ks := matching f (bforeach b) in transition_all m ks 0 b)) as Hu.
  by destruct (Update _ _ _) as [[] ?].
Qed.

Lemma delete_closed f (b : B) : snd (runBatchDelete false f b) = b.
Proof.
  unfold runBatchDelete, BatchDelete. pose proof (Update_closed b (let? ks := matching f (bforeach b) in Ok (delete_all ks 0 b))) as Hu.
  by destruct (Update _ _ _) as [[] ?].
Qed.

Lemma kept_transition (s : @sys B) f m x l io :
  kept s -> (forall r, storable r -> storable (m r)) -> (forall r, Status_ (m r) <> StatusPending) ->
  kept (with_gc (snd (runBatchTransition io f m (store (pl s)))) x l s).
Proof.
  intros Hk Hst Hm. destruct io; [| rewrite transition_closed; by apply (kept_same s)]. unfold runBatchTransition.
  destruct (BatchTransition_spec (store (pl s)) f m (proj1 Hk) Hst) as (n & b' & -> & Hi & Hr).
  apply (kept_by s); [done | done | | done]. cbn. intros k r'. rewrite Hr.
  destruct (rec_at (store (pl s)) k) as [r|]; [| done]. cbn. intros [= <-]. destruct (f r); [| by eauto].
  intros Hp. by destruct (Hm r).
Qed.

Lemma kept_delete (s : @sys B) f x l io :
  kept s -> kept (with_gc (snd (runBatchDelete io f (store (pl s)))) x l s).
Proof.
  intros Hk. destruct io; [| rewrite delete_closed; by apply (kept_same s)]. unfold runBatchDelete.
  destruct (BatchDelete_spec (store (pl s)) f (proj1 Hk)) as (n & b' & -> & Hi & Hr).
  apply (kept_by s); [done | done | | done]. cbn. intros k r'. rewrite Hr.
  destruct (rec_at (store (pl s)) k) as [r|]; [| done]. cbn. destruct (f r); [done |]. intros [= <-]. eauto.
Qed.

(** The write of a request, and the end of a worker. *)
Lemma kept_write (s : @sys B) id tag rd now p' (req : @freshRequest unit) l io :
  kept s -> reqs s !! id = Some (tag, Claimed) -> in_int64 (Unix now) ->
  submit_start io tag rd tt now (pl s) = (Ok req, p') ->
  kept (with_req p' (<[id := (tag, Written)]> (reqs s)) l s).
Proof.
  intros Hk Hid Hn Hs. unfold submit_start in Hs. destruct (drainBody rd) as [|body]; [done |].
  destruct (Put io (store (pl s)) tag (NewPendingRecord tag now)) as [[|[]] b1] eqn:Hp; [done |]. injection Hs as _ <-.
  destruct io; [| exfalso; unfold Put, Update in Hp; repeat case_match; congruence].
  assert (storable (NewPendingRecord tag now)) as Hst by (split; [unfold representable; cbn; by split_and! | done]).
  destruct (Put_spec _ _ _ _ Hst Hp) as [Hr Hi]. split; [by apply Hi, Hk |]. intros k r. cbn. rewrite Hr.
  destruct (String.eqb_spec tag k) as [<-|Hne].
  - intros _ _. exists id. left. cbn. apply lookup_insert_eq.
  - intros H1 H2. by eapply tended_insert; [exact Hid | | left; by eexists | by apply (proj2 Hk) with r].
Qed.

Lemma kept_exit (s : @sys B) id tag fwd now l :
  kept s -> workers s !! id = Some tag -> in_int64 (Unix now) -> in_int64 (StatusCode (result_of fwd)) ->
  kept (with_workers (worker_exit true tag fwd now (pl s)) (reqs s) (delete id (workers s)) l s).
Proof.
  intros Hk Hid Hn Hc. destruct (runWorker_spec (store (pl s)) tag fwd now (proj1 Hk) Hn Hc) as [Hi Hr].
  split; [exact Hi |]. intros k r'. cbn [with_workers pl worker_exit set_slots set_store store]. rewrite Hr.
  destruct (String.eqb_spec tag k) as [<-|Hne].
  - destruct (rec_at (store (pl s)) tag) as [r|]; [| done]. cbn. intros [= <-]. destruct (has_status StatusPending r) eqn:E.
    + by destruct fwd.
    + intros Hp. by rewrite (proj2 (has_status_eq StatusPending r) Hp) in E.
  - intros H1 H2. destruct (proj2 Hk k r' H1 H2) as (id' & [Hq|Hw]); exists id'; [by left |]. right. cbn.
    rewrite lookup_delete_ne; [done |]. intros ->. congruence.
Qed.

(** A failed write changes nothing. *)
Lemma write_fails_store io tag rd now (p p' : @pool B) e :
  submit_start (Rest := unit) io tag rd tt now p = (Err e, p') -> store p' = store p.
Proof.
  unfold submit_start. destruct (drainBody rd); [by intros [= _ <-] |].
  destruct (Put _ _ _ _) as [[|[]] b1] eqn:Hp; [| done]. intros [= _ <-]. cbn.
  unfold Put, Update in Hp. destruct (encode _); [congruence |]. repeat case_match; congruence.
Qed.

Lemma kept_step s s' : order s -> timedOut s = false -> kept s -> step g s s' -> kept s'.
Proof.
  intros Ho Hto Hk Hs.
  destruct Hs as [id tag Ha Hr Hw|id Ha Hr Hw|id tag Hr|id tag Hr Hc|id tag Hr Hc|id tag p' Hr Hg|id tag r p' Hr Hg Hne
    |id tag rd now p' req Hr Hn Hst|id tag rd now p' e Hr Hst|id tag Hr Hwn|id tag fwd now Hw Hn Hc
    |now Hg|now Hg Hn|now Hg Hn|now Hg|Hg Hd|Hm|Hm|t Hm Hw|t Hm Hw|t Hm Hw|ok Hm].
  - apply (kept_same s); [done | done | intros k; by apply tended_new].
  - apply (kept_same s); [done | done | intros k; by apply tended_new].
  - apply (kept_same s); [done | done | intros k; by eapply tended_insert; [exact Hr | | right]].
  - apply (kept_same s); [done | done | intros k; by eapply tended_insert; [exact Hr | | right]].
  - apply (kept_same s); [done | done | intros k; by eapply tended_insert; [exact Hr | | left; eexists]].
  - apply (kept_same s); [done | by eapply submit_get_store | intros k; by eapply tended_insert; [exact Hr | | left; eexists]].
  - apply (kept_same s); [done | by eapply submit_get_store | intros k; by eapply tended_insert; [exact Hr | | right]].
  - by eapply kept_write.
  - apply (kept_same s); [done | | intros k; by eapply tended_insert; [exact Hr | | right]].
    by eapply write_fails_store.
  - apply (kept_same s); [done | done |]. intros k (id' & [Hq|Hq]).
    + destruct (decide (id = id')) as [<-|Hne].
      * exists id. right. cbn. rewrite Hr in Hq. injection Hq as ->. apply lookup_insert_eq.
      * exists id'. left. cbn. by rewrite lookup_delete_ne.
    + exists id'. right. cbn. rewrite lookup_insert_ne; [done |]. intros ->. congruence.
  - rewrite (order_open s Ho Hto) by (right; left; by eapply some_ne). by eapply kept_exit.
  - by apply (kept_same s).
  - apply kept_transition; [done | | done]. intros r. by apply timeout_storable.
  - apply kept_transition; [done | | done]. intros r. by apply tombstone_storable.
  - by apply kept_delete.
  - by apply (kept_same s).
  - by apply (kept_same s).
  - by apply (kept_same s).
  - by apply (kept_same s).
  - by apply (kept_same s).
  - by apply (kept_same s).
  - by apply (kept_same s).
Qed.

(** A timeout is remembered. *)
Lemma timedOut_step s s' : step g s s' -> timedOut s' = false -> timedOut s = false.
Proof. destruct 1; cbn; try done; by intros [? _]%orb_false_iff. Qed.

Lemma kept_reachable s : reachable init (step g) s -> timedOut s = false -> kept s.
Proof.
  revert s. apply (reachable_invariant init (step g) (fun s => timedOut s = false -> kept s)).
  - intros s (b & n & -> & Hi & Hp) _. split; [done |]. intros k r H1 H2. by destruct (Hp k r H1).
  - intros s s' Hr IH Hs Ht. pose proof (timedOut_step _ _ Hs Ht) as Ht'.
    eapply kept_step; [by apply order_reachable | done | by apply IH | done].
Qed.

(** C16: A shutdown whose waits all end in time leaves the store in order.  In every
    interleaving of requests, workers, the collector and the shutdown sequence, as long as
    no wait has timed out no transaction is attempted after the store is closed; and when
    it is closed no request and no worker is left, the collector is gone, and no record is
    pending, so that the recovery of the next start finds nothing to drop. *)
Theorem clean_shutdown s :
  reachable init (step g) s -> timedOut s = false ->
  late s = false
  /\ (main s = MDone ->
      reqs s = ∅ /\ workers s = ∅ /\ gc s = GExited
      /\ (forall k r, rec_at (store (pl s)) k = Some r -> Status_ r <> StatusPending)
      /\ exists n b', RunRecovery true (store (pl s)) = (Ok n, b')
           /\ forall k, rec_at b' k = rec_at (store (pl s)) k).
Proof.
  intros Hr Ht. destruct (order_reachable s Hr) as [_ H1 H2 H3 _ H5]. split; [auto |]. intros Hm. rewrite Hm in *. cbn in *.
  assert (reqs s = ∅) as Eq by (apply H1; [done | lia]). assert (workers s = ∅) as Ew by (apply H2; [done | lia]).
  destruct (kept_reachable s Hr Ht) as [Hi Hk].
  assert (forall k r, rec_at (store (pl s)) k = Some r -> Status_ r <> StatusPending) as Hnp.
  { intros k r Hrec Hst. destruct (Hk k r Hrec Hst) as (id & [Hx|Hx]); [rewrite Eq in Hx | rewrite Ew in Hx]; done. }
  split_and!; [done | done | apply H3; [done | lia] | done |].
  destruct (BatchDelete_spec (store (pl s)) (has_status StatusPending) Hi) as (n & b' & E & _ & Hb).
  exists n, b'. split; [exact E |]. intros k. rewrite Hb. destruct (rec_at (store (pl s)) k) as [r|] eqn:Hrec; [| done]. cbn.
  destruct (has_status StatusPending r) eqn:Hs; [| done]. apply has_status_eq in Hs. by destruct (Hnp k r).
Qed.
End Thms.

(** ** Two shutdowns *)
Module LifeDemo.
Definition g : GCConfig := NewGC (10 * Second) (20 * Second) (30 * Second) 0.
Definition resp : UpstreamResponse := mkResponse 200 None (Some "hi").
Definition sysd := @sys (gmap string string).

Definition s0 : sysd := mkSys (NewPool ∅ 1) (mkStore true None) true ∅ ∅ GStart false MServe false false.

(** A first pass of the collector, and a request up to its slot. *)
Definition pass (now : Z) (s : sysd) : list sysd :=
  let a := with_gc (store (pl s)) (GTimeout now) (late s) s in
  let b := with_gc (snd (runBatchTransition true (timeout_filter g now) (timeout_mutate now) (store (pl a)))) (GComplete now) (touch a) a in
  let c := with_gc (snd (runBatchTransition true (complete_filter g now) (tombstone_mutate now) (store (pl b)))) (GTombstone now) (touch b) b in
  [a; b; c; with_gc (snd (runBatchDelete true (tombstone_filter g now) (store (pl c)))) GSelect (touch c) c].
Definition last_of (l : list sysd) (s : sysd) : sysd := List.last l s.

Definition s1 : sysd := last_of (pass 0 s0) s0.
Definition s2 : sysd := with_req (pl s1) {[ 1%nat := ("t", Entered) ]} (late s1) s1.
Definition s3 : sysd := with_req (pl s2) (<[1%nat := ("t", Checked)]> (reqs s2)) (late s2) s2.
Definition s4 : sysd := with_req (snd (submit_get true "t" (pl s3))) (<[1%nat := ("t", Claimed)]> (reqs s3)) (touch s3) s3.

Definition write (s : sysd) : sysd :=
  with_req (snd (submit_start true "t" (Bytes "in") tt Second (pl s))) (<[1%nat := ("t", Written)]> (reqs s)) (touch s) s.
Definition spawn (s : sysd) : sysd := with_workers (pl s) (delete 1%nat (reqs s)) (<[1%nat := "t"]> (workers s)) (late s) s.
Definition exit_ (s : sysd) : sysd :=
  with_workers (worker_exit (open_ s) "t" (Some resp) (2 * Second) (pl s)) (reqs s) (delete 1%nat (workers s)) (touch s) s.

Definition signal (s : sysd) : sysd := with_main (pl s) (db s) (accepting s) true MProxy (timedOut s) s.
Definition proxy_down (s : sysd) : sysd := with_main (pl s) (db s) false (ctxDone s) MApi (timedOut s) s.
Definition api_down (t : bool) (s : sysd) : sysd :=
  with_main (Shutdown_cancel (pl s)) (db s) (accepting s) (ctxDone s) MPool (timedOut s || t) s.
Definition pool_down (s : sysd) : sysd := with_main (pl s) (db s) (accepting s) (ctxDone s) MJoinGC (timedOut s || false) s.
Definition gc_exit (s : sysd) : sysd := with_gc (store (pl s)) GExited (late s) s.
Definition gc_joined (s : sysd) : sysd := with_main (pl s) (db s) (accepting s) (ctxDone s) MClose (timedOut s || false) s.
Definition closed (s : sysd) : sysd := with_main (pl s) (snd (Close true (db s))) (accepting s) (ctxDone s) MDone (timedOut s) s.

(** The job ends before the signal; or its body is still being read when the wait for
    the API's requests runs out. *)
Definition clean : sysd := closed (gc_joined (gc_exit (pool_down (api_down false (proxy_down (signal (exit_ (spawn (write s4))))))))).
Definition hurried : sysd := gc_joined (gc_exit (pool_down (api_down true (proxy_down (signal s4))))).
Definition lost : sysd := exit_ (closed (spawn (write hurried))).

Lemma s0_init : init s0.
Proof.
  exists ∅, 1%nat. split_and!; [done | |].
  - intros k v Hk. unfold bget in Hk; cbn in Hk. by destruct (bad_key k).
  - intros k r Hk. unfold rec_at, bget in Hk; cbn in Hk. by destruct (bad_key k).
Qed.

Lemma reach_s4 : reachable init (step g) s4.
Proof.
  exists s0. split; [exact s0_init |].
  eapply (rtc_l _ _ (nth 0 (pass 0 s0) s0)); [apply (j_pass g s0 0); by left |].
  eapply (rtc_l _ _ (nth 1 (pass 0 s0) s0)); [by apply (j_timeouts g (nth 0 (pass 0 s0) s0) 0) |].
  eapply (rtc_l _ _ (nth 2 (pass 0 s0) s0)); [by apply (j_completes g (nth 1 (pass 0 s0) s0) 0) |].
  eapply (rtc_l _ _ s1); [by apply (j_tombstones g (nth 2 (pass 0 s0) s0) 0) |].
  eapply (rtc_l _ _ s2); [by apply (j_request g s1 1 "t") |].
  eapply (rtc_l _ _ s3); [by apply (j_check g s2 1 "t") |].
  eapply (rtc_l _ _ s4); [by apply (j_claim g s3 1 "t"); vm_compute | apply rtc_refl].
Qed.

(** The steps of the two shutdowns. *)
Lemma write_step s : reqs s !! 1%nat = Some ("t", Claimed) -> open_ s = true ->
  fst (submit_start true "t" (Bytes "in") tt Second (pl s)) = Ok (mkFresh tt (Some "in") 2) -> step g s (write s).
Proof.
  intros Hr Ho Hs. unfold write. destruct (submit_start true "t" (Bytes "in") tt Second (pl s)) as [r p'] eqn:E. cbn in Hs. subst r.
  eapply (j_write g s 1 "t" (Bytes "in") Second p'); [done | by vm_compute | by rewrite Ho].
Qed.

Lemma reach_clean : reachable init (step g) clean.
Proof.
  destruct reach_s4 as (s & Hi & Hr). exists s. split; [done |]. etrans; [exact Hr |].
  eapply (rtc_l _ _ (write s4)); [apply write_step; vm_compute; reflexivity |].
  eapply (rtc_l _ _ (spawn (write s4))); [apply (j_spawn g (write s4) 1 "t"); vm_compute; reflexivity |].
  set (a := spawn (write s4)).
  eapply (rtc_l _ _ (exit_ a)); [apply (j_exit g a 1 "t" (Some resp)); by vm_compute |]. set (b := exit_ a).
  eapply (rtc_l _ _ (signal b)); [by apply (j_signal g b) |].
  eapply (rtc_l _ _ (proxy_down (signal b))); [by apply (j_proxy_down g (signal b)) |].
  eapply (rtc_l _ _ (api_down false (proxy_down (signal b)))); [by apply (j_api_down g (proxy_down (signal b)) false) |].
  set (c := api_down false (proxy_down (signal b))).
  eapply (rtc_l _ _ (pool_down c)); [by apply (j_pool_down g c false) |].
  eapply (rtc_l _ _ (gc_exit (pool_down c))); [by apply (j_gc_exit g (pool_down c)) |].
  eapply (rtc_l _ _ (gc_joined (gc_exit (pool_down c)))); [by apply (j_gc_joined g (gc_exit (pool_down c)) false) |].
  eapply (rtc_l _ _ clean); [by apply (j_close g (gc_joined (gc_exit (pool_down c))) true) | apply rtc_refl].
Qed.

Lemma reach_hurried : reachable init (step g) hurried.
Proof.
  destruct reach_s4 as (s & Hi & Hr). exists s. split; [done |]. etrans; [exact Hr |].
  eapply (rtc_l _ _ (signal s4)); [by apply (j_signal g s4) |].
  eapply (rtc_l _ _ (proxy_down (signal s4))); [by apply (j_proxy_down g (signal s4)) |].
  eapply (rtc_l _ _ (api_down true (proxy_down (signal s4)))); [by apply (j_api_down g (proxy_down (signal s4)) true) |].
  set (c := api_down true (proxy_down (signal s4))).
  eapply (rtc_l _ _ (pool_down c)); [by apply (j_pool_down g c false) |].
  eapply (rtc_l _ _ (gc_exit (pool_down c))); [by apply (j_gc_exit g (pool_down c)) |].
  eapply (rtc_l _ _ hurried); [by apply (j_gc_joined g (gc_exit (pool_down c)) false) | apply rtc_refl].
Qed.
End LifeDemo.
Import LifeDemo.

Lemma clean_shutdown_witness :
  main clean = MDone /\ Status_ <$> rec_at (store (pl clean)) "t" = Some StatusCompleted /\ late clean = false
  /\ workers clean = ∅.
Proof.
  destruct (clean_shutdown g clean reach_clean ltac:(by vm_compute)) as [Hl Hd].
  split; [reflexivity |]. split; [vm_compute; reflexivity |]. split; [exact Hl |]. exact (proj1 (proj2 (Hd eq_refl))).
Defined.

(** [Pool.Shutdown] does not wait for a worker that is not counted yet.  A request that is
    still reading its body when the wait for the API's requests runs out writes its record
    and starts its worker after [Shutdown] has returned without an error; the worker ends
    on the closed store, and the record stays pending. *)
Theorem late_worker :
  exists s1 s2, reachable init (step g) s1 /\ rtc (step g) s1 s2
    /\ main s1 = MClose /\ workers s1 = ∅ /\ cancelled (pl s1) = true
    /\ main s2 = MDone /\ late s2 = true /\ Status_ <$> rec_at (store (pl s2)) "t" = Some StatusPending.
Proof.
  exists hurried, lost. split; [apply reach_hurried |]. split.
  - eapply (rtc_l _ _ (write hurried)); [apply write_step; vm_compute; reflexivity |].
    eapply (rtc_l _ _ (spawn (write hurried))); [apply (j_spawn g (write hurried) 1 "t"); vm_compute; reflexivity |].
    set (a := spawn (write hurried)).
    eapply (rtc_l _ _ (closed a)); [by apply (j_close g a true) |].
    eapply (rtc_l _ _ lost); [apply (j_exit g (closed a) 1 "t" (Some resp)); by vm_compute | apply rtc_refl].
  - split_and!; vm_compute; reflexivity.
Qed.

(** The collector's timeout ends a record, not its job: the worker keeps its slot until the
    upstream is done with it (nothing bounds that time, as the request of a job has no
    deadline of its own), and with all slots taken so every new tag is refused. *)
Theorem timed_out_keeps_slot :
  exists s, reachable init (step g) s
    /\ Status_ <$> rec_at (store (pl s)) "t" = Some StatusFailedTimeout
    /\ workers s = {[ 1%nat := "t" ]} /\ slots (pl s) = maxConcurrent (pl s)
    /\ submit_get true "u" (pl s) = (Ok (Some OutcomeQueueFull), pl s).
Proof.
  set (a := spawn (write s4)). set (t := 20 * Second). exists (last_of (pass t a) a). split.
  - destruct reach_s4 as (s & Hi & Hr). exists s. split; [done |]. etrans; [exact Hr |].
    eapply (rtc_l _ _ (write s4)); [apply write_step; vm_compute; reflexivity |].
    eapply (rtc_l _ _ a); [apply (j_spawn g (write s4) 1 "t"); vm_compute; reflexivity |].
    eapply (rtc_l _ _ (nth 0 (pass t a) a)); [apply (j_pass g a t); by right |].
    eapply (rtc_l _ _ (nth 1 (pass t a) a)); [by apply (j_timeouts g (nth 0 (pass t a) a) t) |].
    eapply (rtc_l _ _ (nth 2 (pass t a) a)); [by apply (j_completes g (nth 1 (pass t a) a) t) |].
    eapply (rtc_l _ _ (nth 3 (pass t a) a)); [by apply (j_tombstones g (nth 2 (pass t a) a) t) | apply rtc_refl].
  - split_and!; vm_compute; reflexivity.
Qed.
