(* ===== verification/JobSpec.v ===== *)
(** * What the async jobs promise, tag by tag

    [life] is the contract of one tag as a client sees it: unknown, running, answered,
    gone, unknown again, with the times that must pass in between (the state machine of
    [docs/operator-async.md]: pending, then completed, failed or failed_timeout, then
    tombstone, then deleted).  [JobLife.step] (the
    requests, the workers, the collector and the shutdown on one database of JSON texts)
    refines it for every tag, as long as two requests never hold a claim on that tag at
    the same time ([submit_race] in [AsyncPool] shows why this is needed: the second write
    would take an answered tag back to running). *)

From S2P Require Import Prelude GoStrings GoJson Domain Base64 AsyncRecord AsyncStore AsyncJobs AsyncThms AsyncPool JobLife.
Import AsyncRecord AsyncStore AsyncJobs JobLife.

(** ** The contract *)

Module JobSpec.

(** A tag; [st] tells the worker's answer, its failure and the collector's timeout apart. *)
Inductive phase :=
| Unknown
| Running (since : Z)
| Answered (st : Status) (a : UpstreamResponse) (since : Z)
| Gone (since : Z).

(** Times are kept to the second. *)
Definition sec (now : Z) : Z := fromUnix (Unix now).

Inductive life (g : GCConfig) : phase -> phase -> Prop :=
| l_submit now : life g Unknown (Running (sec now))
| l_finish t now u : life g (Running t) (Answered StatusCompleted (stored_response u) (sec now))
| l_fail t now : life g (Running t) (Answered StatusFailed synthetic_502 (sec now))
| l_timeout t now :
    pendingTimeout g < Sub now t -> life g (Running t) (Answered StatusFailedTimeout zero_response (sec now))
| l_evict st a t now : completeTTL g < Sub now t -> life g (Answered st a t) (Gone (sec now))
| l_forget t now : tombstoneTTL g < Sub now t -> life g (Gone t) Unknown.

(** What [SubmitOrFetch] answers for a known tag. *)
Definition outcome (p : phase) : option Outcome :=
  match p with
  | Unknown => None
  | Running _ => Some OutcomePending
  | Answered _ a _ => Some (OutcomeCompleted a)
  | Gone _ => Some OutcomeTombstoned
  end.

(** ** The refinement mapping *)

Definition phase_of (r : Record_) : phase :=
  if has_status StatusPending r then Running (UpdatedAt r)
  else if has_status StatusTombstone r then Gone (EvictedAt r)
  else Answered (Status_ r) (default zero_response (Response r)) (UpdatedAt r).

Section System.
Context `{Bolt B} (g : GCConfig).

Definition phase_at (s : @sys B) (k : string) : phase := default Unknown (phase_of <$> rec_at (store (pl s)) k).

(** At most one request has found the tag unknown and not yet written its record. *)
Definition claims (s : @sys B) (k : string) (id : nat) : Prop := reqs s !! id = Some (k, Claimed).
Definition single (k : string) (s : @sys B) : Prop := forall i j, claims s k i -> claims s k j -> i = j.

Definition ustep (k : string) (s s' : @sys B) : Prop := step g s s' /\ single k s'.
End System.
End JobSpec.
Import JobSpec.

Section Refinement.
Context `{Bolt B} (g : GCConfig).
Notation sys := (@sys B).
Implicit Types s : sys.

Definition moves (p p' : phase) : Prop := p = p' \/ life g p p'.

(** Every text is a record; a pending one has no response yet; who holds a claim on the
    tag found it unknown, and it still is. *)
Record good (k : string) (b : B) (m : gmap nat (string * point)) : Prop := mk_good {
  g_intact : intact b;
  g_pending : forall r, rec_at b k = Some r -> Status_ r = StatusPending -> Response r = None;
  g_claim : forall id, m !! id = Some (k, Claimed) -> rec_at b k = None
}.

Lemma sec_evicted now : (if IsZero now then time_zero else fromUnix (Unix now)) = sec now.
Proof. unfold IsZero, sec. destruct (Z.eqb_spec now time_zero) as [->|]; [by vm_compute | done]. Qed.

(** A batch of the collector, record by record. *)
Lemma good_transition k b m io f mu :
  good k b m -> (forall r, storable r -> storable (mu r)) ->
  (forall r, f r = true -> Status_ (mu r) <> StatusPending) ->
  let b' := snd (runBatchTransition io f mu b) in
  good k b' m /\ (rec_at b' k = rec_at b k
    \/ exists r, rec_at b k = Some r /\ f r = true /\ rec_at b' k = Some (stored (mu r))).
Proof.
  intros Hg Hst Hp. destruct io; cbn zeta; [| rewrite transition_closed; by auto]. unfold runBatchTransition.
  destruct (BatchTransition_spec b f mu (g_intact _ _ _ Hg) Hst) as (n & b' & -> & Hi & Hr). cbn [snd]. specialize (Hr k).
  destruct (rec_at b k) as [r|] eqn:E; cbn in Hr; [destruct (f r) eqn:Ef |]; (split; [split; [done | |] |]); rewrite ?Hr; eauto 6.
  - intros r' [= <-] Hs. by destruct (Hp r Ef).
  - intros id Hc. rewrite (g_claim _ _ _ Hg id Hc) in E. done.
  - intros r' [= <-]. by apply (g_pending _ _ _ Hg).
  - intros id Hc. rewrite (g_claim _ _ _ Hg id Hc) in E. done.
  - done.
Qed.

Lemma good_delete k b m io f :
  good k b m ->
  let b' := snd (runBatchDelete io f b) in
  good k b' m /\ (rec_at b' k = rec_at b k \/ exists r, rec_at b k = Some r /\ f r = true /\ rec_at b' k = None).
Proof.
  intros Hg. destruct io; cbn zeta; [| rewrite delete_closed; by auto]. unfold runBatchDelete.
  destruct (BatchDelete_spec b f (g_intact _ _ _ Hg)) as (n & b' & -> & Hi & Hr). cbn [snd]. specialize (Hr k).
  destruct (rec_at b k) as [r|] eqn:E; cbn in Hr; [destruct (f r) eqn:Ef |]; (split; [split; [done | |] |]); rewrite ?Hr; eauto 6; try done.
  - intros r' [= <-]. by apply (g_pending _ _ _ Hg).
  - intros id Hc. rewrite (g_claim _ _ _ Hg id Hc) in E. done.
Qed.

(** The three batches are the contract's [l_timeout], [l_evict] and [l_forget]. *)
Lemma timeout_moves k b m r now :
  good k b m -> rec_at b k = Some r -> timeout_filter g now r = true ->
  life g (phase_of r) (phase_of (stored (timeout_mutate now r))).
Proof.
  intros Hg Hr Hf. unfold timeout_filter in Hf. apply andb_true_iff in Hf as [Hs Ht%Z.ltb_lt]. unfold phase_of at 1. rewrite Hs.
  apply has_status_eq in Hs. pose proof (g_pending _ _ _ Hg r Hr Hs) as Hn. unfold phase_of. cbn. rewrite Hn. cbn. by constructor.
Qed.

Lemma complete_moves r now :
  complete_filter g now r = true -> life g (phase_of r) (phase_of (stored (tombstone_mutate now r))).
Proof.
  unfold complete_filter. intros [Hs Ht%Z.ltb_lt]%andb_true_iff.
  assert (phase_of r = Answered (Status_ r) (default zero_response (Response r)) (UpdatedAt r)) as ->.
  { unfold phase_of, has_status in *. apply orb_true_iff in Hs as [[Hs|Hs]%orb_true_iff|Hs]; apply String.eqb_eq in Hs; by rewrite Hs. }
  unfold phase_of. cbn. rewrite sec_evicted. by constructor.
Qed.

Lemma tombstone_moves r now : tombstone_filter g now r = true -> life g (phase_of r) Unknown.
Proof.
  unfold tombstone_filter. intros [Hs Ht%Z.ltb_lt]%andb_true_iff. unfold phase_of, has_status in *.
  apply String.eqb_eq in Hs. rewrite Hs. cbn. by econstructor.
Qed.

(** A worker's compare-and-swap. *)
Lemma worker_moves k b m io tag fwd now :
  good k b m -> in_int64 (Unix now) -> in_int64 (StatusCode (result_of fwd)) ->
  let b' := runWorker io tag fwd now b in
  good k b' m /\ moves (default Unknown (phase_of <$> rec_at b k)) (default Unknown (phase_of <$> rec_at b' k)).
Proof.
  intros Hg Hn Hc. destruct io; cbn zeta.
  2:{ unfold runWorker, CompareAndSwapStatus. rewrite Update_closed. split; [done | by left]. }
  destruct (runWorker_spec b tag fwd now (g_intact _ _ _ Hg) Hn Hc) as [Hi Hr]. specialize (Hr k).
  assert (rec_at b k = None -> rec_at (runWorker true tag fwd now b) k = None) as Hnone.
  { intros E. rewrite Hr, E. by destruct (String.eqb tag k). }
  split.
  - split; [done | |].
    + intros r. rewrite Hr. destruct (String.eqb tag k); [| apply (g_pending _ _ _ Hg)].
      destruct (rec_at b k) as [r0|] eqn:E; [| done]. cbn. destruct (has_status StatusPending r0) eqn:Es.
      * intros [= <-]. by destruct fwd.
      * intros [= <-] Hs. by rewrite (proj2 (has_status_eq StatusPending r0) Hs) in Es.
    + intros id Hid. by apply Hnone, (g_claim _ _ _ Hg id).
  - rewrite Hr. destruct (String.eqb tag k); [| by left]. destruct (rec_at b k) as [r|]; [| by left]. cbn.
    destruct (has_status StatusPending r) eqn:Es; [| by left]. right. unfold phase_of at 1. rewrite Es. destruct fwd as [u|].
    + apply (l_finish g _ now u).
    + apply (l_fail g _ now).
Qed.

(** The record a request writes under its claim. *)
Lemma write_moves k b m id tag rd now (p p' : @pool B) io (req : @freshRequest unit) :
  store p = b -> good k b m -> m !! id = Some (tag, Claimed) -> (forall j, m !! j = Some (k, Claimed) -> tag = k -> j = id) ->
  in_int64 (Unix now) -> submit_start io tag rd tt now p = (Ok req, p') ->
  good k (store p') (<[id := (tag, Written)]> m)
  /\ moves (default Unknown (phase_of <$> rec_at b k)) (default Unknown (phase_of <$> rec_at (store p') k)).
Proof.
  intros <- Hg Hid Hone Hn Hs. unfold submit_start in Hs. destruct (drainBody rd) as [|body]; [done |].
  destruct (Put io (store p) tag (NewPendingRecord tag now)) as [[|[]] b1] eqn:Hp; [done |]. injection Hs as _ <-. cbn [store set_store].
  destruct io; [| exfalso; unfold Put, Update in Hp; repeat case_match; congruence].
  assert (storable (NewPendingRecord tag now)) as Hst by (split; [unfold representable; cbn; by split_and! | done]).
  destruct (Put_spec _ _ _ _ Hst Hp) as [Hr Hi]. specialize (Hr k). destruct (String.eqb_spec tag k) as [->|Hne].
  - rewrite (g_claim _ _ _ Hg id Hid), Hr. split; [split |].
    + by apply Hi, Hg.
    + intros r. rewrite Hr. by intros [= <-].
    + intros j. rewrite lookup_insert_Some. intros [[_ ?]|[Hj Hc]]; [done |]. destruct Hj. symmetry. by apply Hone.
    + right. cbn. apply l_submit.
  - rewrite Hr. split; [split |]; [by apply Hi, Hg | intros r; rewrite Hr; apply (g_pending _ _ _ Hg) | | by left].
    intros j. rewrite lookup_insert_Some, Hr. intros [[_ [=]]|[_ Hc]]. by apply (g_claim _ _ _ Hg j).
Qed.

(** Steps that leave the texts alone. *)
Lemma good_reqs k b m m' :
  good k b m -> (forall id, m' !! id = Some (k, Claimed) -> m !! id = Some (k, Claimed) \/ rec_at b k = None) -> good k b m'.
Proof. intros [H1 H2 H3] Hm. split; [done | done |]. intros id Hc. destruct (Hm id Hc); eauto. Qed.

Lemma good_insert k b m id x : good k b m -> x <> (k, Claimed) -> good k b (<[id := x]> m).
Proof.
  intros Hg Hx. eapply good_reqs; [exact Hg |]. intros j. rewrite lookup_insert_Some. intros [[_ ?]|[_ ?]]; [done | by left].
Qed.

Lemma good_remove k b m id : good k b m -> good k b (delete id m).
Proof. intros Hg. eapply good_reqs; [exact Hg |]. intros j. rewrite lookup_delete_Some. intros [_ ?]. by left. Qed.

(** The lookup of a request: it claims only an unknown tag. *)
Lemma claim_unknown io tag (p p' : @pool B) :
  intact (store p) -> submit_get io tag p = (Ok None, p') -> rec_at (store p) tag = None.
Proof.
  intros Hi. unfold submit_get. destruct io; [| done]. rewrite (Get_spec _ tag Hi). by destruct (rec_at (store p) tag).
Qed.

Definition fine (k : string) (s : sys) : Prop := good k (store (pl s)) (reqs s).

(** Only requests and the collector's batches take a step of the contract. *)
Lemma batch_moves k s b' x l :
  good k b' (reqs s) /\ (rec_at b' k = rec_at (store (pl s)) k
    \/ exists r, rec_at (store (pl s)) k = Some r /\ life g (phase_of r) (default Unknown (phase_of <$> rec_at b' k))) ->
  fine k (with_gc b' x l s) /\ moves (phase_at s k) (phase_at (with_gc b' x l s) k).
Proof.
  intros [Hg Hr]. split; [exact Hg |]. unfold phase_at. cbn [with_gc pl store set_store].
  destruct Hr as [-> |(r & -> & Hl)]; [by left | by right].
Qed.

Lemma same_moves k s s' :
  fine k s' -> store (pl s') = store (pl s) -> fine k s' /\ moves (phase_at s k) (phase_at s' k).
Proof. intros Hf E. split; [done |]. left. unfold phase_at. by rewrite E. Qed.

Lemma timeouts_step k s now x l :
  fine k s -> in_int64 (Unix now) ->
  let s' := with_gc (snd (runBatchTransition (open_ s) (timeout_filter g now) (timeout_mutate now) (store (pl s)))) x l s in
  fine k s' /\ moves (phase_at s k) (phase_at s' k).
Proof.
  intros Hf Hn. apply batch_moves.
  destruct (good_transition k _ _ (open_ s) (timeout_filter g now) (timeout_mutate now) Hf) as [Hg Hr];
    [intros r; by apply timeout_storable | done |]. split; [exact Hg |].
  destruct Hr as [Hr|(r & Hr & Ht & E)]; [by left |]. right. exists r. rewrite E. split; [done |]. exact (timeout_moves _ _ _ _ _ Hf Hr Ht).
Qed.

Lemma completes_step k s now x l :
  fine k s -> in_int64 (Unix now) ->
  let s' := with_gc (snd (runBatchTransition (open_ s) (complete_filter g now) (tombstone_mutate now) (store (pl s)))) x l s in
  fine k s' /\ moves (phase_at s k) (phase_at s' k).
Proof.
  intros Hf Hn. apply batch_moves.
  destruct (good_transition k _ _ (open_ s) (complete_filter g now) (tombstone_mutate now) Hf) as [Hg Hr];
    [intros r; by apply tombstone_storable | done |]. split; [exact Hg |].
  destruct Hr as [Hr|(r & Hr & Ht & E)]; [by left |]. right. exists r. rewrite E. split; [done |]. exact (complete_moves _ _ Ht).
Qed.

Lemma tombstones_step k s now x l :
  fine k s ->
  let s' := with_gc (snd (runBatchDelete (open_ s) (tombstone_filter g now) (store (pl s)))) x l s in
  fine k s' /\ moves (phase_at s k) (phase_at s' k).
Proof.
  intros Hf. apply batch_moves.
  destruct (good_delete k _ _ (open_ s) (tombstone_filter g now) Hf) as [Hg Hr]. split; [exact Hg |].
  destruct Hr as [Hr|(r & Hr & Ht & E)]; [by left |]. right. exists r. rewrite E. split; [done |]. exact (tombstone_moves _ _ Ht).
Qed.

Lemma life_step k s s' : single k s -> fine k s -> step g s s' -> fine k s' /\ moves (phase_at s k) (phase_at s' k).
Proof.
  intros H1 Hf Hs.
  destruct Hs as [id tag Ha Hr Hw|id Ha Hr Hw|id tag Hr|id tag Hr Hc|id tag Hr Hc|id tag p' Hr Hg|id tag r p' Hr Hg Hne
    |id tag rd now p' req Hr Hn Hst|id tag rd now p' e Hr Hst|id tag Hr Hwn|id tag fwd now Hw Hn Hc
    |now Hg|now Hg Hn|now Hg Hn|now Hg|Hg Hd|Hm|Hm|t Hm Hw|t Hm Hw|t Hm Hw|ok Hm].
  - apply same_moves; [by apply good_insert | done].
  - apply same_moves; [by apply good_insert | done].
  - apply same_moves; [by apply good_remove | done].
  - apply same_moves; [by apply good_remove | done].
  - apply same_moves; [by apply good_insert | done].
  - pose proof (submit_get_store _ _ _ _ _ Hg) as E. apply same_moves; [| exact E]. unfold fine. cbn [with_req pl reqs]. rewrite E.
    apply claim_unknown in Hg; [| exact (g_intact _ _ _ Hf)].
    eapply good_reqs; [exact Hf |]. intros j. rewrite lookup_insert_Some. intros [[_ [= ->]]|[_ ?]]; [by right | by left].
  - pose proof (submit_get_store _ _ _ _ _ Hg) as E. apply same_moves; [| exact E]. unfold fine. cbn [with_req pl reqs]. rewrite E.
    by apply good_remove.
  - eapply write_moves; [done | exact Hf | exact Hr | | exact Hn | exact Hst]. intros j Hj ->. by apply H1.
  - pose proof (write_fails_store _ _ _ _ _ _ _ Hst) as E. apply same_moves; [| exact E]. unfold fine. cbn [with_req pl reqs]. rewrite E.
    by apply good_remove.
  - apply same_moves; [by apply good_remove | done].
  - by apply (worker_moves k _ (reqs s)).
  - by apply same_moves.
  - by apply timeouts_step.
  - by apply completes_step.
  - by apply tombstones_step.
  - by apply same_moves.
  - by apply same_moves.
  - by apply same_moves.
  - by apply same_moves.
  - by apply same_moves.
  - by apply same_moves.
  - by apply same_moves.
Qed.

Lemma fine_reachable k s : reachable init (ustep g k) s -> fine k s /\ single k s.
Proof.
  revert s. apply (reachable_invariant init (ustep g k) (fun s => fine k s /\ single k s)).
  - intros s (b & n & -> & Hi & Hp). split; [split |].
    + exact Hi.
    + intros r Hr Hs. by destruct (Hp k r Hr).
    + intros id Hid. cbn in Hid. by rewrite lookup_empty in Hid.
    + intros i j Hc. unfold claims in Hc. cbn in Hc. by rewrite lookup_empty in Hc.
  - intros s s' _ [Hf H1] [Hs Hs']. split; [| done]. by destruct (life_step k s s' H1 Hf Hs).
Qed.

Lemma fine_rtc k s s' : reachable init (ustep g k) s -> rtc (ustep g k) s s' -> rtc (life g) (phase_at s k) (phase_at s' k).
Proof.
  intros Hr Hs. induction Hs as [s|s s1 s' Hs Hs' IH]; [done |]. destruct (fine_reachable k s Hr) as [Hf H1].
  assert (reachable init (ustep g k) s1) as Hr1 by (by eapply reachable_step). specialize (IH Hr1).
  destruct (life_step k s s1 H1 Hf (proj1 Hs)) as [_ [-> |Hl]]; [done |]. by eapply rtc_l.
Qed.

(** The lookup of [SubmitOrFetch] tells the phase. *)
Lemma lookup_phase k s :
  fine k s -> open_ s = true ->
  fst (submit_get (open_ s) k (pl s)) = Ok (match outcome (phase_at s k) with
    | Some o => Some o
    | None => if Nat.ltb (slots (pl s)) (maxConcurrent (pl s)) then None else Some OutcomeQueueFull
    end).
Proof.
  intros Hf ->. unfold submit_get, phase_at. rewrite (Get_spec _ k (g_intact _ _ _ Hf)).
  destruct (rec_at (store (pl s)) k) as [r|] eqn:E; cbn [fmap option_fmap option_map default from_option]; [| by destruct (Nat.ltb _ _)].
  unfold outcomeForRecord, phase_of. destruct (has_status StatusPending r) eqn:Ep; [done |]. destruct (has_status StatusTombstone r) eqn:Et.
  - apply has_status_eq in Et. unfold has_status. by rewrite Et.
  - destruct (rec_at_storable _ _ _ E) as [[_ Hv] _]. unfold validateStatus in Hv. unfold has_status in *. cbn.
    destruct (String.eqb_spec (Status_ r) StatusPending) as [|_]; [done |].
    destruct (String.eqb_spec (Status_ r) StatusTombstone) as [|_]; [done |].
    by destruct (String.eqb (Status_ r) StatusCompleted), (String.eqb (Status_ r) StatusFailed), (String.eqb (Status_ r) StatusFailedTimeout).
Qed.

(** C14: Refinement.  The jobs keep the contract of every tag: in every interleaving of
    requests, workers, the collector and the shutdown in which two requests never hold a
    claim on the tag at once, each step leaves the tag's phase alone or is a transition of
    [life], from unknown over running and answered to gone, no earlier than the configured
    times; so a run of the system is a run of the contract, and a lookup answers with the
    phase. *)
Theorem jobs_refine_life k s s' :
  reachable init (ustep g k) s ->
  (ustep g k s s' -> phase_at s k = phase_at s' k \/ life g (phase_at s k) (phase_at s' k))
  /\ (rtc (ustep g k) s s' -> rtc (life g) (phase_at s k) (phase_at s' k))
  /\ (open_ s = true ->
      fst (submit_get (open_ s) k (pl s)) = Ok (match outcome (phase_at s k) with
        | Some o => Some o
        | None => if Nat.ltb (slots (pl s)) (maxConcurrent (pl s)) then None else Some OutcomeQueueFull
        end)).
Proof.
  intros Hr. destruct (fine_reachable k s Hr) as [Hf H1]. split_and!.
  - intros [Hs _]. by destruct (life_step k s s' H1 Hf Hs).
  - by apply fine_rtc.
  - by apply lookup_phase.
Qed.

(** An answer that was fetched once is the answer of every later fetch, until the
    collector takes it away; that is no earlier than [completeTTL] after the job ended. *)
Theorem answer_kept k s s' st a t :
  reachable init (ustep g k) s -> phase_at s k = Answered st a t -> rtc (ustep g k) s s' ->
  phase_at s' k = Answered st a t
  \/ exists now, completeTTL g < Sub now t /\ rtc (life g) (Gone (sec now)) (phase_at s' k).
Proof.
  intros Hr Hp Hs. pose proof (fine_rtc k s s' Hr Hs) as Hl. rewrite Hp in Hl.
  apply rtc_inv in Hl as [<-|(p & Hl & Hrest)]; [by left |]. right.
  inversion Hl; subst. eauto.
Qed.

(** The window in which a tag is not reused.  Where a tag that was answered at [t] is found
    unknown later, the collector has run later than [t] and both lifetimes, less the second
    to which times are kept. *)
Theorem idempotency_window k s s' st a t :
  0 <= completeTTL g -> 0 <= tombstoneTTL g ->
  reachable init (ustep g k) s -> phase_at s k = Answered st a t -> rtc (ustep g k) s s' -> phase_at s' k = Unknown ->
  exists now, t + completeTTL g + tombstoneTTL g - Second < now.
Proof.
  intros Hc Ht Hr Hp Hs Hu. pose proof (fine_rtc k s s' Hr Hs) as Hl. rewrite Hp, Hu in Hl.
  apply rtc_inv in Hl as [E|(p1 & Hl1 & Hl)]; [done |]. inversion Hl1 as [| | | |? ? ? now1 H1|]; subst.
  apply rtc_inv in Hl as [E|(p2 & Hl2 & _)]; [done |]. inversion Hl2 as [| | | | |? now2 H2]; subst. exists now2.
  pose proof (fromUnix_Unix_gt now1). unfold sec, Sub, int64_min, int64_max in *. lia.
Qed.
End Refinement.

(** ** A job that is answered *)

Lemma single_size `{Bolt B} k (s : @sys B) : (size (reqs s) <= 1)%nat -> single k s.
Proof.
  intros Hs i j Hi Hj. destruct (decide (i = j)) as [|Hne]; [done |]. unfold claims in *.
  rewrite <- (insert_delete_id (reqs s) i _ Hi), map_size_insert_None in Hs by apply lookup_delete_eq.
  assert (delete i (reqs s) = ∅) as He by (apply map_size_empty_inv; lia).
  assert (delete i (reqs s) !! j = Some (k, Claimed)) as Hj' by (by rewrite lookup_delete_ne). by rewrite He, lookup_empty in Hj'.
Qed.

Module SpecDemo.
Import LifeDemo.
Definition written : sysd := write s4.
Definition answered : sysd := exit_ (spawn written).

Ltac next s' tac := eapply (rtc_l _ _ s'); [split; [tac | apply single_size; vm_compute; lia] |].

Lemma reach_written : reachable init (ustep g "t") written.
Proof.
  exists s0. split; [exact s0_init |].
  next (nth 0 (pass 0 s0) s0) ltac:(apply (j_pass g s0 0); by left).
  next (nth 1 (pass 0 s0) s0) ltac:(by apply (j_timeouts g (nth 0 (pass 0 s0) s0) 0)).
  next (nth 2 (pass 0 s0) s0) ltac:(by apply (j_completes g (nth 1 (pass 0 s0) s0) 0)).
  next s1 ltac:(by apply (j_tombstones g (nth 2 (pass 0 s0) s0) 0)).
  next s2 ltac:(by apply (j_request g s1 1 "t")).
  next s3 ltac:(by apply (j_check g s2 1 "t")).
  next s4 ltac:(apply (j_claim g s3 1 "t"); by vm_compute).
  next written ltac:(apply write_step; vm_compute; reflexivity).
  apply rtc_refl.
Qed.

Lemma written_answered : rtc (ustep g "t") written answered.
Proof.
  next (spawn written) ltac:(apply (j_spawn g written 1 "t"); vm_compute; reflexivity).
  next answered ltac:(apply (j_exit g (spawn written) 1 "t" (Some resp)); by vm_compute).
  apply rtc_refl.
Qed.
End SpecDemo.
Import SpecDemo.

Lemma jobs_refine_life_witness :
  phase_at written "t" = Running Second /\ phase_at answered "t" = Answered StatusCompleted LifeDemo.resp (2 * Second)
  /\ rtc (life LifeDemo.g) (phase_at written "t") (phase_at answered "t")
  /\ fst (submit_get (open_ written) "t" (pl written)) = Ok (Some OutcomePending).
Proof.
  destruct (jobs_refine_life LifeDemo.g "t" written answered reach_written) as (_ & Hr & Hl).
  split; [vm_compute; reflexivity |]. split; [vm_compute; reflexivity |]. split; [exact (Hr written_answered) |].
  rewrite Hl by (vm_compute; reflexivity). vm_compute. reflexivity.
Defined.

Lemma answer_kept_witness : phase_at answered "t" = Answered StatusCompleted LifeDemo.resp (2 * Second).
Proof.
  destruct reach_written as (s & Hi & Hs).
  destruct (answer_kept LifeDemo.g "t" answered answered StatusCompleted LifeDemo.resp (2 * Second)) as [Hp|(now & _ & _)];
    [exists s; split; [exact Hi |]; etrans; [exact Hs | exact written_answered] | vm_compute; reflexivity | apply rtc_refl | exact Hp |].
  vm_compute. reflexivity.
Defined.
