(* ===== verification/Http.v ===== *)
(** * The parts of [net/http], [net/textproto], [net] and [net/netip] the handlers use

    Header maps with their canonical keys, host:port splitting, and IP addresses
    with prefixes.  The text syntax of IP addresses ([netip.ParseAddr] and
    [Addr.String]) is the class [AddrText] with the law the deny list relies on. *)

From S2P Require Import Prelude GoStrings GoText Domain.

(** ** Header keys ([textproto.CanonicalMIMEHeaderKey]) *)

Definition upper_byte (c : ascii) : ascii :=
  if is_lower c then Ascii.ascii_of_nat (code c - 32) else c.

(** The token characters of RFC 7230. *)
Definition validHeaderFieldByte (c : ascii) : bool :=
  is_upper c || is_lower c || is_digit c
  || Contains "!#$%&'*+-.^_`|~" c.

Fixpoint canonical_go (upper : bool) (s : string) : string :=
  match s with
  | "" => ""
  | String c s' =>
      let c' := if upper then upper_byte c else lower_byte c in
      String c' (canonical_go (Ascii.eqb c "-") s')
  end.

(** A key with a byte that is not allowed is left as it is. *)
Definition CanonicalMIMEHeaderKey (s : string) : string :=
  if string_forallb validHeaderFieldByte s then canonical_go true s else s.

(** ** Header maps *)

Notation header := (gmap string (list string)).

Definition Header_Get (h : header) (key : string) : string :=
  match h !! CanonicalMIMEHeaderKey key with
  | Some (v :: _) => v
  | _ => ""
  end.
Definition Header_Set (key v : string) (h : header) : header :=
  <[CanonicalMIMEHeaderKey key := [v]]> h.
Definition Header_Add (key v : string) (h : header) : header :=
  let k := CanonicalMIMEHeaderKey key in <[k := default [] (h !! k) ++ [v]]> h.
Definition Header_Del (key : string) (h : header) : header := delete (CanonicalMIMEHeaderKey key) h.

(** Adding a list of values under one key. *)
Definition Header_AddAll (key : string) (vs : list string) (h : header) : header :=
  fold_left (fun h v => Header_Add key v h) vs h.

Lemma lower_upper_fix c : canonical_go true (String c "") = String (upper_byte c) "".
Proof. done. Qed.

Lemma upper_idem c : upper_byte (upper_byte c) = upper_byte c.
Proof. by destruct c as [[] [] [] [] [] [] [] []]; vm_compute. Qed.

Lemma lower_idem c : lower_byte (lower_byte c) = lower_byte c.
Proof. by destruct c as [[] [] [] [] [] [] [] []]; vm_compute. Qed.

Lemma upper_dash c : Ascii.eqb (upper_byte c) "-" = Ascii.eqb c "-".
Proof. by destruct c as [[] [] [] [] [] [] [] []]; vm_compute. Qed.

Lemma lower_dash c : Ascii.eqb (lower_byte c) "-" = Ascii.eqb c "-".
Proof. by destruct c as [[] [] [] [] [] [] [] []]; vm_compute. Qed.

Lemma upper_valid c : validHeaderFieldByte c = true -> validHeaderFieldByte (upper_byte c) = true.
Proof. by destruct c as [[] [] [] [] [] [] [] []]; vm_compute. Qed.

Lemma lower_valid c : validHeaderFieldByte c = true -> validHeaderFieldByte (lower_byte c) = true.
Proof. by destruct c as [[] [] [] [] [] [] [] []]; vm_compute. Qed.

Lemma canonical_go_valid b s :
  string_forallb validHeaderFieldByte s = true ->
  string_forallb validHeaderFieldByte (canonical_go b s) = true.
Proof.
  revert b. induction s as [|c s IH]; intros b; cbn; [done |]. intros [Hc Hs]%andb_true_iff.
  rewrite IH by done. rewrite andb_true_r. destruct b; auto using upper_valid, lower_valid.
Qed.

Lemma canonical_go_idem b s : canonical_go b (canonical_go b s) = canonical_go b s.
Proof.
  revert b. induction s as [|c s IH]; intros b; [done |]. cbn.
  destruct b; rewrite ?upper_idem, ?lower_idem, ?upper_dash, ?lower_dash, IH; done.
Qed.

Lemma canonical_idem s : CanonicalMIMEHeaderKey (CanonicalMIMEHeaderKey s) = CanonicalMIMEHeaderKey s.
Proof.
  unfold CanonicalMIMEHeaderKey. destruct (string_forallb validHeaderFieldByte s) eqn:E.
  - by rewrite canonical_go_valid, canonical_go_idem.
  - by rewrite E.
Qed.

Lemma Header_AddAll_lookup key vs h k :
  Header_AddAll key vs h !! k
  = if bool_decide (k = CanonicalMIMEHeaderKey key) then
      (if bool_decide (vs = []) then h !! k else Some (default [] (h !! k) ++ vs))
    else h !! k.
Proof.
  revert h. induction vs as [|v vs IH]; intros h; cbn [Header_AddAll fold_left].
  - rewrite (bool_decide_eq_true_2 ([] = [])) by done. by case_bool_decide.
  - unfold Header_AddAll in IH. rewrite IH. unfold Header_Add. cbn zeta.
    rewrite (bool_decide_eq_false_2 (v :: vs = [])) by done.
    case_bool_decide as Hk; [subst k; rewrite lookup_insert_eq | by rewrite lookup_insert_ne].
    case_bool_decide as Hv; [by subst vs |]. cbn. by rewrite <- app_assoc.
Qed.

(** The header maps of [net/http] requests and responses. *)
Definition canonical_keys (h : header) : Prop :=
  forall k vs, h !! k = Some vs -> CanonicalMIMEHeaderKey k = k /\ vs <> [].

(** Folding a copy over a map with canonical keys appends the chosen entries. *)
Lemma copy_fold (f : string -> list string -> header -> header) (choose : string -> bool)
    (w src : header) k :
  canonical_keys src ->
  (forall k vs dst, CanonicalMIMEHeaderKey k = k -> f k vs dst = if choose k then Header_AddAll k vs dst else dst) ->
  map_fold f w src !! k
  = match src !! k with
    | Some vs => if choose k then Some (default [] (w !! k) ++ vs) else w !! k
    | None => w !! k
    end.
Proof.
  intros Hcan Hf. revert Hcan k.
  induction src as [|k0 vs0 m Hk0 Hfirst IH] using map_first_key_ind; intros Hcan k; [done |].
  assert (CanonicalMIMEHeaderKey k0 = k0 /\ vs0 <> []) as [Hc0 Hv0] by (apply (Hcan k0), lookup_insert_eq).
  assert (canonical_keys m) as Hm.
  { intros k' vs' Hk'. apply (Hcan k'). rewrite lookup_insert_ne; [done |]. congruence. }
  rewrite map_fold_insert_first_key, Hf by done.
  destruct (decide (k = k0)) as [->|Hne].
  - rewrite lookup_insert_eq. destruct (choose k0); [| by rewrite IH, Hk0].
    rewrite Header_AddAll_lookup, IH, Hk0, Hc0 by done.
    by rewrite bool_decide_eq_true_2, bool_decide_eq_false_2.
  - rewrite lookup_insert_ne by done. destruct (choose k0); [| by rewrite IH].
    rewrite Header_AddAll_lookup, Hc0, bool_decide_eq_false_2 by done. by rewrite IH.
Qed.

(** ** IP addresses ([netip]) *)

Inductive Addr :=
| V4 (n : Z)
| V6 (n : Z) (zone : string).

#[export] Instance Addr_eq_dec : EqDecision Addr.
Proof. solve_decision. Defined.

Record Prefix := mkPrefix { p_addr : Addr; p_bits : Z }.

(** [Unmap] removes the IPv4-mapped IPv6 prefix, and the zone with it. *)
Definition Unmap (a : Addr) : Addr :=
  match a with
  | V6 n _ => if Z.eqb (Z.shiftr n 32) 65535 then V4 (Z.land n (2 ^ 32 - 1)) else a
  | V4 _ => a
  end.

(** [Prefix.Contains]: families must agree and a zoned address is in no prefix. *)
Definition Prefix_Contains (p : Prefix) (a : Addr) : bool :=
  match p_addr p, a with
  | V4 x, V4 y => Z.eqb (Z.shiftr (Z.lxor x y) (32 - p_bits p)) 0
  | V6 x _, V6 y z => String.eqb z "" && Z.eqb (Z.shiftr (Z.lxor x y) (128 - p_bits p)) 0
  | _, _ => false
  end.

(** The values a [netip.Addr] can have. *)
Definition addr_ok (a : Addr) : Prop :=
  match a with V4 n => 0 <= n < 2 ^ 32 | V6 n _ => 0 <= n < 2 ^ 128 end.

(** The text syntax of addresses; printing then parsing gives the address. *)
Class AddrText := {
  ParseAddr : string -> option Addr;
  Addr_String : Addr -> string;
  Parse_String : forall a, addr_ok a -> ParseAddr (Addr_String a) = Some a
}.

(** ** [net.SplitHostPort], [net.JoinHostPort] and [netip.ParsePrefix] *)

Fixpoint LastIndexByte (s : string) (c : ascii) : option nat :=
  match s with
  | "" => None
  | String d s' =>
      match LastIndexByte s' c with
      | Some i => Some (S i)
      | None => if Ascii.eqb d c then Some 0%nat else None
      end
  end.

Definition SplitHostPort (hostport : string) : option (string * string) :=
  match LastIndexByte hostport ":" with
  | None => None
  | Some i =>
      let port := slice_from hostport (S i) in
      match hostport with
      | String "[" _ =>
          match IndexByte hostport "]" with
          | None => None
          | Some e =>
              if Nat.eqb (S e) (String.length hostport) then None
              else if negb (Nat.eqb (S e) i) then None
              else
                let host := slice_from (slice_to hostport e) 1 in
                if Contains (slice_from hostport 1) "[" then None
                else if Contains (slice_from hostport (S e)) "]" then None
                else Some (host, port)
          end
      | _ =>
          let host := slice_to hostport i in
          if Contains host ":" then None
          else if Contains hostport "[" then None
          else if Contains hostport "]" then None
          else Some (host, port)
      end
  end.

Definition JoinHostPort (host port : string) : string :=
  if Contains host ":" then "[" +:+ host +:+ "]:" +:+ port else host +:+ ":" +:+ port.

(** [Addr.BitLen] and [Addr.Is4]. *)
Definition BitLen (a : Addr) : Z := match a with V4 _ => 32 | V6 _ _ => 128 end.
Definition Is4 (a : Addr) : bool := match a with V4 _ => true | V6 _ _ => false end.

(** [netip.ParsePrefix]: no zone, and a length of one digit or without leading zero. *)
Definition ParsePrefix `{AddrText} (s : string) : option Prefix :=
  match LastIndexByte s "/" with
  | None => None
  | Some i =>
      match ParseAddr (slice_to s i) with
      | None => None
      | Some ip =>
          let bitsStr := slice_from s (S i) in
          let plain := match bitsStr with
                       | String c (String _ _) => Nat.leb 49 (code c) && Nat.leb (code c) 57
                       | _ => true
                       end in
          if match ip with V6 _ z => negb (String.eqb z "") | V4 _ => false end || negb plain then None
          else match Atoi bitsStr with
               | None => None
               | Some b => if (b <? 0) || (BitLen ip <? b) then None else Some (mkPrefix ip b)
               end
      end
  end.

(** [net.ParseIP] and [IP.IsLoopback]. *)
Definition ParseIP `{AddrText} (s : string) : option Addr :=
  match ParseAddr s with
  | Some (V6 n z) => if String.eqb z "" then Some (V6 n z) else None
  | r => r
  end.
Definition IsLoopback (a : Addr) : bool :=
  match Unmap a with
  | V4 n => Z.shiftr n 24 =? 127
  | V6 n _ => n =? 1
  end.

(** ** A concrete address syntax

    Dotted quads, [::], and for other addresses the bits of their code: an [AddrText] on
    which the theorems of the other files are tried. *)
Module AddrDemo.
#[export] Instance Addr_countable : Countable Addr :=
  inj_countable' (fun a => match a with V4 n => inl n | V6 n z => inr (n, z) end)
    (fun x => match x with inl n => V4 n | inr (n, z) => V6 n z end)
    ltac:(by intros []).

Fixpoint pos_bits (p : positive) : string :=
  match p with xH => "" | xO p => String "0" (pos_bits p) | xI p => String "1" (pos_bits p) end.
Fixpoint bits_pos (s : string) : option positive :=
  match s with
  | "" => Some xH
  | String c s' =>
      match bits_pos s' with
      | Some p => if Ascii.eqb c "0" then Some (xO p) else if Ascii.eqb c "1" then Some (xI p) else None
      | None => None
      end
  end.

Lemma bits_pos_bits p : bits_pos (pos_bits p) = Some p.
Proof. induction p as [p IH|p IH|]; cbn; by rewrite ?IH. Qed.

Lemma pos_bits_no_dot p : Contains (pos_bits p) "." = false.
Proof. induction p as [p IH|p IH|]; cbn [pos_bits]; rewrite ?Contains_cons, ?IH; done. Qed.

Definition dotted (s : string) : option Addr :=
  match Atoi <$> Split s "." with
  | [Some a; Some b; Some c; Some d] =>
      if forallb (fun x => (0 <=? x) && (x <=? 255)) [a; b; c; d]
      then Some (V4 (a * 2 ^ 24 + b * 2 ^ 16 + c * 2 ^ 8 + d)) else None
  | _ => None
  end.

Lemma dotted_pos_bits p : dotted (pos_bits p) = None.
Proof. unfold dotted. rewrite Split_single by apply pos_bits_no_dot. cbn. by destruct (Atoi _). Qed.

Lemma pos_bits_not_any p : String.eqb (pos_bits p) "::" = false.
Proof. by destruct p. Qed.

Definition demo_addr : AddrText := {|
  ParseAddr := fun s => if String.eqb s "::" then Some (V6 0 "")
                        else match dotted s with Some a => Some a | None => bits_pos s ≫= decode end;
  Addr_String := fun a => pos_bits (encode a);
  Parse_String := ltac:(intros a _; cbn; rewrite pos_bits_not_any, dotted_pos_bits, bits_pos_bits; cbn; apply decode_encode)
|}.
End AddrDemo.
