(* ===== verification/Config.v ===== *)
(** * The daemon's configuration file ([infrastructure/config/config.go],
    [policy/defaults.go])

    [LoadWithLogger] reads a JSON document twice: as maps of raw messages, to find
    keys that were moved or removed, and as the struct [rawConfig]; then it converts,
    applies defaults and validates.  Errors that the operator must fix carry their
    message, without formatted values.  [regexp] is the class [GoRegexp].  The
    warnings about public listen addresses are returned beside the result; other log
    lines are not modelled. *)

From S2P Require Import Prelude GoStrings GoText GoJson JsonText GoTime Http.

(** [regexp.Compile] and [Regexp.ReplaceAllString]. *)
Class GoRegexp := {
  Regexp : Type;
  Compile : string -> option Regexp;
  ReplaceAllString : Regexp -> string -> string -> string
}.

Module Config.

(** ** The configuration *)

Record Auth := mkAuth { Token : string; TokenFile : string }.

Record VPNStream := mkVPNStream {
  v_Listen : string;
  AllowedCountries : list string;
  v_Auth : Auth;
  ReconnectMin : Z;
  ReconnectMax : Z;
  DialTimeout : Z;
  IdleTimeout : Z;
  v_ShutdownTimeout : Z
}.

Record OnDemand := mkOnDemand { Grace : Z; SettleDelay : Z; IdleTTL : Z }.
Record AsyncConfig := mkAsync { StoragePath : string }.
Record APIVPN := mkAPIVPN { Async : AsyncConfig; Demand : OnDemand; Timeout : Z; MaxTimeout : Z }.
Record APIAuth := mkAPIAuth { ProxyTokenFile : string; AdminTokenFile : string }.
Record AccessLog := mkAccessLog {
  Path : string;
  MaxSizeMB : Z;
  MaxAgeDays : Z;
  MaxBackups : Z;
  Compress : bool
}.
Record Operational := mkOperational { Level : string; Format : string }.

Section Patterns.
Context `{GoRegexp}.

Record PathSanitizePattern := mkPattern { Pattern : Regexp; Replacement : string }.
Record LogConfig := mkLog { PathSanitizePatterns : list PathSanitizePattern }.

Record API := mkAPI {
  a_Listen : string;
  a_ShutdownTimeout : Z;
  a_Auth : APIAuth;
  MaxRequestBodyBytes : Z;
  VPN : APIVPN;
  Log : LogConfig
}.

Record Config_ := mkConfig {
  c_VPNStream : VPNStream;
  c_AccessLog : AccessLog;
  c_Operational : Operational;
  c_API : API;
  TunnelIDHMACKeyFile : string;
  c_Dir : string
}.
End Patterns.

(** ** Defaults ([policy/defaults.go]) *)

Definition DefaultListen : string := "127.0.0.1:7788".
Definition DefaultDialTimeout : Z := 10 * Second.
Definition DefaultIdleTimeout : Z := 90 * Second.
Definition DefaultShutdownTimeout : Z := 15 * Second.
Definition DefaultAccessLogPath : string := "./logs/access.log".
Definition DefaultAccessLogSizeMB : Z := 100.
Definition DefaultAccessLogAgeDays : Z := 14.
Definition DefaultAccessLogBackups : Z := 7.
Definition DefaultOperationalLevel : string := "info".
Definition DefaultOperationalFormat : string := "text".
Definition DefaultAPIListen : string := "127.0.0.1:8888".
Definition DefaultAPIShutdownTimeout : Z := 5 * Second.
Definition DefaultAPIMaxRequestBodyBytes : Z := 10 * 1024 * 1024.
Definition DefaultAPIUpstreamTimeout : Z := 30 * Second.
Definition DefaultAPIMaxUpstreamTimeout : Z := 5 * Minute.
Definition DefaultAsyncStoragePath : string := "/opt/vpntunnel/state/async.db".
Definition DefaultTunnelIDHMACKeyFile : string := "./auth/tunnel-id.key".
Definition DefaultStreamingReconnectMin : Z := 10 * Minute.
Definition DefaultStreamingReconnectMax : Z := 3 * Hour.
Definition DefaultOnDemandGrace : Z := 10 * Second.
Definition DefaultOnDemandSettleDelay : Z := 15 * Second.
Definition DefaultOnDemandIdleTTL : Z := 168 * Hour.

Definition apiShutdownAbsent : Z := -1.
Definition lazyDurationAbsent : Z := int64_min + 1.

(** ** The JSON form *)

Record rawAuth := mkRawAuth { ra_token : string; ra_tokenFile : string }.
Record rawVPNStream := mkRawStream {
  rs_listen : string;
  rs_countries : slice string;
  rs_auth : rawAuth;
  rs_reconnectMin : option Z;
  rs_reconnectMax : option Z;
  rs_dial : Z;
  rs_idle : Z;
  rs_shutdown : Z
}.
Record rawAccessLog := mkRawAccess {
  rl_path : string;
  rl_size : Z;
  rl_age : Z;
  rl_backups : Z;
  rl_compress : option bool
}.
Record rawAPIVPNDemand := mkRawDemand { rd_grace : option Z; rd_settle : option Z; rd_idle : option Z }.
Record rawAPIVPN := mkRawVPN {
  rv_async : option (option string);
  rv_demand : option rawAPIVPNDemand;
  rv_timeout : Z;
  rv_max : Z
}.
Record rawPathSanitizePattern := mkRawPattern { rp_pattern : string; rp_replacement : string }.
Record rawAPI := mkRawAPI {
  rw_listen : string;
  rw_shutdown : option Z;
  rw_auth : APIAuth;
  rw_maxBody : Z;
  rw_vpn : option rawAPIVPN;
  rw_log : slice rawPathSanitizePattern
}.
Record rawConfig := mkRaw {
  r_stream : rawVPNStream;
  r_access : rawAccessLog;
  r_operational : Operational;
  r_api : option rawAPI;
  r_keyFile : option string
}.

Definition zero_auth := mkRawAuth "" "".
Definition zero_stream := mkRawStream "" nil_slice zero_auth None None 0 0 0.
Definition zero_access := mkRawAccess "" 0 0 0 None.
Definition zero_demand := mkRawDemand None None None.
Definition zero_vpn := mkRawVPN None None 0 0.
Definition zero_pattern := mkRawPattern "" "".
Definition zero_api := mkRawAPI "" None (mkAPIAuth "" "") 0 None nil_slice.
Definition zero_raw := mkRaw zero_stream zero_access (mkOperational "" "") None None.

(** ** Decoding *)

Section Decode.
Context `{GoFloat}.

(** [duration.UnmarshalJSON]: text, or an integer; [null] leaves its [ns] zero. *)
Definition dec_duration : decoder Z := fun j _ =>
  match j with JStr s => GoTime.ParseDuration s | _ => dec_int64 j 0 end.

Definition auth_fields : fields rawAuth :=
  [("token", on ra_token (fun v a => mkRawAuth v (ra_tokenFile a)) dec_string);
   ("token_file", on ra_tokenFile (fun v a => mkRawAuth (ra_token a) v) dec_string)].

Definition stream_fields : fields rawVPNStream :=
  [("listen", on rs_listen (fun v s => mkRawStream v (rs_countries s) (rs_auth s) (rs_reconnectMin s)
      (rs_reconnectMax s) (rs_dial s) (rs_idle s) (rs_shutdown s)) dec_string);
   ("allowed_countries", on rs_countries (fun v s => mkRawStream (rs_listen s) v (rs_auth s) (rs_reconnectMin s)
      (rs_reconnectMax s) (rs_dial s) (rs_idle s) (rs_shutdown s)) (dec_slice "" dec_string));
   ("auth", on rs_auth (fun v s => mkRawStream (rs_listen s) (rs_countries s) v (rs_reconnectMin s)
      (rs_reconnectMax s) (rs_dial s) (rs_idle s) (rs_shutdown s)) (dec_struct auth_fields));
   ("reconnect_min", on rs_reconnectMin (fun v s => mkRawStream (rs_listen s) (rs_countries s) (rs_auth s) v
      (rs_reconnectMax s) (rs_dial s) (rs_idle s) (rs_shutdown s)) (dec_ptr 0 dec_duration));
   ("reconnect_max", on rs_reconnectMax (fun v s => mkRawStream (rs_listen s) (rs_countries s) (rs_auth s)
      (rs_reconnectMin s) v (rs_dial s) (rs_idle s) (rs_shutdown s)) (dec_ptr 0 dec_duration));
   ("dial_timeout", on rs_dial (fun v s => mkRawStream (rs_listen s) (rs_countries s) (rs_auth s)
      (rs_reconnectMin s) (rs_reconnectMax s) v (rs_idle s) (rs_shutdown s)) dec_duration);
   ("idle_timeout", on rs_idle (fun v s => mkRawStream (rs_listen s) (rs_countries s) (rs_auth s)
      (rs_reconnectMin s) (rs_reconnectMax s) (rs_dial s) v (rs_shutdown s)) dec_duration);
   ("shutdown_timeout", on rs_shutdown (fun v s => mkRawStream (rs_listen s) (rs_countries s) (rs_auth s)
      (rs_reconnectMin s) (rs_reconnectMax s) (rs_dial s) (rs_idle s) v) dec_duration)].

Definition access_fields : fields rawAccessLog :=
  [("path", on rl_path (fun v a => mkRawAccess v (rl_size a) (rl_age a) (rl_backups a) (rl_compress a)) dec_string);
   ("max_size_mb", on rl_size (fun v a => mkRawAccess (rl_path a) v (rl_age a) (rl_backups a) (rl_compress a)) dec_int64);
   ("max_age_days", on rl_age (fun v a => mkRawAccess (rl_path a) (rl_size a) v (rl_backups a) (rl_compress a)) dec_int64);
   ("max_backups", on rl_backups (fun v a => mkRawAccess (rl_path a) (rl_size a) (rl_age a) v (rl_compress a)) dec_int64);
   ("compress", on rl_compress (fun v a => mkRawAccess (rl_path a) (rl_size a) (rl_age a) (rl_backups a) v)
      (dec_ptr false dec_bool))].

Definition operational_fields : fields Operational :=
  [("level", on Level (fun v o => mkOperational v (Format o)) dec_string);
   ("format", on Format (fun v o => mkOperational (Level o) v) dec_string)].

Definition demand_fields : fields rawAPIVPNDemand :=
  [("grace", on rd_grace (fun v d => mkRawDemand v (rd_settle d) (rd_idle d)) (dec_ptr 0 dec_duration));
   ("settle_delay", on rd_settle (fun v d => mkRawDemand (rd_grace d) v (rd_idle d)) (dec_ptr 0 dec_duration));
   ("idle_ttl", on rd_idle (fun v d => mkRawDemand (rd_grace d) (rd_settle d) v) (dec_ptr 0 dec_duration))].

(** [rawAsync] has the one field [storage_path]. *)
Definition async_fields : fields (option string) := [("storage_path", dec_ptr "" dec_string)].

Definition vpn_fields : fields rawAPIVPN :=
  [("async", on rv_async (fun v r => mkRawVPN v (rv_demand r) (rv_timeout r) (rv_max r))
      (dec_ptr None (dec_struct async_fields)));
   ("demand", on rv_demand (fun v r => mkRawVPN (rv_async r) v (rv_timeout r) (rv_max r))
      (dec_ptr zero_demand (dec_struct demand_fields)));
   ("timeout", on rv_timeout (fun v r => mkRawVPN (rv_async r) (rv_demand r) v (rv_max r)) dec_duration);
   ("max_timeout", on rv_max (fun v r => mkRawVPN (rv_async r) (rv_demand r) (rv_timeout r) v) dec_duration)].

Definition apiauth_fields : fields APIAuth :=
  [("proxy_token_file", on ProxyTokenFile (fun v a => mkAPIAuth v (AdminTokenFile a)) dec_string);
   ("admin_token_file", on AdminTokenFile (fun v a => mkAPIAuth (ProxyTokenFile a) v) dec_string)].

Definition pattern_fields : fields rawPathSanitizePattern :=
  [("pattern", on rp_pattern (fun v p => mkRawPattern v (rp_replacement p)) dec_string);
   ("replacement", on rp_replacement (fun v p => mkRawPattern (rp_pattern p) v) dec_string)].

(** [rawAPILog] has the one field [path_sanitize_patterns]. *)
Definition log_fields : fields (slice rawPathSanitizePattern) :=
  [("path_sanitize_patterns", dec_slice zero_pattern (dec_struct pattern_fields))].

Definition api_fields : fields rawAPI :=
  [("listen", on rw_listen (fun v a => mkRawAPI v (rw_shutdown a) (rw_auth a) (rw_maxBody a) (rw_vpn a) (rw_log a))
      dec_string);
   ("shutdown_timeout",
      on rw_shutdown (fun v a => mkRawAPI (rw_listen a) v (rw_auth a) (rw_maxBody a) (rw_vpn a) (rw_log a))
      (dec_ptr 0 dec_duration));
   ("auth", on rw_auth (fun v a => mkRawAPI (rw_listen a) (rw_shutdown a) v (rw_maxBody a) (rw_vpn a) (rw_log a))
      (dec_struct apiauth_fields));
   ("max_request_body_bytes",
      on rw_maxBody (fun v a => mkRawAPI (rw_listen a) (rw_shutdown a) (rw_auth a) v (rw_vpn a) (rw_log a)) dec_int64);
   ("vpn", on rw_vpn (fun v a => mkRawAPI (rw_listen a) (rw_shutdown a) (rw_auth a) (rw_maxBody a) v (rw_log a))
      (dec_ptr zero_vpn (dec_struct vpn_fields)));
   ("log", on rw_log (fun v a => mkRawAPI (rw_listen a) (rw_shutdown a) (rw_auth a) (rw_maxBody a) (rw_vpn a) v)
      (dec_struct log_fields))].

Definition config_fields : fields rawConfig :=
  [("vpnstream", on r_stream (fun v r => mkRaw v (r_access r) (r_operational r) (r_api r) (r_keyFile r))
      (dec_struct stream_fields));
   ("access_log", on r_access (fun v r => mkRaw (r_stream r) v (r_operational r) (r_api r) (r_keyFile r))
      (dec_struct access_fields));
   ("operational", on r_operational (fun v r => mkRaw (r_stream r) (r_access r) v (r_api r) (r_keyFile r))
      (dec_struct operational_fields));
   ("api", on r_api (fun v r => mkRaw (r_stream r) (r_access r) (r_operational r) v (r_keyFile r))
      (dec_ptr zero_api (dec_struct api_fields)));
   ("tunnel_id_hmac_key_file",
      on r_keyFile (fun v r => mkRaw (r_stream r) (r_access r) (r_operational r) (r_api r) v)
      (dec_ptr "" dec_string))].
End Decode.

(** ** Errors and probes for keys that moved *)

Inductive cfgError :=
| EOpen
| EDecode
| EAbs
| EPublic (msg : string)
| EPublicAt (i : nat) (msg : string).

Definition probeRemovedKey (probe : gmap string json) (key message : string) : option cfgError :=
  match probe !! key with Some _ => Some (EPublic message) | None => None end.

(** Several probes in a row: the first that fires. *)
Fixpoint probeKeys (probe : gmap string json) (l : list (string * string)) : option cfgError :=
  match l with
  | [] => None
  | (key, message) :: l' =>
      match probeRemovedKey probe key message with
      | Some e => Some e
      | None => probeKeys probe l'
      end
  end.

Definition or_else (a b : option cfgError) : option cfgError := match a with Some e => Some e | None => b end.

(** A nested block that is there and is an object (or null). *)
Definition nested (probe : gmap string json) (key : string) : option (gmap string json) :=
  match probe !! key with Some raw => raw_map raw | None => None end.

Definition probeUpstream (path : string) (probe : gmap string json) : option cfgError :=
  match nested probe "upstream" with
  | None => None
  | Some up =>
      match up !! "configs" with
      | Some _ => 
          Some (EPublic ("config.upstream.configs: removed; tunnels are now auto-discovered from "
                         +:+ JoinPath (Dir path) "tunnels" +:+ " — delete this field"))
      | None => Some (EPublic "config.upstream: moved to vpnstream (allowed_countries → vpnstream.allowed_countries)")
      end
  end.

Definition movedKeys : list (string * string) :=
  [("listen", "config.listen: moved to vpnstream.listen");
   ("auth", "config.auth: moved to vpnstream.auth");
   ("dial_timeout", "config.dial_timeout: moved to vpnstream.dial_timeout");
   ("idle_timeout", "config.idle_timeout: moved to vpnstream.idle_timeout");
   ("shutdown_timeout", "config.shutdown_timeout: moved to vpnstream.shutdown_timeout");
   ("streaming", "config.streaming: moved to vpnstream (reconnect_min/reconnect_max)");
   ("ondemand", "config.ondemand: moved to api.vpn.demand");
   ("health", "config.health: removed; handshake_max_age is now a built-in constant (tunnelpool.DefaultHandshakeMaxAge = 180s)")].

Definition movedAPIKeys : list (string * string) :=
  [("tls", "config.api.tls: removed; use the -tls-cert-dir, -tls-hostname, -tls-ip-sans CLI flags");
   ("upstream_timeout", "config.api.upstream_timeout: moved to api.vpn.timeout");
   ("max_upstream_timeout", "config.api.max_upstream_timeout: moved to api.vpn.max_timeout");
   ("async", "config.api.async: moved to api.vpn.async (only storage_path survives; max_concurrent_jobs/pending_timeout/complete_ttl/tombstone_ttl are now built-in constants in internal/application/asyncjob)")].

Definition removedAsyncKeys : list (string * string) :=
  [("max_concurrent_jobs", "config.api.vpn.async.max_concurrent_jobs: removed; now a built-in constant in internal/application/asyncjob");
   ("pending_timeout", "config.api.vpn.async.pending_timeout: removed; now a built-in constant in internal/application/asyncjob");
   ("complete_ttl", "config.api.vpn.async.complete_ttl: removed; now a built-in constant in internal/application/asyncjob");
   ("tombstone_ttl", "config.api.vpn.async.tombstone_ttl: removed; now a built-in constant in internal/application/asyncjob")].

Definition removedAuthKeys : list (string * string) :=
  [("user_token_file", "config.api.auth.user_token_file: renamed to proxy_token_file");
   ("deploy_token_file", "config.api.auth.deploy_token_file: removed; the deploy role no longer exists — the release health-check uses the admin token")].

(** The probes of [LoadWithLogger] in their order. *)
Definition probeAPI (probe : gmap string json) : option cfgError :=
  match nested probe "api" with
  | None => None
  | Some api =>
      or_else (probeKeys api movedAPIKeys)
        (or_else (match nested api "vpn" with
                  | None => None
                  | Some vpn => match nested vpn "async" with None => None | Some a => probeKeys a removedAsyncKeys end
                  end)
           (match nested api "auth" with None => None | Some a => probeKeys a removedAuthKeys end))
  end.

Definition probes (path : string) (probe : gmap string json) : option cfgError :=
  or_else (probeRemovedKey probe "admin" "config.admin: removed in v5; use the api block")
    (or_else (probeUpstream path probe) (or_else (probeKeys probe movedKeys) (probeAPI probe))).

(** ** From the JSON form to the configuration *)

Section Load.
Context `{GoFloat, GoRegexp, AddrText}.

(** The loop that compiles [api.log.path_sanitize_patterns]. *)
Fixpoint compile_patterns (i : nat) (l : list rawPathSanitizePattern) : res cfgError (list PathSanitizePattern) :=
  match l with
  | [] => Ok []
  | rp :: l' =>
      if String.eqb (rp_pattern rp) "" then
        Err (EPublicAt i "config.api.log.path_sanitize_patterns.pattern: must not be empty")
      else match Compile (rp_pattern rp) with
           | None => Err (EPublicAt i "config.api.log.path_sanitize_patterns.pattern: invalid regex")
           | Some re => let? ps := compile_patterns (S i) l' in Ok (mkPattern re (rp_replacement rp) :: ps)
           end
  end.

Definition demandOf (d : option rawAPIVPNDemand) : OnDemand :=
  match d with
  | None => mkOnDemand lazyDurationAbsent lazyDurationAbsent lazyDurationAbsent
  | Some d => mkOnDemand (default lazyDurationAbsent (rd_grace d)) (default lazyDurationAbsent (rd_settle d))
                (default lazyDurationAbsent (rd_idle d))
  end.

Definition vpnOf (v : option rawAPIVPN) : APIVPN :=
  let async := mkAsync (default DefaultAsyncStoragePath (v ≫= fun v => rv_async v ≫= id)) in
  match v with
  | None => mkAPIVPN async (demandOf None) 0 0
  | Some v => mkAPIVPN async (demandOf (rv_demand v)) (rv_timeout v) (rv_max v)
  end.

Definition toConfig (r : rawConfig) : res cfgError Config_ :=
  let compress := default true (rl_compress (r_access r)) in
  let s := r_stream r in
  let stream := mkVPNStream (rs_listen s) (elems (rs_countries s))
                  (mkAuth (TrimSpace (ra_token (rs_auth s))) (TrimSpace (ra_tokenFile (rs_auth s))))
                  (default lazyDurationAbsent (rs_reconnectMin s)) (default lazyDurationAbsent (rs_reconnectMax s))
                  (rs_dial s) (rs_idle s) (rs_shutdown s) in
  let l := r_access r in
  let access := mkAccessLog (rl_path l) (rl_size l) (rl_age l) (rl_backups l) compress in
  match r_api r with
  | None => Err (EPublic "config.api: block is required; add an api block (see configs/proxy.example.json for the required fields)")
  | Some a =>
      let? patterns := compile_patterns 0 (elems (rw_log a)) in
      let api := mkAPI (rw_listen a) (default apiShutdownAbsent (rw_shutdown a)) (rw_auth a) (rw_maxBody a)
                   (vpnOf (rw_vpn a)) (mkLog patterns) in
      Ok (mkConfig stream access (r_operational r) api (default DefaultTunnelIDHMACKeyFile (r_keyFile r)) "")
  end.

(** ** Defaults *)

Definition or_str (dflt s : string) : string := if String.eqb s "" then dflt else s.
Definition or_Z (absent dflt n : Z) : Z := if n =? absent then dflt else n.

Definition applyDefaults (c : Config_) : Config_ :=
  let s := c_VPNStream c in
  let l := c_AccessLog c in
  let o := c_Operational c in
  let a := c_API c in
  let v := VPN a in
  let d := Demand v in
  mkConfig
    (mkVPNStream (or_str DefaultListen (v_Listen s)) (AllowedCountries s) (v_Auth s)
       (or_Z lazyDurationAbsent DefaultStreamingReconnectMin (ReconnectMin s))
       (or_Z lazyDurationAbsent DefaultStreamingReconnectMax (ReconnectMax s))
       (or_Z 0 DefaultDialTimeout (DialTimeout s)) (or_Z 0 DefaultIdleTimeout (IdleTimeout s))
       (or_Z 0 DefaultShutdownTimeout (v_ShutdownTimeout s)))
    (mkAccessLog (or_str DefaultAccessLogPath (Path l)) (or_Z 0 DefaultAccessLogSizeMB (MaxSizeMB l))
       (or_Z 0 DefaultAccessLogAgeDays (MaxAgeDays l)) (or_Z 0 DefaultAccessLogBackups (MaxBackups l)) (Compress l))
    (mkOperational (or_str DefaultOperationalLevel (Level o)) (or_str DefaultOperationalFormat (Format o)))
    (mkAPI (or_str DefaultAPIListen (a_Listen a)) (or_Z apiShutdownAbsent DefaultAPIShutdownTimeout (a_ShutdownTimeout a))
       (a_Auth a) (or_Z 0 DefaultAPIMaxRequestBodyBytes (MaxRequestBodyBytes a))
       (mkAPIVPN (Async v)
          (mkOnDemand (or_Z lazyDurationAbsent DefaultOnDemandGrace (Grace d))
             (or_Z lazyDurationAbsent DefaultOnDemandSettleDelay (SettleDelay d))
             (or_Z lazyDurationAbsent DefaultOnDemandIdleTTL (IdleTTL d)))
          (or_Z 0 DefaultAPIUpstreamTimeout (Timeout v)) (or_Z 0 DefaultAPIMaxUpstreamTimeout (MaxTimeout v)))
       (Log a))
    (TunnelIDHMACKeyFile c) (c_Dir c).

(** ** Validation *)

(** A sequence of checks, each with its condition of failure: the first that fails. *)
Fixpoint first_error (l : list (bool * cfgError)) : option cfgError :=
  match l with
  | [] => None
  | (bad, e) :: l' => if bad then Some e else first_error l'
  end.

Definition country_ok (cc : string) : bool :=
  match cc with String a (String b "") => is_lower a && is_lower b | _ => false end.

Definition minSettleDelay : Z := 5 * Second.

(** The checks between the two listen addresses, and those after them. *)
Definition stream_checks (c : Config_) : list (bool * cfgError) :=
  let s := c_VPNStream c in
  [(DialTimeout s <? 0, EPublic "config.vpnstream.dial_timeout: must be >= 0");
   (IdleTimeout s <? 0, EPublic "config.vpnstream.idle_timeout: must be >= 0");
   (v_ShutdownTimeout s <? 0, EPublic "config.vpnstream.shutdown_timeout: must be >= 0");
   (String.eqb (Path (c_AccessLog c)) "", EPublic "config.access_log.path: required");
   (negb (String.eqb (Token (v_Auth s)) "") && negb (String.eqb (TokenFile (v_Auth s)) ""),
      EPublic "config.vpnstream.auth: token and token_file are mutually exclusive; pick one")]
  ++ imap (fun i cc => (negb (country_ok cc), EPublicAt i "config.vpnstream.allowed_countries: not a valid two-letter lowercase country code"))
       (AllowedCountries s)
  ++ [(ReconnectMin s <=? 0, EPublic "config.vpnstream.reconnect_min: must be > 0");
      (ReconnectMax s <=? 0, EPublic "config.vpnstream.reconnect_max: must be > 0");
      (ReconnectMax s <? ReconnectMin s, EPublic "config.vpnstream.reconnect_min must be <= reconnect_max")].

Definition api_checks (c : Config_) : list (bool * cfgError) :=
  let a := c_API c in
  let v := VPN a in
  let d := Demand v in
  [(a_ShutdownTimeout a <? 0, EPublic "config.api.shutdown_timeout: must be >= 0");
   (String.eqb (ProxyTokenFile (a_Auth a)) "", EPublic "config.api.auth.proxy_token_file: required");
   (String.eqb (AdminTokenFile (a_Auth a)) "", EPublic "config.api.auth.admin_token_file: required");
   (String.eqb (Clean (ProxyTokenFile (a_Auth a))) (Clean (AdminTokenFile (a_Auth a))),
      EPublic "config.api.auth: proxy_token_file and admin_token_file resolve to the same path");
   (MaxRequestBodyBytes a <=? 0, EPublic "config.api.max_request_body_bytes: must be > 0");
   (Timeout v <=? 0, EPublic "config.api.vpn.timeout: must be > 0");
   (MaxTimeout v <=? 0, EPublic "config.api.vpn.max_timeout: must be > 0");
   (MaxTimeout v <? Timeout v, EPublic "config.api.vpn.timeout must be <= max_timeout");
   (String.eqb (StoragePath (Async v)) "", EPublic "config.api.vpn.async.storage_path: must not be empty");
   (String.eqb (TunnelIDHMACKeyFile c) "", EPublic "config.tunnel_id_hmac_key_file: must not be empty");
   (Grace d <=? 0, EPublic "config.api.vpn.demand.grace: must be > 0");
   (SettleDelay d <=? 0, EPublic "config.api.vpn.demand.settle_delay: must be > 0");
   (SettleDelay d <? minSettleDelay, EPublic "config.api.vpn.demand.settle_delay: must be >= 5s");
   (IdleTTL d <=? 0, EPublic "config.api.vpn.demand.idle_ttl: must be > 0")].

(** The warning of [warnNonLoopback], if it warns. *)
Definition warnNonLoopback (field host : string) : list (string * string) :=
  if String.eqb host "" then []
  else match ParseIP host with
       | None => []
       | Some ip => if IsLoopback ip then [] else [(field, host)]
       end.

Definition hostOf (listen : string) : option string :=
  if String.eqb listen "" then None else fst <$> SplitHostPort listen.

Definition validate (c : Config_) : option cfgError * list (string * string) :=
  match hostOf (v_Listen (c_VPNStream c)) with
  | None => (Some (EPublic "config.vpnstream.listen: must be host:port"), [])
  | Some host =>
      let w1 := warnNonLoopback "vpnstream.listen" host in
      match first_error (stream_checks c) with
      | Some e => (Some e, w1)
      | None =>
          match hostOf (a_Listen (c_API c)) with
          | None => (Some (EPublic "config.api.listen: must be host:port"), w1)
          | Some apiHost => (first_error (api_checks c), w1 ++ warnNonLoopback "api.listen" apiHost)
          end
      end
  end.

(** ** Loading *)

(** What reading and parsing the text of the file gives. *)
Inductive fileContent := Unreadable | NotJSON | Document (doc : json).

(** From the bytes of the file, if they can be read. *)
Definition parseFile (data : option string) : fileContent :=
  match data with
  | None => Unreadable
  | Some text => match JsonText.Parse text with None => NotJSON | Some doc => Document doc end
  end.

Definition set_Dir (d : string) (c : Config_) : Config_ :=
  mkConfig (c_VPNStream c) (c_AccessLog c) (c_Operational c) (c_API c) (TunnelIDHMACKeyFile c) d.

(** The end of [LoadWithLogger]: conversion, the directory of the file, defaults, checks. *)
Definition finishLoad (cwd : option string) (path : string) (raw : rawConfig) : res cfgError Config_ * list (string * string) :=
  match toConfig raw with
  | Err e => (Err e, [])
  | Ok cfg =>
      match Abs cwd path with
      | None => (Err EAbs, [])
      | Some absPath =>
          let cfg := applyDefaults (set_Dir (Dir absPath) cfg) in
          match validate cfg with
          | (Some e, w) => (Err e, w)
          | (None, w) => (Ok cfg, w)
          end
      end
  end.

Definition LoadWithLogger (cwd : option string) (path : string) (data : fileContent)
    : res cfgError Config_ * list (string * string) :=
  match data with
  | Unreadable => (Err EOpen, [])
  | NotJSON => (Err EDecode, [])
  | Document doc =>
      match raw_map doc with
      | None => (Err EDecode, [])
      | Some probe =>
          match probes path probe with
          | Some e => (Err e, [])
          | None =>
              match dec_struct config_fields doc zero_raw with
              | None => (Err EDecode, [])
              | Some raw => finishLoad cwd path raw
              end
          end
      end
  end.
End Load.
End Config.
