(* ===== verification/ConfigThms.v ===== *)
(** * Theorems of the configuration file

    A configuration that the loader returns is well-formed and fits 64 bits, no key
    that was removed is silently dropped (as long as it is spelled as documented),
    and every configuration of that form can be written down and read back. *)

From S2P Require Import Prelude GoStrings GoText GoUtf8 GoJson JsonText GoTime Http Config.
Import Config.

Section Thms.
Context `{GoFloat, GoRegexp, AddrText}.

(** ** Validation *)

Lemma first_error_None (l : list (bool * cfgError)) : first_error l = None <-> Forall (fun p => fst p = false) l.
Proof.
  induction l as [|[bad e] l IH]; cbn [first_error]; [by split |].
  rewrite Forall_cons. destruct bad; cbn [fst]; [by split; [| intros []] |]. rewrite IH. by split; [| intros []].
Qed.

(** What [validate] demands. *)
Record valid (c : Config_) : Prop := {
  val_listen : is_Some (hostOf (v_Listen (c_VPNStream c)));
  val_timeouts : 0 <= DialTimeout (c_VPNStream c) /\ 0 <= IdleTimeout (c_VPNStream c)
    /\ 0 <= v_ShutdownTimeout (c_VPNStream c);
  val_log : Path (c_AccessLog c) <> "";
  val_auth : Token (v_Auth (c_VPNStream c)) = "" \/ TokenFile (v_Auth (c_VPNStream c)) = "";
  val_countries : Forall (fun cc => country_ok cc = true) (AllowedCountries (c_VPNStream c));
  val_reconnect : 0 < ReconnectMin (c_VPNStream c) <= ReconnectMax (c_VPNStream c);
  val_api_listen : is_Some (hostOf (a_Listen (c_API c)));
  val_api_shutdown : 0 <= a_ShutdownTimeout (c_API c);
  val_tokens : ProxyTokenFile (a_Auth (c_API c)) <> "" /\ AdminTokenFile (a_Auth (c_API c)) <> ""
    /\ Clean (ProxyTokenFile (a_Auth (c_API c))) <> Clean (AdminTokenFile (a_Auth (c_API c)));
  val_body : 0 < MaxRequestBodyBytes (c_API c);
  val_vpn : 0 < Timeout (VPN (c_API c)) <= MaxTimeout (VPN (c_API c));
  val_storage : StoragePath (Async (VPN (c_API c))) <> "";
  val_key : TunnelIDHMACKeyFile c <> "";
  val_demand : 0 < Grace (Demand (VPN (c_API c))) /\ minSettleDelay <= SettleDelay (Demand (VPN (c_API c)))
    /\ 0 < IdleTTL (Demand (VPN (c_API c)))
}.

Lemma stream_checks_None c :
  first_error (stream_checks c) = None <->
  (0 <= DialTimeout (c_VPNStream c) /\ 0 <= IdleTimeout (c_VPNStream c) /\ 0 <= v_ShutdownTimeout (c_VPNStream c))
  /\ Path (c_AccessLog c) <> ""
  /\ (Token (v_Auth (c_VPNStream c)) = "" \/ TokenFile (v_Auth (c_VPNStream c)) = "")
  /\ Forall (fun cc => country_ok cc = true) (AllowedCountries (c_VPNStream c))
  /\ 0 < ReconnectMin (c_VPNStream c) <= ReconnectMax (c_VPNStream c).
Proof.
  rewrite first_error_None. unfold stream_checks. rewrite !Forall_app, !Forall_cons, !Forall_nil. cbn [fst].
  rewrite !Z.ltb_ge, !Z.leb_gt, String.eqb_neq.
  assert (Forall (fun p : bool * cfgError => fst p = false)
      (imap (fun i cc => (negb (country_ok cc), EPublicAt i "config.vpnstream.allowed_countries: not a valid two-letter lowercase country code"))
         (AllowedCountries (c_VPNStream c)))
    <-> Forall (fun cc => country_ok cc = true) (AllowedCountries (c_VPNStream c))) as ->.
  { rewrite !Forall_lookup. split; intros Hl i x Hi.
    - specialize (Hl i). rewrite list_lookup_imap, Hi in Hl. specialize (Hl _ eq_refl). by apply negb_false_iff.
    - rewrite list_lookup_imap in Hi. apply fmap_Some in Hi as (cc & Hi & ->). by apply negb_false_iff, (Hl i). }
  rewrite andb_false_iff, !negb_false_iff, !String.eqb_eq. split; intros; intuition lia.
Qed.

Lemma api_checks_None c :
  first_error (api_checks c) = None <->
  0 <= a_ShutdownTimeout (c_API c)
  /\ (ProxyTokenFile (a_Auth (c_API c)) <> "" /\ AdminTokenFile (a_Auth (c_API c)) <> ""
      /\ Clean (ProxyTokenFile (a_Auth (c_API c))) <> Clean (AdminTokenFile (a_Auth (c_API c))))
  /\ 0 < MaxRequestBodyBytes (c_API c) /\ 0 < Timeout (VPN (c_API c)) <= MaxTimeout (VPN (c_API c))
  /\ StoragePath (Async (VPN (c_API c))) <> "" /\ TunnelIDHMACKeyFile c <> ""
  /\ 0 < Grace (Demand (VPN (c_API c))) /\ minSettleDelay <= SettleDelay (Demand (VPN (c_API c)))
  /\ 0 < IdleTTL (Demand (VPN (c_API c))).
Proof.
  rewrite first_error_None. unfold api_checks. rewrite !Forall_cons, !Forall_nil. cbn [fst].
  rewrite !Z.ltb_ge, !Z.leb_gt, !String.eqb_neq. unfold minSettleDelay, Second, Millisecond, Nanosecond.
  split; intros; intuition lia.
Qed.

Lemma validate_valid c : fst (validate c) = None <-> valid c.
Proof.
  unfold validate. destruct (hostOf (v_Listen (c_VPNStream c))) as [host|] eqn:Hh.
  2: { split; [done | intros []]. by destruct val_listen0 as [? E]; rewrite Hh in E. }
  destruct (first_error (stream_checks c)) eqn:Hs.
  { split; [done |]. intros []. exfalso. assert (first_error (stream_checks c) = None) as E; [| by rewrite Hs in E].
    apply stream_checks_None. auto. }
  apply stream_checks_None in Hs as (H1' & H2' & H3' & H4' & H5').
  destruct (hostOf (a_Listen (c_API c))) as [apiHost|] eqn:Ha.
  2: { split; [done | intros []]. by destruct val_api_listen0 as [? E]; rewrite Ha in E. }
  cbn [fst]. rewrite api_checks_None. split.
  - intros Hw. destruct_and! Hw. by split; rewrite ?Hh, ?Ha.
  - intros []. intuition auto.
Qed.

(** ** Ranges *)

Lemma zero_range : in_int64 0.
Proof. unfold in_int64, int64_min, int64_max. lia. Qed.

Lemma keeps_duration : keeps in_int64 dec_duration.
Proof.
  intros j x x' _. unfold dec_duration. destruct j; try (apply dec_int64_range, zero_range).
  apply GoTime.ParseDuration_range.
Qed.

(** The numbers of a decoded document fit 64 bits. *)
Definition stream_range (s : rawVPNStream) : Prop :=
  opt_holds in_int64 (rs_reconnectMin s) /\ opt_holds in_int64 (rs_reconnectMax s)
  /\ in_int64 (rs_dial s) /\ in_int64 (rs_idle s) /\ in_int64 (rs_shutdown s).
Definition access_range (l : rawAccessLog) : Prop :=
  in_int64 (rl_size l) /\ in_int64 (rl_age l) /\ in_int64 (rl_backups l).
Definition demand_range (d : rawAPIVPNDemand) : Prop :=
  opt_holds in_int64 (rd_grace d) /\ opt_holds in_int64 (rd_settle d) /\ opt_holds in_int64 (rd_idle d).
Definition vpn_range (v : rawAPIVPN) : Prop :=
  opt_holds demand_range (rv_demand v) /\ in_int64 (rv_timeout v) /\ in_int64 (rv_max v).
Definition api_range (a : rawAPI) : Prop :=
  opt_holds in_int64 (rw_shutdown a) /\ in_int64 (rw_maxBody a) /\ opt_holds vpn_range (rw_vpn a).
Definition raw_range (r : rawConfig) : Prop :=
  stream_range (r_stream r) /\ access_range (r_access r) /\ opt_holds api_range (r_api r).

Create HintDb keeps.
#[local] Hint Resolve zero_range keeps_duration keeps_int64 keeps_ptr : keeps.

(** Field by field: one that the property does not mention, or one whose decoder
    keeps its part of it. *)
Ltac keep_fields :=
  apply keeps_struct; repeat apply Forall_cons_2; try apply Forall_nil_2; cbn [snd];
  first [ apply keeps_other; intros v []; cbn; tauto
        | eapply keeps_on; [| | solve [eauto with keeps]]; intros; cbn in *; tauto ].

Lemma keeps_stream : keeps stream_range (dec_struct stream_fields).
Proof. unfold stream_fields, stream_range. keep_fields. Qed.
Lemma keeps_access : keeps access_range (dec_struct access_fields).
Proof. unfold access_fields, access_range. keep_fields. Qed.
Lemma keeps_demand : keeps demand_range (dec_struct demand_fields).
Proof. unfold demand_fields, demand_range. keep_fields. Qed.
Lemma zero_demand_range : demand_range zero_demand.
Proof. by repeat split. Qed.
#[local] Hint Resolve keeps_stream keeps_access keeps_demand zero_demand_range : keeps.
Lemma keeps_vpn : keeps vpn_range (dec_struct vpn_fields).
Proof. unfold vpn_fields, vpn_range. keep_fields. Qed.
Lemma zero_vpn_range : vpn_range zero_vpn.
Proof. by repeat split. Qed.
#[local] Hint Resolve keeps_vpn zero_vpn_range : keeps.
Lemma keeps_api : keeps api_range (dec_struct api_fields).
Proof. unfold api_fields, api_range. keep_fields. Qed.
Lemma zero_api_range : api_range zero_api.
Proof. by repeat split. Qed.
#[local] Hint Resolve keeps_api zero_api_range : keeps.
Lemma keeps_raw : keeps raw_range (dec_struct config_fields).
Proof. unfold config_fields, raw_range. keep_fields. Qed.

Lemma decoded_range doc raw : dec_struct config_fields doc zero_raw = Some raw -> raw_range raw.
Proof. apply keeps_raw. by repeat split. Qed.

Definition cfg_range (c : Config_) : Prop :=
  let s := c_VPNStream c in
  let l := c_AccessLog c in
  let a := c_API c in
  let d := Demand (VPN a) in
  Forall in_int64
    [ReconnectMin s; ReconnectMax s; DialTimeout s; IdleTimeout s; v_ShutdownTimeout s;
     MaxSizeMB l; MaxAgeDays l; MaxBackups l; a_ShutdownTimeout a; MaxRequestBodyBytes a;
     Timeout (VPN a); MaxTimeout (VPN a); Grace d; SettleDelay d; IdleTTL d].

Lemma opt_range dflt o : in_int64 dflt -> opt_holds in_int64 o -> in_int64 (default dflt o).
Proof. by destruct o. Qed.

Lemma toConfig_range r c : raw_range r -> toConfig r = Ok c -> cfg_range c.
Proof.
  intros ((S1 & S2 & S3 & S4 & S5) & (L1 & L2 & L3) & Ha). unfold toConfig.
  destruct (r_api r) as [a|]; [| done]. destruct (compile_patterns 0 _) as [|ps]; [done |]. intros [= <-].
  destruct Ha as (A1 & A2 & A3).
  assert (in_int64 lazyDurationAbsent /\ in_int64 apiShutdownAbsent /\ in_int64 0) as (Hl & Hs & Hz) by by vm_compute.
  unfold cfg_range. cbn. unfold vpnOf.
  destruct (rw_vpn a) as [v|]; cbn; [destruct A3 as (D & T & Mx) |].
  - unfold demandOf. destruct (rv_demand v) as [d|]; cbn; [destruct D as (D1 & D2 & D3) |];
      repeat apply Forall_cons_2; try apply Forall_nil_2; auto using opt_range.
  - repeat apply Forall_cons_2; try apply Forall_nil_2; auto using opt_range.
Qed.

Lemma or_Z_range absent dflt n : in_int64 dflt -> in_int64 n -> in_int64 (or_Z absent dflt n).
Proof. unfold or_Z. by destruct (_ =? _). Qed.

Lemma applyDefaults_range c : cfg_range c -> cfg_range (applyDefaults c).
Proof.
  unfold cfg_range. rewrite !Forall_cons. cbn. intros Hc. decompose [and] Hc.
  repeat apply conj; try apply or_Z_range; try done; by vm_compute.
Qed.

(** ** Paths *)

Lemma IsAbs_cons p : IsAbs p = true <-> exists r, p = String "/" r.
Proof.
  unfold IsAbs, HasPrefix. destruct p as [|c p]; [by split; [| intros [? [=]]] |].
  unfold String.prefix at 1. destruct (ascii_dec "/" c) as [<-|Hn].
  - split; [by eauto | by destruct p].
  - split; [done |]. by intros [r [= -> _]].
Qed.

Lemma IsAbs_Clean p : IsAbs p = true -> IsAbs (Clean p) = true.
Proof.
  intros Hp. unfold Clean. destruct (String.eqb_spec p "") as [->|]; [done |]. rewrite Hp.
  apply IsAbs_cons. rewrite append_cons. by eexists.
Qed.

Lemma IsAbs_Dir p : IsAbs p = true -> IsAbs (Dir p) = true.
Proof.
  intros [r ->]%IsAbs_cons. apply IsAbs_Clean, IsAbs_cons. cbn [dir_part].
  assert (Contains (String "/" r) "/" = true) as -> by done. by eexists.
Qed.

Lemma Abs_abs cwd p a : (forall d, cwd = Some d -> IsAbs d = true) -> Abs cwd p = Some a -> IsAbs a = true.
Proof.
  intros Hd. unfold Abs. destruct (IsAbs p) eqn:Hp; [intros [= <-]; by apply IsAbs_Clean |].
  destruct cwd as [d|]; [| done]. specialize (Hd d eq_refl). intros [= <-].
  apply IsAbs_cons in Hd as [r ->]. apply IsAbs_Clean, IsAbs_cons. rewrite append_cons. by eexists.
Qed.

(** ** Loaded configurations *)

(** The form of a configuration that the loader returns. *)
Record wf_config (c : Config_) : Prop := {
  wf_valid : valid c;
  wf_range : cfg_range c;
  wf_timeouts : 0 < DialTimeout (c_VPNStream c) /\ 0 < IdleTimeout (c_VPNStream c)
    /\ 0 < v_ShutdownTimeout (c_VPNStream c);
  wf_access : MaxSizeMB (c_AccessLog c) <> 0 /\ MaxAgeDays (c_AccessLog c) <> 0 /\ MaxBackups (c_AccessLog c) <> 0;
  wf_operational : Level (c_Operational c) <> "" /\ Format (c_Operational c) <> "";
  wf_dir : IsAbs (c_Dir c) = true
}.

Lemma or_Z_zero dflt n : dflt <> 0 -> or_Z 0 dflt n <> 0.
Proof. unfold or_Z. by destruct (Z.eqb_spec n 0). Qed.
Lemma or_str_nonempty dflt s : dflt <> "" -> or_str dflt s <> "".
Proof. unfold or_str. by destruct (String.eqb_spec s ""). Qed.

(** The steps of a successful load. *)
Lemma Load_Ok cwd path data c w :
  LoadWithLogger cwd path data = (Ok c, w) ->
  exists doc probe raw c0 absPath,
    data = Document doc /\ raw_map doc = Some probe /\ probes path probe = None
    /\ dec_struct config_fields doc zero_raw = Some raw /\ toConfig raw = Ok c0 /\ Abs cwd path = Some absPath
    /\ c = applyDefaults (set_Dir (Dir absPath) c0) /\ validate c = (None, w).
Proof.
  unfold LoadWithLogger, finishLoad. destruct data as [| |doc]; try done.
  destruct (raw_map doc) as [probe|] eqn:E1; [| done]. destruct (probes path probe) eqn:E2; [done |].
  destruct (dec_struct config_fields doc zero_raw) as [raw|] eqn:E3; [| done].
  destruct (toConfig raw) as [|c0] eqn:E4; [done |]. destruct (Abs cwd path) as [a|] eqn:E5; [| done].
  cbn zeta. destruct (validate (applyDefaults (set_Dir (Dir a) c0))) as [[|] w'] eqn:E6; [done |].
  intros [= <- <-]. by exists doc, probe, raw, c0, a.
Qed.

Lemma Load_steps cwd path doc probe raw c0 a :
  raw_map doc = Some probe -> probes path probe = None -> dec_struct config_fields doc zero_raw = Some raw ->
  toConfig raw = Ok c0 -> Abs cwd path = Some a ->
  LoadWithLogger cwd path (Document doc)
  = let c := applyDefaults (set_Dir (Dir a) c0) in
    (match fst (validate c) with Some e => Err e | None => Ok c end, snd (validate c)).
Proof.
  intros H1' H2' H3' H4' H5'. unfold LoadWithLogger, finishLoad. rewrite H1', H2', H3', H4', H5'.
  cbn zeta. by destruct (validate _) as [[|] w].
Qed.

Lemma Load_wf cwd path data c w :
  (forall d, cwd = Some d -> IsAbs d = true) -> LoadWithLogger cwd path data = (Ok c, w) -> wf_config c.
Proof.
  intros Hcwd (doc & probe & raw & c0 & a & -> & _ & _ & Hraw & Hc0 & Ha & -> & Hv)%Load_Ok.
  assert (valid (applyDefaults (set_Dir (Dir a) c0))) as Hval by (apply validate_valid; by rewrite Hv).
  assert (cfg_range (applyDefaults (set_Dir (Dir a) c0))) as Hr.
  { apply applyDefaults_range. apply decoded_range in Hraw. by pose proof (toConfig_range _ _ Hraw Hc0). }
  split; [done | done | | | |].
  - destruct Hval as [_ (T1 & T2 & T3)]. cbn in T1, T2, T3 |- *.
    pose proof (or_Z_zero DefaultDialTimeout (DialTimeout (c_VPNStream c0)) ltac:(done)).
    pose proof (or_Z_zero DefaultIdleTimeout (IdleTimeout (c_VPNStream c0)) ltac:(done)).
    pose proof (or_Z_zero DefaultShutdownTimeout (v_ShutdownTimeout (c_VPNStream c0)) ltac:(done)). lia.
  - cbn. split_and!; by apply or_Z_zero.
  - cbn. split; by apply or_str_nonempty.
  - cbn. apply IsAbs_Dir. by eapply Abs_abs.
Qed.

(** C22: What the rest of the daemon may assume of a loaded configuration: every
    check of [validate] holds, every number fits 64 bits, the timeouts of the
    forward proxy are positive (an explicit 0 means the default), and the directory
    is absolute; the loader warns exactly about listen hosts that are IP addresses
    outside loopback. *)
Theorem config_wf cwd path data c w :
  (forall d, cwd = Some d -> IsAbs d = true) ->
  LoadWithLogger cwd path data = (Ok c, w) ->
  wf_config c
  /\ forall field host, (field, host) ∈ w <->
       (field = "vpnstream.listen" /\ hostOf (v_Listen (c_VPNStream c)) = Some host
        \/ field = "api.listen" /\ hostOf (a_Listen (c_API c)) = Some host)
       /\ host <> "" /\ exists ip, ParseIP host = Some ip /\ IsLoopback ip = false.
Proof.
  intros Hcwd Hl. split; [by eapply Load_wf |].
  destruct (Load_Ok _ _ _ _ _ Hl) as (doc & probe & raw & c0 & a & -> & _ & _ & Hraw & Hc0 & Ha & -> & Hv).
  intros field host. unfold validate in Hv. set (c := applyDefaults (set_Dir (Dir a) c0)) in *.
    destruct (hostOf (v_Listen (c_VPNStream c))) as [h1|]; [| done].
    destruct (first_error (stream_checks c)); [done |].
    destruct (hostOf (a_Listen (c_API c))) as [h2|]; [| done]. injection Hv as _ <-.
    assert (forall f h, (field, host) ∈ warnNonLoopback f h <->
      field = f /\ host = h /\ h <> "" /\ exists ip, ParseIP h = Some ip /\ IsLoopback ip = false) as Hw.
    { intros f h. unfold warnNonLoopback. destruct (String.eqb_spec h "") as [->|]; [set_solver |].
      destruct (ParseIP h) as [ip|]; [| set_solver by eauto]. destruct (IsLoopback ip) eqn:E.
      - split; [set_solver |]. intros (_ & _ & _ & ip' & [= <-] & E'). by rewrite E in E'.
      - rewrite list_elem_of_singleton. split; [intros [= -> ->]; by eauto 10 | by intros (-> & -> & _)]. }
    rewrite elem_of_app, !Hw. split.
    + intros [(-> & -> & ? & ?) | (-> & -> & ? & ?)]; auto.
    + intros [[(-> & [= ->]) | (-> & [= ->])] ?]; auto.
Qed.

(** ** Keys that moved *)

Lemma probeKeys_None probe l : probeKeys probe l = None <-> Forall (fun km => probe !! fst km = None) l.
Proof.
  induction l as [|[k m] l IH]; cbn [probeKeys]; [by split |]. rewrite Forall_cons. unfold probeRemovedKey. cbn [fst].
  destruct (probe !! k); [by split; [| intros []] |]. rewrite IH. by split; [| intros []].
Qed.

Lemma raw_map_lookup kvs m k : raw_map (JObj kvs) = Some m -> m !! k = None <-> k ∉ kvs.*1.
Proof.
  intros [= <-]. assert (forall (m : gmap string json),
    fold_left (fun m '(k, v) => <[k := v]> m) kvs m !! k = None <-> m !! k = None /\ k ∉ kvs.*1) as ->.
  { induction kvs as [|[k' v] kvs IH]; intros m; cbn [fold_left fmap list_fmap fst]; [set_solver |].
    rewrite IH, lookup_insert_None, not_elem_of_cons. naive_solver. }
  by rewrite lookup_empty; intuition.
Qed.

(** A nested block of an object, as the probes see it: the last of equal keys. *)
Definition block (kvs : list (string * json)) (key : string) : option (list (string * json)) :=
  match (fold_left (fun m '(k, v) => <[k := v]> m) kvs ∅ : gmap string json) !! key with
  | Some (JObj fs) => Some fs
  | _ => None
  end.

Lemma or_else_None a b : or_else a b = None <-> a = None /\ b = None.
Proof. destruct a; cbn; naive_solver. Qed.

Lemma nested_block kvs key fs m :
  raw_map (JObj kvs) = Some m -> block kvs key = Some fs -> nested m key = raw_map (JObj fs).
Proof.
  intros [= <-]. unfold block, nested. by destruct (_ !! key) as [[]|]; intros [= ->].
Qed.

Lemma probeKeys_absent kvs m l :
  raw_map (JObj kvs) = Some m -> probeKeys m l = None -> forall k, k ∈ l.*1 -> k ∉ kvs.*1.
Proof.
  intros Hm Hl%probeKeys_None k Hk. rewrite <- (raw_map_lookup _ _ _ Hm).
  apply list_elem_of_fmap in Hk as (km & -> & Hk). by apply (proj1 (Forall_forall _ _) Hl).
Qed.

(** Migration.  A document that loads has, in their documented spelling and at
    their documented place, none of the keys that were moved or removed, and no
    [upstream] object: such a key is always reported to the operator. *)
Theorem removed_keys_reported cwd path kvs c w :
  LoadWithLogger cwd path (Document (JObj kvs)) = (Ok c, w) ->
  (forall k, k ∈ "admin" :: movedKeys.*1 -> k ∉ kvs.*1)
  /\ block kvs "upstream" = None
  /\ forall api, block kvs "api" = Some api ->
       (forall k, k ∈ movedAPIKeys.*1 -> k ∉ api.*1)
       /\ (forall auth, block api "auth" = Some auth -> forall k, k ∈ removedAuthKeys.*1 -> k ∉ auth.*1)
       /\ (forall vpn async, block api "vpn" = Some vpn -> block vpn "async" = Some async ->
             forall k, k ∈ removedAsyncKeys.*1 -> k ∉ async.*1).
Proof.
  intros (doc & probe & raw & c0 & a & [= <-] & Hm & Hp & _)%Load_Ok. unfold probes in Hp.
  rewrite !or_else_None in Hp. destruct Hp as (Pa & Pu & Pk & Papi). split_and!.
  - intros k [->|Hk]%elem_of_cons; [| by eapply probeKeys_absent].
    rewrite <- (raw_map_lookup _ _ _ Hm). unfold probeRemovedKey in Pa. by destruct (probe !! "admin").
  - destruct (block kvs "upstream") as [fs|] eqn:E; [| done]. unfold probeUpstream in Pu.
    rewrite (nested_block _ _ _ _ Hm E) in Pu. cbn [raw_map] in Pu. by destruct (_ !! "configs").
  - intros api E. unfold probeAPI in Papi. rewrite (nested_block _ _ _ _ Hm E) in Papi.
    destruct (raw_map (JObj api)) as [ma|] eqn:Ea; [| done]. rewrite !or_else_None in Papi.
    destruct Papi as (P1 & P2 & P3). split_and!.
    + by eapply probeKeys_absent.
    + intros auth Eu. rewrite (nested_block _ _ _ _ Ea Eu) in P3.
      destruct (raw_map (JObj auth)) as [mu|] eqn:Em; [| done]. by eapply probeKeys_absent.
    + intros vpn async Ev Es. rewrite (nested_block _ _ _ _ Ea Ev) in P2.
      destruct (raw_map (JObj vpn)) as [mv|] eqn:Emv; [| done]. rewrite (nested_block _ _ _ _ Emv Es) in P2.
      destruct (raw_map (JObj async)) as [ms|] eqn:Ems; [| done]. by eapply probeKeys_absent.
Qed.

(** The smallest [api] block. *)
Definition auth_block : json := JObj [("proxy_token_file", JStr "p"); ("admin_token_file", JStr "a")].

(** Gaps of the migration checks.  Keys are found by their exact spelling, but
    the decoder ignores case: removed keys inside an [API] block, a top-level
    [Listen], and an [upstream] that is not an object (for which a comment expects a
    parse error later) are dropped without a message, whatever their values; and
    [shutdown_timeout] -1, the mark of an absent value, is taken for the default
    instead of being refused as negative, which -2 is. *)
Theorem migration_gaps cwd path absPath x y n :
  Abs cwd path = Some absPath ->
  (exists c w, LoadWithLogger cwd path (Document (JObj
     [("API", JObj [("tls", x); ("auth", auth_block); ("shutdown_timeout", JNum (-1))]);
      ("Listen", y); ("upstream", JNum n)])) = (Ok c, w)
   /\ v_Listen (c_VPNStream c) = DefaultListen /\ a_ShutdownTimeout (c_API c) = DefaultAPIShutdownTimeout)
  /\ fst (LoadWithLogger cwd path (Document (JObj
       [("api", JObj [("auth", auth_block); ("shutdown_timeout", JNum (-2))])])))
     = Err (EPublic "config.api.shutdown_timeout: must be >= 0").
Proof.
  intros Ha. split.
  - erewrite Load_steps; [| done | by vm_compute | by vm_compute | by vm_compute | exact Ha].
    cbn zeta. match goal with |- context [fst (validate ?c)] => assert (fst (validate c) = None) as -> by done end.
    by do 2 eexists.
  - erewrite Load_steps; [| done | by vm_compute | by vm_compute | by vm_compute | exact Ha]. done.
Qed.

(** ** Writing a configuration down *)

Definition render_stream (s : VPNStream) : json := JObj
  [("listen", JStr (v_Listen s)); ("allowed_countries", JArr (JStr <$> AllowedCountries s));
   ("auth", JObj [("token", JStr (Token (v_Auth s))); ("token_file", JStr (TokenFile (v_Auth s)))]);
   ("reconnect_min", JNum (ReconnectMin s)); ("reconnect_max", JNum (ReconnectMax s));
   ("dial_timeout", JNum (DialTimeout s)); ("idle_timeout", JNum (IdleTimeout s));
   ("shutdown_timeout", JNum (v_ShutdownTimeout s))].

Definition render_access (l : AccessLog) : json := JObj
  [("path", JStr (Path l)); ("max_size_mb", JNum (MaxSizeMB l)); ("max_age_days", JNum (MaxAgeDays l));
   ("max_backups", JNum (MaxBackups l)); ("compress", JBool (Compress l))].

Definition render_vpn (v : APIVPN) : json := JObj
  [("async", JObj [("storage_path", JStr (StoragePath (Async v)))]);
   ("demand", JObj [("grace", JNum (Grace (Demand v))); ("settle_delay", JNum (SettleDelay (Demand v)));
                    ("idle_ttl", JNum (IdleTTL (Demand v)))]);
   ("timeout", JNum (Timeout v)); ("max_timeout", JNum (MaxTimeout v))].

(** A pattern is written as its source text. *)
Definition render_pattern (t : string * PathSanitizePattern) : json :=
  JObj [("pattern", JStr (fst t)); ("replacement", JStr (Replacement (snd t)))].

Definition render_api (texts : list string) (a : API) : json := JObj
  [("listen", JStr (a_Listen a)); ("shutdown_timeout", JNum (a_ShutdownTimeout a));
   ("auth", JObj [("proxy_token_file", JStr (ProxyTokenFile (a_Auth a)));
                  ("admin_token_file", JStr (AdminTokenFile (a_Auth a)))]);
   ("max_request_body_bytes", JNum (MaxRequestBodyBytes a)); ("vpn", render_vpn (VPN a));
   ("log", JObj [("path_sanitize_patterns", JArr (render_pattern <$> zip texts (PathSanitizePatterns (Log a))))])].

Definition render (texts : list string) (c : Config_) : json := JObj
  [("vpnstream", render_stream (c_VPNStream c)); ("access_log", render_access (c_AccessLog c));
   ("operational", JObj [("level", JStr (Level (c_Operational c))); ("format", JStr (Format (c_Operational c)))]);
   ("api", render_api texts (c_API c)); ("tunnel_id_hmac_key_file", JStr (TunnelIDHMACKeyFile c))].

Lemma dec_slice_exact {A} (zero : A) d l a :
  dec_elems zero d l [] = Some a -> dec_slice zero d (JArr l) nil_slice = Some (mkSlice a (length l)).
Proof. intros Hd. destruct l as [|j l]; [by injection Hd as <- |]. unfold dec_slice. cbn [s_array nil_slice]. by rewrite Hd. Qed.

Lemma dec_strings ss : dec_elems "" dec_string (JStr <$> ss) [] = Some ss.
Proof. induction ss as [|s ss IH]; [done |]. cbn. by rewrite IH. Qed.

Definition raw_of_pattern (t : string * PathSanitizePattern) : rawPathSanitizePattern :=
  mkRawPattern (fst t) (Replacement (snd t)).

Lemma dec_patterns l :
  dec_elems zero_pattern (dec_struct pattern_fields) (render_pattern <$> l) [] = Some (raw_of_pattern <$> l).
Proof. induction l as [|t l IH]; [done |]. cbn [fmap list_fmap dec_elems head default tail]. cbn. by rewrite IH. Qed.

Lemma compile_rendered texts ps i :
  Forall2 (fun t p => t <> "" /\ Compile t = Some (Pattern p)) texts ps ->
  compile_patterns i (raw_of_pattern <$> zip texts ps) = Ok ps.
Proof.
  intros Hp. revert i. induction Hp as [|t p texts ps [Ht Hc] Hp IH]; intros i; [done |].
  cbn [zip zip_with fmap list_fmap compile_patterns raw_of_pattern rp_pattern rp_replacement fst snd].
  apply String.eqb_neq in Ht. rewrite Ht, Hc, IH. by destruct p.
Qed.

(** The raw form that decoding [render] gives. *)
Definition raw_stream_of (s : VPNStream) : rawVPNStream :=
  mkRawStream (v_Listen s) (mkSlice (AllowedCountries s) (length (AllowedCountries s)))
    (mkRawAuth (Token (v_Auth s)) (TokenFile (v_Auth s))) (Some (ReconnectMin s)) (Some (ReconnectMax s))
    (DialTimeout s) (IdleTimeout s) (v_ShutdownTimeout s).
Definition raw_access_of (l : AccessLog) : rawAccessLog :=
  mkRawAccess (Path l) (MaxSizeMB l) (MaxAgeDays l) (MaxBackups l) (Some (Compress l)).
Definition raw_vpn_of (v : APIVPN) : rawAPIVPN :=
  mkRawVPN (Some (Some (StoragePath (Async v))))
    (Some (mkRawDemand (Some (Grace (Demand v))) (Some (SettleDelay (Demand v))) (Some (IdleTTL (Demand v)))))
    (Timeout v) (MaxTimeout v).
Definition raw_api_of (texts : list string) (a : API) : rawAPI :=
  let l := raw_of_pattern <$> zip texts (PathSanitizePatterns (Log a)) in
  mkRawAPI (a_Listen a) (Some (a_ShutdownTimeout a)) (a_Auth a) (MaxRequestBodyBytes a)
    (Some (raw_vpn_of (VPN a))) (mkSlice l (length l)).

(** Decode the next key: a number in range, or a value that computes. *)
Lemma on_int64 {A} get (set : Z -> A -> A) n a : in_int64 n -> on get set dec_int64 (JNum n) a = Some (set n a).
Proof. intros Hn. unfold on. by rewrite dec_int64_num. Qed.
Lemma on_duration {A} get (set : Z -> A -> A) n a : in_int64 n -> on get set dec_duration (JNum n) a = Some (set n a).
Proof. intros Hn. unfold on, dec_duration. by rewrite dec_int64_num. Qed.
Lemma on_duration_ptr {A} get (set : option Z -> A -> A) n a :
  in_int64 n -> on get set (dec_ptr 0 dec_duration) (JNum n) a = Some (set (Some n) a).
Proof. intros Hn. unfold on, dec_ptr, dec_duration. by rewrite dec_int64_num. Qed.
Lemma on_ptr {A B} get (set : option B -> A -> A) zero d kvs v a :
  default zero (get a) = zero -> d (JObj kvs) zero = Some v ->
  on get set (dec_ptr zero d) (JObj kvs) a = Some (set (Some v) a).
Proof. intros Hz Hd. unfold on, dec_ptr. by rewrite Hz, Hd. Qed.
Lemma on_plain {A B} get (set : B -> A -> A) d j v a : d j (get a) = Some v -> on get set d j a = Some (set v a).
Proof. intros Hd. unfold on. by rewrite Hd. Qed.

Ltac dec_key :=
  erewrite dec_keys_cons;
  [| reflexivity | first [by apply on_duration_ptr | by apply on_duration | by apply on_int64 | by apply on_plain]].

Ltac norm_stream :=
  cbn [rs_listen rs_countries rs_auth rs_reconnectMin rs_reconnectMax rs_dial rs_idle rs_shutdown zero_stream].

Lemma dec_stream s :
  Forall in_int64 [ReconnectMin s; ReconnectMax s; DialTimeout s; IdleTimeout s; v_ShutdownTimeout s] ->
  dec_struct stream_fields (render_stream s) zero_stream = Some (raw_stream_of s).
Proof.
  rewrite !Forall_cons. intros (? & ? & ? & ? & ? & _). unfold render_stream, dec_struct. dec_key.
  norm_stream. erewrite dec_keys_cons; [| reflexivity | apply on_plain; apply (dec_slice_exact _ _ _ _ (dec_strings _))].
  rewrite length_fmap. norm_stream. do 6 (dec_key; norm_stream). done.
Qed.

Lemma dec_access l :
  Forall in_int64 [MaxSizeMB l; MaxAgeDays l; MaxBackups l] ->
  dec_struct access_fields (render_access l) zero_access = Some (raw_access_of l).
Proof. rewrite !Forall_cons. intros (? & ? & ? & _). unfold render_access, dec_struct. do 5 dec_key. done. Qed.

Lemma dec_vpn v :
  Forall in_int64 [Timeout v; MaxTimeout v; Grace (Demand v); SettleDelay (Demand v); IdleTTL (Demand v)] ->
  dec_struct vpn_fields (render_vpn v) zero_vpn = Some (raw_vpn_of v).
Proof.
  rewrite !Forall_cons. intros (? & ? & ? & ? & ? & _). unfold render_vpn, dec_struct at 1. dec_key.
  erewrite dec_keys_cons; [| reflexivity | apply on_ptr; [done |]; unfold dec_struct; do 3 dec_key; reflexivity].
  do 2 dec_key. done.
Qed.

Lemma dec_api texts a :
  Forall in_int64 [a_ShutdownTimeout a; MaxRequestBodyBytes a; Timeout (VPN a); MaxTimeout (VPN a);
    Grace (Demand (VPN a)); SettleDelay (Demand (VPN a)); IdleTTL (Demand (VPN a))] ->
  dec_struct api_fields (render_api texts a) zero_api = Some (raw_api_of texts a).
Proof.
  rewrite !Forall_cons. intros (? & ? & Hv). unfold render_api, dec_struct at 1. do 4 dec_key.
  erewrite dec_keys_cons; [| reflexivity | apply on_ptr; [done |]; apply dec_vpn; by rewrite !Forall_cons].
  erewrite dec_keys_cons; [| reflexivity |].
  2: { apply on_plain. unfold dec_struct. erewrite dec_keys_cons; [| reflexivity |]; [reflexivity |].
       apply dec_slice_exact, dec_patterns. }
  rewrite length_fmap, <- (length_fmap raw_of_pattern). by destruct a as [? ? [] ? ? ?].
Qed.

Lemma dec_config texts c :
  cfg_range c -> dec_struct config_fields (render texts c) zero_raw
  = Some (mkRaw (raw_stream_of (c_VPNStream c)) (raw_access_of (c_AccessLog c)) (c_Operational c)
            (Some (raw_api_of texts (c_API c))) (Some (TunnelIDHMACKeyFile c))).
Proof.
  unfold cfg_range. rewrite !Forall_cons. intros Hr. decompose [and] Hr. unfold render, dec_struct at 1.
  erewrite dec_keys_cons; [| reflexivity | apply on_plain, dec_stream; rewrite !Forall_cons; auto 10].
  erewrite dec_keys_cons; [| reflexivity | apply on_plain, dec_access; rewrite !Forall_cons; auto 10].
  dec_key.
  erewrite dec_keys_cons; [| reflexivity | apply on_ptr; [done |]; apply dec_api; rewrite !Forall_cons; auto 10].
  dec_key. by destruct c as [? ? [] ? ? ?].
Qed.

Lemma or_Z_id absent dflt n : n <> absent -> or_Z absent dflt n = n.
Proof. intros Hn. unfold or_Z. by destruct (Z.eqb_spec n absent). Qed.
Lemma or_str_id dflt s : s <> "" -> or_str dflt s = s.
Proof. intros Hs. unfold or_str. by destruct (String.eqb_spec s ""). Qed.

(** Defaults do not touch a configuration of the loader's form. *)
Lemma applyDefaults_id c : wf_config c -> applyDefaults c = c.
Proof.
  intros [[] _ Ht Hl Ho _].
  assert (forall s, is_Some (hostOf s) -> s <> "") as Hh by (intros s [? E] ->; done).
  assert (lazyDurationAbsent < 0 /\ apiShutdownAbsent < 0 /\ 0 < minSettleDelay) as (?&?&?) by by vm_compute.
  apply Hh in val_listen0, val_api_listen0. decompose [and] Ht; decompose [and] Hl; decompose [and] Ho.
  unfold applyDefaults. rewrite !or_str_id, !or_Z_id by (done || lia).
  by destruct c as [[] [] [] [? ? ? ? [? [] ? ?] ?] ? ?].
Qed.

Lemma toConfig_rendered texts c :
  TrimSpace (Token (v_Auth (c_VPNStream c))) = Token (v_Auth (c_VPNStream c)) ->
  TrimSpace (TokenFile (v_Auth (c_VPNStream c))) = TokenFile (v_Auth (c_VPNStream c)) ->
  Forall2 (fun t p => t <> "" /\ Compile t = Some (Pattern p)) texts (PathSanitizePatterns (Log (c_API c))) ->
  toConfig (mkRaw (raw_stream_of (c_VPNStream c)) (raw_access_of (c_AccessLog c)) (c_Operational c)
              (Some (raw_api_of texts (c_API c))) (Some (TunnelIDHMACKeyFile c)))
  = Ok (set_Dir "" c).
Proof.
  intros T1 T2 Hp. unfold toConfig.
  cbn [r_stream r_access r_operational r_api r_keyFile raw_stream_of raw_access_of raw_api_of rs_auth ra_token ra_tokenFile
       rs_listen rs_countries rs_reconnectMin rs_reconnectMax rs_dial rs_idle rs_shutdown
       rl_path rl_size rl_age rl_backups rl_compress rw_listen rw_shutdown rw_auth rw_maxBody rw_vpn rw_log default].
  rewrite T1, T2. unfold elems. cbn [s_array s_len]. rewrite !firstn_all, (compile_rendered _ _ _ Hp).
  by destruct c as [[? ? [] ? ? ? ? ?] [] ? [? ? ? ? [[] [] ? ?] []] ? ?].
Qed.

Lemma render_patterns_ok l : forallb integral (render_pattern <$> l) = true /\ 0 <= foldr Z.max 0 (nesting <$> (render_pattern <$> l)) <= 1.
Proof. induction l as [|t l [IH1 IH2]]; [done |]. cbn. split; [done |]. cbn in IH2. lia. Qed.

Lemma render_ok texts c : integral (render texts c) = true /\ nesting (render texts c) <= JsonText.maxNestingDepth.
Proof.
  destruct (json_strings_ok (AllowedCountries (c_VPNStream c))) as [Hc Hcn].
  destruct (render_patterns_ok (zip texts (PathSanitizePatterns (Log (c_API c))))) as [Hp Hpn].
  split.
  - cbn [render integral forallb render_stream render_access render_api render_vpn]. by rewrite Hc, Hp.
  - unfold JsonText.maxNestingDepth.
    assert (nesting (JArr (JStr <$> AllowedCountries (c_VPNStream c))) = 1) as Hc1 by (cbn [nesting]; by rewrite Hcn).
    assert (0 <= nesting (JArr (render_pattern <$> zip texts (PathSanitizePatterns (Log (c_API c))))) <= 2) as Hp1
      by (cbn [nesting]; lia).
    unfold render, render_stream, render_access, render_api, render_vpn.
    remember (JArr (JStr <$> AllowedCountries (c_VPNStream c))) as countries.
    remember (JArr (render_pattern <$> zip texts (PathSanitizePatterns (Log (c_API c))))) as patterns.
    cbn [nesting fmap list_fmap foldr]. rewrite Hc1. clear - Hp1.
    destruct (nesting patterns) as [|[p|[p|p|]|]|]; first [exfalso; lia | by vm_compute].
Qed.

(** C23: Every configuration of the loader's form (whose inline token, token file
    name and patterns are written as the loader keeps them) can be written down:
    loading the JSON text that spells out all its values gives the same
    configuration back, untouched by defaults, if its strings are valid UTF-8. *)
Theorem config_roundtrip cwd path absPath texts c :
  wf_config c ->
  TrimSpace (Token (v_Auth (c_VPNStream c))) = Token (v_Auth (c_VPNStream c)) ->
  TrimSpace (TokenFile (v_Auth (c_VPNStream c))) = TokenFile (v_Auth (c_VPNStream c)) ->
  Forall2 (fun t p => t <> "" /\ Compile t = Some (Pattern p)) texts (PathSanitizePatterns (Log (c_API c))) ->
  Abs cwd path = Some absPath -> Dir absPath = c_Dir c -> utf8_json (render texts c) = true ->
  LoadWithLogger cwd path (parseFile (Some (JsonText.print (render texts c)))) = (Ok c, snd (validate c)).
Proof.
  intros Hwf T1 T2 Hp Ha Hd Hu. unfold parseFile. destruct (render_ok texts c) as [Hi Hn].
  rewrite (Parse_print _ _ Hi Hn), (norm_id _ Hu). pose proof (wf_range c Hwf) as Hr.
  erewrite Load_steps; [| reflexivity | reflexivity | by apply dec_config | by apply toConfig_rendered | exact Ha].
  rewrite Hd. assert (set_Dir (c_Dir c) (set_Dir "" c) = c) as -> by (by destruct c).
  rewrite (applyDefaults_id c Hwf). cbn zeta.
  by rewrite (proj2 (validate_valid c) (wf_valid c Hwf)).
Qed.
End Thms.

(** ** Concrete documents *)
Module ConfigDemo.
#[export] Instance demo_regexp : GoRegexp := {|
  Regexp := string;
  Compile := fun s => if String.eqb s "(" then None else Some s;
  ReplaceAllString := fun _ s _ => s
|}.
#[export] Existing Instance GoTime.TimeDemo.demo_float.
#[export] Existing Instance AddrDemo.demo_addr.

Definition doc : json := JObj
  [("vpnstream", JObj [("listen", JStr "0.0.0.0:7788"); ("allowed_countries", JArr [JStr "se"; JStr "ch"]);
                       ("reconnect_min", JStr "1m")]);
   ("api", JObj [("auth", JObj [("proxy_token_file", JStr "auth/proxy"); ("admin_token_file", JStr "auth/admin")]);
                 ("log", JObj [("path_sanitize_patterns", JArr [JObj [("pattern", JStr "tok=.*")]])]);
                 ("vpn", JObj [("demand", JObj [("grace", JStr "2.5s")])])])].

Definition loaded := LoadWithLogger None "/etc/vpntunnel/proxy.json" (Document doc).
Definition cfg : Config_ := Eval vm_compute in
  match fst loaded as r return match r with Ok _ => Config_ | Err _ => unit end with Ok c => c | Err _ => tt end.

Lemma loaded_cfg : loaded = (Ok cfg, [("vpnstream.listen", "0.0.0.0")]).
Proof. by vm_compute. Qed.

Lemma cfg_wf : wf_config cfg.
Proof.
  assert (fst (validate cfg) = None) as Hv by by vm_compute.
  split; [by apply validate_valid | unfold cfg_range; repeat constructor; by vm_compute | ..]; by vm_compute.
Qed.
End ConfigDemo.
Import ConfigDemo.

Lemma config_wf_witness : wf_config cfg /\ c_Dir cfg = "/etc/vpntunnel"
  /\ Grace (Demand (VPN (c_API cfg))) = 2500 * Millisecond /\ ReconnectMax (c_VPNStream cfg) = 3 * Hour.
Proof.
  split; [| by vm_compute].
  refine (proj1 (config_wf None "/etc/vpntunnel/proxy.json" (Document doc) cfg _ _ loaded_cfg)); discriminate.
Defined.

Lemma removed_keys_reported_witness : "listen" ∉ ["vpnstream"; "api"].
Proof.
  refine (proj1 (removed_keys_reported None "/etc/vpntunnel/proxy.json" _ cfg _ loaded_cfg) "listen" _).
  apply elem_of_cons. right. by left.
Defined.

Lemma migration_gaps_witness :
  exists c w, LoadWithLogger None "/p.json" (Document (JObj
     [("API", JObj [("tls", JNull); ("auth", auth_block); ("shutdown_timeout", JNum (-1))]);
      ("Listen", JStr "0.0.0.0:1"); ("upstream", JNum 5)])) = (Ok c, w)
   /\ v_Listen (c_VPNStream c) = DefaultListen /\ a_ShutdownTimeout (c_API c) = DefaultAPIShutdownTimeout.
Proof. exact (proj1 (migration_gaps None "/p.json" "/p.json" JNull (JStr "0.0.0.0:1") 5 eq_refl)). Defined.

Lemma config_roundtrip_witness :
  LoadWithLogger None "/etc/vpntunnel/x.json" (parseFile (Some (JsonText.print (render ["tok=.*"] cfg)))) = (Ok cfg, snd (validate cfg)).
Proof.
  apply (config_roundtrip None "/etc/vpntunnel/x.json" "/etc/vpntunnel/x.json" ["tok=.*"] cfg cfg_wf); try reflexivity.
  constructor; [by split | constructor].
Defined.
