(* ===== verification/KeyFile.v ===== *)
(** * The HMAC key file ([tools/hmackey/keyfile.go])

    The file system is a map from paths to mode and content.  Random bytes and the
    results of the calls that can fail are arguments. *)

From S2P Require Import Prelude GoStrings GoText Domain.

Module KeyFile.

Record file := mkFile { f_perm : Z; f_data : string }.
Notation fs := (gmap string file).

(** 0600. *)
Definition perm_600 : Z := 384.
Definition keyLen : nat := 64.

Inductive keyError :=
| EOpenKey | EGenerate | EWriteKey | ECloseKey | EStatKey | EReadKey
| EKeyMode (perm : Z)
| EKeyLength (n : nat).

(** What the system calls answer: whether the file can be created when it is absent,
    the random bytes, how many bytes [Write] writes ([None] for all of them), and
    whether [Close], [Stat] and [ReadFile] succeed. *)
Record answers := mkAns {
  canCreate : bool;
  rand : option string;
  short : option nat;
  closeOk : bool;
  statOk : bool;
  readOk : bool
}.

Definition loadExistingKey (a : answers) (f : file) : res keyError string :=
  if negb (statOk a) then Err EStatKey
  else if negb (f_perm f =? perm_600) then Err (EKeyMode (f_perm f))
  else if negb (readOk a) then Err EReadKey
  else if negb (Nat.eqb (String.length (f_data f)) keyLen) then Err (EKeyLength (String.length (f_data f)))
  else Ok (f_data f).

Definition resolve (path configDir : string) : string :=
  if IsAbs path then path else JoinPath configDir path.

Definition LoadOrGenerate (a : answers) (path configDir : string) (s : fs) : res keyError string * fs :=
  let path := resolve path configDir in
  match s !! path with
  | Some f => (loadExistingKey a f, s)
  | None =>
      if negb (canCreate a) then (Err EOpenKey, s)
      else
        (* the placeholder exists from here on *)
        let s1 := <[path := mkFile perm_600 ""]> s in
        match rand a with
        | None => (Err EGenerate, delete path s1)
        | Some k =>
            match short a with
            | Some n => (Err EWriteKey, delete path (<[path := mkFile perm_600 (slice_to k n)]> s1))
            | None =>
                let s2 := <[path := mkFile perm_600 k]> s1 in
                if negb (closeOk a) then (Err ECloseKey, s2) else (Ok k, s2)
            end
        end
  end.

(** Random bytes come in the length asked for. *)
Definition rand_ok (a : answers) : Prop := match rand a with Some k => String.length k = keyLen | None => True end.

(** A start that works. *)
Definition good (a : answers) : Prop := statOk a = true /\ readOk a = true.

Lemma LoadOrGenerate_spec a path dir s k s' :
  rand_ok a -> LoadOrGenerate a path dir s = (Ok k, s') ->
  String.length k = keyLen /\ s' !! resolve path dir = Some (mkFile perm_600 k)
  /\ (s !! resolve path dir <> None -> s' = s).
Proof.
  unfold LoadOrGenerate. cbn zeta. intros Hr. destruct (s !! resolve path dir) as [[perm data]|] eqn:Hs.
  - unfold loadExistingKey. cbn [f_perm f_data]. destruct (statOk a); [| done]. cbn [negb].
    destruct (Z.eqb_spec perm perm_600) as [->|]; [| done]. cbn [negb]. destruct (readOk a); [| done]. cbn [negb].
    destruct (Nat.eqb_spec (String.length data) keyLen); [| done]. intros [= <- <-]. done.
  - destruct (canCreate a); [| done]. cbn [negb]. unfold rand_ok in Hr. destruct (rand a) as [r|]; [| done].
    destruct (short a); [done |]. destruct (closeOk a); [| done]. intros [= <- <-].
    split_and!; [done | | done]. by apply lookup_insert_eq.
Qed.

(** A start that finds a key file of the right form. *)
Lemma LoadOrGenerate_again a path dir s k :
  good a -> String.length k = keyLen -> s !! resolve path dir = Some (mkFile perm_600 k) ->
  LoadOrGenerate a path dir s = (Ok k, s).
Proof.
  intros [Hst Hrd] Hk Hs. unfold LoadOrGenerate. cbn zeta. rewrite Hs. unfold loadExistingKey. cbn [f_perm f_data].
  by rewrite Hst, Hrd, Hk.
Qed.
End KeyFile.
Import KeyFile.

(** The key of the tunnel ids is generated once.  A successful start returns 64
    bytes that the file then holds with mode 0600; every later start (whatever
    random bytes it would draw) returns the same key and leaves the files alone; a
    start that fails leaves no file of another length behind. *)
Theorem hmac_key_stable a path dir s k s' :
  rand_ok a ->
  (LoadOrGenerate a path dir s = (Ok k, s') ->
     String.length k = keyLen /\ forall a', good a' -> LoadOrGenerate a' path dir s' = (Ok k, s'))
  /\ (forall e, LoadOrGenerate a path dir s = (Err e, s') -> s !! resolve path dir = None ->
        s' = s \/ e = ECloseKey /\ exists k, String.length k = keyLen /\ s' = <[resolve path dir := mkFile perm_600 k]> s).
Proof.
  intros Hr. split.
  - intros Hl. destruct (LoadOrGenerate_spec _ _ _ _ _ _ Hr Hl) as (Hk & Hs & _). split; [done |].
    intros a' Hg. by apply LoadOrGenerate_again.
  - intros e Hl Hn. unfold LoadOrGenerate in Hl. cbn zeta in Hl. rewrite Hn in Hl. unfold rand_ok in Hr.
    destruct (canCreate a); cbn [negb] in Hl; [| simplify_eq; by left].
    destruct (rand a) as [r|]; [| injection Hl as <- <-; left; by apply delete_insert_id].
    destruct (short a).
    + injection Hl as <- <-. left. rewrite insert_insert_eq. by apply delete_insert_id.
    + destruct (closeOk a); cbn [negb] in Hl; [done |]. injection Hl as <- <-. right. split; [done |].
      exists r. by rewrite insert_insert_eq.
Qed.

Module KeyDemo.
Definition k0 : string := "0123456789abcdef0123456789abcdef0123456789abcdef0123456789abcdef".
Definition a0 : answers := mkAns true (Some k0) None true true true.
Definition s1 : fs := {[ "/etc/auth/tunnel-id.key" := mkFile perm_600 k0 ]}.
End KeyDemo.
Import KeyDemo.

Lemma hmac_key_stable_witness :
  LoadOrGenerate a0 "./auth/tunnel-id.key" "/etc" ∅ = (Ok k0, s1)
  /\ LoadOrGenerate (mkAns true (Some "other") None true true true) "./auth/tunnel-id.key" "/etc" s1 = (Ok k0, s1).
Proof.
  split; [reflexivity |].
  refine (proj2 (proj1 (hmac_key_stable a0 "./auth/tunnel-id.key" "/etc" ∅ k0 s1 _) _) _ _); [reflexivity | reflexivity | by split].
Defined.
