(* ===== verification/WgConf.v ===== *)
(** * The wg-quick parser ([infrastructure/wireguard/wgconf/wgconf.go])

    [parse] runs over the lines of a file; its state is the record [parser] with
    the fields of the Go struct.  A file is its content ([None] if it cannot be
    opened).  Warnings about unknown keys go to the log and are not modelled; an
    error keeps its cause and not its text. *)

From S2P Require Import Prelude GoStrings GoText Http.

(** [wgtypes.ParseKey], [Key.String] and [Key.PublicKey]: a key prints as one
    word of base64 text and parses back. *)
Class KeyText := {
  ParseKey : string -> option string;
  Key_String : string -> string;
  Key_PublicKey : string -> string;
  key_ok (k : string) : Prop := String.length k = 32%nat;
  ParseKey_ok : forall s k, ParseKey s = Some k -> key_ok k;
  PublicKey_ok : forall k, key_ok k -> key_ok (Key_PublicKey k);
  ParseKey_String : forall k, key_ok k -> ParseKey (Key_String k) = Some k;
  Key_String_word : forall k, key_ok k ->
    TrimSpace (Key_String k) = Key_String k /\ Contains (Key_String k) newline = false
    /\ Contains (Key_String k) "#" = false /\ String.length (Key_String k) = 44%nat
}.

Module WgConf.

Record InterfaceSection := mkInterface {
  PrivateKey : string;
  Addresses : list Prefix;
  DNS : list Addr;
  MTU : Z
}.

Record PeerSection := mkPeer {
  PublicKey : string;
  Endpoint : string;
  AllowedIPs : list Prefix;
  PersistentKeepaliveSeconds : Z;
  PresharedKey : string
}.

Record ParsedConfig := mkParsed { Interface : InterfaceSection; Peer : PeerSection }.

Definition warnAndSkipKeys : list string :=
  ["preup"; "postup"; "predown"; "postdown"; "table"; "fwmark"; "saveconfig"; "listenport"].

Definition sectionInterface : string := "[Interface]".
Definition sectionPeer : string := "[Peer]".
Definition defaultMTU : Z := 1420.
Definition defaultKeepalive : Z := 25.
Definition keepaliveUnset : Z := -1.
(** 10.64.0.1, 0.0.0.0/0 and ::/0. *)
Definition defaultDNS : Addr := V4 (10 * 2 ^ 24 + 64 * 2 ^ 16 + 1).
Definition defaultAllowedIPs : list Prefix := [mkPrefix (V4 0) 0; mkPrefix (V6 0 "") 0].

Record parser := mkParser {
  currentSection : string;
  peerCount : Z;
  i_privateKey : string;
  i_addresses : list Prefix;
  i_dns : list Addr;
  i_mtu : Z;
  p_publicKey : string;
  p_endpoint : string;
  p_allowedIPs : list Prefix;
  p_keepalive : Z;
  p_presharedKey : string;
  seenInterface : bool;
  seenPeer : bool;
  keepaliveSet : bool
}.

Definition newParser : parser :=
  mkParser "" 0 "" [] [] 0 "" "" [] keepaliveUnset "" false false false.

Inductive wgError :=
| EOpen
| ERead
| EMultiPeer
| EUnknownSection (line : string)
| EValue (key : string)
| EMissing (what : string).

(** ** Assignments to the parser's fields *)

Definition set_section (s : string) (n : Z) (si sp : bool) (p : parser) : parser :=
  mkParser s n (i_privateKey p) (i_addresses p) (i_dns p) (i_mtu p) (p_publicKey p) (p_endpoint p)
    (p_allowedIPs p) (p_keepalive p) (p_presharedKey p) si sp (keepaliveSet p).
Definition set_iface (key : string) (addrs : list Prefix) (dns : list Addr) (mtu : Z) (p : parser) : parser :=
  mkParser (currentSection p) (peerCount p) key addrs dns mtu (p_publicKey p) (p_endpoint p)
    (p_allowedIPs p) (p_keepalive p) (p_presharedKey p) (seenInterface p) (seenPeer p) (keepaliveSet p).
Definition set_peer (key endpoint : string) (allowed : list Prefix) (ka : Z) (psk : string) (kset : bool)
    (p : parser) : parser :=
  mkParser (currentSection p) (peerCount p) (i_privateKey p) (i_addresses p) (i_dns p) (i_mtu p)
    key endpoint allowed ka psk (seenInterface p) (seenPeer p) kset.

Section Parse.
Context `{GoUnicode, AddrText}.

(** [parseCommaSeparatedPrefixes] and [parseCommaSeparatedAddrs]. *)
Fixpoint parse_parts {A} (parse1 : string -> option A) (parts : list string) : option (list A) :=
  match parts with
  | [] => Some []
  | part :: rest =>
      let part := TrimSpace part in
      if String.eqb part "" then parse_parts parse1 rest
      else match parse1 part with
           | None => None
           | Some a => cons a <$> parse_parts parse1 rest
           end
  end.
Definition parseCommaSeparatedPrefixes (val : string) : option (list Prefix) :=
  parse_parts ParsePrefix (Split val ",").
Definition parseCommaSeparatedAddrs (val : string) : option (list Addr) :=
  parse_parts ParseAddr (Split val ",").

Definition handleSection (line : string) (p : parser) : res wgError parser :=
  if String.eqb line sectionInterface then
    Ok (set_section sectionInterface (peerCount p) true (seenPeer p) p)
  else if String.eqb line sectionPeer then
    let n := peerCount p + 1 in
    if 1 <? n then Err EMultiPeer
    else Ok (set_section sectionPeer n (seenInterface p) true p)
  else Err (EUnknownSection line).

Definition handleInterfaceKey (lower rawVal : string) (p : parser) : res wgError parser :=
  if String.eqb lower "privatekey" then
    Ok (set_iface rawVal (i_addresses p) (i_dns p) (i_mtu p) p)
  else if String.eqb lower "address" then
    match parseCommaSeparatedPrefixes rawVal with
    | None => Err (EValue "Address")
    | Some l => Ok (set_iface (i_privateKey p) (i_addresses p ++ l) (i_dns p) (i_mtu p) p)
    end
  else if String.eqb lower "dns" then
    match parseCommaSeparatedAddrs rawVal with
    | None => Err (EValue "DNS")
    | Some l => Ok (set_iface (i_privateKey p) (i_addresses p) (i_dns p ++ l) (i_mtu p) p)
    end
  else if String.eqb lower "mtu" then
    match Atoi rawVal with
    | None => Err (EValue "MTU")
    | Some v => Ok (set_iface (i_privateKey p) (i_addresses p) (i_dns p) v p)
    end
  else Ok p.

Definition handlePeerKey (lower rawVal : string) (p : parser) : res wgError parser :=
  if String.eqb lower "publickey" then
    Ok (set_peer rawVal (p_endpoint p) (p_allowedIPs p) (p_keepalive p) (p_presharedKey p) (keepaliveSet p) p)
  else if String.eqb lower "endpoint" then
    Ok (set_peer (p_publicKey p) rawVal (p_allowedIPs p) (p_keepalive p) (p_presharedKey p) (keepaliveSet p) p)
  else if String.eqb lower "allowedips" then
    match parseCommaSeparatedPrefixes rawVal with
    | None => Err (EValue "AllowedIPs")
    | Some l =>
        Ok (set_peer (p_publicKey p) (p_endpoint p) (p_allowedIPs p ++ l) (p_keepalive p) (p_presharedKey p)
              (keepaliveSet p) p)
    end
  else if String.eqb lower "persistentkeepalive" then
    match Atoi rawVal with
    | None => Err (EValue "PersistentKeepalive")
    | Some v => Ok (set_peer (p_publicKey p) (p_endpoint p) (p_allowedIPs p) v (p_presharedKey p) true p)
    end
  else if String.eqb lower "presharedkey" then
    Ok (set_peer (p_publicKey p) (p_endpoint p) (p_allowedIPs p) (p_keepalive p) rawVal (keepaliveSet p) p)
  else Ok p.

Definition handleKey (rawKey rawVal : string) (p : parser) : res wgError parser :=
  let lower := ToLower rawKey in
  if bool_decide (lower ∈ warnAndSkipKeys) then Ok p
  else if String.eqb (currentSection p) sectionInterface then handleInterfaceKey lower rawVal p
  else if String.eqb (currentSection p) sectionPeer then handlePeerKey lower rawVal p
  else Ok p.

(** One iteration of the scan loop. *)
Definition parse_line (text : string) (p : parser) : res wgError parser :=
  let line := match IndexByte text "#" with Some idx => slice_to text idx | None => text end in
  let line := TrimSpace line in
  if String.eqb line "" then Ok p
  else if HasPrefix line "[" then handleSection line p
  else match IndexByte line "=" with
       | None => Ok p
       | Some eq => handleKey (TrimSpace (slice_to line eq)) (TrimSpace (slice_from line (S eq))) p
       end.

Fixpoint parse_lines (lines : list string) (p : parser) : res wgError parser :=
  match lines with
  | [] => Ok p
  | raw :: rest =>
      if too_long raw then Err ERead
      else let? p' := parse_line (dropCR raw) p in parse_lines rest p'
  end.

Definition build (p : parser) : res wgError ParsedConfig :=
  if negb (seenInterface p) then Err (EMissing "[Interface]")
  else if negb (seenPeer p) then Err (EMissing "[Peer]")
  else if String.eqb (i_privateKey p) "" then Err (EMissing "PrivateKey")
  else match i_addresses p with
  | [] => Err (EMissing "Address")
  | _ =>
    if String.eqb (p_publicKey p) "" then Err (EMissing "PublicKey")
    else if String.eqb (p_endpoint p) "" then Err (EMissing "Endpoint")
    else
      let dns := match i_dns p with [] => [defaultDNS] | l => l end in
      let mtu := if i_mtu p =? 0 then defaultMTU else i_mtu p in
      let allowed := match p_allowedIPs p with [] => defaultAllowedIPs | l => l end in
      let keepalive := if keepaliveSet p then p_keepalive p else defaultKeepalive in
      Ok (mkParsed (mkInterface (i_privateKey p) (i_addresses p) dns mtu)
            (mkPeer (p_publicKey p) (p_endpoint p) allowed keepalive (p_presharedKey p)))
  end.

Definition parse (body : string) : res wgError ParsedConfig :=
  let? p := parse_lines (rawLines body) newParser in build p.

Definition Parse (file : option string) : res wgError ParsedConfig :=
  match file with None => Err EOpen | Some body => parse body end.
End Parse.
End WgConf.
