(* ===== verification/ConfGen.v ===== *)
(** * The config generator ([cmd/generatevpnconfig/main.go])

    Prompts read from the list of input lines that the scanner still has to give;
    [readErr] tells whether the scanner then ends with an error instead of at the
    end of the input.  What is printed is not modelled.  The directory of configs is
    a map from path to content ([files]).  A zip archive is the list of its entries, each with the
    content it decompresses to ([None] if it cannot be read).  The WireGuard key
    type of [wgtypes] is the class [KeyText]. *)

From S2P Require Import Prelude GoStrings GoText Http WgConf.
Import WgConf.

Module ConfGen.

Definition zipMaxEntries : nat := Nat.mul 2 1024.
Definition zipMaxEntryBytes : Z := 8 * 1024.

Inductive genError :=
| ENoInput
| EReadInput
| EName
| EDirectory
| EEscapes
| EExists
| EWrite
| EMalformed (e : wgError)
| ETooManyEntries
| EZipName
| EZipEntry
| EZipEmpty
| ENoInterface
| EKeyInvalid
| EMixedKeys.

(** ** Field checks *)

Definition safe_char (c : ascii) : bool :=
  is_upper c || is_lower c || is_digit c || Ascii.eqb c "." || Ascii.eqb c "_" || Ascii.eqb c "-".

(** [^[A-Za-z0-9._-]+$] *)
Definition safeNameRe (s : string) : bool := negb (String.eqb s "") && string_forallb safe_char s.

Definition applyPrefix (prefix name : string) : string :=
  if String.eqb prefix "" then name
  else TrimRight prefix ["-"%char; "_"%char; "."%char] +:+ "-" +:+ name.

Definition backslash : ascii := Ascii.ascii_of_nat 92.

(** [true] for a nil error. *)
Definition validateName (name : string) : bool :=
  if String.eqb name "" then false
  else if String.eqb name "." || String.eqb name ".." then false
  else if Contains name "/" || Contains name backslash then false
  else if HasPrefix name "." then false
  else safeNameRe name.

Section Fields.
Context `{AddrText, KeyText}.

Definition validateAddress (addr : string) : bool :=
  match ParsePrefix addr with
  | None => false
  | Some p => p_bits p =? BitLen (p_addr p)
  end.

Definition normalizeAddress (addr : string) : option string :=
  if Contains addr "/" then Some addr
  else match ParseAddr addr with
       | None => None
       | Some a => Some (if Is4 a then addr +:+ "/32" else addr +:+ "/128")
       end.

Definition validatePeerPublicKey (key : string) : bool := bool_decide (is_Some (ParseKey key)).

Definition validateEndpoint (ep : string) : bool :=
  match SplitHostPort ep with
  | None => false
  | Some (host, portStr) =>
      if String.eqb host "" then false
      else match Atoi portStr with
           | None => false
           | Some port => negb ((port <? 1) || (65535 <? port))
           end
  end.

Definition validateDNS (dns : string) : bool := bool_decide (is_Some (ParseAddr dns)).

(** The loop over the parts: an error, or the number of valid ones. *)
Fixpoint count_valid (parts : list string) : option nat :=
  match parts with
  | [] => Some 0%nat
  | p :: rest =>
      let p := TrimSpace p in
      if String.eqb p "" then count_valid rest
      else match ParsePrefix p with
           | None => None
           | Some _ => S <$> count_valid rest
           end
  end.
Definition validateAllowedIPs (val : string) : bool :=
  match count_valid (Split val ",") with Some (S _) => true | _ => false end.

(** ** Prompts *)

Definition no_input (readErr : bool) : genError := if readErr then EReadInput else ENoInput.

Fixpoint promptRequired (readErr : bool) (validate : string -> bool) (input : list string)
    : res genError (string * list string) :=
  match input with
  | [] => Err (no_input readErr)
  | text :: input' =>
      let val := TrimSpace text in
      if String.eqb val "" then promptRequired readErr validate input'
      else if validate val then Ok (val, input')
      else promptRequired readErr validate input'
  end.

Fixpoint promptOptional (readErr : bool) (defaultVal : string) (validate : string -> bool) (input : list string)
    : res genError (string * list string) :=
  match input with
  | [] => if readErr then Err EReadInput else Ok (defaultVal, [])
  | text :: input' =>
      let val := TrimSpace text in
      if String.eqb val "" then Ok (defaultVal, input')
      else if validate val then Ok (val, input')
      else promptOptional readErr defaultVal validate input'
  end.

Fixpoint promptAddress (readErr : bool) (input : list string) : res genError (string * list string) :=
  match input with
  | [] => Err (no_input readErr)
  | text :: input' =>
      let raw := TrimSpace text in
      if String.eqb raw "" then promptAddress readErr input'
      else match normalizeAddress raw with
           | None => promptAddress readErr input'
           | Some normalized =>
               if validateAddress normalized then Ok (normalized, input') else promptAddress readErr input'
           end
  end.

(** ** Writing *)

Definition buildConfBody (privateKey address peerPublicKey endpoint dns allowedIPs : string) : string :=
  "[Interface]" +:+ NL +:+
  "PrivateKey = " +:+ privateKey +:+ NL +:+
  "Address = " +:+ address +:+ NL +:+
  "DNS = " +:+ dns +:+ NL +:+
  NL +:+
  "[Peer]" +:+ NL +:+
  "PublicKey = " +:+ peerPublicKey +:+ NL +:+
  "AllowedIPs = " +:+ allowedIPs +:+ NL +:+
  "Endpoint = " +:+ endpoint +:+ NL.

Record runConfig := mkRun { dir : string; force : bool; prefix : string }.

(** [mkdir] is the result of [os.MkdirAll]. *)
Definition resolveOutputPath (cfg : runConfig) (mkdir : bool) (files : gmap string string) (name : string)
    : res genError string :=
  if negb mkdir then Err EDirectory
  else
    let outPath := JoinPath (dir cfg) (name +:+ ".conf") in
    if negb (String.eqb (Dir outPath) (Clean (dir cfg))) then Err EEscapes
    else if bool_decide (is_Some (files !! outPath)) && negb (force cfg) then Err EExists
    else Ok outPath.

(** [runManualMode]: the fields, then the file, then the round trip through the
    parser; [written] is the result of the atomic write. *)
Definition collectFields (readErr : bool) (input : list string)
    : res genError (string * string * string * string * string * string) :=
  let? (name, input) := promptRequired readErr validateName input in
  let? (address, input) := promptAddress readErr input in
  let? (peerPubKey, input) := promptRequired readErr validatePeerPublicKey input in
  let? (endpoint, input) := promptRequired readErr validateEndpoint input in
  let? (dns, input) := promptOptional readErr "10.64.0.1" validateDNS input in
  let? (allowedIPs, input) := promptOptional readErr "0.0.0.0/0, ::/0" validateAllowedIPs input in
  Ok (name, address, peerPubKey, endpoint, dns, allowedIPs).

Definition runManualMode `{GoUnicode} (cfg : runConfig) (key : string) (mkdir written : bool)
    (files : gmap string string) (readErr : bool) (input : list string)
    : res genError ParsedConfig * gmap string string :=
  match collectFields readErr input with
  | Err e => (Err e, files)
  | Ok (name, address, peerPubKey, endpoint, dns, allowedIPs) =>
      match resolveOutputPath cfg mkdir files name with
      | Err e => (Err e, files)
      | Ok outPath =>
          let confBody := buildConfBody (Key_String key) address peerPubKey endpoint dns allowedIPs in
          if negb written then (Err EWrite, files)
          else
            let files := <[outPath := confBody]> files in
            match Parse (files !! outPath) with
            | Err e => (Err (EMalformed e), files)
            | Ok parsed => (Ok parsed, files)
            end
      end
  end.
End Fields.

(** ** Zip archives *)

Record zipFile := mkZipFile { z_name : string; z_isDir : bool; z_content : option string }.
Record zipConf := mkZipConf { zc_name : string; zc_body : string }.

(** [readZipEntry]: one byte more than the cap is read to detect an oversize entry. *)
Definition readZipEntry (f : zipFile) : option string :=
  match z_content f with
  | None => None
  | Some data => if zipMaxEntryBytes <? Z.of_nat (String.length data) then None else Some data
  end.

Fixpoint readZip_loop (fs : list zipFile) (entries : list zipConf) : res genError (list zipConf) :=
  match fs with
  | [] => Ok entries
  | f :: fs' =>
      if z_isDir f then readZip_loop fs' entries
      else
        let base := Base (z_name f) in
        if negb (EqualFold (Ext base) ".conf") then readZip_loop fs' entries
        else if Nat.leb zipMaxEntries (length entries) then Err ETooManyEntries
        else
          let candidateName := TrimSuffix base (Ext base) in
          if negb (validateName candidateName) then Err EZipName
          else match readZipEntry f with
               | None => Err EZipEntry
               | Some body => readZip_loop fs' (entries ++ [mkZipConf candidateName body])
               end
  end.
Definition readZipEntries (fs : list zipFile) : res genError (list zipConf) :=
  let? entries := readZip_loop fs [] in
  match entries with [] => Err EZipEmpty | _ => Ok entries end.

(** ** The private key of a config *)

(** The trimmed value if [raw] is a [PrivateKey = value] line. *)
Definition key_line `{GoUnicode} (raw : string) : option string :=
  match IndexByte raw "=" with
  | None => None
  | Some eq =>
      if String.eqb (ToLower (TrimSpace (slice_to raw eq))) "privatekey"
      then Some (TrimSpace (slice_from raw (S eq))) else None
  end.

Definition is_header (raw : string) : bool := HasPrefix (TrimSpace raw) "[".
Definition is_interface (raw : string) : bool := EqualFold (TrimSpace raw) "[Interface]".

Fixpoint extract_loop `{GoUnicode} (inInterface : bool) (lines : list string) : string :=
  match lines with
  | [] => ""
  | raw :: rest =>
      if is_header raw then extract_loop (is_interface raw) rest
      else if negb inInterface then extract_loop inInterface rest
      else match key_line raw with
           | Some v => v
           | None => extract_loop inInterface rest
           end
  end.
Definition extractInterfacePrivateKey `{GoUnicode} (confBody : string) : string :=
  extract_loop false (Split confBody newline).

Record injectState := mkInject {
  inInterface : bool;
  seenIface : bool;
  injected : bool;
  ifaceHeaderIdx : nat
}.

(** The loop of [injectPrivateKey] from line number [i] on: the lines it leaves. *)
Fixpoint inject_loop `{GoUnicode} (line : string) (i : nat) (st : injectState) (lines : list string)
    : list string * injectState :=
  match lines with
  | [] => ([], st)
  | raw :: rest =>
      if is_header raw then
        let st' := if is_interface raw then mkInject true true (injected st) i
                   else mkInject false (seenIface st) (injected st) (ifaceHeaderIdx st) in
        let '(rest', fin) := inject_loop line (S i) st' rest in (raw :: rest', fin)
      else if inInterface st && negb (injected st) && bool_decide (is_Some (key_line raw)) then
        let st' := mkInject (inInterface st) (seenIface st) true (ifaceHeaderIdx st) in
        let '(rest', fin) := inject_loop line (S i) st' rest in (line :: rest', fin)
      else let '(rest', fin) := inject_loop line (S i) st rest in (raw :: rest', fin)
  end.

Definition injectPrivateKey `{GoUnicode} (confBody privateKey : string) : res genError string :=
  let line := "PrivateKey = " +:+ privateKey in
  let '(lines, st) := inject_loop line 0 (mkInject false false false 0) (Split confBody newline) in
  if negb (seenIface st) then Err ENoInterface
  else if injected st then Ok (Join lines NL)
  else Ok (Join (take (S (ifaceHeaderIdx st)) lines ++ [line] ++ drop (S (ifaceHeaderIdx st)) lines) NL).

Section Zip.
Context `{GoUnicode, KeyText}.

(** [prepareEntries]: name, body and the common public key ([""] at first). *)
Definition prepareEntry (cfg : runConfig) (key : string) (entry : zipConf)
    : res genError (string * string * string) :=
  let outName := applyPrefix (prefix cfg) (zc_name entry) in
  if negb (validateName outName) then Err EName
  else
    let privStr := extractInterfacePrivateKey (zc_body entry) in
    let? (body, privStr) :=
      match ParseKey privStr with
      | Some _ => Ok (zc_body entry, privStr)
      | None =>
          let? injected := injectPrivateKey (zc_body entry) (Key_String key) in
          Ok (injected, Key_String key)
      end in
    match ParseKey privStr with
    | None => Err EKeyInvalid
    | Some priv => Ok (outName, body, Key_String (Key_PublicKey priv))
    end.

Fixpoint prepareEntries (cfg : runConfig) (key : string) (entries : list zipConf) (resultPub : string)
    : res genError (list (string * string) * string) :=
  match entries with
  | [] => Ok ([], resultPub)
  | entry :: rest =>
      let? (outName, body, pub) := prepareEntry cfg key entry in
      if negb (String.eqb resultPub "") && negb (String.eqb pub resultPub) then Err EMixedKeys
      else
        let? (prepared, final) := prepareEntries cfg key rest (if String.eqb resultPub "" then pub else resultPub) in
        Ok ((outName, body) :: prepared, final)
  end.

(** The second pass of [ingestZip]: files written before an error stay. *)
Fixpoint writeAll `{AddrText} (cfg : runConfig) (mkdir : bool) (written : string -> bool)
    (prepared : list (string * string)) (files : gmap string string)
    : res genError (list string) * gmap string string :=
  match prepared with
  | [] => (Ok [], files)
  | (name, body) :: rest =>
      match resolveOutputPath cfg mkdir files name with
      | Err e => (Err e, files)
      | Ok outPath =>
          if negb (written outPath) then (Err EWrite, files)
          else
            let files := <[outPath := body]> files in
            match Parse (files !! outPath) with
            | Err e => (Err (EMalformed e), files)
            | Ok _ =>
                match writeAll cfg mkdir written rest files with
                | (Err e, files') => (Err e, files')
                | (Ok names, files') => (Ok (name :: names), files')
                end
            end
      end
  end.

Definition ingestZip `{AddrText} (cfg : runConfig) (key : string) (mkdir : bool) (written : string -> bool)
    (archive : list zipFile) (files : gmap string string)
    : res genError (list string) * gmap string string :=
  match readZipEntries archive with
  | Err e => (Err e, files)
  | Ok entries =>
      match prepareEntries cfg key entries "" with
      | Err e => (Err e, files)
      | Ok (prepared, _) => writeAll cfg mkdir written prepared files
      end
  end.
End Zip.
End ConfGen.
