(* ===== verification/ConfThms.v ===== *)
(** * Theorems of the config parser and the generator

    What the generator writes the daemon's parser reads back; injecting a private
    key is seen by the extraction and changes nothing else. *)

From S2P Require Import Prelude GoStrings GoText Base64 Domain Eligible Http WgConf ConfGen.
Import WgConf ConfGen.

(** The text a field of a config can hold without being cut or folded. *)
Definition field (v : string) : Prop :=
  TrimSpace v = v /\ v <> "" /\ Contains v newline = false /\ Contains v "#" = false
  /\ Z.of_nat (String.length v) < 65000.

(** A key: letters only, of the length of the program's keys. *)
Definition key_text (k : string) : Prop :=
  match k with
  | "" => False
  | String c _ => Ascii.eqb c "[" = false /\ ascii_space c = false /\ ascii7 c = true
  end
  /\ TrimSpace (k +:+ " ") = k /\ Contains k newline = false /\ Contains k "#" = false
  /\ Contains k "=" = false /\ (String.length k < 100)%nat.

(** For the keys the generator writes. *)
Ltac solve_key := unfold key_text; split_and!; first [by vm_compute | cbn; lia].

Section Lines.
Context `{GoUnicode, AddrText}.

Definition kv (k v : string) : string := k +:+ " = " +:+ v.

Lemma kv_trim k v : key_text k -> field v -> TrimSpace (kv k v) = kv k v.
Proof.
  intros [Hk _] (Hv & Hne & _). destruct k as [|c k]; [done |]. destruct Hk as (_ & Hsp & H7).
  unfold kv. rewrite <- append_assoc, append_cons. apply TrimSpace_key; try done.
  rewrite <- append_cons, string_rev_app. done.
Qed.

Lemma kv_no_newline k v : key_text k -> field v -> Contains (kv k v) newline = false.
Proof.
  intros (_ & _ & Hn & _) (_ & _ & Hv & _). unfold kv. rewrite !Contains_app, Hn, Hv. done.
Qed.

Lemma kv_short k v : key_text k -> field v -> too_long (kv k v) = false.
Proof.
  intros Hk Hv. unfold too_long, kv. apply Z.leb_gt. rewrite !append_length.
  destruct Hk as (_ & _ & _ & _ & _ & Hk). destruct Hv as (_ & _ & _ & _ & Hv).
  unfold MaxScanTokenSize. cbn [String.length]. lia.
Qed.

(** The text of a line without its comment. *)
Definition uncomment (text : string) : string :=
  match IndexByte text "#" with Some idx => slice_to text idx | None => text end.

Lemma parse_line_uncomment text k v p :
  key_text k -> field v -> TrimSpace (uncomment text) = kv k v -> parse_line text p = handleKey k v p.
Proof.
  intros Hk Hv Htext. unfold parse_line. fold (uncomment text). rewrite Htext.
  destruct Hk as (Hc & Ht & _ & _ & Heq & _), Hv as (Hv & _). destruct k as [|c k]; [done |].
  destruct Hc as (Hb & Hsp & H7).
  assert (String.eqb (kv (String c k) v) "" = false) as -> by done.
  assert (HasPrefix (kv (String c k) v) "[" = false) as ->.
  { unfold kv, HasPrefix. rewrite append_cons. cbn [String.prefix]. case_match; [by subst c | done]. }
  assert (kv (String c k) v = (String c k +:+ " ") +:+ String "=" (String " " v)) as ->.
  { unfold kv. rewrite append_assoc. done. }
  rewrite IndexByte_app by (rewrite Contains_app, Heq; done).
  by rewrite slice_to_app, slice_from_app, Ht, TrimSpace_space.
Qed.

Lemma parse_line_kv k v p : key_text k -> field v -> parse_line (kv k v) p = handleKey k v p.
Proof.
  intros Hk Hv. apply parse_line_uncomment; [done | done |]. unfold uncomment. rewrite IndexByte_None.
  - by apply kv_trim.
  - destruct Hk as (_ & _ & _ & Hh & _), Hv as (_ & _ & _ & Hvh & _). unfold kv.
    by rewrite !Contains_app, Hh, Hvh.
Qed.

Lemma parse_lines_kv k v rest p :
  key_text k -> field v ->
  parse_lines (kv k v :: rest) p = let? p' := handleKey k v p in parse_lines rest p'.
Proof.
  intros Hk Hv. cbn [parse_lines]. rewrite kv_short, dropCR_trimmed, parse_line_kv by auto using kv_trim. done.
Qed.

Lemma parse_lines_interface rest p :
  parse_lines ("[Interface]" :: rest) p
  = parse_lines rest (set_section sectionInterface (peerCount p) true (seenPeer p) p).
Proof. reflexivity. Qed.

Lemma parse_lines_peer rest p :
  peerCount p = 0 ->
  parse_lines ("" :: "[Peer]" :: rest) p
  = parse_lines rest (set_section sectionPeer 1 (seenInterface p) true p).
Proof.
  intros Hp. change (parse_lines ("" :: "[Peer]" :: rest) p)
    with (let? p' := handleSection "[Peer]" p in parse_lines rest p').
  unfold handleSection. rewrite Hp. reflexivity.
Qed.

Lemma key_PrivateKey v p :
  currentSection p = sectionInterface ->
  handleKey "PrivateKey" v p = Ok (set_iface v (i_addresses p) (i_dns p) (i_mtu p) p).
Proof. intros Hs. unfold handleKey. rewrite Hs. reflexivity. Qed.

Lemma key_Address v l p :
  currentSection p = sectionInterface -> parseCommaSeparatedPrefixes v = Some l ->
  handleKey "Address" v p = Ok (set_iface (i_privateKey p) (i_addresses p ++ l) (i_dns p) (i_mtu p) p).
Proof.
  intros Hs Hl. unfold handleKey. rewrite Hs. transitivity (handleInterfaceKey "address" v p); [reflexivity |].
  unfold handleInterfaceKey. rewrite Hl. reflexivity.
Qed.

Lemma key_DNS v l p :
  currentSection p = sectionInterface -> parseCommaSeparatedAddrs v = Some l ->
  handleKey "DNS" v p = Ok (set_iface (i_privateKey p) (i_addresses p) (i_dns p ++ l) (i_mtu p) p).
Proof.
  intros Hs Hl. unfold handleKey. rewrite Hs. transitivity (handleInterfaceKey "dns" v p); [reflexivity |].
  unfold handleInterfaceKey. rewrite Hl. reflexivity.
Qed.

Lemma key_PublicKey v p :
  currentSection p = sectionPeer ->
  handleKey "PublicKey" v p
  = Ok (set_peer v (p_endpoint p) (p_allowedIPs p) (p_keepalive p) (p_presharedKey p) (keepaliveSet p) p).
Proof. intros Hs. unfold handleKey. rewrite Hs. reflexivity. Qed.

Lemma key_Endpoint v p :
  currentSection p = sectionPeer ->
  handleKey "Endpoint" v p
  = Ok (set_peer (p_publicKey p) v (p_allowedIPs p) (p_keepalive p) (p_presharedKey p) (keepaliveSet p) p).
Proof. intros Hs. unfold handleKey. rewrite Hs. reflexivity. Qed.

Lemma key_AllowedIPs v l p :
  currentSection p = sectionPeer -> parseCommaSeparatedPrefixes v = Some l ->
  handleKey "AllowedIPs" v p
  = Ok (set_peer (p_publicKey p) (p_endpoint p) (p_allowedIPs p ++ l) (p_keepalive p) (p_presharedKey p)
          (keepaliveSet p) p).
Proof.
  intros Hs Hl. unfold handleKey. rewrite Hs. transitivity (handlePeerKey "allowedips" v p); [reflexivity |].
  unfold handlePeerKey. rewrite Hl. reflexivity.
Qed.

Lemma split_kv k v rest :
  key_text k -> field v ->
  Split (k +:+ " = " +:+ v +:+ NL +:+ rest) newline = kv k v :: Split rest newline.
Proof.
  intros Hk Hv. rewrite <- (Split_line (kv k v) rest newline) by auto using kv_no_newline.
  unfold kv. by rewrite !append_assoc.
Qed.

(** The lines of a generated body. *)
Lemma buildConfBody_lines priv addr pub ep dns allowed :
  field priv -> field addr -> field pub -> field ep -> field dns -> field allowed ->
  rawLines (buildConfBody priv addr pub ep dns allowed) =
    [ "[Interface]"; kv "PrivateKey" priv; kv "Address" addr; kv "DNS" dns; ""; "[Peer]";
      kv "PublicKey" pub; kv "AllowedIPs" allowed; kv "Endpoint" ep ].
Proof.
  intros. unfold rawLines, buildConfBody.
  change ("[Interface]" +:+ NL +:+ ?x) with ("[Interface]" +:+ String newline x).
  rewrite Split_line by done.
  change ("PrivateKey = " +:+ ?x) with ("PrivateKey" +:+ " = " +:+ x). rewrite split_kv by (done || solve_key).
  change ("Address = " +:+ ?x) with ("Address" +:+ " = " +:+ x). rewrite split_kv by (done || solve_key).
  change ("DNS = " +:+ ?x) with ("DNS" +:+ " = " +:+ x). rewrite split_kv by (done || solve_key).
  change (NL +:+ ?x) with ("" +:+ String newline x). rewrite (Split_line "") by done.
  change ("[Peer]" +:+ NL +:+ ?x) with ("[Peer]" +:+ String newline x). rewrite Split_line by done.
  change ("PublicKey = " +:+ ?x) with ("PublicKey" +:+ " = " +:+ x). rewrite split_kv by (done || solve_key).
  change ("AllowedIPs = " +:+ ?x) with ("AllowedIPs" +:+ " = " +:+ x). rewrite split_kv by (done || solve_key).
  change ("Endpoint = " +:+ ep +:+ NL) with ("Endpoint" +:+ " = " +:+ ep +:+ NL +:+ "").
  rewrite split_kv by (done || solve_key). done.
Qed.
End Lines.

(** ** What the checks of the generator imply for the parser *)

Section Fields.
Context `{GoUnicode, AddrText, KeyText}.

Lemma parse_parts_single {A} (f : string -> option A) v a :
  TrimSpace v = v -> v <> "" -> Contains v "," = false -> f v = Some a ->
  parse_parts f (Split v ",") = Some [a].
Proof.
  intros Ht Hne Hc Hf. rewrite Split_single by done. cbn. rewrite Ht, (proj2 (String.eqb_neq _ _) Hne), Hf. done.
Qed.

Lemma count_valid_parse parts n :
  count_valid parts = Some n -> exists l, parse_parts ParsePrefix parts = Some l /\ length l = n.
Proof.
  revert n. induction parts as [|p parts IH]; intros n; cbn [count_valid parse_parts].
  - intros [= <-]. by exists [].
  - cbv zeta. destruct (String.eqb (TrimSpace p) ""); [apply IH |].
    destruct (ParsePrefix (TrimSpace p)) as [a|]; [| done].
    destruct (count_valid parts) as [m|]; [| done]. intros [= <-].
    destruct (IH m eq_refl) as (l & -> & <-). by exists (a :: l).
Qed.

(** The config a set of fields denotes. *)
Definition denotes (priv addr pub ep dns allowed : string) (c : ParsedConfig) : Prop :=
  PrivateKey (Interface c) = priv /\ ParsePrefix addr = head (Addresses (Interface c))
  /\ length (Addresses (Interface c)) = 1%nat
  /\ ParseAddr dns = head (DNS (Interface c)) /\ length (DNS (Interface c)) = 1%nat /\ MTU (Interface c) = 1420
  /\ PublicKey (Peer c) = pub /\ Endpoint (Peer c) = ep
  /\ parseCommaSeparatedPrefixes allowed = Some (AllowedIPs (Peer c)) /\ AllowedIPs (Peer c) <> []
  /\ PersistentKeepaliveSeconds (Peer c) = 25 /\ PresharedKey (Peer c) = "".

Lemma conf_roundtrip priv addr pub ep dns allowed :
  field priv -> field addr -> field pub -> field ep -> field dns -> field allowed ->
  Contains addr "," = false -> Contains dns "," = false ->
  validateAddress addr = true -> validateDNS dns = true -> validateAllowedIPs allowed = true ->
  exists c, parse (buildConfBody priv addr pub ep dns allowed) = Ok c /\ denotes priv addr pub ep dns allowed c.
Proof.
  intros Hpr Had Hpu Hep Hdn Hal Hca Hcd Va Vd Vl.
  unfold validateAddress in Va. destruct (ParsePrefix addr) as [p|] eqn:Hp; [| done].
  apply bool_decide_eq_true in Vd as [d Hd].
  unfold validateAllowedIPs in Vl. destruct (count_valid (Split allowed ",")) as [[|n]|] eqn:Hn; try done.
  apply count_valid_parse in Hn as (l & Hl & Hlen).
  assert (parseCommaSeparatedPrefixes addr = Some [p]) as Pa.
  { destruct Had as (? & ? & _). by apply parse_parts_single. }
  assert (parseCommaSeparatedAddrs dns = Some [d]) as Pd.
  { destruct Hdn as (? & ? & _). by apply parse_parts_single. }
  unfold parse. rewrite buildConfBody_lines by done. rewrite parse_lines_interface.
  rewrite parse_lines_kv, key_PrivateKey by (done || solve_key). cbv beta iota.
  rewrite parse_lines_kv, (key_Address addr [p]) by (done || solve_key). cbv beta iota.
  rewrite parse_lines_kv, (key_DNS dns [d]) by (done || solve_key). cbv beta iota.
  rewrite parse_lines_peer by done.
  rewrite parse_lines_kv, key_PublicKey by (done || solve_key). cbv beta iota.
  rewrite parse_lines_kv, (key_AllowedIPs allowed l) by (done || solve_key). cbv beta iota.
  rewrite parse_lines_kv, key_Endpoint by (done || solve_key). cbn [parse_lines].
  unfold build. cbn.
  destruct Hpr as (_ & Npr & _), Hpu as (_ & Npu & _), Hep as (_ & Nep & _).
  rewrite (proj2 (String.eqb_neq _ _) Npr), (proj2 (String.eqb_neq _ _) Npu), (proj2 (String.eqb_neq _ _) Nep).
  destruct l as [|x l]; [done |]. eexists. split; [done |]. unfold denotes. cbn. by split_and!.
Qed.

(** ** The prompts *)

(** A line the scanner hands to a prompt. *)
Definition input_line (t : string) : Prop :=
  Contains t newline = false /\ Z.of_nat (String.length t) < 60000.

(** A value read by a prompt. *)
Definition entered (v : string) : Prop := TrimSpace v = v /\ v <> "" /\ input_line v.

Lemma entered_trim t : input_line t -> TrimSpace t <> "" -> entered (TrimSpace t).
Proof.
  intros [Hn Hl] Hne. split; [apply TrimSpace_idem |]. split; [done |]. split; [by apply Contains_TrimSpace |].
  pose proof (TrimSpace_length t). lia.
Qed.

Lemma entered_field v : Z.of_nat (String.length v) < 65000 ->
  TrimSpace v = v -> v <> "" -> Contains v newline = false -> Contains v "#" = false -> field v.
Proof. by unfold field. Qed.

Lemma promptRequired_ok re validate input v rest :
  Forall input_line input -> promptRequired re validate input = Ok (v, rest) ->
  entered v /\ validate v = true /\ Forall input_line rest.
Proof.
  induction input as [|t input IH]; [done |]. intros [Ht Hin]%Forall_cons. cbn [promptRequired]. cbv zeta.
  destruct (String.eqb_spec (TrimSpace t) ""); [by apply IH |].
  destruct (validate (TrimSpace t)) eqn:Hv; [| by apply IH]. intros [= <- <-].
  split; [by apply entered_trim | done].
Qed.

Lemma promptOptional_ok re dflt validate input v rest :
  entered dflt -> validate dflt = true ->
  Forall input_line input -> promptOptional re dflt validate input = Ok (v, rest) ->
  entered v /\ validate v = true /\ Forall input_line rest.
Proof.
  intros Hd Hvd. induction input as [|t input IH]; [destruct re; [done | by intros _ [= <- <-]] |].
  intros [Ht Hin]%Forall_cons. cbn [promptOptional]. cbv zeta.
  destruct (String.eqb_spec (TrimSpace t) ""); [by intros [= <- <-] |].
  destruct (validate (TrimSpace t)) eqn:Hv; [| by apply IH]. intros [= <- <-].
  split; [by apply entered_trim | done].
Qed.

(** A value of the address prompt may be longer by the prefix length. *)
Lemma promptAddress_ok re input v rest :
  Forall input_line input -> promptAddress re input = Ok (v, rest) ->
  TrimSpace v = v /\ v <> "" /\ Contains v newline = false /\ Z.of_nat (String.length v) < 60010
  /\ validateAddress v = true /\ Forall input_line rest.
Proof.
  induction input as [|t input IH]; [done |]. intros [Ht Hin]%Forall_cons. cbn [promptAddress]. cbv zeta.
  destruct (String.eqb_spec (TrimSpace t) ""); [by apply IH |].
  destruct (normalizeAddress (TrimSpace t)) as [n'|] eqn:Hn; [| by apply IH].
  destruct (validateAddress n') eqn:Hv; [| by apply IH]. intros [= <- <-].
  destruct (entered_trim t Ht ltac:(done)) as (Htr & Hne & Hnl & Hlen). unfold normalizeAddress in Hn.
  destruct (Contains (TrimSpace t) "/"); [injection Hn as <-; split_and!; try done; lia |].
  destruct (ParseAddr (TrimSpace t)) as [a|]; [| done].
  destruct (Is4 a); injection Hn as <-.
  - change "/32" with ("/3" +:+ "2"). rewrite TrimSpace_suffix by done. split_and!; try done.
    + destruct (TrimSpace t); [done |]. by rewrite append_cons.
    + by rewrite Contains_app, Hnl.
    + rewrite !append_length. cbn [String.length]. lia.
  - change "/128" with ("/12" +:+ "8"). rewrite TrimSpace_suffix by done. split_and!; try done.
    + destruct (TrimSpace t); [done |]. by rewrite append_cons.
    + by rewrite Contains_app, Hnl.
    + rewrite !append_length. cbn [String.length]. lia.
Qed.

Lemma collectFields_ok re input name addr pub ep dns allowed :
  validateDNS "10.64.0.1" = true -> validateAllowedIPs "0.0.0.0/0, ::/0" = true ->
  Forall input_line input -> collectFields re input = Ok (name, addr, pub, ep, dns, allowed) ->
  Forall (fun v => Contains v "#" = false) [addr; pub; ep; dns; allowed] ->
  (field addr /\ field pub /\ field ep /\ field dns /\ field allowed)
  /\ validateName name = true /\ validateAddress addr = true /\ validateDNS dns = true
  /\ validateAllowedIPs allowed = true.
Proof.
  intros Dd Da Hin Hcol Hh. unfold collectFields in Hcol.
  destruct (promptRequired re validateName input) as [|[nm in1]] eqn:H1'; [done |].
  apply promptRequired_ok in H1' as (_ & Vn & Hin1); [| done].
  destruct (promptAddress re in1) as [|[ad in2]] eqn:H2'; [done |].
  apply promptAddress_ok in H2' as (A1 & A2 & A3 & A4 & Va & Hin2); [| done].
  destruct (promptRequired re validatePeerPublicKey in2) as [|[pk in3]] eqn:H3'; [done |].
  apply promptRequired_ok in H3' as ((P1 & P2 & P3 & P4) & _ & Hin3); [| done].
  destruct (promptRequired re validateEndpoint in3) as [|[e in4]] eqn:H4'; [done |].
  apply promptRequired_ok in H4' as ((E1 & E2 & E3 & E4) & _ & Hin4); [| done].
  destruct (promptOptional re "10.64.0.1" validateDNS in4) as [|[d in5]] eqn:H5'; [done |].
  apply promptOptional_ok in H5' as ((D1 & D2 & D3 & D4) & Vd & Hin5); [| by vm_compute | done | done].
  destruct (promptOptional re "0.0.0.0/0, ::/0" validateAllowedIPs in5) as [|[al in6]] eqn:H6'; [done |].
  apply promptOptional_ok in H6' as ((L1 & L2 & L3 & L4) & Vl & _); [| by vm_compute | done | done].
  injection Hcol as -> -> -> -> -> ->.
  rewrite !Forall_cons in Hh. destruct Hh as (? & ? & ? & ? & ? & _).
  split_and!; try done; apply entered_field; try done; lia.
Qed.
End Fields.

(** ** Injecting and extracting the private key *)

Section Keys.
Context `{GoUnicode}.

Lemma key_line_kv k : TrimSpace k = k -> key_line ("PrivateKey = " +:+ k) = Some k.
Proof.
  intros Hk. unfold key_line.
  change ("PrivateKey = " +:+ k) with ("PrivateKey " +:+ String "=" (String " " k)).
  rewrite IndexByte_app by done. rewrite slice_to_app, slice_from_app, TrimSpace_space by done. reflexivity.
Qed.

Lemma key_line_not_header k : TrimSpace k = k -> is_header ("PrivateKey = " +:+ k) = false.
Proof.
  intros Hk. unfold is_header. destruct (decide (k = "")) as [->|Hne]; [done |].
  rewrite TrimSpace_key by done. done.
Qed.

(** No private key in the interface sections of the lines. *)
Fixpoint no_keys (inI : bool) (lines : list string) : Prop :=
  match lines with
  | [] => True
  | raw :: rest =>
      if is_header raw then no_keys (is_interface raw) rest
      else (inI = false \/ key_line raw = None) /\ no_keys inI rest
  end.

Lemma extract_insert line key inI lines n raw :
  key_line line = Some key -> is_header line = false ->
  no_keys inI lines -> lines !! n = Some raw -> is_header raw = true -> is_interface raw = true ->
  extract_loop inI (take (S n) lines ++ [line] ++ drop (S n) lines) = key.
Proof.
  intros Hl Hlh. revert inI n. induction lines as [|r lines IH]; intros inI n Hn Hr Hh Hi; [done |].
  destruct n as [|n].
  - injection Hr as ->. change (extract_loop inI ([raw] ++ [line] ++ lines) = key). cbn [app extract_loop].
    rewrite Hh, Hi. cbn [app extract_loop]. rewrite Hlh. cbn [negb]. by rewrite Hl.
  - change (take (S (S n)) (r :: lines) ++ [line] ++ drop (S (S n)) (r :: lines))
      with (r :: (take (S n) lines ++ [line] ++ drop (S n) lines)).
    cbn [extract_loop no_keys] in *. destruct (is_header r); [by apply IH |].
    destruct Hn as [Hk Hn]. destruct inI; cbn [negb]; [| by apply IH].
    destruct Hk as [Hk | Hk]; [done | rewrite Hk]. by apply IH.
Qed.

(** The three ends of the loop: already done, done in these lines, or not done. *)
Lemma inject_loop_done line i st lines :
  injected st = true ->
  (inject_loop line i st lines).1 = lines /\ injected (inject_loop line i st lines).2 = true
  /\ (seenIface st = true -> seenIface (inject_loop line i st lines).2 = true).
Proof.
  revert i st. induction lines as [|r lines IH]; intros i st Hst; [done |]. cbn [inject_loop].
  destruct (is_header r).
  - match goal with |- context [inject_loop line (S i) ?s lines] =>
      destruct (IH (S i) s) as (E1 & E2 & E3); [by destruct (is_interface r) |];
      assert (seenIface st = true -> seenIface s = true) by (by destruct (is_interface r)) end.
    destruct (inject_loop line (S i) _ lines). cbn in *. subst. split_and!; auto.
  - rewrite Hst. rewrite andb_false_r. cbn [andb].
    destruct (IH (S i) st Hst) as (E1 & E2 & E3). destruct (inject_loop line (S i) st lines). cbn in *. by subst.
Qed.

Lemma inject_loop_spec line key i st lines lines' fin :
  key_line line = Some key -> is_header line = false -> injected st = false ->
  inject_loop line i st lines = (lines', fin) ->
  (injected fin = true -> extract_loop (inInterface st) lines' = key
     /\ exists n raw, lines !! n = Some raw /\ is_Some (key_line raw) /\ lines' = <[n := line]> lines)
  /\ (injected fin = false -> lines' = lines /\ no_keys (inInterface st) lines
      /\ ((ifaceHeaderIdx fin = ifaceHeaderIdx st /\ seenIface fin = seenIface st)
          \/ exists n raw, ifaceHeaderIdx fin = (i + n)%nat /\ lines !! n = Some raw
               /\ is_header raw = true /\ is_interface raw = true)).
Proof.
  intros Hl Hlh. revert i st lines' fin.
  induction lines as [|r lines IH]; intros i st lines' fin Hst Hloop.
  { injection Hloop as <- <-. split; [congruence |]. intros _. split_and!; [done | done | by left]. }
  cbn [inject_loop] in Hloop. destruct (is_header r) eqn:Hh.
  - match type of Hloop with context [inject_loop line (S i) ?s lines] => set (st' := s) in Hloop end.
    assert (inInterface st' = is_interface r /\ injected st' = false) as [Hin Hinj] by (unfold st'; by destruct (is_interface r)).
    destruct (inject_loop line (S i) st' lines) as [ls f] eqn:E. injection Hloop as <- <-.
    destruct (IH _ _ _ _ Hinj E) as [H1 H2]. cbn [extract_loop no_keys]. rewrite Hh, <- Hin. split.
    + intros Hf. destruct (H1 Hf) as (Hx & n & raw & Hn & Hk & ->). split; [done |]. by exists (S n), raw.
    + intros Hf. destruct (H2 Hf) as (-> & Hnk & Hidx). split_and!; [done | done |].
      destruct Hidx as [[Hi Hs] | (n & raw & Hi & Hn & ? & ?)].
      * unfold st' in Hi, Hs. destruct (is_interface r) eqn:Hr; cbn in Hi, Hs; [right | by left].
        exists 0%nat, r. split_and!; first [done | rewrite Hi; lia].
      * right. exists (S n), raw. split_and!; first [done | lia].
  - destruct (inInterface st && negb (injected st) && bool_decide (is_Some (key_line r))) eqn:Hc.
    + match type of Hloop with context [inject_loop line (S i) ?s lines] =>
        destruct (inject_loop_done line (S i) s lines eq_refl) as (E1 & E2 & _) end.
      destruct (inject_loop line (S i) _ lines) as [ls f]. cbn in E1, E2. subst ls. injection Hloop as <- <-.
      split; [| congruence]. intros _. apply andb_true_iff in Hc as [[Hi _]%andb_true_iff Hk%bool_decide_eq_true].
      cbn [extract_loop]. rewrite Hlh, Hi, Hl. cbn [negb]. split; [done |]. by exists 0%nat, r.
    + destruct (inject_loop line (S i) st lines) as [ls f] eqn:E. injection Hloop as <- <-.
      destruct (IH _ _ _ _ Hst E) as [H1 H2]. cbn [extract_loop no_keys]. rewrite Hh.
      assert (inInterface st = false \/ key_line r = None) as Hno.
      { rewrite Hst in Hc. cbn [negb] in Hc. rewrite andb_true_r in Hc.
        apply andb_false_iff in Hc as [Hc | Hc%bool_decide_eq_false]; [by left |]. right.
        destruct (key_line r); [exfalso; eauto | done]. }
      split.
      * intros Hf. destruct (H1 Hf) as (Hx & n & raw & Hn & Hk & ->). split; [| by exists (S n), raw].
        destruct Hno as [Hno | Hno]; [rewrite Hno in Hx |- *; by cbn [negb] |].
        destruct (inInterface st); cbn [negb]; by rewrite ?Hno.
      * intros Hf. destruct (H2 Hf) as (-> & Hnk & Hidx). split_and!; [done | done | done |].
        destruct Hidx as [|(n & raw & Hi & ? & ? & ?)]; [by left |]. right. exists (S n), raw. split_and!; first [done | lia].
Qed.

(** Injection as an edit of the lines: one line is replaced or inserted. *)
Lemma inject_spec body key body' :
  TrimSpace key = key -> Contains key newline = false ->
  injectPrivateKey body key = Ok body' ->
  extractInterfacePrivateKey body' = key
  /\ exists n, let line := "PrivateKey = " +:+ key in
       Split body' newline = <[n := line]> (Split body newline)
       \/ Split body' newline = take n (Split body newline) ++ [line] ++ drop n (Split body newline).
Proof.
  intros Hk Hn. unfold injectPrivateKey. cbv zeta.
  pose proof (key_line_kv key Hk) as Hl. pose proof (key_line_not_header key Hk) as Hlh.
  set (line := "PrivateKey = " +:+ key) in *.
  assert (Contains line newline = false) as Hnl by (unfold line; by rewrite Contains_app, Hn).
  destruct (inject_loop line 0 _ (Split body newline)) as [lines st] eqn:E.
  destruct (inject_loop_spec line key 0 (mkInject false false false 0) _ _ _ Hl Hlh eq_refl E) as [H1 H2]. cbn [inInterface] in H1, H2.
  pose proof (Split_no_sep body newline) as Hs.
  destruct (seenIface st) eqn:Hseen; [| done]. cbn [negb].
  destruct (injected st) eqn:Hinj; intros [= <-]; unfold extractInterfacePrivateKey, NL.
  - destruct (H1 eq_refl) as (Hx & n & raw & Hr & _ & ->).
    rewrite Split_Join; [| | by apply Forall_insert].
    + split; [done |]. exists n. by left.
    + intros Hnil. apply (f_equal length) in Hnil. rewrite length_insert in Hnil.
      apply lookup_lt_Some in Hr. cbn in Hnil. lia.
  - destruct (H2 eq_refl) as (-> & Hnk & [[_ Hsn] | (n & raw & Hi & Hr & Hh & Hif)]); [cbn in Hsn; congruence |].
    rewrite Hi. cbn [Nat.add]. rewrite Split_Join.
    + split; [by eapply extract_insert | exists (S n); by right].
    + intros []%app_nil. done.
    + apply Forall_app. split; [by apply Forall_take |]. constructor; [done | by apply Forall_drop].
Qed.
End Keys.

(** ** Theorems *)

Section Claims.
Context `{GoUnicode, AddrText, KeyText}.

Lemma key_field key : key_ok key -> field (Key_String key).
Proof.
  intros Hk. destruct (Key_String_word key Hk) as (H1' & H2' & H3' & H4').
  split_and!; [done | by intros E; rewrite E in H4' | done | done | rewrite H4'; lia].
Qed.

(** C29: what the generator writes the daemon reads.  If the operator's answers,
    whatever they are, pass the prompts and none of them has a comment sign (nor the
    address and the DNS server a comma), the round trip through the parser cannot
    fail: manual mode writes one file, whose parse gives the generated private key
    and every answer back, with the parser's defaults for the rest. *)
Theorem manual_roundtrip cfg key mkdir files re input name addr pub ep dns allowed path :
  key_ok key -> validateDNS "10.64.0.1" = true -> validateAllowedIPs "0.0.0.0/0, ::/0" = true ->
  Forall input_line input -> collectFields re input = Ok (name, addr, pub, ep, dns, allowed) ->
  Forall (fun v => Contains v "#" = false) [addr; pub; ep; dns; allowed] ->
  Contains addr "," = false -> Contains dns "," = false ->
  resolveOutputPath cfg mkdir files name = Ok path ->
  exists c body, runManualMode cfg key mkdir true files re input = (Ok c, <[path := body]> files)
    /\ denotes (Key_String key) addr pub ep dns allowed c.
Proof.
  intros Hkey Dd Da Hin Hcol Hh Ca Cd Hpath.
  destruct (collectFields_ok _ _ _ _ _ _ _ _ Dd Da Hin Hcol Hh)
    as ((Fa & Fp & Fe & Fd & Fl) & _ & Va & Vd & Vl).
  destruct (conf_roundtrip (Key_String key) addr pub ep dns allowed) as (c & Hc & Hden); auto using key_field.
  exists c. eexists. unfold runManualMode. rewrite Hcol, Hpath. cbn [negb]. rewrite lookup_insert_eq.
  cbn [Parse]. rewrite Hc. by split.
Qed.

(** Injecting a private key.  The result differs from the input in one line,
    replaced or inserted, and reading the private key of its interface section
    gives the injected key. *)
Theorem inject_extract body key body' :
  TrimSpace key = key -> Contains key newline = false ->
  injectPrivateKey body key = Ok body' ->
  extractInterfacePrivateKey body' = key
  /\ exists n, let line := "PrivateKey = " +:+ key in
       Split body' newline = <[n := line]> (Split body newline)
       \/ Split body' newline = take n (Split body newline) ++ [line] ++ drop n (Split body newline).
Proof. apply inject_spec. Qed.

(** A name that passes the check names a file the daemon discovers. *)
Lemma validateName_discovered name :
  validateName name = true -> Eligible.wantEntry (Eligible.mkDirEntry (name +:+ ".conf") true) = true.
Proof.
  unfold validateName. destruct (String.eqb_spec name "") as [|Hne]; [done |].
  destruct (_ || _); [done |]. destruct (Contains name "/" || _); [done |].
  destruct (HasPrefix name ".") eqn:Hp; [done |]. intros _.
  unfold Eligible.wantEntry. cbn [Eligible.de_name Eligible.de_regular].
  assert (HasSuffix (name +:+ ".conf") ".conf" = true) as ->.
  { apply bool_decide_eq_true. exists name. by apply CutSuffix_Some. }
  destruct name as [|c name]; [done |]. rewrite append_cons. unfold HasPrefix in *. cbn [String.prefix] in *.
  case_match; [by destruct name | done].
Qed.

(** A private key followed by a comment is replaced.  The parser of the daemon
    cuts the comment and reads the key; the generator does not, takes the line for
    one without a usable key and overwrites it with its own. *)
Theorem commented_key_replaced cfg key name k kt note rest p :
  key_ok key -> field kt -> ParseKey kt = Some k -> Contains note newline = false ->
  TrimSpace (kt +:+ " # " +:+ note) = kt +:+ " # " +:+ note -> ParseKey (kt +:+ " # " +:+ note) = None ->
  Forall (fun l => Contains l newline = false) rest -> validateName (applyPrefix (prefix cfg) name) = true ->
  let line := "PrivateKey = " +:+ kt +:+ " # " +:+ note in
  currentSection p = sectionInterface ->
  (exists q, parse_line line p = Ok q /\ i_privateKey q = kt)
  /\ prepareEntry cfg key (mkZipConf name (Join ("[Interface]" :: line :: rest) NL))
     = Ok (applyPrefix (prefix cfg) name,
           Join ("[Interface]" :: ("PrivateKey = " +:+ Key_String key) :: rest) NL,
           Key_String (Key_PublicKey key)).
Proof.
  intros Hkey Hkt Hk Hnote Htr Hbad Hrest Hname line Hsec. split.
  - eexists. rewrite (parse_line_uncomment line "PrivateKey" kt), key_PrivateKey; [done | done | solve_key | done |].
    assert (line = (kv "PrivateKey" kt +:+ " ") +:+ String "#" (" " +:+ note)) as ->.
    { unfold line, kv. rewrite !append_assoc. done. }
    pose proof Hkt as (_ & _ & _ & Hh & _).
    unfold uncomment. rewrite IndexByte_app, slice_to_app by (unfold kv; by rewrite !Contains_app, Hh).
    apply TrimSpace_trailing; [apply kv_trim; [solve_key | done] | done].
  - unfold prepareEntry. cbn [zc_name zc_body]. rewrite Hname. cbn [negb].
    assert (Contains line newline = false) as Hln.
    { unfold line. destruct Hkt as (_ & _ & Hn & _). by rewrite !Contains_app, Hn, Hnote. }
    pose proof (key_line_not_header _ Htr : is_header line = false) as Hlh.
    pose proof (key_line_kv _ Htr : key_line line = Some _) as Hlk.
    unfold extractInterfacePrivateKey, injectPrivateKey, NL.
    rewrite !Split_Join; [| done | by do 2 (constructor; [done |])].
    assert (extract_loop false ("[Interface]" :: line :: rest) = kt +:+ " # " +:+ note) as ->.
    { change (extract_loop true (line :: rest) = kt +:+ " # " +:+ note). cbn [extract_loop].
      rewrite Hlh. cbn [negb]. by rewrite Hlk. }
    rewrite Hbad.
    assert (forall l, inject_loop l 0 (mkInject false false false 0) ("[Interface]" :: line :: rest)
      = ("[Interface]" :: l :: rest, snd (inject_loop l 2 (mkInject true true true 0) rest))) as ->.
    { intros l. change (inject_loop l 0 _ _) with
        (let '(rest', fin) := inject_loop l 1 (mkInject true true false 0) (line :: rest) in ("[Interface]" :: rest', fin)).
      cbn [inject_loop]. rewrite Hlh. cbn [inInterface injected negb andb]. rewrite Hlk.
      change (bool_decide (is_Some (Some (kt +:+ " # " +:+ note)))) with true. cbv iota. cbn [seenIface ifaceHeaderIdx].
      destruct (inject_loop_done l 2 (mkInject true true true 0) rest eq_refl) as (E & _ & _).
      destruct (inject_loop l 2 _ rest) as [r f]. cbn in E. by subst. }
    destruct (inject_loop_done ("PrivateKey = " +:+ Key_String key) 2 (mkInject true true true 0) rest eq_refl) as (_ & E1 & E2).
    rewrite E2, E1 by done. cbn [negb]. by rewrite ParseKey_String.
Qed.
End Claims.

(** ** Concrete configs *)
Module ConfDemo.
#[export] Instance demo_uni : GoUnicode := {| unicode_lower := fun s => s |}.
#[export] Existing Instance AddrDemo.demo_addr.

Definition parse_key (s : string) : option string :=
  match Base64.DecodeString s with
  | Some b => if Nat.eqb (String.length b) 32 then Some b else None
  | None => None
  end.

Lemma text_word c : Base64.text_char c = true -> word_char c = true.
Proof. destruct c as [[] [] [] [] [] [] [] []]; vm_compute; congruence. Qed.

#[export] Instance demo_key : KeyText.
Proof.
  refine {| ParseKey := parse_key; Key_String := Base64.EncodeToString; Key_PublicKey := fun k => k |}.
  - intros s k. unfold parse_key. destruct (Base64.DecodeString s) as [b|]; [| done].
    destruct (Nat.eqb_spec (String.length b) 32); [| done]. by intros [= <-].
  - done.
  - intros k Hk. unfold parse_key. by rewrite Base64.DecodeString_EncodeToString, Hk.
  - intros k Hk. pose proof (Base64.EncodeToString_text k) as Ht. split_and!.
    + apply TrimSpace_word. by eapply string_forallb_impl; [apply text_word |].
    + by apply (Contains_forallb _ _ _ Ht).
    + by apply (Contains_forallb _ _ _ Ht).
    + rewrite Base64.EncodeToString_length, Hk. done.
Defined.

Definition k1 : string := "0123456789abcdef0123456789abcdef".
Definition k2 : string := "fedcba9876543210fedcba9876543210".
Definition cfg : runConfig := mkRun "/etc/tunnels" false "".
Definition answers : list string :=
  ["se-sto"; "10.66.0.2"; Key_String k2; "1.2.3.4:51820"; ""; "0.0.0.0/0"].
Definition conf : string := "[Interface]" +:+ NL +:+ "Address = 10.66.0.2/32" +:+ NL +:+ "[Peer]" +:+ NL.
End ConfDemo.
Import ConfDemo.

Lemma manual_roundtrip_witness :
  exists c body, runManualMode cfg k1 true true ∅ false answers = (Ok c, <["/etc/tunnels/se-sto.conf" := body]> ∅)
    /\ denotes (Key_String k1) "10.66.0.2/32" (Key_String k2) "1.2.3.4:51820" "10.64.0.1" "0.0.0.0/0" c.
Proof.
  apply (manual_roundtrip cfg k1 true ∅ false answers "se-sto" "10.66.0.2/32" (Key_String k2) "1.2.3.4:51820"
    "10.64.0.1" "0.0.0.0/0" "/etc/tunnels/se-sto.conf"); try reflexivity.
  - repeat constructor.
  - repeat constructor.
Defined.

Lemma inject_extract_witness :
  extractInterfacePrivateKey (default "" (match injectPrivateKey conf (Key_String k1) with Ok b => Some b | Err _ => None end))
  = Key_String k1.
Proof.
  destruct (injectPrivateKey conf (Key_String k1)) as [|b] eqn:E; [discriminate |].
  refine (proj1 (inject_extract conf (Key_String k1) b _ _ E)); reflexivity.
Defined.

Lemma commented_key_replaced_witness :
  prepareEntry cfg k1 (mkZipConf "a" (Join ["[Interface]"; "PrivateKey = " +:+ Key_String k2 +:+ " # home"] NL))
  = Ok ("a", Join ["[Interface]"; "PrivateKey = " +:+ Key_String k1] NL, Key_String k1).
Proof.
  refine (proj2 (commented_key_replaced cfg k1 "a" k2 (Key_String k2) "home" []
    (set_section sectionInterface 0 true false newParser) eq_refl _ eq_refl eq_refl eq_refl eq_refl _ eq_refl eq_refl)).
  - by vm_compute.
  - constructor.
Defined.
