(* ===== verification/ConfKeys.v ===== *)
(** * The private key of an imported config

    The generator and the daemon read the private key of a config with different code:
    [extractInterfacePrivateKey] takes the first PrivateKey line, the parser the last, and
    they treat comments and letter case of headers differently.  Here is what each of them
    reads from the lines, and from it what an import of an archive leaves for the daemon. *)

From S2P Require Import Prelude GoStrings GoText Base64 Domain Eligible Http WgConf ConfGen ConfThms.
Import WgConf ConfGen.

(** ** Trimming ASCII lines *)

Definition spaces (s : string) : Prop := string_forallb ascii_space s = true.
Definition rtrim (s : string) : string := string_rev (TrimLeftSpaceRev (string_rev s)).

Lemma ascii_app s t : isASCII (s +:+ t) = isASCII s && isASCII t.
Proof. apply string_forallb_app. Qed.
Lemma ascii_cons c s : isASCII (String c s) = ascii7 c && isASCII s.
Proof. done. Qed.
Lemma ascii_rev s : isASCII (string_rev s) = isASCII s.
Proof. apply string_forallb_rev. Qed.

Lemma TLS_app s c t : isASCII s = true -> ascii7 c = true -> ascii_space c = false ->
  TrimLeftSpace (s +:+ String c t) = TrimLeftSpace s +:+ String c t.
Proof.
  intros Hs H7 Hc. induction s as [|d s IH]; [by apply TrimLeftSpace_start |].
  rewrite ascii_cons in Hs. apply andb_true_iff in Hs as [Hd Hs]. rewrite append_cons. destruct (ascii_space d) eqn:Ed.
  - cbn [TrimLeftSpace]. rewrite Ed. by apply IH.
  - by rewrite !TrimLeftSpace_start, append_cons.
Qed.

Lemma TLR_app s c t : isASCII s = true -> ascii7 c = true -> ascii_space c = false ->
  TrimLeftSpaceRev (s +:+ String c t) = TrimLeftSpaceRev s +:+ String c t.
Proof.
  intros Hs H7 Hc. induction s as [|d s IH]; [by apply TrimRev_start |].
  rewrite ascii_cons in Hs. apply andb_true_iff in Hs as [Hd Hs]. rewrite append_cons. destruct (ascii_space d) eqn:Ed.
  - cbn [TrimLeftSpaceRev]. rewrite Ed. by apply IH.
  - by rewrite !TrimRev_start, append_cons.
Qed.

Lemma TLS_spaces s : spaces s -> TrimLeftSpace s = "".
Proof. induction s as [|c s IH]; [done |]. intros [Hc Hs]%andb_true_iff. cbn [TrimLeftSpace]. rewrite Hc. by apply IH. Qed.
Lemma TLR_spaces s : spaces s -> TrimLeftSpaceRev s = "".
Proof. induction s as [|c s IH]; [done |]. intros [Hc Hs]%andb_true_iff. cbn [TrimLeftSpaceRev]. rewrite Hc. by apply IH. Qed.
Lemma spaces_rev s : spaces s -> spaces (string_rev s).
Proof. unfold spaces. by rewrite string_forallb_rev. Qed.

(** A text is white space, or has a first character that is not. *)
Lemma first_char s : isASCII s = true ->
  spaces s \/ exists p c t, s = p +:+ String c t /\ spaces p /\ ascii_space c = false /\ ascii7 c = true /\ isASCII t = true.
Proof.
  induction s as [|c s IH]; [by left |]. rewrite ascii_cons. intros [Hc Hs]%andb_true_iff.
  destruct (ascii_space c) eqn:Ec.
  - destruct (IH Hs) as [Hsp|(p & d & t & -> & Hp & H)].
    + left. unfold spaces in *. cbn. by rewrite Ec.
    + right. exists (String c p), d, t. split; [done |]. split; [| done]. unfold spaces in *. cbn. by rewrite Ec.
  - right. by exists "", c, s.
Qed.

Lemma spaces_ascii s : spaces s -> isASCII s = true.
Proof. apply string_forallb_impl. intros c. unfold ascii_space. rewrite orb_true_iff, andb_true_iff, !Nat.leb_le, Nat.eqb_eq. intros H. apply Nat.ltb_lt. lia. Qed.

(** Trimming around a character that stays. *)
Lemma TrimSpace_around a c b :
  isASCII a = true -> isASCII b = true -> ascii7 c = true -> ascii_space c = false ->
  TrimSpace (a +:+ String c b) = TrimLeftSpace a +:+ String c (rtrim b).
Proof.
  intros Ha Hb H7 Hc. unfold TrimSpace, rtrim. rewrite TLS_app by done. rewrite string_rev_app. cbn [string_rev].
  rewrite append_assoc, append_cons, append_nil_l, TLR_app by (done || by rewrite ascii_rev).
  rewrite string_rev_app. cbn [string_rev]. by rewrite append_assoc, append_cons, append_nil_l, string_rev_rev.
Qed.

Lemma TrimSpace_spaces s : spaces s -> TrimSpace s = "".
Proof. intros Hs. unfold TrimSpace. by rewrite TLS_spaces. Qed.

Lemma TrimSpace_start p c t :
  spaces p -> ascii_space c = false -> ascii7 c = true -> isASCII t = true -> TrimSpace (p +:+ String c t) = String c (rtrim t).
Proof. intros Hp Hc H7 Ht. rewrite TrimSpace_around by auto using spaces_ascii. by rewrite TLS_spaces. Qed.

Lemma rtrim_ascii s : isASCII s = true -> isASCII (rtrim s) = true.
Proof.
  intros Hs. unfold rtrim. rewrite ascii_rev. destruct (TrimLeftSpaceRev_suffix (string_rev s)) as [p Hp].
  assert (isASCII (string_rev s) = true) as Hr by (by rewrite ascii_rev). rewrite Hp, ascii_app in Hr. by apply andb_true_iff in Hr as [_ ?].
Qed.

Lemma rtrim_idem s : rtrim (rtrim s) = rtrim s.
Proof. unfold rtrim. by rewrite string_rev_rev, TrimLeftSpaceRev_idem. Qed.

Lemma rtrim_app s c t : isASCII t = true -> ascii7 c = true -> ascii_space c = false -> rtrim (s +:+ String c t) = s +:+ String c (rtrim t).
Proof.
  intros Ht H7 Hc. unfold rtrim. rewrite string_rev_app. cbn [string_rev].
  rewrite append_assoc, append_cons, append_nil_l, TLR_app by (done || by rewrite ascii_rev).
  rewrite string_rev_app. cbn [string_rev]. by rewrite append_assoc, append_cons, append_nil_l, string_rev_rev.
Qed.

Lemma TrimSpace_rtrim s : isASCII s = true -> TrimSpace (rtrim s) = TrimSpace s.
Proof.
  intros Hs. destruct (first_char s Hs) as [Hsp|(p & c & t & -> & Hp & Hc & H7 & Ht)].
  - rewrite (TrimSpace_spaces s) by done. unfold rtrim. by rewrite TLR_spaces by (by apply spaces_rev).
  - rewrite rtrim_app, !TrimSpace_start by auto using rtrim_ascii. by rewrite rtrim_idem.
Qed.

Lemma TrimSpace_TLS s : TrimSpace (TrimLeftSpace s) = TrimSpace s.
Proof. unfold TrimSpace. by rewrite TrimLeftSpace_idem. Qed.

(** The carriage return that the scanner drops is white space. *)
Lemma dropCR_cases s : dropCR s = s \/ s = dropCR s +:+ String CR "".
Proof. unfold dropCR. destruct (CutSuffix s (String CR "")) as [t|] eqn:E; [right; by apply CutSuffix_Some | by left]. Qed.

Lemma rtrim_CR s : rtrim (s +:+ String CR "") = rtrim s.
Proof. unfold rtrim. rewrite string_rev_app. cbn [string_rev]. rewrite append_nil_l, append_cons, append_nil_l. done. Qed.

Lemma TrimSpace_dropCR s : isASCII s = true -> TrimSpace (dropCR s) = TrimSpace s.
Proof.
  intros Hs. destruct (dropCR_cases s) as [->|E]; [done |]. rewrite E in Hs. rewrite ascii_app in Hs. apply andb_true_iff in Hs as [Hs _].
  rewrite E at 2. destruct (first_char _ Hs) as [Hsp|(p & c & t & -> & Hp & Hc & H7 & Ht)].
  - rewrite !TrimSpace_spaces; [done | | done]. unfold spaces in *. by rewrite string_forallb_app, Hsp.
  - rewrite append_assoc, append_cons, !TrimSpace_start by (done || by rewrite ascii_app, Ht). by rewrite rtrim_CR.
Qed.

Lemma Contains_dropCR s c : Contains s c = false -> Contains (dropCR s) c = false.
Proof. destruct (dropCR_cases s) as [->|E]; [done |]. rewrite E at 1. rewrite Contains_app. by intros [? _]%orb_false_iff. Qed.

(** The text up to a character, and behind it. *)
Lemma Contains_split s c : Contains s c = true -> exists a b, s = a +:+ String c b /\ Contains a c = false.
Proof.
  induction s as [|d s IH]; [done |]. rewrite Contains_cons. destruct (Ascii.eqb_spec d c) as [->|Hd].
  - intros _. by exists "", s.
  - cbn [orb]. intros (a & b & -> & Ha)%IH. exists (String d a), b. split; [done |]. rewrite Contains_cons, Ha.
    by rewrite (proj2 (Ascii.eqb_neq d c) Hd).
Qed.

(** ** One line, for both readers *)

Section Lines.
Context `{GoUnicode, AddrText}.

Definition in_interface (p : parser) : bool := String.eqb (currentSection p) sectionInterface.

(** The parser takes the line for what the generator takes it for. *)
Definition agree (raw : string) : Prop := forall p q, parse_line (dropCR raw) p = Ok q ->
  if is_header raw then in_interface q = is_interface raw /\ i_privateKey q = i_privateKey p
  else in_interface q = in_interface p
       /\ i_privateKey q = match key_line raw with Some v => if in_interface p then v else i_privateKey p | None => i_privateKey p end.

Lemma handleSection_key line p q :
  handleSection line p = Ok q -> in_interface q = EqualFold line "[Interface]" /\ i_privateKey q = i_privateKey p.
Proof.
  unfold handleSection. destruct (String.eqb_spec line sectionInterface) as [->|Hi]; [by intros [= <-] |].
  destruct (String.eqb_spec line sectionPeer) as [->|Hp]; [| done]. destruct (1 <? peerCount p + 1); [done |]. by intros [= <-].
Qed.

Lemma handleKey_key k v p q :
  handleKey k v p = Ok q ->
  in_interface q = in_interface p
  /\ i_privateKey q = if String.eqb (ToLower k) "privatekey" && in_interface p then v else i_privateKey p.
Proof.
  unfold handleKey, in_interface. destruct (String.eqb_spec (ToLower k) "privatekey") as [->|Hk]; cbn [andb].
  - change (bool_decide ("privatekey" ∈ warnAndSkipKeys)) with false. cbv iota.
    destruct (String.eqb (currentSection p) sectionInterface) eqn:Es; [intros [= <-]; by cbn |].
    destruct (String.eqb (currentSection p) sectionPeer); by intros [= <-].
  - case_bool_decide; [by intros [= <-] |].
    destruct (String.eqb (currentSection p) sectionInterface) eqn:Es.
    + unfold handleInterfaceKey. rewrite (proj2 (String.eqb_neq _ _) Hk). repeat case_match; intros [= <-]; by cbn.
    + destruct (String.eqb (currentSection p) sectionPeer); [| by intros [= <-]].
      unfold handlePeerKey. repeat case_match; intros [= <-]; by cbn.
Qed.

(** A line without a comment sign. *)
Lemma agree_plain raw : isASCII raw = true -> Contains raw "#" = false -> agree raw.
Proof.
  intros Ha Hh p q. unfold parse_line. rewrite IndexByte_None by (by apply Contains_dropCR). rewrite TrimSpace_dropCR by done.
  unfold is_header, is_interface, key_line. destruct (String.eqb_spec (TrimSpace raw) "") as [E|Hne].
  - rewrite E. intros [= <-]. cbn [HasPrefix String.prefix]. split; [done |]. destruct (Contains raw "=") eqn:Hc; [| by rewrite IndexByte_None].
    exfalso. apply Contains_split in Hc as (a & b & -> & _). rewrite ascii_app, ascii_cons in Ha. apply andb_true_iff in Ha as [Ha [_ Hb]%andb_true_iff].
    rewrite TrimSpace_around in E by done. apply (f_equal String.length) in E. rewrite append_length in E. cbn in E. lia.
  - destruct (HasPrefix (TrimSpace raw) "["); [by apply handleSection_key |]. destruct (Contains raw "=") eqn:Hc.
    + apply Contains_split in Hc as (a & b & -> & Hn). rewrite ascii_app, ascii_cons in Ha. apply andb_true_iff in Ha as [Ha [_ Hb]%andb_true_iff].
      rewrite TrimSpace_around by done. assert (Contains (TrimLeftSpace a) "=" = false) as Hn'.
      { destruct (TrimLeftSpace_suffix a) as [x Hx]. rewrite Hx, Contains_app in Hn. by apply orb_false_iff in Hn as [_ ?]. }
      rewrite !IndexByte_app, !slice_to_app, !slice_from_app by done. rewrite TrimSpace_TLS, TrimSpace_rtrim by done.
      intros [H1 H2]%handleKey_key. split; [done |]. rewrite H2. destruct (String.eqb _ "privatekey"); done.
    + rewrite !IndexByte_None by auto using Contains_TrimSpace. by intros [= <-].
Qed.

(** A line that is a comment. *)
Lemma agree_comment raw : isASCII raw = true -> HasPrefix (TrimSpace raw) "#" = true -> agree raw.
Proof.
  intros Ha Hh p q. destruct (first_char raw Ha) as [Hsp|(s & c & t & -> & Hs & Hc & H7 & Ht)]; [by rewrite TrimSpace_spaces in Hh |].
  rewrite TrimSpace_start in Hh by done. assert (c = "#"%char) as ->.
  { unfold HasPrefix in Hh. cbn [String.prefix] in Hh. by case_match. }
  assert (forall d, ascii_space d = false -> Contains s d = false) as Hno.
  { intros d Hd. eapply Contains_forallb; [exact Hs | done]. }
  assert (exists t', dropCR (s +:+ String "#" t) = s +:+ String "#" t') as [t' ->].
  { destruct (dropCR_cases (s +:+ String "#" t)) as [->|E]; [by exists t |].
    assert (Contains (dropCR (s +:+ String "#" t)) "#" = true) as Hd.
    { destruct (Contains (dropCR (s +:+ String "#" t)) "#") eqn:Ed; [done |]. exfalso.
      assert (Contains (s +:+ String "#" t) "#" = true) as Hx by (by rewrite Contains_app, Contains_cons, orb_true_r).
      rewrite E, Contains_app, Ed in Hx. done. }
    apply Contains_split in Hd as (s2 & t2 & E2 & Hs2). exists t2. rewrite E2 in E. rewrite E2. f_equal.
    rewrite append_assoc, append_cons in E. apply (f_equal (fun x => slice_to x (String.length s))) in E as E3.
    pose proof (f_equal (fun x => IndexByte x "#") E) as E4. cbn beta in E3, E4.
    rewrite !IndexByte_app in E4 by (done || by apply Hno). injection E4 as E4. rewrite slice_to_app, E4, slice_to_app in E3. done. }
  unfold parse_line. rewrite IndexByte_app by (by apply Hno). rewrite slice_to_app, TrimSpace_spaces by done. cbn [String.eqb].
  intros [= <-]. unfold is_header. rewrite TrimSpace_start by done. cbn [HasPrefix String.prefix].
  split; [done |]. assert (key_line (s +:+ String "#" t) = None) as ->; [| done]. unfold key_line.
  destruct (Contains t "=") eqn:He; [| by rewrite IndexByte_None by (by rewrite Contains_app, Contains_cons, Hno, He)].
  apply Contains_split in He as (a & b & -> & Hn). rewrite <- append_cons, <- append_assoc.
  rewrite IndexByte_app by (by rewrite Contains_app, Contains_cons, Hno, Hn). rewrite slice_to_app.
  rewrite ascii_app in Ht. apply andb_true_iff in Ht as [Ht _]. rewrite TrimSpace_start by done. unfold ToLower.
  rewrite ascii_cons, rtrim_ascii by done. done.
Qed.


(** ** The private keys of a config *)

(** The values of the PrivateKey lines in the interface sections, in their order. *)
Fixpoint interface_keys (inI : bool) (lines : list string) : list string :=
  match lines with
  | [] => []
  | raw :: rest =>
      if is_header raw then interface_keys (is_interface raw) rest
      else (if inI then option_list (key_line raw) else []) ++ interface_keys inI rest
  end.
Definition private_keys (body : string) : list string := interface_keys false (Split body newline).

(** The generator takes the first, the parser the last. *)
Lemma extract_first inI lines : extract_loop inI lines = default "" (head (interface_keys inI lines)).
Proof.
  revert inI. induction lines as [|raw lines IH]; intros inI; [done |]. cbn [extract_loop interface_keys].
  destruct (is_header raw); [apply IH |]. destruct inI; [| apply IH]. cbn [negb]. destruct (key_line raw); [done | apply IH].
Qed.

Lemma parse_lines_last lines p q :
  Forall agree lines -> parse_lines lines p = Ok q ->
  i_privateKey q = default (i_privateKey p) (last (interface_keys (in_interface p) lines)).
Proof.
  intros Hl. revert p. induction Hl as [|raw lines Hr Hl IH]; intros p; cbn [parse_lines interface_keys]; [by intros [= <-] |].
  destruct (too_long raw); [done |]. destruct (parse_line (dropCR raw) p) as [|p1] eqn:E; [done |]. cbn. intros Hq.
  rewrite (IH _ Hq). specialize (Hr _ _ E). destruct (is_header raw); destruct Hr as [-> ->]; [done |].
  destruct (in_interface p); cbn [app]; [| by destruct (key_line raw)].
  destruct (key_line raw) as [v|]; [| done]. change (option_list (Some v) ++ interface_keys true lines) with (v :: interface_keys true lines).
  rewrite last_cons. by destruct (last (interface_keys true lines)).
Qed.

Lemma keys_drop_last inI lines : interface_keys inI (drop_last_empty lines) = interface_keys inI lines.
Proof.
  revert inI. induction lines as [|raw [|r2 lines] IH]; intros inI; [done | |].
  - cbn [drop_last_empty]. destruct (String.eqb_spec raw "") as [->|]; [by destruct inI | done].
  - change (drop_last_empty (raw :: r2 :: lines)) with (raw :: drop_last_empty (r2 :: lines)). cbn [interface_keys] in *.
    destruct (is_header raw); by rewrite IH.
Qed.

Lemma drop_last_Forall (P : string -> Prop) lines : Forall P lines -> Forall P (drop_last_empty lines).
Proof.
  intros Hl. induction Hl as [|raw lines Hr Hl IH]; [done |]. destruct lines as [|r2 lines].
  - cbn [drop_last_empty]. case_match; [done | by constructor].
  - change (drop_last_empty (raw :: r2 :: lines)) with (raw :: drop_last_empty (r2 :: lines)). by constructor.
Qed.

(** What the daemon reads. *)
Lemma parse_last body c :
  Forall agree (Split body newline) -> parse body = Ok c -> last (private_keys body) = Some (PrivateKey (Interface c)).
Proof.
  intros Hl. unfold parse, rawLines. destruct (parse_lines _ newParser) as [|q] eqn:E; [done |]. cbn. intros Hb.
  pose proof (parse_lines_last _ _ _ (drop_last_Forall _ _ Hl) E) as Hq. rewrite keys_drop_last in Hq. fold (private_keys body) in Hq.
  unfold build in Hb. destruct (seenInterface q); [| done]. destruct (seenPeer q); [| done]. cbn [negb] in Hb.
  destruct (String.eqb_spec (i_privateKey q) "") as [|Hne]; [done |].
  assert (PrivateKey (Interface c) = i_privateKey q) as ->.
  { repeat case_match; try done; by simplify_eq/=. }
  change (in_interface newParser) with false in Hq. fold (private_keys body) in Hq. destruct (last (private_keys body)); [by rewrite Hq | done].
Qed.
End Lines.

(** ** Preparing an entry *)

Section Claims.
Context `{GoUnicode, AddrText, KeyText}.


Lemma Split_ascii s sep : isASCII s = true -> Forall (fun l => isASCII l = true) (Split s sep).
Proof.
  induction s as [|c s IH]; [by repeat constructor |]. rewrite ascii_cons. intros [Hc Hs]%andb_true_iff. specialize (IH Hs). cbn [Split].
  destruct (Ascii.eqb c sep); [by constructor |]. destruct (Split s sep) as [|h t]; cbn [cons_head].
  - constructor; [by rewrite ascii_cons, Hc | done].
  - apply Forall_cons in IH as [Hh Ht]. constructor; [by rewrite ascii_cons, Hc | done].
Qed.

Lemma lines_agree body :
  isASCII body = true -> Forall (fun l => Contains l "#" = false \/ HasPrefix (TrimSpace l) "#" = true) (Split body newline) ->
  Forall agree (Split body newline).
Proof.
  intros Ha Hl. apply Split_ascii with (sep := newline) in Ha. revert Hl. induction Ha as [|raw lines Hr Ha IH]; [done |].
  intros [Hl Hls]%Forall_cons. constructor; [| by apply IH]. destruct Hl; [by apply agree_plain | by apply agree_comment].
Qed.








(** ** Writing an archive *)




(** Where the readers differ: of several PrivateKey lines the generator announces the first,
    the daemon uses the last. *)
Theorem first_and_last body c :
  isASCII body = true -> Forall (fun l => Contains l "#" = false \/ HasPrefix (TrimSpace l) "#" = true) (Split body newline) ->
  parse body = Ok c ->
  head (private_keys body) = Some (extractInterfacePrivateKey body) /\ last (private_keys body) = Some (PrivateKey (Interface c)).
Proof.
  intros Ha Hl Hc. pose proof (lines_agree _ Ha Hl) as Hag.
  pose proof (parse_last _ _ Hag Hc) as Hlast. split; [| done].
  assert (extractInterfacePrivateKey body = default "" (head (private_keys body))) as -> by apply extract_first.
  by destruct (private_keys body).
Qed.
End Claims.

(** ** Concrete archives *)
Import ConfDemo.

Module KeysDemo.
Definition entry (keys : list string) : string :=
  Join (["[Interface]"; "# Device: Happy Cat"] ++ ((fun k => " privatekey=" +:+ Key_String k +:+ String CR "") <$> keys)
    ++ ["Address = 10.66.0.2/32"; "[Peer]"; "PublicKey = " +:+ Key_String k2; "Endpoint = 1.2.3.4:51820"; ""]) NL.

End KeysDemo.
Import KeysDemo.


(** Two PrivateKey lines: the first is announced, the second is what the daemon uses. *)
Lemma two_keys_disagree :
  exists name body c, prepareEntry cfg k1 (mkZipConf "a" (entry [k1; k2])) = Ok (name, body, Key_String k1)
    /\ parse body = Ok c /\ PrivateKey (Interface c) = Key_String k2 /\ Key_String k1 <> Key_String k2.
Proof.
  do 3 eexists. split; [vm_compute; reflexivity |]. split; [vm_compute; reflexivity |]. split; [vm_compute; reflexivity | discriminate].
Qed.
