(* ===== verification/Device.v ===== *)
(** * The WireGuard device

    [infrastructure/wireguard] ([uapi.go], [dialer.go], [health.go]) and the code that
    builds devices from config files ([tunnelpool/build.go], [tunnelpool/verify.go]).
    wireguard-go and the netstack are not modelled: what the calls into them answer is
    the record [host], and what is done to the device is a list of actions. *)

From stdpp Require Import pretty.
From S2P Require Import Prelude GoStrings GoText Domain Http WgConf Supervisor.

(** SHA-256 of [crypto/sha256]. *)
Class Sha256 := {
  Sum256 : string -> string;
  Sum256_length : forall s, String.length (Sum256 s) = 32%nat
}.

Module Device.

(** ** Options and addresses *)

Record Options := mkOptions {
  PrivateKey : string;
  LocalAddresses : list Addr;
  DNSServers : list Addr;
  MTU : Z;
  PeerPublicKey : string;
  PeerEndpoint : string;
  AllowedIPs : list Prefix;
  PersistentKeepaliveSeconds : Z;
  PresharedKey : string
}.

(** Big-endian value of a byte slice and [netip.AddrFromSlice]. *)
Definition be_value (s : string) : Z :=
  (fix go (s : string) (acc : Z) :=
     match s with "" => acc | String c s' => go s' (acc * 256 + Z.of_nat (code c)) end) s 0.
Definition AddrFromSlice (ip : string) : option Addr :=
  if Nat.eqb (String.length ip) 4 then Some (V4 (be_value ip))
  else if Nat.eqb (String.length ip) 16 then Some (V6 (be_value ip) "")
  else None.

Section Text.
Context `{AddrText}.

(** [AddrPort.String] and [Prefix.String]. *)
Definition AddrPort_String (ap : Addr * Z) : string :=
  match fst ap with
  | V4 _ => Addr_String (fst ap) +:+ ":" +:+ pretty (snd ap)
  | V6 _ _ => "[" +:+ Addr_String (fst ap) +:+ "]:" +:+ pretty (snd ap)
  end.
Definition Prefix_String (p : Prefix) : string := Addr_String (p_addr p) +:+ "/" +:+ pretty (p_bits p).
End Text.

(** ** [uapi.go] *)

Inductive uapiError := EPrivateKey | EPeerKey | EPresharedKey.
Inductive endpointError := ESplit | EPort | EResolve (host : string) | ENoAddresses (host : string) | EConvert (host : string).

(** What the system, the netstack and wireguard-go answer. *)
Record host := mkHost {
  LookupPort : string -> option Z;
  LookupIPAddr : string -> option (list string);
  CreateNetTUN : bool;
  accepts : string -> bool;
  comesUp : bool
}.

Definition uapi_line (k v : string) : string := k +:+ "=" +:+ v +:+ NL.

Section Uapi.
Context `{AddrText, KeyText}.

Definition buildIpcSet (opts : Options) (endpointAddr : Addr * Z) : res uapiError string :=
  match ParseKey (PrivateKey opts) with
  | None => Err EPrivateKey
  | Some privKey =>
      match ParseKey (PeerPublicKey opts) with
      | None => Err EPeerKey
      | Some peerKey =>
          let b := uapi_line "private_key" (EncodeToString privKey)
                     +:+ uapi_line "public_key" (EncodeToString peerKey)
                     +:+ uapi_line "endpoint" (AddrPort_String endpointAddr) in
          let? b := (if String.eqb (PresharedKey opts) "" then Ok b
                     else match ParseKey (PresharedKey opts) with
                          | None => Err EPresharedKey
                          | Some psk => Ok (b +:+ uapi_line "preshared_key" (EncodeToString psk))
                          end) in
          let b := b +:+ uapi_line "persistent_keepalive_interval" (pretty (PersistentKeepaliveSeconds opts)) in
          Ok (foldl (fun b p => b +:+ uapi_line "allowed_ip" (Prefix_String p)) b (AllowedIPs opts))
      end
  end.

Definition uint16 (z : Z) : Z := z mod 2 ^ 16.

(** The loop of [resolveEndpoint]: the first answer of four bytes. *)
Fixpoint first_v4 (addrs : list string) : option Addr :=
  match addrs with
  | [] => None
  | a :: rest =>
      match AddrFromSlice a with
      | Some ip => if Is4 ip then Some (Unmap ip) else first_v4 rest
      | None => first_v4 rest
      end
  end.

Definition resolveEndpoint (h : host) (endpoint : string) : res endpointError (Addr * Z) :=
  match SplitHostPort endpoint with
  | None => Err ESplit
  | Some (hostName, portStr) =>
      match LookupPort h portStr with
      | None => Err EPort
      | Some port =>
          match ParseAddr hostName with
          | Some addr => Ok (addr, uint16 port)
          | None =>
              match LookupIPAddr h hostName with
              | None => Err (EResolve hostName)
              | Some [] => Err (ENoAddresses hostName)
              | Some (a0 :: rest) =>
                  match first_v4 (a0 :: rest) with
                  | Some ip => Ok (ip, uint16 port)
                  | None =>
                      match AddrFromSlice a0 with
                      | None => Err (EConvert hostName)
                      | Some ip => Ok (Unmap ip, uint16 port)
                      end
                  end
              end
          end
      end
  end.
End Uapi.

(** ** [dialer.go] *)

Inductive action :=
| ACreateTUN (local dns : list Addr) (mtu : Z)
| ANewDevice
| AIpcSet (uapi : string)
| AUp
| AClose.

#[export] Instance action_eq_dec : EqDecision action.
Proof. solve_decision. Defined.

Inductive dialerError :=
| EEndpoint (e : endpointError)
| ECreateTUN
| EUapi (e : uapiError)
| EIpcSet
| EUp.

(** [dev] and [closeOnce] of the dialer. *)
Record WireGuardDialer := mkDialer { hasDevice : bool; closeDone : bool }.

Definition NewDialer `{AddrText, KeyText} (h : host) (opts : Options) : res dialerError WireGuardDialer * list action :=
  match resolveEndpoint h (PeerEndpoint opts) with
  | Err e => (Err (EEndpoint e), [])
  | Ok endpointAddr =>
      let tun := ACreateTUN (LocalAddresses opts) (DNSServers opts) (MTU opts) in
      if negb (CreateNetTUN h) then (Err ECreateTUN, [tun])
      else
        match buildIpcSet opts endpointAddr with
        | Err e => (Err (EUapi e), [tun; ANewDevice; AClose])
        | Ok uapi =>
            if negb (accepts h uapi) then (Err EIpcSet, [tun; ANewDevice; AIpcSet uapi; AClose])
            else if negb (comesUp h) then (Err EUp, [tun; ANewDevice; AIpcSet uapi; AUp; AClose])
            else (Ok (mkDialer true false), [tun; ANewDevice; AIpcSet uapi; AUp])
        end
  end.

Definition Close (d : WireGuardDialer) : WireGuardDialer * list action :=
  if closeDone d then (d, [])
  else (mkDialer (hasDevice d) true, if hasDevice d then [AClose] else []).

(** [LookupHost]: [None] is the resolver's error. *)
Definition LookupHost `{AddrText} (strs : option (list string)) : option (list Addr) :=
  match strs with None => None | Some l => Some (omap ParseAddr l) end.

(** ** [health.go] *)

(** [time.Unix(sec, 0)]: the seconds since year 1 wrap at 64 bits. *)
Definition TimeUnix (sec : Z) : Z := fromUnix (wrap64 (sec - Unix time_zero) + Unix time_zero).

Inductive healthError := EIpcGet | EParseLine (line : string) | EScan.

Definition hs_prefix : string := "last_handshake_time_sec=".

Fixpoint scan_handshakes (lines : list string) (maxSec : Z) : res healthError Z :=
  match lines with
  | [] => Ok maxSec
  | raw :: rest =>
      if too_long raw then Err EScan
      else
        let line := dropCR raw in
        if negb (HasPrefix line hs_prefix) then scan_handshakes rest maxSec
        else match Atoi (slice_from line (String.length hs_prefix)) with
             | None => Err (EParseLine line)
             | Some n => scan_handshakes rest (if maxSec <? n then n else maxSec)
             end
  end.

Definition parseLastHandshake (uapi : string) : res healthError Z :=
  let? maxSec := scan_handshakes (rawLines uapi) 0 in
  Ok (if maxSec =? 0 then time_zero else TimeUnix maxSec).

Definition LastHandshake (ipcGet : option string) : res healthError Z :=
  match ipcGet with None => Err EIpcGet | Some uapi => parseLastHandshake uapi end.

(** ** [build.go] *)

(** The options [DefaultBuilder] passes on. *)
Definition builder_options (parsed : WgConf.ParsedConfig) : Options :=
  let i := WgConf.Interface parsed in
  let p := WgConf.Peer parsed in
  mkOptions (WgConf.PrivateKey i) (p_addr <$> WgConf.Addresses i) (WgConf.DNS i) (WgConf.MTU i)
    (WgConf.PublicKey p) (WgConf.Endpoint p) (WgConf.AllowedIPs p)
    (WgConf.PersistentKeepaliveSeconds p) (WgConf.PresharedKey p).

Definition DefaultBuilder `{AddrText, KeyText} (h : host) (parsed : WgConf.ParsedConfig) :=
  NewDialer h (builder_options parsed).

Inductive buildError (E : Type) :=
| EParseConf (id : string) (e : WgConf.wgError)
| EBuild (id : string) (e : E).
Arguments EParseConf {E} id e.
Arguments EBuild {E} id e.

(** The attributes of the line "tunnel built". *)
Record builtLine := mkBuilt { tunnel_id : string; peer_endpoint : string; local_address : string }.

Definition firstLocalAddress `{AddrText} (parsed : WgConf.ParsedConfig) : string :=
  match WgConf.Addresses (WgConf.Interface parsed) with
  | [] => ""
  | a :: _ => Prefix_String a
  end.

(** [filepath.Join(configDir, path)] for a relative path. *)
Definition resolve (path configDir : string) : string :=
  if IsAbs path then path else JoinPath configDir path.

(** [files] reads a file; [fn] is the builder.  The second component is what is logged. *)
Definition BuildDialer `{GoUnicode, AddrText} {E D : Type} (files : string -> option string)
    (configPath configDir : string) (fn : WgConf.ParsedConfig -> res E D) : res (buildError E) D * list builtLine :=
  let path := resolve configPath configDir in
  let id := TrimSuffix (Base path) ".conf" in
  match WgConf.Parse (files path) with
  | Err e => (Err (EParseConf id e), [])
  | Ok parsed =>
      match fn parsed with
      | Err e => (Err (EBuild id e), [])
      | Ok d => (Ok d, [mkBuilt id (WgConf.Endpoint (WgConf.Peer parsed)) (firstLocalAddress parsed)])
      end
  end.

(** ** [verify.go] *)

Inductive keyError := EAllFailed (last : option (string * WgConf.wgError)) | EDistinctKeys (n : nat).

Section Verify.
Context `{GoUnicode, AddrText, KeyText, Sha256}.

Definition privateKeyFingerprint (base64Key : string) : string :=
  match ParseKey base64Key with
  | None => "raw:" +:+ EncodeToString (slice_to (Sum256 base64Key) 8)
  | Some key => EncodeToString (slice_to (Sum256 key) 8)
  end.

Record verifyState := mkVerify {
  fingerprints : gset string;
  parseFailures : nat;
  lastParseErr : option (string * WgConf.wgError)
}.

Definition verify_one (files : string -> option string) (configDir : string) (st : verifyState) (cfgPath : string) : verifyState :=
  match WgConf.Parse (files (resolve cfgPath configDir)) with
  | Err e => mkVerify (fingerprints st) (S (parseFailures st)) (Some (Base cfgPath, e))
  | Ok parsed =>
      let fp := privateKeyFingerprint (WgConf.PrivateKey (WgConf.Interface parsed)) in
      mkVerify ({[ fp ]} ∪ fingerprints st) (parseFailures st) (lastParseErr st)
  end.

Definition VerifySingleKey (files : string -> option string) (configPaths : list string) (configDir : string) : res keyError unit :=
  let st := foldl (verify_one files configDir) (mkVerify ∅ 0 None) configPaths in
  if Nat.eqb (parseFailures st) (length configPaths) && Nat.ltb 0 (length configPaths) then Err (EAllFailed (lastParseErr st))
  else if Nat.ltb 1 (size (fingerprints st)) then Err (EDistinctKeys (size (fingerprints st)))
  else Ok tt.
End Verify.
End Device.
