(* ===== verification/GenRun.v ===== *)
(** * The generator's menu, zip mode and files ([cmd/generatevpnconfig/main.go])

    The rest of the command around [ConfGen]: the choice of the mode, the zip prompts, the
    atomic write of a config and the comparison of addresses.  What is printed is not
    modelled, except the warning of [checkAddressConsistency]. *)

From S2P Require Import Prelude GoStrings GoText Domain Eligible Http KeyFile WgConf ConfGen Device.

Module GenRun.
Import ConfGen.

Definition modeManual : string := "1".
Definition modeZip : string := "2".

(** ** Prompts *)

Fixpoint promptMode (readErr : bool) (input : list string) : res genError (string * list string) :=
  match input with
  | [] => Err (no_input readErr)
  | text :: input' =>
      let val := TrimSpace text in
      if String.eqb val "" || String.eqb val modeManual then Ok (modeManual, input')
      else if String.eqb val modeZip then Ok (modeZip, input')
      else promptMode readErr input'
  end.

Fixpoint promptPrefix (readErr : bool) (input : list string) : res genError (string * list string) :=
  match input with
  | [] => if readErr then Err EReadInput else Ok ("", [])
  | text :: input' =>
      let val := TrimSpace text in
      if String.eqb val "" then Ok ("", input')
      else if negb (validateName val) then promptPrefix readErr input'
      else Ok (val, input')
  end.

(** [stat]: whether the path names a regular file, [None] if it cannot be told. *)
Definition validateZipPath (stat : string -> option bool) (path : string) : bool :=
  if String.eqb path "" then false
  else if negb (EqualFold (Ext path) ".zip") then false
  else match stat path with Some regular => regular | None => false end.

Section Modes.
Context `{GoUnicode, AddrText, KeyText}.

Definition runZipMode (cfg : runConfig) (key : string) (stat : string -> option bool) (archive : string -> list zipFile)
    (mkdir : bool) (written : string -> bool) (files : gmap string string) (readErr : bool) (input : list string)
    : res genError (list string) * gmap string string :=
  match promptPrefix readErr input with
  | Err e => (Err e, files)
  | Ok (pre, input) =>
      let cfg := mkRun (dir cfg) (force cfg) pre in
      match promptRequired readErr (validateZipPath stat) input with
      | Err e => (Err e, files)
      | Ok (zipPath, _) => ingestZip cfg key mkdir written (archive zipPath) files
      end
  end.

Inductive genResult := Manual (c : WgConf.ParsedConfig) | Zip (names : list string).
Inductive startError := ENoTTY | EKeygen | EGen (e : genError).

(** [run]: [key] is the generated key, [None] if that fails. *)
Definition run (cfg : runConfig) (isTTY : bool) (key : option string) (stat : string -> option bool)
    (archive : string -> list zipFile) (mkdir writtenOne : bool) (written : string -> bool) (files : gmap string string)
    (readErr : bool) (input : list string) : res startError genResult * gmap string string :=
  if negb isTTY then (Err ENoTTY, files)
  else match key with
       | None => (Err EKeygen, files)
       | Some key =>
           match promptMode readErr input with
           | Err e => (Err (EGen e), files)
           | Ok (mode, input) =>
               if String.eqb mode modeZip then
                 match runZipMode cfg key stat archive mkdir written files readErr input with
                 | (Err e, files') => (Err (EGen e), files')
                 | (Ok names, files') => (Ok (Zip names), files')
                 end
               else
                 match runManualMode cfg key mkdir writtenOne files readErr input with
                 | (Err e, files') => (Err (EGen e), files')
                 | (Ok c, files') => (Ok (Manual c), files')
                 end
           end
       end.

(** ** Addresses *)

Definition addrKey (c : WgConf.ParsedConfig) : string :=
  Join (sortStrings (Device.Prefix_String <$> WgConf.Addresses (WgConf.Interface c))) ",".

(** The loop that lists every key once. *)
Fixpoint distinct (seen : gset string) (keys : list string) : list string :=
  match keys with
  | [] => []
  | k :: keys' => if bool_decide (k ∈ seen) then distinct seen keys' else k :: distinct ({[ k ]} ∪ seen) keys'
  end.

(** The address sets listed in the warning, [None] if there is no warning. *)
Definition checkAddressConsistency (cfgs : list WgConf.ParsedConfig) : option (list string) :=
  match cfgs with
  | [] => None
  | c0 :: rest =>
      let first := addrKey c0 in
      if existsb (fun c => negb (String.eqb (addrKey c) first)) rest
      then Some (distinct ∅ (addrKey <$> cfgs)) else None
  end.
End Modes.

(** ** [writeAtomicConf] *)

Inductive writeStep := WCreate | WChmod | WWrite | WSync | WClose | WRename.

(** Which call fails, if any; [partial] is how much a failing write has written. *)
Record writeAnswers := mkWrite { fails : option writeStep; partial : nat }.

#[export] Instance writeStep_eq_dec : EqDecision writeStep.
Proof. solve_decision. Defined.

Definition bad (a : writeAnswers) (s : writeStep) : bool := bool_decide (fails a = Some s).

Definition writeAtomicConf (a : writeAnswers) (tmpName finalPath body : string) (s : gmap string KeyFile.file)
    : res writeStep unit * gmap string KeyFile.file :=
  if bad a WCreate then (Err WCreate, s)
  else
    let s1 := <[tmpName := KeyFile.mkFile KeyFile.perm_600 ""]> s in
    let cleanup s := delete tmpName s in
    if bad a WChmod then (Err WChmod, cleanup s1)
    else
      let s2 := <[tmpName := KeyFile.mkFile KeyFile.perm_600 ""]> s1 in
      if bad a WWrite then (Err WWrite, cleanup (<[tmpName := KeyFile.mkFile KeyFile.perm_600 (slice_to body (partial a))]> s2))
      else
        let s3 := <[tmpName := KeyFile.mkFile KeyFile.perm_600 body]> s2 in
        if bad a WSync then (Err WSync, cleanup s3)
        else if bad a WClose then (Err WClose, cleanup s3)
        else if bad a WRename then (Err WRename, cleanup s3)
        else
          match s3 !! tmpName with
          | Some f => (Ok tt, <[finalPath := f]> (delete tmpName s3))
          | None => (Err WRename, s3)
          end.
End GenRun.
Import GenRun.

Lemma distinct_spec seen keys :
  NoDup (distinct seen keys) /\ forall k, k ∈ distinct seen keys <-> k ∈ keys /\ k ∉ seen.
Proof.
  revert seen. induction keys as [|k keys IH]; intros seen; cbn [distinct]; [split; [constructor | set_solver] |].
  case_bool_decide as Hk.
  - destruct (IH seen) as [Hn He]. split; [done |]. intros x. rewrite He. set_solver.
  - destruct (IH ({[ k ]} ∪ seen)) as [Hn He]. split.
    + constructor; [rewrite He; set_solver | done].
    + intros x. rewrite elem_of_cons, He. destruct (decide (x = k)); set_solver.
Qed.

(** The generator never leaves half a config, and notices mixed addresses.  Whatever
    call fails, the write leaves every file as it was, without the temporary one; if it
    succeeds, the config holds the whole body with mode 0600 and nothing else changed.  The
    address warning is printed exactly if two of the configs have different address sets,
    and lists every set once. *)
Theorem generator_files `{AddrText} a tmpName finalPath body s cfgs :
  s !! tmpName = None -> tmpName <> finalPath ->
  (forall e s', writeAtomicConf a tmpName finalPath body s = (Err e, s') -> s' = s)
  /\ (forall s', writeAtomicConf a tmpName finalPath body s = (Ok tt, s') ->
        s' = <[finalPath := KeyFile.mkFile KeyFile.perm_600 body]> s)
  /\ (fails a = None -> exists s', writeAtomicConf a tmpName finalPath body s = (Ok tt, s'))
  /\ (checkAddressConsistency cfgs = None <-> forall c d, c ∈ cfgs -> d ∈ cfgs -> addrKey c = addrKey d)
  /\ (forall l, checkAddressConsistency cfgs = Some l -> NoDup l /\ forall k, k ∈ l <-> k ∈ addrKey <$> cfgs).
Proof.
  intros Hn Hne. unfold writeAtomicConf. rewrite !insert_insert_eq.
  assert (forall f, delete tmpName (<[tmpName := f]> s) = s) as Hdel by (intros f; by apply delete_insert_id).
  split_and!.
  - intros e s'. rewrite lookup_insert_eq, !Hdel. repeat case_match; congruence.
  - intros s'. rewrite lookup_insert_eq, !Hdel. repeat case_match; congruence.
  - intros Hf. unfold bad. rewrite Hf, lookup_insert_eq. cbn. by eexists.
  - unfold checkAddressConsistency. destruct cfgs as [|c0 rest]; [split; [set_solver | done] |].
    destruct (existsb _ rest) eqn:E; split; try done.
    + apply existsb_exists in E as (c & Hc%list_elem_of_In & Hk%negb_true_iff%String.eqb_neq). intros Hall. exfalso.
      apply Hk, Hall; set_solver.
    + intros _. assert (forall c, c ∈ c0 :: rest -> addrKey c = addrKey c0) as Hall.
      { intros c [->|Hc]%elem_of_cons; [done |]. destruct (String.eqb_spec (addrKey c) (addrKey c0)) as [|Hk]; [done |].
        exfalso. apply not_true_iff_false in E. apply E, existsb_exists. exists c. split; [by apply list_elem_of_In |].
        by apply negb_true_iff, String.eqb_neq. }
      intros c d Hc Hd. by rewrite (Hall c Hc), (Hall d Hd).
  - intros l. unfold checkAddressConsistency. destruct cfgs as [|c0 rest]; [done |]. destruct (existsb _ rest); [| done].
    intros [= <-]. destruct (distinct_spec ∅ (addrKey <$> c0 :: rest)) as [Hd He]. split; [done |]. intros k. rewrite He. set_solver.
Qed.

Lemma generator_files_witness :
  writeAtomicConf (mkWrite (Some WWrite) 3) "/t/se.conf.1.tmp" "/t/se.conf" "[Interface]" {[ "/t/se.conf" := KeyFile.mkFile KeyFile.perm_600 "old" ]}
    = (Err WWrite, {[ "/t/se.conf" := KeyFile.mkFile KeyFile.perm_600 "old" ]})
  /\ exists s', writeAtomicConf (mkWrite None 0) "/t/se.conf.1.tmp" "/t/se.conf" "[Interface]" ∅ = (Ok tt, s')
       /\ s' = {[ "/t/se.conf" := KeyFile.mkFile KeyFile.perm_600 "[Interface]" ]}.
Proof.
  split; [vm_compute; reflexivity |].
  destruct (@generator_files AddrDemo.demo_addr (mkWrite None 0) "/t/se.conf.1.tmp" "/t/se.conf" "[Interface]" ∅ [] (lookup_empty _) ltac:(discriminate))
    as (_ & Hok & Hex & _).
  destruct (Hex eq_refl) as [s' Hs']. exists s'. split; [exact Hs' | exact (Hok s' Hs')].
Defined.
