(* ===== verification/DeviceThms.v ===== *)
(** * Theorems on the WireGuard device

    The UAPI text is read back with [directives]: the lines of the text, cut at their
    first [=].  The lifetime of a device is the number of [AClose] actions. *)

From stdpp Require Import pretty.
From S2P Require Import Prelude GoStrings GoText Base64 Domain Http WgConf ConfThms Eligible Supervisor Device.
Import Device.

(** ** The text of numbers and keys *)

Section Digits.
Context (c : ascii) (Hc : is_digit c = false).

Lemma pretty_char n : (n < 10)%N -> Ascii.eqb (pretty_N_char n) c = false.
Proof.
  intros Hn. apply Ascii.eqb_neq. intros <-. revert Hc.
  assert (forallb (fun k => is_digit (pretty_N_char (N.of_nat k))) (seq 0 10) = true) as Hall by reflexivity.
  rewrite forallb_forall in Hall. specialize (Hall (N.to_nat n)). rewrite N2Nat.id in Hall.
  rewrite Hall; [done |]. apply in_seq. lia.
Qed.

Lemma pretty_go_no n : forall s, Contains s c = false -> Contains (pretty_N_go n s) c = false.
Proof.
  induction (N.lt_wf_0 n) as [n _ IH]. intros s Hs. destruct (decide (0 < n)%N) as [Hn|Hn].
  - rewrite pretty_N_go_step by done. apply IH; [apply N.div_lt; lia |].
    rewrite Contains_cons, Hs, pretty_char; [done | apply N.mod_lt; lia].
  - assert (n = 0%N) as -> by lia. by rewrite pretty_N_go_0.
Qed.

Lemma pretty_N_no (n : N) : Contains (pretty n) c = false.
Proof.
  unfold pretty, pretty_N. case_decide; [| by apply pretty_go_no].
  rewrite Contains_cons, orb_false_r. by apply (pretty_char 0).
Qed.
Lemma pretty_Z_no (z : Z) : c <> "-"%char -> Contains (pretty z) c = false.
Proof.
  intros Hm. destruct z; unfold pretty, pretty_Z.
  - by apply (pretty_N_no 0).
  - by apply (pretty_N_no (Npos p)).
  - rewrite append_cons, append_nil_l, Contains_cons. apply orb_false_iff. split; [by apply Ascii.eqb_neq |].
    by apply (pretty_N_no (Npos p)).
Qed.
End Digits.

Lemma hex_no_newline s : Contains (EncodeToString s) newline = false.
Proof. by apply (Contains_forallb is_hex_lower); [apply EncodeToString_hex |]. Qed.

#[export] Hint Resolve hex_no_newline : vpn.

(** ** Reading the UAPI text *)

(** A line cut at its first [=]. *)
Definition cut (line : string) : string * string :=
  match IndexByte line "=" with
  | Some i => (slice_to line i, slice_from line (S i))
  | None => (line, "")
  end.
Definition directives (text : string) : list (string * string) := cut <$> rawLines text.

Definition pair_ok (kv : string * string) : Prop :=
  Contains (fst kv) newline = false /\ Contains (fst kv) "=" = false /\ Contains (snd kv) newline = false.

Fixpoint text_of (kvs : list (string * string)) : string :=
  match kvs with [] => "" | (k, v) :: kvs => uapi_line k v +:+ text_of kvs end.

Lemma text_of_app l1 l2 : text_of (l1 ++ l2) = text_of l1 +:+ text_of l2.
Proof. induction l1 as [|[k v] l1 IH]; cbn; [done |]. by rewrite IH, append_assoc. Qed.

Lemma Split_text kvs : Forall pair_ok kvs -> Split (text_of kvs) newline = ((fun kv => fst kv +:+ "=" +:+ snd kv) <$> kvs) ++ [""].
Proof.
  induction 1 as [|[k v] kvs (Hk & _ & Hv) _ IH]; [done |]. cbn in Hk, Hv.
  cbn [text_of fmap list_fmap]. unfold uapi_line.
  replace ((k +:+ "=" +:+ v +:+ NL) +:+ text_of kvs) with ((k +:+ "=" +:+ v) +:+ String newline (text_of kvs))
    by (by rewrite !append_assoc).
  rewrite Split_line; [by rewrite IH |]. rewrite !Contains_app, Hk, Hv. done.
Qed.

Lemma drop_last_empty_snoc l : Forall (fun x => x <> "") l -> drop_last_empty (l ++ [""]) = l.
Proof. induction 1 as [|x l Hx _ IH]; [done |]. cbn. rewrite IH. by destruct (l ++ [""]) eqn:E; [destruct l | ]. Qed.

Lemma cut_pair k v : Contains k "=" = false -> cut (k +:+ "=" +:+ v) = (k, v).
Proof.
  intros Hk. unfold cut. change ("=" +:+ v) with (String "=" v).
  by rewrite IndexByte_app, slice_to_app, slice_from_app.
Qed.

Lemma directives_text kvs : Forall pair_ok kvs -> directives (text_of kvs) = kvs.
Proof.
  intros Hok. unfold directives, rawLines. rewrite Split_text, drop_last_empty_snoc by done || (apply Forall_fmap, Forall_true; by intros [[] ?]).
  induction Hok as [|[k v] kvs (_ & Hk & _) _ IH]; [done |]. cbn [fmap list_fmap]. rewrite cut_pair by done. by rewrite IH.
Qed.

(** The addresses that are printed have no line breaks (a zone could hold one). *)
Definition one_line `{AddrText} (a : Addr) : Prop := Contains (Addr_String a) newline = false.

Section Uapi.
Context `{AddrText, KeyText}.

(** The directives a device gets, in the order of the protocol: the key of the
    interface, then the peer and its attributes. *)
Definition device_config (priv pub : string) (psk : option string) (ep : Addr * Z) (opts : Options) : list (string * string) :=
  [("private_key", EncodeToString priv); ("public_key", EncodeToString pub); ("endpoint", AddrPort_String ep)]
  ++ match psk with Some k => [("preshared_key", EncodeToString k)] | None => [] end
  ++ [("persistent_keepalive_interval", pretty (PersistentKeepaliveSeconds opts))]
  ++ ((fun p => ("allowed_ip", Prefix_String p)) <$> AllowedIPs opts).

Lemma allowed_text l b :
  foldl (fun b p => b +:+ uapi_line "allowed_ip" (Prefix_String p)) b l
  = b +:+ text_of ((fun p => ("allowed_ip", Prefix_String p)) <$> l).
Proof.
  revert b. induction l as [|p l IH]; intros b; cbn; [by rewrite append_nil_r |]. by rewrite IH, append_assoc.
Qed.

Lemma device_config_ok priv pub psk ep opts :
  one_line (fst ep) -> Forall (fun p => one_line (p_addr p)) (AllowedIPs opts) ->
  Forall pair_ok (device_config priv pub psk ep opts).
Proof.
  unfold one_line, device_config. intros He Ha. rewrite !Forall_app. split_and!.
  - repeat constructor; cbn [fst snd]; auto with vpn.
    unfold AddrPort_String. destruct (fst ep);
      rewrite !Contains_app, He, pretty_Z_no by done; done.
  - destruct psk; repeat constructor; cbn [fst snd]; auto with vpn.
  - repeat constructor. by apply pretty_Z_no.
  - apply Forall_fmap. eapply Forall_impl; [exact Ha |]. intros p Hp. repeat constructor. cbn [fst snd].
    unfold Prefix_String. rewrite !Contains_app, Hp, pretty_Z_no by done. done.
Qed.

Lemma buildIpcSet_text opts ep text :
  buildIpcSet opts ep = Ok text ->
  exists priv pub psk,
    ParseKey (PrivateKey opts) = Some priv /\ ParseKey (PeerPublicKey opts) = Some pub
    /\ psk = (if String.eqb (PresharedKey opts) "" then None else ParseKey (PresharedKey opts))
    /\ (PresharedKey opts <> "" -> psk <> None)
    /\ text = text_of (device_config priv pub psk ep opts).
Proof.
  unfold buildIpcSet. destruct (ParseKey (PrivateKey opts)) as [priv|]; [| done].
  destruct (ParseKey (PeerPublicKey opts)) as [pub|]; [| done].
  destruct (String.eqb_spec (PresharedKey opts) "") as [E|E].
  - intros [= <-]. exists priv, pub, None. split_and!; try done.
    rewrite allowed_text. unfold device_config. cbn [app text_of]. by rewrite !append_assoc.
  - destruct (ParseKey (PresharedKey opts)) as [k|]; [| done].
    intros [= <-]. exists priv, pub, (Some k). split_and!; try done.
    rewrite allowed_text. unfold device_config. cbn [app text_of]. by rewrite !append_assoc.
Qed.
End Uapi.

(** C24: The UAPI text gives the device exactly the options.  Read line by line, it
    holds the private key, then one peer with its key, endpoint, preshared key (only
    if one is set), keepalive and every allowed prefix in order, and nothing else; it
    is built exactly when the keys that are set parse. *)
Theorem uapi_faithful `{AddrText, KeyText} opts ep :
  one_line (fst ep) -> Forall (fun p => one_line (p_addr p)) (AllowedIPs opts) ->
  match ParseKey (PrivateKey opts), ParseKey (PeerPublicKey opts) with
  | Some priv, Some pub =>
      if String.eqb (PresharedKey opts) "" then
        exists text, buildIpcSet opts ep = Ok text /\ directives text = device_config priv pub None ep opts
      else match ParseKey (PresharedKey opts) with
           | Some psk => exists text, buildIpcSet opts ep = Ok text /\ directives text = device_config priv pub (Some psk) ep opts
           | None => buildIpcSet opts ep = Err EPresharedKey
           end
  | Some _, None => buildIpcSet opts ep = Err EPeerKey
  | None, _ => buildIpcSet opts ep = Err EPrivateKey
  end.
Proof.
  intros He Ha. destruct (buildIpcSet opts ep) as [e|text] eqn:E.
  - revert E. unfold buildIpcSet. destruct (ParseKey (PrivateKey opts)), (ParseKey (PeerPublicKey opts)); try congruence.
    destruct (String.eqb (PresharedKey opts) ""); [done |]. destruct (ParseKey (PresharedKey opts)); congruence.
  - destruct (buildIpcSet_text _ _ _ E) as (priv & pub & psk & -> & -> & Hpsk & Hset & ->).
    pose proof (directives_text _ (device_config_ok priv pub psk ep opts He Ha)) as Hd.
    destruct (String.eqb_spec (PresharedKey opts) "") as [_|Hne]; [subst psk; by eexists |].
    rewrite <- Hpsk. specialize (Hset Hne). destruct psk; [by eexists | done].
Qed.

(** ** The life of a device *)

Fixpoint close_n (n : nat) (d : WireGuardDialer) : list action :=
  match n with O => [] | S n => let (d', acts) := Close d in acts ++ close_n n d' end.

Definition closes (acts : list action) : nat := length (filter (fun a => a = AClose) acts).

Definition created (acts : list action) : Prop := ANewDevice ∈ acts.

Lemma close_n_closed n b : close_n n (mkDialer b true) = [].
Proof. by induction n. Qed.

(** Devices do not leak.  If [NewDialer] fails, a device it had created is closed,
    exactly once and as the last action; if it succeeds the device is up, configured
    with the UAPI text of the options and still open, and any positive number of calls
    of [Close] closes it exactly once. *)
Theorem dialer_no_leak `{AddrText, KeyText} h opts :
  match NewDialer h opts with
  | (Err _, acts) => closes acts = 0%nat /\ ~ created acts \/ closes acts = 1%nat /\ created acts /\ last acts = Some AClose
  | (Ok d, acts) =>
      closes acts = 0%nat /\ last acts = Some AUp
      /\ (exists ep uapi, resolveEndpoint h (PeerEndpoint opts) = Ok ep /\ buildIpcSet opts ep = Ok uapi /\ AIpcSet uapi ∈ acts)
      /\ forall n, closes (acts ++ close_n (S n) d) = 1%nat
  end.
Proof.
  unfold NewDialer, created. destruct (resolveEndpoint h (PeerEndpoint opts)) as [e|ep] eqn:Er; [left; split; [done | set_solver] |].
  destruct (CreateNetTUN h); cbn [negb]; [| left; split; [done | set_solver]].
  destruct (buildIpcSet opts ep) as [e|uapi] eqn:Eb; [right; split_and!; [done | set_solver | done] |].
  destruct (accepts h uapi); cbn [negb]; [| right; split_and!; [done | set_solver | done]].
  destruct (comesUp h); cbn [negb]; [| right; split_and!; [done | set_solver | done]].
  split_and!; [done | done | exists ep, uapi; split_and!; [done | done | set_solver] |].
  intros n. cbn [close_n Close closeDone hasDevice]. rewrite close_n_closed. done.
Qed.

(** ** The endpoint *)

Definition fourBytes (ip : string) : bool := Nat.eqb (String.length ip) 4.

Lemma AddrFromSlice_4 ip : fourBytes ip = true -> AddrFromSlice ip = Some (V4 (be_value ip)).
Proof. unfold fourBytes, AddrFromSlice. by intros ->. Qed.

Lemma first_v4_skip l1 l2 : Forall (fun ip => fourBytes ip = false) l1 -> first_v4 (l1 ++ l2) = first_v4 l2.
Proof.
  unfold fourBytes. induction 1 as [|a l Ha _ IH]; [done |]. cbn. unfold AddrFromSlice. rewrite Ha.
  by destruct (Nat.eqb (String.length a) 16).
Qed.

Lemma resolve_lookup `{AddrText} h endpoint name ps port a0 rest :
  SplitHostPort endpoint = Some (name, ps) -> LookupPort h ps = Some port -> 0 <= port < 2 ^ 16 ->
  ParseAddr name = None -> LookupIPAddr h name = Some (a0 :: rest) ->
  resolveEndpoint h endpoint =
    match first_v4 (a0 :: rest) with
    | Some ip => Ok (ip, port)
    | None => match AddrFromSlice a0 with Some ip => Ok (Unmap ip, port) | None => Err (EConvert name) end
    end.
Proof.
  intros Hs Hp Hr Hn Hl. unfold resolveEndpoint, uint16. rewrite Hs, Hp, Hn, Hl, Z.mod_small by done. done.
Qed.

(** How a peer's endpoint is chosen.  A literal address is used without asking the
    resolver.  Otherwise the first answer of four bytes is taken, wherever it is; if
    there is none, the first answer, out of its IPv4-mapped form.  So the preference
    for IPv4 misses an IPv4 address that comes as 16 bytes behind an IPv6 one. *)
Theorem endpoint_choice `{AddrText} h endpoint name ps port :
  SplitHostPort endpoint = Some (name, ps) -> LookupPort h ps = Some port -> 0 <= port < 2 ^ 16 ->
  (forall a, ParseAddr name = Some a -> resolveEndpoint h endpoint = Ok (a, port))
  /\ (ParseAddr name = None ->
      (forall before ip after, LookupIPAddr h name = Some (before ++ ip :: after) ->
         Forall (fun x => fourBytes x = false) before -> fourBytes ip = true ->
         resolveEndpoint h endpoint = Ok (V4 (be_value ip), port))
      /\ (forall v6 mapped rest, LookupIPAddr h name = Some (v6 :: mapped :: rest) ->
         Forall (fun x => fourBytes x = false) rest ->
         String.length v6 = 16%nat -> String.length mapped = 16%nat ->
         Is4 (Unmap (V6 (be_value v6) "")) = false -> Is4 (Unmap (V6 (be_value mapped) "")) = true ->
         resolveEndpoint h endpoint = Ok (V6 (be_value v6) "", port))).
Proof.
  intros Hs Hp Hr. split.
  - intros a Ha. unfold resolveEndpoint, uint16. by rewrite Hs, Hp, Ha, Z.mod_small.
  - intros Hn. split.
    + intros before ip after Hl Hb Hip.
      assert (first_v4 (before ++ ip :: after) = Some (V4 (be_value ip))) as Hf
        by (rewrite first_v4_skip by done; cbn; by rewrite AddrFromSlice_4).
      destruct (before ++ ip :: after) as [|a0 l] eqn:E; [by destruct before |].
      rewrite (resolve_lookup h endpoint name ps port a0 l) by done. by rewrite Hf.
    + intros v6 mapped rest Hl Hrest H6 Hm Hv _.
      rewrite (resolve_lookup h endpoint name ps port v6 (mapped :: rest)) by done.
      assert (fourBytes v6 = false /\ fourBytes mapped = false) as [Ha Hb] by (unfold fourBytes; by rewrite H6, Hm).
      rewrite <- (app_nil_r (v6 :: mapped :: rest)), first_v4_skip by (by repeat constructor).
      cbn [first_v4]. unfold AddrFromSlice. rewrite H6. cbn [Nat.eqb]. f_equal. f_equal.
      revert Hv. cbn [Unmap]. by destruct (_ =? _).
Qed.

(** ** Handshakes *)

(** The handshake times in a UAPI answer, one per peer. *)
Definition handshake_lines (uapi : string) : list string :=
  filter (fun l => HasPrefix l hs_prefix = true) (dropCR <$> rawLines uapi).
Definition hs_value (line : string) : option Z := Atoi (slice_from line (String.length hs_prefix)).
Definition readable (uapi : string) : Prop := Forall (fun l => too_long l = false) (rawLines uapi).

Lemma scan_spec lines vals m :
  Forall (fun l => too_long l = false) lines ->
  mapM hs_value (filter (fun l => HasPrefix l hs_prefix = true) (dropCR <$> lines)) = Some vals ->
  scan_handshakes lines m = Ok (foldl Z.max m vals).
Proof.
  intros Hl. revert vals m. induction Hl as [|l lines Hl _ IH]; intros vals m Hv; [cbn in Hv; by injection Hv as <- |].
  cbn [scan_handshakes]. rewrite Hl. cbn [fmap list_fmap] in Hv. rewrite filter_cons in Hv.
  destruct (HasPrefix (dropCR l) hs_prefix) eqn:Hp; cbn [negb].
  - rewrite decide_True in Hv by done. cbn [mapM] in Hv. fold (hs_value (dropCR l)).
    destruct (hs_value (dropCR l)) as [n|] eqn:Hn; [| done]. cbn in Hv.
    destruct (mapM _ _) as [vals'|] eqn:Hm in Hv; [| done]. cbn in Hv. injection Hv as <-.
    rewrite (IH vals') by done. cbn [foldl]. f_equal. f_equal. destruct (Z.ltb_spec m n); lia.
  - rewrite decide_False in Hv by done. by apply IH.
Qed.

Lemma scan_bad lines m :
  Forall (fun l => too_long l = false) lines ->
  mapM hs_value (filter (fun l => HasPrefix l hs_prefix = true) (dropCR <$> lines)) = None ->
  exists e, scan_handshakes lines m = Err e.
Proof.
  intros Hl. revert m. induction Hl as [|l lines Hl _ IH]; intros m Hn; [done |].
  cbn [scan_handshakes]. rewrite Hl. cbn [fmap list_fmap] in Hn. rewrite filter_cons in Hn.
  destruct (HasPrefix (dropCR l) hs_prefix) eqn:Hp; cbn [negb].
  - rewrite decide_True in Hn by done. cbn [mapM] in Hn. fold (hs_value (dropCR l)).
    destruct (hs_value (dropCR l)) as [n|]; [| by eexists]. cbn in Hn. apply IH. by destruct (mapM _ _) in Hn |- *.
  - rewrite decide_False in Hn by done. by apply IH.
Qed.

Lemma foldl_max_mem vals m : foldl Z.max m vals = m \/ foldl Z.max m vals ∈ vals.
Proof.
  revert m. induction vals as [|v vals IH]; intros m; [by left |]. cbn. destruct (IH (Z.max m v)) as [E|E].
  - rewrite E. destruct (Z.max_spec m v) as [[_ ->]|[_ ->]]; [right; apply elem_of_cons |]; by left.
  - right. by apply elem_of_cons; right.
Qed.
Lemma foldl_max_ge vals m : m <= foldl Z.max m vals /\ forall v, v ∈ vals -> v <= foldl Z.max m vals.
Proof.
  revert m. induction vals as [|v vals IH]; intros m; [cbn; split; [lia | by intros v ?%elem_of_nil] |]. cbn [foldl].
  destruct (IH (Z.max m v)) as [H1 H2]. split; [lia |]. intros w [->|Hw]%elem_of_cons; [lia | auto].
Qed.

(** Seconds that do not wrap in a [time.Time]. *)
Definition sane_sec (n : Z) : Prop := int64_min <= n <= int64_max + Unix time_zero.

Lemma TimeUnix_exact n : 0 <= n -> sane_sec n -> TimeUnix n = fromUnix n.
Proof.
  unfold sane_sec, TimeUnix. assert (Unix time_zero = -62135596800) as -> by reflexivity. intros H0 Hn.
  rewrite wrap64_id by (unfold in_int64, int64_min, int64_max in *; lia). f_equal. lia.
Qed.

Lemma parse_spec uapi vals :
  readable uapi -> mapM hs_value (handshake_lines uapi) = Some vals -> Forall sane_sec vals ->
  let m := foldl Z.max 0 vals in
  parseLastHandshake uapi = Ok (if m =? 0 then time_zero else fromUnix m).
Proof.
  intros Hr Hv Hs m. unfold parseLastHandshake. rewrite (scan_spec _ vals 0 Hr Hv). fold m.
  destruct (Z.eqb_spec m 0) as [|Hm]; [done |]. f_equal. apply TimeUnix_exact.
  - exact (proj1 (foldl_max_ge vals 0)).
  - destruct (foldl_max_mem vals 0) as [E|E]; [done |]. rewrite Forall_forall in Hs. by apply Hs.
Qed.

Lemma Sub_le now t a : int64_min <= a < int64_max -> (Sub now t <= a <-> now - t <= a).
Proof. unfold Sub. lia. Qed.

(** C13: Health follows the newest handshake of any peer.  On an answer in which every
    handshake line parses, the supervisor's check of the parsed time says healthy
    exactly when some peer's handshake is at most the maximal age old; an answer with a
    line that is no number is an error, and unhealthy. *)
Theorem handshake_health (o : Supervisor.options) now uapi (toErr : healthError -> err) :
  readable uapi -> 0 <= Supervisor.handshakeMaxAge o < int64_max ->
  let answer := Some (match LastHandshake (Some uapi) with Ok t => Ok t | Err e => Err (toErr e) end) in
  (forall vals, mapM hs_value (handshake_lines uapi) = Some vals -> Forall sane_sec vals ->
     fst (Supervisor.isHealthy o now answer) = true
     <-> exists n, n ∈ vals /\ 0 < n /\ now - fromUnix n <= Supervisor.handshakeMaxAge o)
  /\ (mapM hs_value (handshake_lines uapi) = None -> Supervisor.isHealthy o now answer = (false, "health_query_error")).
Proof.
  intros Hr Ha answer. subst answer. cbn [LastHandshake]. split.
  - intros vals Hv Hs. rewrite (parse_spec uapi vals) by done.
    destruct (foldl_max_ge vals 0) as [H0 Hge]. destruct (foldl_max_mem vals 0) as [E|E].
    + rewrite E. cbn [Z.eqb]. split; [done |]. intros (n & Hn & Hpos & _). specialize (Hge n Hn). lia.
    + set (m := foldl Z.max 0 vals) in *. destruct (Z.eqb_spec m 0) as [Hm|Hm].
      { split; [done |]. intros (n & Hn & Hpos & _). specialize (Hge n Hn). lia. }
      cbn [Supervisor.isHealthy]. unfold IsZero. destruct (Z.eqb_spec (fromUnix m) time_zero) as [Hz|_].
      { unfold fromUnix, time_zero, Second, Millisecond, Nanosecond in Hz. lia. }
      assert (forall n, n ∈ vals -> now - fromUnix n <= Supervisor.handshakeMaxAge o -> now - fromUnix m <= Supervisor.handshakeMaxAge o) as Hmono.
      { intros n Hn. specialize (Hge n Hn). unfold fromUnix, Second, Millisecond, Nanosecond. lia. }
      destruct (Z.ltb_spec (Supervisor.handshakeMaxAge o) (Sub now (fromUnix m))) as [Hlt|Hle]; cbn [fst].
      * split; [done |]. intros (n & Hn & _ & Hage). specialize (Hmono n Hn Hage).
        apply (Sub_le now (fromUnix m)) in Hmono; [lia | unfold int64_min; lia].
      * split; [| done]. intros _. exists m. split_and!; [done | lia |].
        apply Sub_le; [unfold int64_min; lia | done].
  - intros Hn. unfold parseLastHandshake. destruct (scan_bad (rawLines uapi) 0 Hr Hn) as [e ->]. done.
Qed.

(** ** The single-key guard *)

Lemma size_le_1 (X : gset string) : (size X <= 1)%nat <-> forall x y, x ∈ X -> y ∈ X -> x = y.
Proof.
  split.
  - intros Hs x y Hx Hy. destruct (decide (x = y)) as [|Hne]; [done |]. exfalso.
    assert ({[x; y]} ⊆ X) as Hsub by set_solver. apply subseteq_size in Hsub.
    rewrite size_union, !size_singleton in Hsub by set_solver. lia.
  - intros Hall. destruct (decide (X = ∅)) as [->|Hne]; [rewrite size_empty; lia |].
    apply set_choose_L in Hne as [x Hx]. assert (X ⊆ {[x]}) as Hsub by (intros y Hy; apply elem_of_singleton; auto).
    apply subseteq_size in Hsub. by rewrite size_singleton in Hsub.
Qed.

Section Guard.
Context `{GoUnicode, AddrText, KeyText, Sha256} (files : string -> option string) (configDir : string).

(** The fingerprints of the configs that parse. *)
Definition fp_of (cfgPath : string) : option string :=
  match WgConf.Parse (files (resolve cfgPath configDir)) with
  | Ok parsed => Some (privateKeyFingerprint (WgConf.PrivateKey (WgConf.Interface parsed)))
  | Err _ => None
  end.
Definition fps (paths : list string) : gset string := list_to_set (omap fp_of paths).

Lemma verify_fold paths st :
  let st' := foldl (verify_one files configDir) st paths in
  fingerprints st' = fps paths ∪ fingerprints st
  /\ (parseFailures st' + length (omap fp_of paths) = parseFailures st + length paths)%nat.
Proof.
  revert st. unfold fps. induction paths as [|p paths IH]; intros st; cbn [foldl]; [split; [set_solver | done] |].
  destruct (IH (verify_one files configDir st p)) as [-> Hf]. revert Hf. cbn [omap list_omap length].
  unfold verify_one, fp_of at 3 6.
  destruct (WgConf.Parse (files (resolve p configDir))); cbn [fingerprints parseFailures length list_to_set foldr].
  - intros Hf. split; [set_solver | unfold omap in *; lia].
  - intros Hf. split; [set_solver | unfold omap in *; lia].
Qed.

Lemma omap_nil_iff (paths : list string) : omap (fp_of) paths = [] <-> Forall (fun p => fp_of p = None) paths.
Proof.
  induction paths as [|p paths IH]; [done |]. cbn. rewrite Forall_cons, <- IH. destruct (fp_of p); naive_solver.
Qed.

Lemma fps_elem paths x : x ∈ fps paths <-> exists p, p ∈ paths /\ fp_of p = Some x.
Proof. unfold fps. rewrite elem_of_list_to_set, list_elem_of_omap. done. Qed.

Lemma Verify_cases paths :
  VerifySingleKey files paths configDir =
    if bool_decide (paths <> [] /\ Forall (fun p => fp_of p = None) paths) then
      Err (EAllFailed (lastParseErr (foldl (verify_one files configDir) (mkVerify ∅ 0 None) paths)))
    else if Nat.ltb 1 (size (fps paths)) then Err (EDistinctKeys (size (fps paths)))
    else Ok tt.
Proof.
  unfold VerifySingleKey. destruct (verify_fold paths (mkVerify ∅ 0 None)) as [Hf Hn].
  cbn [fingerprints parseFailures] in Hf, Hn. rewrite (right_id_L ∅ (∪)) in Hf. rewrite Hf.
  match goal with |- (if ?c then _ else _) = (if ?d then _ else _) => assert (c = d) as ->; [| done] end.
  apply eq_bool_prop_intro. rewrite bool_decide_spec, <- omap_nil_iff.
  rewrite Is_true_true, andb_true_iff, Nat.eqb_eq, Nat.ltb_lt. split.
  - intros [E Hl]. split; [intros ->; cbn in Hl; lia |]. apply length_zero_iff_nil. lia.
  - intros [Hne E]. rewrite E in Hn. cbn [length] in Hn. destruct paths; [done |]. cbn [length] in *. lia.
Qed.
End Guard.

(** The single-key guard is exact.  It passes exactly when the configs that parse
    all have the same key fingerprint (and, unless there are no configs, one of them
    parses); a config that does not parse never makes the others fail; otherwise it
    reports that none parses, or the number of different fingerprints. *)
Theorem single_key_guard `{GoUnicode, AddrText, KeyText, Sha256} files dir paths :
  (VerifySingleKey files paths dir = Ok tt
   <-> (paths = [] \/ exists p x, p ∈ paths /\ fp_of files dir p = Some x)
       /\ forall p q x y, p ∈ paths -> q ∈ paths -> fp_of files dir p = Some x -> fp_of files dir q = Some y -> x = y)
  /\ (forall e, VerifySingleKey files paths dir = Err e ->
        (exists last, e = EAllFailed last /\ paths <> [] /\ Forall (fun p => fp_of files dir p = None) paths)
        \/ e = EDistinctKeys (size (fps files dir paths)) /\ (2 <= size (fps files dir paths))%nat).
Proof.
  rewrite Verify_cases. case_bool_decide as Hfail; [split |].
  - destruct Hfail as [Hne Hall]. rewrite Forall_forall in Hall. split; [done |]. intros [[->|(p & x & Hp & Hx)] _]; [done |].
    by rewrite (Hall p Hp) in Hx.
  - intros e [= <-]. left. by eexists.
  - assert (paths = [] \/ exists p x, p ∈ paths /\ fp_of files dir p = Some x) as Hsome.
    { destruct (decide (paths = [])) as [|Hne]; [by left |]. right.
      destruct (decide (Forall (fun p => fp_of files dir p = None) paths)) as [Hall|Hall]; [by destruct Hfail |].
      apply not_Forall_Exists in Hall; [| intros p; apply _]. apply Exists_exists in Hall as (p & Hp & Hx).
      cbv beta in Hx. exists p. destruct (fp_of files dir p) as [x|] eqn:Ex; [by exists x | done]. }
    assert ((size (fps files dir paths) <= 1)%nat <->
            forall p q x y, p ∈ paths -> q ∈ paths -> fp_of files dir p = Some x -> fp_of files dir q = Some y -> x = y) as Heq.
    { rewrite size_le_1. split.
      - intros Hx p q x y Hp Hq Ex Ey. apply Hx; apply fps_elem; [by exists p | by exists q].
      - intros Hx x y (p & Hp & Ex)%fps_elem (q & Hq & Ey)%fps_elem. exact (Hx p q x y Hp Hq Ex Ey). }
    rewrite <- Heq. destruct (Nat.ltb_spec 1 (size (fps files dir paths))); split.
    + split; [done | intros [_ ?]; lia].
    + intros e [= <-]. right. by split; [| lia].
    + split; [by intros _; split | done].
    + done.
Qed.

(** ** Concrete devices *)
Module DeviceDemo.
#[export] Existing Instances ConfDemo.demo_uni AddrDemo.demo_addr ConfDemo.demo_key.

(** A stand-in for the hash: 32 bytes, the input padded or cut. *)
Definition pad32 (s : string) : string := slice_to (s +:+ String.concat "" (repeat "0" 32)) 32.
Lemma substring_length s : forall n, (n <= String.length s)%nat -> String.length (String.substring 0 n s) = n.
Proof. induction s as [|c s IH]; intros [|n] Hn; cbn in *; try done; [lia |]. by rewrite IH by lia. Qed.
#[export] Instance demo_sha : Sha256.
Proof.
  refine {| Sum256 := pad32 |}. intros s. apply substring_length. rewrite append_length. vm_compute (String.length (String.concat _ _)). lia.
Defined.

Definition key1 : string := Base64.EncodeToString ConfDemo.k1.
Definition key2 : string := Base64.EncodeToString ConfDemo.k2.
Definition opts : Options :=
  mkOptions key1 [V4 7] [V4 8] 1420 key2 "vpn.example:51820" [mkPrefix (V4 0) 0] 25 "".
(** An IPv6 answer, then an IPv4 answer of four bytes or in its 16-byte form. *)
Definition v6 : string := String.concat "" (repeat " " 16).
Definition v4 : string := "!!!!".
Definition mapped : string :=
  String.concat "" (repeat (String (ascii_of_nat 0) "") 10) +:+ String (ascii_of_nat 255) (String (ascii_of_nat 255) v4).
Definition port (s : string) : option Z := Atoi s.
Definition hostOf (answers : list string) : host := mkHost port (fun _ => Some answers) true (fun _ => true) true.
Definition conf (key : string) : string :=
  "[Interface]" +:+ NL +:+ "PrivateKey = " +:+ key +:+ NL +:+ "Address = 10.0.0.2/32" +:+ NL
  +:+ "[Peer]" +:+ NL +:+ "PublicKey = " +:+ key2 +:+ NL +:+ "Endpoint = 1.2.3.4:51820" +:+ NL.
Definition files (p : string) : option string :=
  if String.eqb p "/t/a.conf" then Some (conf key1) else if String.eqb p "/t/b.conf" then Some (conf key1)
  else if String.eqb p "/t/c.conf" then Some (conf key2) else None.
Definition uapi : string :=
  "public_key=ab" +:+ NL +:+ "last_handshake_time_sec=1700000000" +:+ NL +:+ "last_handshake_time_sec=0" +:+ NL.
Definition sopts : Supervisor.options :=
  Supervisor.mkOptions (Eligible.mkSet ∅ []) (180 * Second) Second (60 * Second) Second (5 * Second).
End DeviceDemo.
Import DeviceDemo.

Lemma uapi_faithful_witness :
  exists text, buildIpcSet opts (V4 5, 51820) = Ok text
    /\ directives text = device_config ConfDemo.k1 ConfDemo.k2 None (V4 5, 51820) opts.
Proof. exact (uapi_faithful opts (V4 5, 51820) eq_refl ltac:(by repeat constructor)). Defined.

Lemma endpoint_choice_witness :
  resolveEndpoint (hostOf [v6; v4]) "vpn.example:51820" = Ok (V4 (be_value v4), 51820)
  /\ resolveEndpoint (hostOf [v6; mapped]) "vpn.example:51820" = Ok (V6 (be_value v6) "", 51820).
Proof.
  split.
  - refine (proj1 (proj2 (endpoint_choice (hostOf [v6; v4]) "vpn.example:51820" "vpn.example" "51820" 51820 eq_refl eq_refl _) eq_refl) [v6] v4 [] eq_refl _ eq_refl); [lia | by repeat constructor].
  - refine (proj2 (proj2 (endpoint_choice (hostOf [v6; mapped]) "vpn.example:51820" "vpn.example" "51820" 51820 eq_refl eq_refl _) eq_refl) v6 mapped [] eq_refl _ _ _ _ _); [lia | | | | |]; by vm_compute.
Defined.

Lemma handshake_health_witness :
  fst (Supervisor.isHealthy sopts (1700000100 * Second)
         (Some (match LastHandshake (Some uapi) with Ok t => Ok t | Err e => Err Ctx end))) = true.
Proof.
  apply (proj1 (handshake_health sopts (1700000100 * Second) uapi (fun _ => Ctx)
    ltac:(by eapply bool_decide_eq_true_1; vm_compute) ltac:(vm_compute; done)) [1700000000; 0] eq_refl
    ltac:(repeat constructor; vm_compute; done)).
  exists 1700000000. split_and!; [set_solver | lia | vm_compute; done].
Defined.

Lemma single_key_guard_witness :
  VerifySingleKey files ["/t/a.conf"; "broken"; "b.conf"] "/t" = Ok tt
  /\ VerifySingleKey files ["/t/a.conf"; "c.conf"] "/t" = Err (EDistinctKeys 2)
  /\ exists x, fp_of files "/t" "/t/a.conf" = Some x /\ fp_of files "/t" "b.conf" = Some x.
Proof.
  split_and!; [vm_compute; reflexivity | vm_compute; reflexivity |].
  assert (VerifySingleKey files ["/t/a.conf"; "broken"; "b.conf"] "/t" = Ok tt) as Hv by (vm_compute; reflexivity).
  destruct (proj1 (proj1 (single_key_guard files "/t" ["/t/a.conf"; "broken"; "b.conf"]) ) Hv) as [_ Hall].
  destruct (fp_of files "/t" "/t/a.conf") as [x|] eqn:Ea; [| by vm_compute in Ea].
  destruct (fp_of files "/t" "b.conf") as [y|] eqn:Eb; [| by vm_compute in Eb].
  exists x. split; [exact eq_refl |]. apply (f_equal Some). symmetry.
  apply (Hall "/t/a.conf" "b.conf" x y); [by left | by right; right; left | exact Ea | exact Eb].
Defined.
