(* ===== verification/Notify.v ===== *)
(** * Tunnel-change notifications ([infrastructure/notify])

    [Notify] runs on the goroutines that report events, [sendLoop] on its own; they
    share the dedup state (under a lock) and the job queue.  The state machine [step]
    interleaves the critical section of [suppressed], the enqueue, the sender and
    [Close].  The Bot API and the probe's HTTP client are arguments. *)

From S2P Require Import Prelude GoStrings GoText GoJson Domain.

Module Notify.

(** ** Text ([message.go]) *)

(** [html.EscapeString]. *)
Definition escape_byte (c : ascii) : string :=
  if Ascii.eqb c "&" then "&amp;"
  else if Ascii.eqb c "'" then "&#39;"
  else if Ascii.eqb c "<" then "&lt;"
  else if Ascii.eqb c ">" then "&gt;"
  else if Ascii.eqb c (ascii_of_nat 34) then "&#34;"
  else String c "".
Fixpoint EscapeString (s : string) : string :=
  match s with "" => "" | String c s' => escape_byte c +:+ EscapeString s' end.

Record exitInfo := mkExit { IP : string; Country : string; City : string }.

Definition middle_dot : string := " · ".

Definition formatDetails (country : string) (exit : option exitInfo) : string :=
  let escapedCountry := EscapeString country in
  match exit with
  | None => escapedCountry
  | Some e =>
      if String.eqb (IP e) "" then escapedCountry
      else
        let detail := "exit " +:+ EscapeString (IP e) in
        let detail := if String.eqb (City e) "" then detail else detail +:+ " (" +:+ EscapeString (City e) +:+ ")" in
        if String.eqb escapedCountry "" then detail else escapedCountry +:+ middle_dot +:+ detail
  end.

Definition formatMessage (tag title country : string) (exit : option exitInfo) (filename : string) : string :=
  let head := EscapeString title in
  let head := if String.eqb tag "" then head else tag +:+ " " +:+ head in
  let lines := [head] in
  let details := formatDetails country exit in
  let lines := if String.eqb details "" then lines else lines ++ [details] in
  let lines := if String.eqb filename "" then lines else lines ++ ["<pre>" +:+ EscapeString filename +:+ "</pre>"] in
  Join lines NL.

(** ** The exit-IP probe ([probe.go]) *)

Inductive notifyError :=
| ENilDialer | EBuildRequest | ERequest | EStatus (code : Z) | EDecode
| EToken | EChatID | EBotInit.

Definition zero_exit : exitInfo := mkExit "" "" "".
Definition exit_fields : fields exitInfo :=
  [("ip", on IP (fun v e => mkExit v (Country e) (City e)) dec_string);
   ("country", on Country (fun v e => mkExit (IP e) v (City e)) dec_string);
   ("city", on City (fun v e => mkExit (IP e) (Country e) v) dec_string)].

(** The answer to the probe's request: its status and the JSON value its body starts
    with, [None] for an error. *)
Record probeAnswer := mkProbe { built : bool; response : option (Z * option json) }.

Definition probeExitIP (hasDialer : bool) (a : probeAnswer) : res notifyError exitInfo :=
  if negb hasDialer then Err ENilDialer
  else if negb (built a) then Err EBuildRequest
  else match response a with
       | None => Err ERequest
       | Some (status, body) =>
           if negb (status =? 200) then Err (EStatus status)
           else match body with
                | None => Err EDecode
                | Some doc => match dec_struct exit_fields doc zero_exit with
                              | Some info => Ok info
                              | None => Err EDecode
                              end
                end
       end.

(** ** The notifier ([telegram.go]) *)

Definition onDemandDedupWindow : Z := 5 * Minute.
Definition onDemandMinInterval : Z := 20 * Second.
Definition notifyQueueBuf : nat := 32.

(** [^\d{9,}:[a-zA-Z0-9_-]{35,}$]. *)
Definition secret_char (c : ascii) : bool :=
  is_lower c || is_upper c || is_digit c || Ascii.eqb c "_" || Ascii.eqb c "-".
Definition tokenPattern (s : string) : bool :=
  match IndexByte s ":" with
  | None => false
  | Some i =>
      let botID := slice_to s i in
      let secret := slice_from s (S i) in
      Nat.leb 9 (String.length botID) && string_forallb is_digit botID
      && Nat.leb 35 (String.length secret) && string_forallb secret_char secret
  end.

(** [addr] and [login] are those of the parsed DSN. *)
Definition extractIdentity (addr login : string) : res notifyError (Z * string) :=
  let token := TrimSpace addr in
  if negb (tokenPattern token) then Err EToken
  else match Atoi login with
       | None => Err EChatID
       | Some id => if id =? 0 then Err EChatID else Ok (id, token)
       end.

Section Notifier.
Context {Dialer : Type}.
Notation event := (TunnelChangeEvent Dialer).

(** The state under the lock. *)
Record dedup := mkDedup { lastOnDemandFilename : string; lastOnDemandAt : Z }.

Definition suppressed (now : Z) (filename : string) (d : dedup) : bool * dedup :=
  if String.eqb filename (lastOnDemandFilename d) && (Sub now (lastOnDemandAt d) <? onDemandDedupWindow) then (true, d)
  else if Sub now (lastOnDemandAt d) <? onDemandMinInterval then (true, d)
  else (false, mkDedup filename now).

(** The notifier with its queue and its sender: [busy] is the event that [handle] works
    on, [sent] what was passed to [SendMessage] so far, [dropped] what found the queue
    full, [pending] the events between the check and the send to the queue. *)
Record TelegramNotifier := mkTN {
  adminChatID : Z;
  tag : string;
  dd : dedup;
  pending : list event;
  ch : list event;
  busy : option event;
  sent : list (event * string);
  dropped : list event;
  cancelled : bool;
  exited : bool
}.

(** [newTelegramNotifier] and [NewTelegram]; [botNew] is whether the library accepts
    the token. *)
Definition newTelegramNotifier (botNew : bool) (chat : Z) (t : string) : res notifyError TelegramNotifier :=
  if negb botNew then Err EBotInit
  else Ok (mkTN chat t (mkDedup "" time_zero) [] [] None [] [] false false).

Definition NewTelegram (botNew : string -> bool) (addr login t : string) : res notifyError TelegramNotifier :=
  let? (chat, token) := extractIdentity addr login in
  newTelegramNotifier (botNew token) chat t.

Definition set_dd d (n : TelegramNotifier) := mkTN (adminChatID n) (tag n) d (pending n) (ch n) (busy n) (sent n) (dropped n) (cancelled n) (exited n).
Definition set_pending l (n : TelegramNotifier) := mkTN (adminChatID n) (tag n) (dd n) l (ch n) (busy n) (sent n) (dropped n) (cancelled n) (exited n).
Definition set_ch l (n : TelegramNotifier) := mkTN (adminChatID n) (tag n) (dd n) (pending n) l (busy n) (sent n) (dropped n) (cancelled n) (exited n).
Definition set_busy b (n : TelegramNotifier) := mkTN (adminChatID n) (tag n) (dd n) (pending n) (ch n) b (sent n) (dropped n) (cancelled n) (exited n).
Definition set_sent l (n : TelegramNotifier) := mkTN (adminChatID n) (tag n) (dd n) (pending n) (ch n) (busy n) l (dropped n) (cancelled n) (exited n).
Definition set_dropped l (n : TelegramNotifier) := mkTN (adminChatID n) (tag n) (dd n) (pending n) (ch n) (busy n) (sent n) l (cancelled n) (exited n).
Definition set_cancelled (n : TelegramNotifier) := mkTN (adminChatID n) (tag n) (dd n) (pending n) (ch n) (busy n) (sent n) (dropped n) true (exited n).
Definition set_exited (n : TelegramNotifier) := mkTN (adminChatID n) (tag n) (dd n) (pending n) (ch n) (busy n) (sent n) (dropped n) (cancelled n) true.

(** The first half of [Notify]: an on-demand event passes the check or is gone. *)
Definition notify_check (now : Z) (ev : event) (n : TelegramNotifier) : TelegramNotifier :=
  match ev_Source ev with
  | SourceStreaming => set_pending (ev :: pending n) n
  | SourceOnDemand =>
      let '(s, d) := suppressed now (ev_Filename ev) (dd n) in
      if s then n else set_pending (ev :: pending n) (set_dd d n)
  end.

(** The second half, the [select] with its default. *)
Definition notify_send (ev : event) (n : TelegramNotifier) : TelegramNotifier :=
  if Nat.ltb (length (ch n)) notifyQueueBuf then set_ch (ch n ++ [ev]) n else set_dropped (ev :: dropped n) n.

(** [handle]: the message for an event; [probe] is what the probe answers. *)
Definition handle (probe : probeAnswer) (ev : event) (n : TelegramNotifier) : TelegramNotifier :=
  let exit := match ev_Dialer ev with
              | None => None
              | Some _ => match probeExitIP true probe with Ok info => Some info | Err _ => None end
              end in
  set_sent (sent n ++ [(ev, formatMessage (tag n) (ev_Title ev) (ev_Country ev) exit (ev_Filename ev))]) n.

(** Whether an event passes the check. *)
Definition passes (now : Z) (ev : event) (n : TelegramNotifier) : bool :=
  match ev_Source ev with
  | SourceStreaming => true
  | SourceOnDemand => negb (fst (suppressed now (ev_Filename ev) (dd n)))
  end.

(** One step of some goroutine at time [now].  The label is the event that was checked,
    with the time and whether it passed. *)
Inductive step : list (Z * event * bool) -> Z * TelegramNotifier -> Z * TelegramNotifier -> Prop :=
| step_check now now' ev n :
    now <= now' -> step [(now', ev, passes now' ev n)] (now, n) (now', notify_check now' ev n)
| step_send now l1 ev l2 n :
    pending n = l1 ++ ev :: l2 -> step [] (now, n) (now, notify_send ev (set_pending (l1 ++ l2) n))
| step_take now ev l n :
    exited n = false -> busy n = None -> ch n = ev :: l -> step [] (now, n) (now, set_busy (Some ev) (set_ch l n))
| step_handle now probe ev n :
    exited n = false -> busy n = Some ev -> step [] (now, n) (now, handle probe ev (set_busy None n))
| step_cancel now n : step [] (now, n) (now, set_cancelled n)
| step_exit now n : exited n = false -> busy n = None -> cancelled n = true -> step [] (now, n) (now, set_exited n).

(** The runs of the notifier with the events checked so far, newest first. *)
Inductive run : list (Z * event * bool) -> Z * TelegramNotifier -> Prop :=
| run_new now chat t n : newTelegramNotifier true chat t = Ok n -> run [] (now, n)
| run_step h l s s' : run h s -> step l s s' -> run (l ++ h) s'.
End Notifier.
End Notify.
Import Notify.

(** ** The rate limit *)

Section Rate.
Context {Dialer : Type}.
Notation event := (TunnelChangeEvent Dialer).

Definition passed (h : list (Z * event * bool)) : list (Z * event) := omap (fun x : Z * event * bool => if snd x then Some (fst x) else None) h.
Definition onDemand (h : list (Z * event * bool)) : list (Z * event) :=
  filter (fun te => ev_Source (snd te) = SourceOnDemand) (passed h).

(** Two successive on-demand events, the newer first. *)
Definition gap (e2 e1 : Z * event) : Prop :=
  fst e1 + onDemandMinInterval <= fst e2
  /\ (ev_Filename (snd e2) = ev_Filename (snd e1) -> fst e1 + onDemandDedupWindow <= fst e2).
Fixpoint spaced (l : list (Z * event)) : Prop :=
  match l with
  | e2 :: ((e1 :: _) as l') => gap e2 e1 /\ spaced l'
  | _ => True
  end.

Definition dedup_of (l : list (Z * event)) : dedup :=
  match l with [] => mkDedup "" time_zero | (t, e) :: _ => mkDedup (ev_Filename e) t end.

Lemma Sub_ge now t w : 0 < w < int64_max -> w <= Sub now t -> t + w <= now.
Proof. unfold Sub, int64_max, int64_min. lia. Qed.

Lemma suppressed_false now f d :
  fst (suppressed now f d) = false ->
  snd (suppressed now f d) = mkDedup f now
  /\ lastOnDemandAt d + onDemandMinInterval <= now
  /\ (f = lastOnDemandFilename d -> lastOnDemandAt d + onDemandDedupWindow <= now).
Proof.
  unfold suppressed. destruct (String.eqb_spec f (lastOnDemandFilename d)) as [E|E]; cbn [andb].
  - destruct (Z.ltb_spec (Sub now (lastOnDemandAt d)) onDemandDedupWindow); [done |].
    destruct (Z.ltb_spec (Sub now (lastOnDemandAt d)) onDemandMinInterval); [done |]. intros _.
    split_and!; [done | | intros _]; apply Sub_ge; done.
  - destruct (Z.ltb_spec (Sub now (lastOnDemandAt d)) onDemandMinInterval); [done |]. intros _.
    split_and!; [done | by apply Sub_ge | done].
Qed.

Lemma spaced_far l1 e2 l2 e1 l3 : spaced (l1 ++ e2 :: l2 ++ e1 :: l3) -> fst e1 + onDemandMinInterval <= fst e2.
Proof.
  induction l1 as [|e l1 IH]; cbn [app].
  - revert e2. induction l2 as [|e l2 IH]; intros e2; cbn [app spaced].
    + intros [[Hg _] _]. done.
    + intros [[Hg _] Hs]. specialize (IH e Hs). unfold onDemandMinInterval, Second, Millisecond, Nanosecond in *. lia.
  - cbn [spaced]. destruct (l1 ++ e2 :: l2 ++ e1 :: l3); intros Hs; apply IH; [done | by destruct Hs].
Qed.

(** The invariant of a run. *)
Record inv (h : list (Z * event * bool)) (n : @TelegramNotifier Dialer) : Prop := mkInv {
  inv_dedup : dd n = dedup_of (onDemand h);
  inv_spaced : spaced (onDemand h);
  inv_stream : Forall (fun x : Z * event * bool => ev_Source (snd (fst x)) = SourceStreaming -> snd x = true) h;
  inv_queue : (length (ch n) <= notifyQueueBuf)%nat;
  inv_events : snd <$> passed h ≡ₚ pending n ++ ch n ++ option_list (busy n) ++ (fst <$> sent n) ++ dropped n
}.

Lemma onDemand_cons t e b h :
  onDemand ((t, e, b) :: h) = (if b && bool_decide (ev_Source e = SourceOnDemand) then [(t, e)] else []) ++ onDemand h.
Proof.
  destruct b; [| done]. unfold onDemand. change (passed ((t, e, true) :: h)) with ((t, e) :: passed h). rewrite filter_cons. cbn [snd andb].
  by case_bool_decide; case_decide.
Qed.

Lemma inv_check h now ev n : inv h n -> inv ((now, ev, passes now ev n) :: h) (notify_check now ev n).
Proof.
  intros [Hd Hs Hst Hq He]. unfold passes, notify_check.
  destruct (ev_Source ev) eqn:Hsrc.
  - constructor; cbn [dd pending ch busy sent dropped set_pending]; try done.
    + by rewrite onDemand_cons, Hsrc.
    + by rewrite onDemand_cons, Hsrc.
    + by constructor.
    + cbn. fold (passed h). by rewrite He.
  - destruct (suppressed now (ev_Filename ev) (dd n)) as [[] d] eqn:E; cbn [fst negb].
    + constructor; try done. constructor; [cbn; congruence | done].
    + destruct (suppressed_false now (ev_Filename ev) (dd n)) as (Hd' & Hmin & Hwin); [by rewrite E |].
      rewrite E in Hd'. cbn in Hd'. subst d. rewrite Hd in Hmin, Hwin.
      assert (onDemand ((now, ev, true) :: h) = (now, ev) :: onDemand h) as Hod
        by (by rewrite onDemand_cons, Hsrc).
      constructor; cbn [dd pending ch busy sent dropped set_pending set_dd]; rewrite ?Hod; try done.
      * cbn [spaced]. destruct (onDemand h) as [|[t1 e1] l]; [done |]. by repeat split.
      * by constructor.
      * cbn. fold (passed h). by rewrite He.
Qed.

Lemma dedup_inv_step h l now n now' n' : inv h n -> step l (now, n) (now', n') -> inv (l ++ h) n'.
Proof.
  intros Hi Hstep. remember (now, n) as s eqn:Es. remember (now', n') as s' eqn:Es'.
  destruct Hstep as [t t' ev m Ht|t l1 ev l2 m Hp|t ev rest m Hx Hb Hc|t probe ev m Hx Hb|t m|t m Hx Hb Hc];
    injection Es as -> ->; injection Es' as <- <-; [by apply inv_check | ..]; destruct Hi as [Hd Hs Hst Hq He]; cbn [app].
  - unfold notify_send. cbn [ch set_pending]. destruct (Nat.ltb_spec (length (ch n)) notifyQueueBuf) as [Hlt|Hge];
      constructor; cbn; try done.
    + rewrite length_app. cbn. lia.
    + rewrite He, Hp. solve_Permutation.
    + rewrite He, Hp. solve_Permutation.
  - constructor; cbn; try done; [rewrite Hc in Hq; cbn in Hq; lia |]. rewrite He, Hb, Hc. cbn. solve_Permutation.
  - constructor; cbn; try done. rewrite He, Hb, fmap_app. cbn. solve_Permutation.
  - by constructor.
  - by constructor.
Qed.

Lemma inv_run h s : run h s -> inv h (snd s).
Proof.
  induction 1 as [now chat t n Hn|h l [now n] [now' n'] _ IH Hs].
  - unfold newTelegramNotifier in Hn. injection Hn as <-. constructor; cbn; try done. lia.
  - by eapply dedup_inv_step.
Qed.
End Rate.

(** C38: Notifications are bounded and none is lost silently.  In every run: two on-demand
    events that pass are at least 20 seconds apart, and five minutes if they follow each
    other and name the same tunnel; streaming events always pass; the queue holds at most
    32; and every event that passed is exactly once on its way to the queue, in it, being
    sent, sent or dropped, where dropping happens only on a full queue.  The dedup state
    holds one tunnel: the same one passes again after 40 seconds if another came between. *)
Theorem notify_bounded {Dialer} (h : list (Z * TunnelChangeEvent Dialer * bool)) now n :
  run h (now, n) ->
  (forall l1 e2 l2 e1 l3, onDemand h = l1 ++ e2 :: l2 ++ e1 :: l3 ->
     fst e1 + onDemandMinInterval <= fst e2
     /\ (l2 = [] -> ev_Filename (snd e2) = ev_Filename (snd e1) -> fst e1 + onDemandDedupWindow <= fst e2))
  /\ (forall t e b, (t, e, b) ∈ h -> ev_Source e = SourceStreaming -> b = true)
  /\ (length (ch n) <= notifyQueueBuf)%nat
  /\ snd <$> passed h ≡ₚ pending n ++ ch n ++ option_list (busy n) ++ (fst <$> sent n) ++ dropped n
  /\ (forall l now' n', step l (now, n) (now', n') -> dropped n' <> dropped n -> length (ch n) = notifyQueueBuf)
  /\ (forall a b t, a <> b -> 0 <= t ->
        let d1 := snd (suppressed (t + onDemandMinInterval) b (mkDedup a t)) in
        fst (suppressed (t + onDemandMinInterval) b (mkDedup a t)) = false
        /\ fst (suppressed (t + 2 * onDemandMinInterval) a d1) = false).
Proof.
  intros Hr. destruct (inv_run _ _ Hr) as [_ Hs Hst Hq He]. cbn [snd] in *. split_and!; try done.
  - intros l1 e2 l2 e1 l3 E. rewrite E in Hs. split; [by eapply spaced_far |]. intros -> Hf.
    clear E. induction l1 as [|e l1 IH]; cbn [app spaced] in Hs; [by apply Hs |].
    apply IH. cbn [app]. revert Hs. by destruct (l1 ++ e2 :: e1 :: l3); [| intros [_ ?]].
  - intros t e b Hin Hsrc. rewrite Forall_forall in Hst. exact (Hst _ Hin Hsrc).
  - intros l now' n' Hstep. remember (now, n) as s eqn:Es. remember (now', n') as s' eqn:Es'.
    destruct Hstep; injection Es as -> ->; injection Es' as <- <-; try done.
    + unfold notify_check. destruct (ev_Source ev); [done |].
      by destruct (suppressed _ _ _) as [[] d].
    + unfold notify_send. cbn [ch set_pending]. destruct (Nat.ltb_spec (length (ch n)) notifyQueueBuf); [done |].
      intros _. lia.
  - intros a b t Hab Ht. unfold suppressed. cbn [lastOnDemandFilename lastOnDemandAt fst snd].
    destruct (String.eqb_spec b a); [congruence |]. cbn [andb].
    assert (Sub (t + onDemandMinInterval) t = onDemandMinInterval) as ->
      by (unfold Sub; replace (t + onDemandMinInterval - t) with onDemandMinInterval by lia; done).
    rewrite Z.ltb_irrefl. cbn [snd fst lastOnDemandFilename lastOnDemandAt]. destruct (String.eqb_spec a b); [done |]. cbn [andb].
    assert (Sub (t + 2 * onDemandMinInterval) (t + onDemandMinInterval) = onDemandMinInterval) as ->
      by (unfold Sub; replace (t + 2 * onDemandMinInterval - (t + onDemandMinInterval)) with onDemandMinInterval by lia; done).
    by rewrite Z.ltb_irrefl.
Qed.

(** ** The markup of a message *)

Fixpoint count_byte (c : ascii) (s : string) : nat :=
  match s with "" => 0%nat | String d s' => ((if Ascii.eqb d c then 1 else 0) + count_byte c s')%nat end.

Lemma count_byte_app c s t : count_byte c (s +:+ t) = (count_byte c s + count_byte c t)%nat.
Proof. induction s as [|d s IH]; [done |]. rewrite append_cons. cbn [count_byte]. rewrite IH. lia. Qed.

(** The bytes with a meaning in HTML text and attributes. *)
Definition markup : list ascii := ["<"; ">"; "'"; ascii_of_nat 34]%char.

Lemma escape_byte_markup c d : c ∈ markup -> count_byte c (escape_byte d) = 0%nat.
Proof.
  intros Hc. unfold markup in Hc. rewrite !elem_of_cons, elem_of_nil in Hc.
  unfold escape_byte. destruct (Ascii.eqb_spec d "&"); [by destruct_or! Hc; subst |].
  destruct (Ascii.eqb_spec d "'"); [by destruct_or! Hc; subst |].
  destruct (Ascii.eqb_spec d "<"); [by destruct_or! Hc; subst |].
  destruct (Ascii.eqb_spec d ">"); [by destruct_or! Hc; subst |].
  destruct (Ascii.eqb_spec d (ascii_of_nat 34)); [by destruct_or! Hc; subst |].
  cbn [count_byte]. destruct (Ascii.eqb_spec d c); [| done]. subst. by destruct_or! Hc.
Qed.

Lemma Escape_markup c s : c ∈ markup -> count_byte c (EscapeString s) = 0%nat.
Proof. intros Hc. induction s as [|d s IH]; [done |]. cbn [EscapeString]. by rewrite count_byte_app, IH, escape_byte_markup. Qed.

Lemma escape_byte_cases c :
  (c, escape_byte c) ∈ [("&"%char, "&amp;"); ("'"%char, "&#39;"); ("<"%char, "&lt;"); (">"%char, "&gt;"); (ascii_of_nat 34, "&#34;")]
  \/ (escape_byte c = String c "" /\ c <> "&"%char).
Proof.
  rewrite !elem_of_cons, elem_of_nil. unfold escape_byte.
  repeat (case_match; [match goal with E : Ascii.eqb _ _ = true |- _ => apply Ascii.eqb_eq in E as -> end; tauto |]).
  right. split; [done |]. by apply Ascii.eqb_neq.
Qed.

Lemma escape_byte_prefix c d x y : escape_byte c +:+ x = escape_byte d +:+ y -> c = d /\ x = y.
Proof.
  destruct (escape_byte_cases c) as [Hc|[-> Hc]], (escape_byte_cases d) as [Hd|[-> Hd]];
    try rewrite !elem_of_cons, elem_of_nil in Hc; try rewrite !elem_of_cons, elem_of_nil in Hd.
  - destruct_or! Hc; injection Hc as -> ->; destruct_or! Hd; injection Hd as -> ->; intros [=]; subst; done.
  - destruct_or! Hc; injection Hc as -> ->; rewrite !append_cons; intros [=]; subst; done.
  - destruct_or! Hd; injection Hd as -> ->; rewrite !append_cons; intros [=]; subst; done.
  - rewrite !append_cons, !append_nil_l. by intros [= -> ->].
Qed.

Lemma escape_byte_nonempty c x : escape_byte c +:+ x <> "".
Proof.
  destruct (escape_byte_cases c) as [Hc|[-> _]]; [| done]. rewrite ?elem_of_cons, ?elem_of_nil in Hc.
  by destruct_or! Hc; injection Hc as -> ->.
Qed.

Lemma EscapeString_inj s t : EscapeString s = EscapeString t -> s = t.
Proof.
  revert t. induction s as [|c s IH]; intros [|d t]; cbn [EscapeString]; [done | | |].
  - intros E. by destruct (escape_byte_nonempty d (EscapeString t)).
  - intros E. by destruct (escape_byte_nonempty c (EscapeString s)).
  - intros [-> E]%escape_byte_prefix. by rewrite (IH t E).
Qed.

Lemma details_markup c country exit : c ∈ ["<"; ">"]%char -> count_byte c (formatDetails country exit) = 0%nat.
Proof.
  intros Hc. assert (c ∈ markup) as Hm by (unfold markup; rewrite !elem_of_cons in *; naive_solver).
  assert (count_byte c "exit " = 0%nat /\ count_byte c " (" = 0%nat /\ count_byte c ")" = 0%nat /\ count_byte c middle_dot = 0%nat)
    as (He & Ho & Hcl & Hd) by (rewrite !elem_of_cons, elem_of_nil in Hc; destruct_or! Hc; by subst).
  unfold formatDetails. destruct exit as [e|]; [| by apply Escape_markup].
  destruct (String.eqb (IP e) ""); [by apply Escape_markup |].
  destruct (String.eqb (City e) ""), (String.eqb (EscapeString country) "");
    rewrite ?count_byte_app, ?Escape_markup, ?He, ?Ho, ?Hcl, ?Hd by done; done.
Qed.

Lemma NL_markup c : c ∈ ["<"; ">"]%char -> count_byte c NL = 0%nat.
Proof. rewrite !elem_of_cons, elem_of_nil. intros Hc. destruct_or! Hc; by subst. Qed.

Lemma count_byte_Join c ls : c ∈ ["<"; ">"]%char -> count_byte c (Join ls NL) = sum_list (count_byte c <$> ls).
Proof.
  intros Hc. induction ls as [|l ls IH]; [done |]. destruct ls as [|l' ls]; [cbn; lia |].
  change (Join (l :: l' :: ls) NL) with (l +:+ NL +:+ Join (l' :: ls) NL).
  rewrite !count_byte_app, IH, NL_markup by done. done.
Qed.

(** No text of an event becomes markup.  Apart from the operator's tag, a message has
    the angle brackets of one pair of [pre] tags if it names a file, and none otherwise;
    and escaping loses nothing: different texts stay different. *)
Theorem message_safe tag title country exit filename :
  (forall c, c ∈ ["<"; ">"]%char ->
     count_byte c (formatMessage tag title country exit filename)
     = (count_byte c tag + if String.eqb filename "" then 0 else 2)%nat)
  /\ (forall s t, EscapeString s = EscapeString t -> s = t).
Proof.
  split; [| apply EscapeString_inj]. intros c Hc.
  assert (c ∈ markup) as Hm by (unfold markup; rewrite !elem_of_cons in *; naive_solver).
  assert (count_byte c "<pre>" = 1%nat /\ count_byte c "</pre>" = 1%nat /\ count_byte c " " = 0%nat)
    as (Hp & Hq & Hb) by (rewrite !elem_of_cons, elem_of_nil in Hc; destruct_or! Hc; by subst).
  unfold formatMessage. rewrite count_byte_Join by done.
  destruct (String.eqb_spec tag "") as [->|], (String.eqb (formatDetails country exit) ""), (String.eqb filename "");
    cbn [app fmap list_fmap sum_list sum_list_with]; rewrite ?count_byte_app, ?Escape_markup, ?details_markup, ?Hp, ?Hq, ?Hb by done;
    cbn; lia.
Qed.

(** ** A concrete run: a switch, one within 20 seconds, a streaming event *)
Module NotifyDemo.
Definition od (f : string) : TunnelChangeEvent unit := mkEvent SourceOnDemand "on demand" "SE" f None.
Definition st (f : string) : TunnelChangeEvent unit := mkEvent SourceStreaming "streaming" "SE" f None.
Definition n0 : @TelegramNotifier unit := mkTN 7 "#T" (mkDedup "" time_zero) [] [] None [] [] false false.
Definition n1 := notify_check 0 (od "a") n0.
Definition n2 := notify_check (10 * Second) (od "b") n1.
Definition n3 := notify_check (10 * Second) (st "c") n2.
Definition n4 := notify_check (20 * Second) (od "b") n3.
End NotifyDemo.
Import NotifyDemo.

Lemma notify_bounded_witness :
  passed [(20 * Second, od "b", true); (10 * Second, st "c", true); (10 * Second, od "b", false); (0, od "a", true)]
    = [(20 * Second, od "b"); (10 * Second, st "c"); (0, od "a")]
  /\ 0 + onDemandMinInterval <= 20 * Second
  /\ [od "b"; st "c"; od "a"] ≡ₚ pending n4 ++ ch n4 ++ option_list (busy n4) ++ (fst <$> sent n4) ++ dropped n4.
Proof.
  assert (run ([(20 * Second, od "b", true)] ++ [(10 * Second, st "c", true)] ++ [(10 * Second, od "b", false)] ++ [(0, od "a", true)] ++ []) (20 * Second, n4)) as Hr.
  { apply (run_step _ _ (10 * Second, n3)); [| exact (step_check (10 * Second) (20 * Second) (od "b") n3 ltac:(done))].
    apply (run_step _ _ (10 * Second, n2)); [| exact (step_check (10 * Second) (10 * Second) (st "c") n2 ltac:(done))].
    apply (run_step _ _ (0, n1)); [| exact (step_check 0 (10 * Second) (od "b") n1 ltac:(done))].
    apply (run_step _ _ (0, n0)); [| exact (step_check 0 0 (od "a") n0 ltac:(done))]. by eapply (run_new 0 7 "#T"). }
  destruct (notify_bounded _ _ _ Hr) as (Hgap & _ & _ & Hev & _). split_and!; [done | | exact Hev].
  exact (proj1 (Hgap [] (20 * Second, od "b") [] (0, od "a") [] eq_refl)).
Defined.
