(* ===== verification/ApiTls.v ===== *)
(** * The certificate of the API listener ([gateway/router/apitls/apitls.go])

    Certificates, keys and their PEM form belong to [crypto/x509] and are the class
    [X509]; the calendar of [AddDate] depends on the local time zone and is
    [GoCalendar].  The file system is the mode of the certificate directory ([None] if it
    does not exist) and a map from paths to files; whether each system call succeeds is an
    argument ([faults]). *)

From S2P Require Import Prelude GoStrings GoText Domain KeyFile Http Device DeviceThms.

(** The fields of [x509.Certificate] the program sets or reads; times have seconds. *)
Record Certificate := mkCert {
  SerialNumber : Z;
  CommonName : string;
  NotBefore : Z;
  NotAfter : Z;
  DNSNames : list string;
  IPAddresses : list Addr
}.

(** A certificate made from a template parses back to its names and times (to the
    second), and its PEM text loads together with the PEM text of its key. *)
Class X509 := {
  ParseCertificate : string -> option Certificate;
  CreateCertificate : Certificate -> string -> option string;
  pem_cert : string -> string;
  pem_key : string -> string;
  LoadX509KeyPair : string -> string -> option string;
  create_parse : forall t k der, CreateCertificate t k = Some der ->
    exists l, ParseCertificate der = Some l /\ DNSNames l = DNSNames t /\ NotAfter l = fromUnix (Unix (NotAfter t));
  create_load : forall t k der, CreateCertificate t k = Some der -> LoadX509KeyPair (pem_cert der) (pem_key k) = Some der
}.

(** [t.AddDate(years, 0, 0)]: ten years are at least 3650 days. *)
Class GoCalendar := {
  AddYears : Z -> Z -> Z;
  AddYears_10 : forall t, t + 3650 * (24 * Hour) <= AddYears 10 t
}.

Module ApiTls.
Import KeyFile.

Definition perm_644 : Z := 420.
Definition perm_700 : Z := 448.

Record tree := mkTree { dirPerm : option Z; files : gmap string file }.
Definition on_files (g : gmap string file -> gmap string file) (t : tree) : tree := mkTree (dirPerm t) (g (files t)).

Inductive tlsError :=
| EMkdir | EStatDir | EDirMode (perm : Z)
| EGenerateKey | ESerial | ECreate | EParseGenerated
| EWriteCert | EMarshalKey | EWriteKeyFile | ERenameCert | ERenameKey | EChmod.

(** The random key and serial number, and which calls succeed. *)
Record faults := mkFaults {
  statDir : bool;
  readPair : bool;         (* reading the certificate and the key *)
  mkdir : bool;
  newKey : option string;
  newSerial : option Z;
  writeCert : bool;
  marshalKey : bool;
  writeKey : bool;
  renameCert : bool;
  renameKey : bool;
  chmod : bool
}.

Definition no_faults (k : string) (serial : Z) : faults :=
  mkFaults true true true (Some k) (Some serial) true true true true true true.

Definition ShouldRegenerate (leaf : Certificate) (hostname : string) (now : Z) : bool * string :=
  if NotAfter leaf <=? now then (true, "expired")
  else if bool_decide (hostname ∈ DNSNames leaf) then (false, "")
  else (true, "hostname_missing_from_sans").

Definition ensureCertDir (f : faults) (t : tree) : res tlsError tree :=
  match dirPerm t with
  | None => if mkdir f then Ok (mkTree (Some perm_700) (files t)) else Err EMkdir
  | Some perm =>
      if negb (statDir f) then Err EStatDir
      else if perm =? perm_700 then Ok t else Err (EDirMode perm)
  end.

Definition fileExists (path : string) (t : tree) : bool := bool_decide (is_Some (files t !! path)).

(** [os.ReadFile], [os.Remove], [os.WriteFile] (whose mode counts only for a new file),
    [os.Rename] and [os.Chmod]. *)
Definition read (path : string) (t : tree) : option string := f_data <$> files t !! path.
Definition remove (path : string) : tree -> tree := on_files (delete path).
Definition write (path data : string) (perm : Z) : tree -> tree := on_files (fun m =>
  <[path := mkFile (match m !! path with Some f => f_perm f | None => perm end) data]> m).
Definition rename (old new : string) : tree -> tree := on_files (fun m =>
  match m !! old with Some f => <[new := f]> (delete old m) | None => m end).
Definition set_perm (path : string) (perm : Z) : tree -> tree := on_files (fun m =>
  match m !! path with Some f => <[path := mkFile perm (f_data f)]> m | None => m end).

Section Tls.
Context `{X509, GoCalendar, Sha256}.

Definition fingerprintDER (der : string) : string := EncodeToString (Sum256 der).

(** The loaded certificate: its DER form and the parsed leaf. *)
Record tlsCert := mkTls { c_der : string; c_leaf : Certificate }.

Definition loadAndVerify (f : faults) (certPath keyPath hostname : string) (now : Z) (t : tree) : option (tlsCert * string) :=
  match (if readPair f then read certPath t else None), read keyPath t with
  | Some certPEM, Some keyPEM =>
      match LoadX509KeyPair certPEM keyPEM with
      | None => None
      | Some der =>
          match ParseCertificate der with
          | None => None
          | Some leaf =>
              let fp := fingerprintDER der in
              if fst (ShouldRegenerate leaf hostname now) then None else Some (mkTls der leaf, fp)
          end
      end
  | _, _ => None
  end.

Definition writePEMFiles (f : faults) (certPath keyPath der priv : string) (t : tree) : res tlsError unit * tree :=
  let certTmp := certPath +:+ ".tmp" in
  let keyTmp := keyPath +:+ ".tmp" in
  let cleanup t := remove keyTmp (remove certTmp t) in
  if negb (writeCert f) then (Err EWriteCert, cleanup t)
  else
    let t1 := write certTmp (pem_cert der) perm_644 t in
    if negb (marshalKey f) then (Err EMarshalKey, cleanup t1)
    else if negb (writeKey f) then (Err EWriteKeyFile, cleanup t1)
    else
      let t2 := write keyTmp (pem_key priv) perm_600 t1 in
      if negb (renameCert f) then (Err ERenameCert, cleanup t2)
      else
        let t3 := rename certTmp certPath t2 in
        if negb (renameKey f) then (Err ERenameKey, remove keyTmp t3)
        else
          let t4 := rename keyTmp keyPath t3 in
          if negb (chmod f) then (Err EChmod, t4) else (Ok tt, set_perm keyPath perm_600 t4).

(** The template of [generate]. *)
Definition template (serial now : Z) (hostname : string) (ipSANs : list Addr) : Certificate :=
  mkCert serial hostname (now - Hour) (AddYears 10 now) [hostname] ipSANs.

Definition generate (f : faults) (certPath keyPath hostname : string) (ipSANs : list Addr) (now : Z) (t : tree)
    : res tlsError (tlsCert * string) * tree :=
  match newKey f with
  | None => (Err EGenerateKey, t)
  | Some priv =>
      match newSerial f with
      | None => (Err ESerial, t)
      | Some serial =>
          match CreateCertificate (template serial now hostname ipSANs) priv with
          | None => (Err ECreate, t)
          | Some der =>
              match ParseCertificate der with
              | None => (Err EParseGenerated, t)
              | Some leaf =>
                  match writePEMFiles f certPath keyPath der priv t with
                  | (Err e, t') => (Err e, t')
                  | (Ok _, t') => (Ok (mkTls der leaf, fingerprintDER der), t')
                  end
              end
          end
      end
  end.

Definition LoadOrGenerate (f : faults) (certDir hostname : string) (ipSANs : list Addr) (now : Z) (t : tree)
    : res tlsError (tlsCert * string) * tree :=
  match ensureCertDir f t with
  | Err e => (Err e, t)
  | Ok t =>
      let certPath := JoinPath certDir "cert.pem" in
      let keyPath := JoinPath certDir "key.pem" in
      let loaded := if fileExists certPath t && fileExists keyPath t
                    then loadAndVerify f certPath keyPath hostname now t else None in
      match loaded with
      | Some r => (Ok r, t)
      | None => generate f certPath keyPath hostname ipSANs now t
      end
  end.
End Tls.
End ApiTls.
Import KeyFile ApiTls.

(** ** The files of a directory *)

Definition certFile (certDir : string) : string := JoinPath certDir "cert.pem".
Definition keyFile (certDir : string) : string := JoinPath certDir "key.pem".

Lemma plain_names : plain "cert.pem" /\ plain "key.pem".
Proof. by repeat split. Qed.

Lemma paths_distinct d :
  certFile d <> keyFile d /\ certFile d +:+ ".tmp" <> certFile d /\ certFile d +:+ ".tmp" <> keyFile d
  /\ keyFile d +:+ ".tmp" <> certFile d /\ keyFile d +:+ ".tmp" <> keyFile d /\ certFile d +:+ ".tmp" <> keyFile d +:+ ".tmp".
Proof.
  unfold certFile, keyFile. destruct (JoinPath_plain d) as [P HP]. rewrite !HP by apply plain_names.
  split_and!; intros E; apply (f_equal String.length) in E; rewrite !append_length in E; cbn in E; lia.
Qed.

(** What [generate] leaves behind: a certificate with its key, the key for the owner only. *)
Definition pair_on_disk `{X509} (certDir der priv : string) (t : tree) : Prop :=
  read (certFile certDir) t = Some (pem_cert der) /\ files t !! keyFile certDir = Some (mkFile perm_600 (pem_key priv)).

(** The files hold a certificate with its key. *)
Definition holds `{X509} (certDir : string) (t : tree) (c : tlsCert) : Prop :=
  exists certPEM keyPEM, f_data <$> files t !! certFile certDir = Some certPEM
    /\ f_data <$> files t !! keyFile certDir = Some keyPEM
    /\ LoadX509KeyPair certPEM keyPEM = Some (c_der c) /\ ParseCertificate (c_der c) = Some (c_leaf c).

(** A certificate that serves for the host now. *)
Definition serves (hostname : string) (now : Z) (c : tlsCert) : Prop :=
  hostname ∈ DNSNames (c_leaf c) /\ now < NotAfter (c_leaf c).

Section Facts.
Context `{X509, GoCalendar, Sha256}.

Lemma writePEMFiles_ok f certDir der priv t t' :
  writePEMFiles f (certFile certDir) (keyFile certDir) der priv t = (Ok tt, t') ->
  pair_on_disk certDir der priv t' /\ dirPerm t' = dirPerm t.
Proof.
  destruct (paths_distinct certDir) as (N1 & N2 & N3 & N4 & N5 & N6). unfold writePEMFiles.
  set (c := certFile certDir) in *. set (k := keyFile certDir) in *.
  destruct (writeCert f); [| done]. destruct (marshalKey f); [| done]. destruct (writeKey f); [| done]. cbn [negb].
  destruct (renameCert f); [| done]. destruct (renameKey f); [| done]. destruct (chmod f); [| done]. cbn [negb].
  intros [= <-]. unfold pair_on_disk, read, set_perm, rename, write, on_files. cbn [files dirPerm].
  fold c k. rewrite (lookup_insert_ne _ (k +:+ ".tmp") (c +:+ ".tmp")), lookup_insert_eq by done.
  rewrite (lookup_insert_ne _ c (k +:+ ".tmp")), (lookup_delete_ne _ (c +:+ ".tmp") (k +:+ ".tmp")), lookup_insert_eq by done.
  rewrite lookup_insert_eq. split_and!; [| apply lookup_insert_eq | done].
  rewrite !(lookup_insert_ne _ k c), lookup_delete_ne, lookup_insert_eq by done. done.
Qed.

Lemma generate_ok f certDir hostname ips now t c fp t' :
  generate f (certFile certDir) (keyFile certDir) hostname ips now t = (Ok (c, fp), t') ->
  exists priv, LoadX509KeyPair (pem_cert (c_der c)) (pem_key priv) = Some (c_der c)
    /\ pair_on_disk certDir (c_der c) priv t' /\ dirPerm t' = dirPerm t
    /\ ParseCertificate (c_der c) = Some (c_leaf c) /\ fp = fingerprintDER (c_der c)
    /\ DNSNames (c_leaf c) = [hostname] /\ NotAfter (c_leaf c) = fromUnix (Unix (AddYears 10 now)).
Proof.
  unfold generate. destruct (newKey f) as [priv|]; [| done]. destruct (newSerial f) as [serial|]; [| done].
  destruct (CreateCertificate _ priv) as [der|] eqn:Ec; [| done].
  destruct (create_parse _ _ _ Ec) as (l & Hl & Hn & Ha). rewrite Hl.
  destruct (writePEMFiles _ _ _ _ _ _) as [[e|[]] t1] eqn:Ew; [done |]. intros [= <- <- <-].
  destruct (writePEMFiles_ok _ _ _ _ _ _ Ew) as [Hp Hd]. exists priv.
  cbn [template DNSNames NotAfter] in Hn, Ha. split_and!; try done. by apply (create_load _ _ _ Ec).
Qed.

Lemma generate_no_faults k serial certDir hostname ips now t :
  CreateCertificate (template serial now hostname ips) k <> None ->
  exists c fp t', generate (no_faults k serial) (certFile certDir) (keyFile certDir) hostname ips now t = (Ok (c, fp), t').
Proof.
  intros Hc. unfold generate. cbn [newKey newSerial no_faults].
  destruct (CreateCertificate _ k) as [der|] eqn:Ec; [| done].
  destruct (create_parse _ _ _ Ec) as (l & -> & _). cbn. by repeat eexists.
Qed.

Lemma ten_years now : now + 3649 * (24 * Hour) < fromUnix (Unix (AddYears 10 now)).
Proof.
  pose proof (AddYears_10 now). pose proof (fromUnix_Unix_gt (AddYears 10 now)).
  unfold Hour, Minute, Second, Millisecond, Nanosecond in *. lia.
Qed.

Lemma ShouldRegenerate_false leaf hostname now :
  fst (ShouldRegenerate leaf hostname now) = false <-> now < NotAfter leaf /\ hostname ∈ DNSNames leaf.
Proof.
  unfold ShouldRegenerate. destruct (Z.leb_spec (NotAfter leaf) now); [split; [done | lia] |].
  case_bool_decide; cbn; naive_solver.
Qed.

Lemma load_spec f certDir hostname now t c fp :
  loadAndVerify f (certFile certDir) (keyFile certDir) hostname now t = Some (c, fp)
  <-> readPair f = true /\ holds certDir t c /\ serves hostname now c /\ fp = EncodeToString (Sum256 (c_der c)).
Proof.
  unfold loadAndVerify, holds, serves, fingerprintDER, read. split.
  - destruct (readPair f); [| done]. destruct (f_data <$> files t !! certFile certDir) as [cp|]; [| done].
    destruct (f_data <$> files t !! keyFile certDir) as [kp|]; [| done].
    destruct (LoadX509KeyPair cp kp) as [der|] eqn:El; [| done]. destruct (ParseCertificate der) as [leaf|] eqn:Ep; [| done].
    destruct (fst (ShouldRegenerate leaf hostname now)) eqn:E; [done |]. intros [= <- <-].
    apply ShouldRegenerate_false in E as [? ?]. split_and!; [done | by exists cp, kp | done | done | done].
  - intros (-> & (cp & kp & -> & -> & -> & ->) & [Hh Hn] & ->).
    assert (fst (ShouldRegenerate (c_leaf c) hostname now) = false) as -> by (by apply ShouldRegenerate_false). by destruct c.
Qed.

Lemma holds_exists certDir t c : holds certDir t c -> fileExists (certFile certDir) t && fileExists (keyFile certDir) t = true.
Proof.
  intros (cp & kp & Hc & Hk & _). unfold fileExists.
  destruct (files t !! certFile certDir), (files t !! keyFile certDir); done.
Qed.

Lemma holds_unique certDir t c c' : holds certDir t c -> holds certDir t c' -> c = c'.
Proof. destruct c, c'. intros (? & ? & ? & ? & ? & ?) (? & ? & ? & ? & ? & ?). cbn in *. congruence. Qed.

Lemma pair_holds certDir t c priv :
  LoadX509KeyPair (pem_cert (c_der c)) (pem_key priv) = Some (c_der c) -> pair_on_disk certDir (c_der c) priv t ->
  ParseCertificate (c_der c) = Some (c_leaf c) -> holds certDir t c.
Proof. intros Hl [Hc Hk] Hp. exists (pem_cert (c_der c)), (pem_key priv). split_and!; [exact Hc | by rewrite Hk | done | done]. Qed.

(** A start that finds what it needs. *)
Lemma cert_again f certDir hostname ips now t c :
  dirPerm t = Some perm_700 -> statDir f = true -> readPair f = true -> holds certDir t c -> serves hostname now c ->
  LoadOrGenerate f certDir hostname ips now t = (Ok (c, EncodeToString (Sum256 (c_der c))), t).
Proof.
  intros Hd Hs Hr Hh Hv. unfold LoadOrGenerate, ensureCertDir. fold (certFile certDir) (keyFile certDir).
  rewrite Hd, Hs, Z.eqb_refl. cbn [negb]. rewrite (holds_exists _ _ _ Hh). cbn [andb].
  assert (loadAndVerify f (certFile certDir) (keyFile certDir) hostname now t = Some (c, EncodeToString (Sum256 (c_der c)))) as ->
    by (by apply load_spec). done.
Qed.

Lemma ensureCertDir_ok f t t1 : ensureCertDir f t = Ok t1 -> dirPerm t1 = Some perm_700 /\ files t1 = files t.
Proof.
  unfold ensureCertDir. destruct (dirPerm t) as [p|] eqn:Ep.
  - destruct (statDir f); [| done]. cbn [negb]. destruct (Z.eqb_spec p perm_700) as [->|]; [| done]. by intros [= <-].
  - destruct (mkdir f); [| done]. by intros [= <-].
Qed.

(** A start that succeeded, by what it found. *)
Lemma LoadOrGenerate_cases f certDir hostname ips now t c fp t' :
  LoadOrGenerate f certDir hostname ips now t = (Ok (c, fp), t') ->
  dirPerm t' = Some perm_700 /\ holds certDir t' c /\ serves hostname now c /\ fp = EncodeToString (Sum256 (c_der c))
  /\ ((readPair f = true /\ holds certDir t c /\ files t' = files t)
      \/ ((forall c0, readPair f = true -> holds certDir t c0 -> serves hostname now c0 -> False)
          /\ now + 3649 * (24 * Hour) < NotAfter (c_leaf c) /\ f_perm <$> files t' !! keyFile certDir = Some perm_600)).
Proof.
  unfold LoadOrGenerate. fold (certFile certDir) (keyFile certDir).
  destruct (ensureCertDir f t) as [e|t1] eqn:Ed; [done |]. destruct (ensureCertDir_ok _ _ _ Ed) as [Hd Ht1].
  assert (forall c0, holds certDir t1 c0 <-> holds certDir t c0) as Hsame by (intros c0; unfold holds; by rewrite Ht1).
  destruct (if fileExists _ t1 && _ then _ else None) as [[c0 fp0]|] eqn:El.
  - intros [= <- <- <-]. destruct (fileExists _ t1 && fileExists _ t1); [| done].
    apply load_spec in El as (Hr & Hh & Hs & ->). split_and!; [done | done | exact Hs | done |]. left.
    split; [done |]. split; [by apply Hsame | done].
  - intros Hg. destruct (generate_ok _ _ _ _ _ _ _ _ _ Hg) as (priv & Hl & Hpair & Hdir & Hp & -> & Hdns & Hna).
    pose proof (ten_years now) as Hten. rewrite <- Hna in Hten.
    split_and!; [by rewrite Hdir | by eapply pair_holds
      | split; [rewrite Hdns; by left | unfold Hour, Minute, Second, Millisecond, Nanosecond in *; lia] | done |].
    right. split_and!; [| done | by rewrite (proj2 Hpair)]. intros c0 Hr Hh%Hsame Hs.
    rewrite (holds_exists _ _ _ Hh) in El.
    assert (loadAndVerify f (certFile certDir) (keyFile certDir) hostname now t1 = Some (c0, EncodeToString (Sum256 (c_der c0)))) as Hload
      by (by apply load_spec). by rewrite Hload in El.
Qed.
End Facts.

(** C37: The API certificate is valid and its fingerprint stable.  A successful start
    returns a certificate that names the host and has not expired, with the SHA-256 of its
    DER form in hex; that certificate is in the files with its key, in a directory of mode
    0700, and until it expires every later start for the same host that can read them
    returns it again with the same fingerprint and touches nothing, whatever it would
    generate.  If the files held a certificate with its key that serves for the host and
    could be read, it is the one returned and the files are as they were; if not, the one
    returned is new, is valid for almost ten years and its key is on disk with mode 0600.
    And whatever is in the files (a certificate with another key, or expired), a start in
    which no call fails succeeds. *)
Theorem api_cert_stable `{X509, GoCalendar, Sha256} f certDir hostname ips now t :
  (forall c fp t', LoadOrGenerate f certDir hostname ips now t = (Ok (c, fp), t') ->
     hostname ∈ DNSNames (c_leaf c) /\ now < NotAfter (c_leaf c) /\ fp = EncodeToString (Sum256 (c_der c))
     /\ dirPerm t' = Some 448 /\ holds certDir t' c
     /\ (forall f' ips' now', statDir f' = true -> readPair f' = true -> now' < NotAfter (c_leaf c) ->
           LoadOrGenerate f' certDir hostname ips' now' t' = (Ok (c, fp), t'))
     /\ (forall c0, readPair f = true -> holds certDir t c0 -> serves hostname now c0 -> c = c0 /\ files t' = files t)
     /\ ((forall c0, readPair f = true -> holds certDir t c0 -> serves hostname now c0 -> False) ->
           now + 3649 * (24 * Hour) < NotAfter (c_leaf c) /\ f_perm <$> files t' !! keyFile certDir = Some 384))
  /\ (forall k serial, f = no_faults k serial -> dirPerm t ∈ [None; Some 448] ->
        CreateCertificate (template serial now hostname ips) k <> None ->
        exists c fp t', LoadOrGenerate f certDir hostname ips now t = (Ok (c, fp), t')).
Proof.
  split.
  - intros c fp t' Hl. destruct (LoadOrGenerate_cases _ _ _ _ _ _ _ _ _ Hl) as (Hd & Hh & [Hn He] & -> & Hcase).
    split_and!; [done | done | done | done | done | | |].
    + intros f' ips' now' Hs Hr Hnow. apply cert_again; try done.
    + intros c0 Hr Hh0 Hs0. destruct Hcase as [(_ & Hh1 & Hf)|(Hno & _)]; [| by destruct (Hno c0)].
      split; [by eapply holds_unique | done].
    + intros Hno. destruct Hcase as [(Hr & Hh1 & _)|(_ & Hten & Hp)]; [by destruct (Hno c Hr Hh1) | by split].
  - intros k serial -> Hdir Hc. unfold LoadOrGenerate. fold (certFile certDir) (keyFile certDir).
    assert (exists t1, ensureCertDir (no_faults k serial) t = Ok t1) as [t1 ->].
    { unfold ensureCertDir. rewrite !elem_of_cons, elem_of_nil in Hdir. destruct_or! Hdir; rewrite Hdir; by eexists. }
    destruct (if fileExists _ t1 && _ then _ else None) as [[c fp]|]; [by repeat eexists |]. by apply generate_no_faults.
Qed.

(** ** A concrete certificate format: the key, the names and the time, as bits *)
Module TlsDemo.
#[export] Existing Instance DeviceDemo.demo_sha.

Definition enc (k : string) (c : Certificate) : string := AddrDemo.pos_bits (encode (k, DNSNames c, Unix (NotAfter c))).
Definition dec (der : string) : option (string * list string * Z) := AddrDemo.bits_pos der ≫= decode.
Lemma dec_enc k c : dec (enc k c) = Some (k, DNSNames c, Unix (NotAfter c)).
Proof. unfold dec, enc. rewrite AddrDemo.bits_pos_bits. cbn. apply decode_encode. Qed.

Definition parse_demo (der : string) : option Certificate :=
  (fun '(_, names, sec) => mkCert 0 "" 0 (fromUnix sec) names []) <$> dec der.
Definition load_demo (c k : string) : option string :=
  match dec c with Some (k', _, _) => if String.eqb k k' then Some c else None | None => None end.

#[export] Instance demo_x509 : X509.
Proof.
  refine {| ParseCertificate := parse_demo; CreateCertificate := fun c k => Some (enc k c);
            pem_cert := fun d => d; pem_key := fun k => k; LoadX509KeyPair := load_demo |}.
  - intros c k der [= <-]. unfold parse_demo. rewrite dec_enc. cbn. eexists. by split_and!.
  - intros c k der [= <-]. unfold load_demo. by rewrite dec_enc, String.eqb_refl.
Defined.

#[export] Instance demo_calendar : GoCalendar.
Proof. refine {| AddYears := fun y t => t + y * (365 * (24 * Hour)) |}. intros t. lia. Defined.

(** A directory that does not exist, and what the first start leaves in it. *)
Definition t0 : tree := mkTree None ∅.
Definition first := Eval vm_compute in LoadOrGenerate (no_faults "k1" 1) "/etc/tls" "localhost" [] 0 t0.
Definition c1 : tlsCert := match first with (Ok (c, _), _) => c | _ => mkTls "" (mkCert 0 "" 0 0 [] []) end.
Definition fp1 : string := match first with (Ok (_, fp), _) => fp | _ => "" end.
Definition t1 : tree := snd first.
(** The certificate with the key of another one: a crash between the two renames. *)
Definition torn : tree := on_files (<[keyFile "/etc/tls" := mkFile perm_600 "k0"]>) t1.
End TlsDemo.
Import TlsDemo.

Lemma api_cert_stable_witness :
  LoadOrGenerate (no_faults "k1" 1) "/etc/tls" "localhost" [] 0 t0 = (Ok (c1, fp1), t1)
  /\ LoadOrGenerate (no_faults "k2" 2) "/etc/tls" "localhost" [V4 1] (5 * Hour) t1 = (Ok (c1, fp1), t1)
  /\ loadAndVerify (no_faults "k2" 2) (certFile "/etc/tls") (keyFile "/etc/tls") "localhost" 0 torn = None
  /\ exists c fp t', LoadOrGenerate (no_faults "k2" 2) "/etc/tls" "localhost" [] 0 torn = (Ok (c, fp), t').
Proof.
  assert (LoadOrGenerate (no_faults "k1" 1) "/etc/tls" "localhost" [] 0 t0 = (Ok (c1, fp1), t1)) as H1' by (vm_compute; reflexivity).
  split; [exact H1' |]. split; [| split; [vm_compute; reflexivity |]].
  - destruct (proj1 (api_cert_stable (no_faults "k1" 1) "/etc/tls" "localhost" [] 0 t0) _ _ _ H1') as (_ & _ & _ & _ & _ & Hs & _).
    apply Hs; [reflexivity | reflexivity | vm_compute; reflexivity].
  - apply (proj2 (api_cert_stable (no_faults "k2" 2) "/etc/tls" "localhost" [] 0 torn) "k2" 2 eq_refl); [right; left; reflexivity | discriminate].
Defined.
