(* ===== verification/Forwarder.v ===== *)
(** * The tunnel forwarder and the SSRF deny list
    ([httpV1/handlers/forwarder.go], [infrastructure/ipdeny/ipdeny.go],
    [policy/ipdeny.go])

    A transport is the pair of dialer and resolver its [DialContext] closes over;
    the cache of transports maps a tunnel id to the transport built on first use.
    The HTTP client itself is not modelled: the chain of an error from
    [client.Do] is the record [doError] of what [errors.As] and [errors.Is] find
    in it. *)

From S2P Require Import Prelude GoStrings GoJson Domain AsyncRecord Http.

Module Forwarder.

(** ** The deny list *)

Definition v4 (a b c d : Z) : Addr := V4 (a * 2 ^ 24 + b * 2 ^ 16 + c * 2 ^ 8 + d).

Definition DenyCIDRs : list Prefix :=
  [ mkPrefix (v4 0 0 0 0) 8; mkPrefix (v4 127 0 0 0) 8; mkPrefix (v4 10 0 0 0) 8;
    mkPrefix (v4 172 16 0 0) 12; mkPrefix (v4 192 168 0 0) 16; mkPrefix (v4 169 254 0 0) 16;
    mkPrefix (V6 1 "") 128; mkPrefix (V6 (252 * 2 ^ 120) "") 7 ].

Definition DefaultDeny : list Prefix := DenyCIDRs.

Fixpoint Contains (prefixes : list Prefix) (ip : Addr) : bool :=
  match prefixes with
  | [] => false
  | p :: rest => if Prefix_Contains p ip then true else Contains rest ip
  end.

(** ** Dialing *)

Inductive dialError :=
| BadAddress
| errDenyList
| DNSFailed
| NoSuchHost
| DialFailed.

Section Dial.
Context `{AddrText} {Dialer Resolver Conn : Type}.
Context (DialContext : Dialer -> string -> res dialError Conn)
        (LookupHost : Resolver -> string -> option (list Addr)).

(** The result together with the address the dialer was called with, if it was. *)
Definition denyAwareDial (dialer : Dialer) (resolver : Resolver) (address : string)
    : res dialError Conn * option string :=
  match SplitHostPort address with
  | None => (Err BadAddress, None)
  | Some (host, port) =>
      match ParseAddr host with
      | Some ip =>
          if Contains DefaultDeny (Unmap ip) then (Err errDenyList, None)
          else (DialContext dialer address, Some address)
      | None =>
          match LookupHost resolver host with
          | None => (Err DNSFailed, None)
          | Some [] => (Err NoSuchHost, None)
          | Some ((first :: _) as addrs) =>
              if existsb (fun addr => Contains DefaultDeny (Unmap addr)) addrs
              then (Err errDenyList, None)
              else
                let target := JoinHostPort (Addr_String first) port in
                (DialContext dialer target, Some target)
          end
      end
  end.

(** [transportFor]: the cached transport, or the new one, stored. *)
Definition transportFor (transports : gmap string (Dialer * Resolver)) (id : string)
    (dialer : Dialer) (resolver : Resolver)
    : (Dialer * Resolver) * gmap string (Dialer * Resolver) :=
  match transports !! id with
  | Some t => (t, transports)
  | None => ((dialer, resolver), <[id := (dialer, resolver)]> transports)
  end.
End Dial.

(** ** Errors of [client.Do] *)

Inductive netOp := OpDial | OpRead | OpWrite | OpOther.

Record doError := mkDoError {
  hasMaxBytes : bool;
  hasDenyList : bool;
  hasDeadline : bool;
  hasCanceled : bool;
  hasDNS : bool;
  isURLError : bool;
  opError : option (netOp * bool);   (* operation and Timeout() *)
  hasTLSRecord : bool
}.

(** The code and status of the envelope written; [None] writes nothing. *)
Definition mapDoError (e : doError) : option (string * Z) :=
  if hasMaxBytes e then Some ("body_too_large", 413)
  else if hasDenyList e then Some ("private_address_denied", 403)
  else if hasDeadline e then Some ("upstream_timeout", 504)
  else if hasCanceled e then None
  else if hasDNS e then Some ("upstream_dns_failed", 502)
  else Some ("upstream_connect_failed", 502).

Definition classifyDoError (e : doError) : string :=
  if isURLError e then
    match opError e with
    | Some (OpDial, true) => "upstream dial timeout"
    | Some (OpDial, false) => "upstream connection refused"
    | Some (OpRead, true) => "upstream read timeout"
    | Some (OpRead, false) => "upstream read failed"
    | Some (OpWrite, _) => "upstream write failed"
    | _ => if hasTLSRecord e then "upstream tls handshake failed" else "upstream error"
    end
  else "upstream error".

Definition classifyRawError (e : doError) : string := "forwarder: " +:+ classifyDoError e.

(** ** Responses *)

Definition hopByHopHeaders : list string :=
  ["Connection"; "Proxy-Connection"; "Keep-Alive"; "Te"; "Trailer"; "Transfer-Encoding"; "Upgrade";
   "Proxy-Authenticate"].

Definition isHopByHop (key : string) : bool :=
  bool_decide (CanonicalMIMEHeaderKey key ∈ hopByHopHeaders).

Definition copyUpstreamResponse (w resp : header) (requestID : string) : header :=
  let w := map_fold (fun key vals w => if isHopByHop key then w else Header_AddAll key vals w) w resp in
  let w := if String.eqb requestID "" then w else Header_Set "X-Request-Id" requestID w in
  Header_Del "X-Proxy-Error" w.

Definition forwardRawMaxBody : Z := 10 * 1024 * 1024.

(** A response of [client.Do]: the bytes its body yields and whether a read error
    follows them. *)
Record upstream := mkUpstream { u_status : Z; u_header : header; u_body : string; u_readErr : bool }.

(** [io.ReadAll(io.LimitReader(body, limit))]: the error is met only below the limit. *)
Definition readLimited (limit : Z) (u : upstream) : option string :=
  if Z.of_nat (String.length (u_body u)) <? limit
  then if u_readErr u then None else Some (u_body u)
  else Some (slice_to (u_body u) (Z.to_nat limit)).

(** [ForwardRaw] once [client.Do] returned; [None] is an error. *)
Definition ForwardRaw (do_ : doError + upstream) : option AsyncRecord.UpstreamResponse :=
  match do_ with
  | inl _ => None
  | inr u =>
      match readLimited forwardRawMaxBody u with
      | None => None
      | Some body =>
          Some (AsyncRecord.mkResponse (u_status u)
                  (Some (filter (fun kv => isHopByHop (fst kv) = false) (u_header u))) (Some body))
      end
  end.

(** ** Lemmas *)

Lemma Contains_existsb ps ip : Contains ps ip = existsb (fun p => Prefix_Contains p ip) ps.
Proof. induction ps as [|p ps IH]; [done |]. cbn. rewrite IH. by destruct (Prefix_Contains p ip). Qed.

(** A prefix contains the addresses with its leading bits. *)
Lemma v4_prefix_bits x y k : Prefix_Contains (mkPrefix (V4 x) k) (V4 y) = true <-> Z.shiftr y (32 - k) = Z.shiftr x (32 - k).
Proof. cbn. rewrite Z.eqb_eq, Z.shiftr_lxor, Z.lxor_eq_0_iff. split; congruence. Qed.

Lemma v6_prefix_bits x y k z :
  Prefix_Contains (mkPrefix (V6 x "") k) (V6 y z) = true <-> z = "" /\ Z.shiftr y (128 - k) = Z.shiftr x (128 - k).
Proof. cbn. rewrite andb_true_iff, String.eqb_eq, Z.eqb_eq, Z.shiftr_lxor, Z.lxor_eq_0_iff. split; intros [? ?]; split; congruence. Qed.
End Forwarder.
