(* ===== verification/Handlers.v ===== *)
(** * The v1 API handlers and the router's access control
    ([httpV1/handlers/], [router/server.go], [middleware/authtokens.go],
    [tools/bearerauth], [cmd/vpntunnel/rotate.go])

    A handler is a function from the request to what it writes: a status with the
    header map and the body, nothing, or a panic of [WriteHeader] on a status code
    outside 100..999.  The proxy handler's result is the validated request it hands
    to the router and the forwarder.  [time.ParseDuration], [url.Parse] and the
    SHA-512 digest are arguments.  JSON bodies are JSON values. *)

From S2P Require Import Prelude GoStrings GoText GoJson Domain Eligible Scheduler Supervisor Base64 AsyncRecord AsyncStore AsyncJobs Http Forwarder.

Module Handlers.

Inductive respBody := NoBody | BJson (j : json) | BBytes (s : string).

Record response := mkResp { r_status : Z; r_header : header; r_body : respBody }.

(** What a handler did. *)
Inductive served := Wrote (r : response) | WroteNothing | Panicked.

(** [w.WriteHeader(code)] panics outside 100..999. *)
Definition WriteHeader (code : Z) (h : header) (b : respBody) : served :=
  if (code <? 100) || (999 <? code) then Panicked else Wrote (mkResp code h b).

Definition WriteError (w : header) (code : string) (status : Z) (requestID : string) : served :=
  let w := Header_Set "Content-Type" "application/json" w in
  let w := Header_Set "X-Proxy-Error" code w in
  let w := if String.eqb requestID "" then w else Header_Set "X-Request-Id" requestID w in
  WriteHeader status w (BJson (JObj [("error", JStr code); ("request_id", JStr requestID)])).

(** ** Header policy ([proxy.go], [zone_forwarder.go]) *)

Definition internalTunnelIDHeader : string := "X-Vpntunnel-Tunnel-Id".

Definition alwaysForward : list string := ["Content-Type"; "Accept"; "Authorization"; "User-Agent"].

Definition serviceHeaders : list string :=
  ["X-Vpntunnel-Token"; internalTunnelIDHeader; "X-Proxy-Timeout"; "X-Proxy-Forward-Headers";
   "Proxy-Retry-Tag"].

Definition copied (allowed : list string) (k : string) : bool :=
  let canonical := CanonicalMIMEHeaderKey k in
  if bool_decide (canonical ∈ serviceHeaders) then false else bool_decide (canonical ∈ allowed).

Definition copyProxyHeaders (dst src : header) (extra : list string) : header :=
  let allowed := alwaysForward ++ extra in
  let dst := map_fold (fun k vals dst =>
    if copied allowed k then Header_AddAll (CanonicalMIMEHeaderKey k) vals dst else dst) dst src in
  if String.eqb (Header_Get src "User-Agent") "" then <["User-Agent" := [""]]> dst else dst.

Definition stripServiceHeaders (h : header) : header :=
  fold_left (fun h k => Header_Del k h) serviceHeaders h.

(** ** The proxy handler ([proxy.go]) *)

Record request := mkRequest {
  q_method : string;
  q_scheme : string;
  q_id : string;
  q_rest : string;
  q_rawQuery : string;
  q_header : header
}.

Definition tag_char (c : ascii) : bool :=
  is_upper c || is_lower c || is_digit c || Ascii.eqb c "_" || Ascii.eqb c "-".

(** [^[a-zA-Z0-9_-]{8,128}$] *)
Definition retryTagRegexp (s : string) : bool :=
  Nat.leb 8 (String.length s) && Nat.leb (String.length s) 128 && string_forallb tag_char s.

Definition targetStr (r : request) : string :=
  let t := q_scheme r +:+ "://" +:+ q_rest r in
  if String.eqb (q_rawQuery r) "" then t else t +:+ "?" +:+ q_rawQuery r.

Section Proxy.
Context (ParseDuration : string -> option Z)
        (urlParse : string -> option (string * string)).   (* host and String() *)
Context (e : Eligible.EligibleSet) (upstreamTimeout maxUpstreamTimeout : Z).

(** The validated request: forwarded synchronously, or submitted to the pool. *)
Inductive plan :=
| Reject (code : string) (status : Z)
| Async (tag tunnelID target host : string) (hdr : header)
| Sync (tunnelID target : string) (timeout : Z) (hdr : header).

(** X-Proxy-Forward-Headers. *)
Definition extraHeaders (raw : string) : list string :=
  if String.eqb raw "" then []
  else CanonicalMIMEHeaderKey <$> filter (fun p => p <> "") (TrimSpace <$> Split raw ",").

(** [serveAsync] up to the call of the pool. *)
Definition asyncRequest (r : request) (tag : string) : plan :=
  match urlParse (targetStr r) with
  | None => Reject "bad_request" 400
  | Some (host, target) =>
      if String.eqb host "" then Reject "bad_request" 400
      else Async tag (q_id r) target host (Header_Set internalTunnelIDHeader (q_id r) (q_header r))
  end.

(** [ServeHTTP] up to the call of the router, or of the pool. *)
Definition ServeHTTP (asyncPool : bool) (r : request) : plan :=
  if negb (String.eqb (q_scheme r) "http") && negb (String.eqb (q_scheme r) "https")
  then Reject "invalid_scheme" 400
  else if String.eqb (q_id r) "" then Reject "tunnel_required" 400
  else if negb (Eligible.IsEligible e (q_id r)) then Reject "unknown_tunnel" 400
  else
    let tag := Header_Get (q_header r) "Proxy-Retry-Tag" in
    if negb (String.eqb tag "") then
      if String.eqb (q_method r) "CONNECT" then Reject "method_not_allowed" 405
      else if negb (retryTagRegexp tag) then Reject "tag_invalid" 400
      else if negb asyncPool then Reject "async_disabled" 503
      else asyncRequest r tag
    else
      let raw := Header_Get (q_header r) "X-Proxy-Timeout" in
      match (if String.eqb raw "" then inr upstreamTimeout
             else match ParseDuration raw with
                  | None => inl ("bad_request", 400)
                  | Some d => if (d <=? 0) || (maxUpstreamTimeout <? d)
                              then inl ("timeout_too_large", 400) else inr d
                  end : (string * Z) + Z) with
      | inl (code, st) => Reject code st
      | inr timeout =>
          let extra := extraHeaders (Header_Get (q_header r) "X-Proxy-Forward-Headers") in
          match urlParse (targetStr r) with
          | None => Reject "bad_request" 400
          | Some (host, target) =>
              if String.eqb host "" then Reject "bad_request" 400
              else Sync (q_id r) target timeout (copyProxyHeaders ∅ (q_header r) extra)
          end
      end.
End Proxy.

(** [serveAsync] after the pool answered. *)
Definition serveAsync (w : header) (tag reqID : string)
    (outcome : res AsyncJobs.poolError AsyncJobs.Outcome) : served :=
  match outcome with
  | Err AsyncJobs.ErrBodyTooLarge => WriteError w "body_too_large" 413 reqID
  | Err AsyncJobs.ErrPoolClosed => WriteError w "shutting_down" 503 reqID
  | Err _ => WriteError w "internal" 500 reqID
  | Ok AsyncJobs.OutcomePending =>
      let w := Header_Set "Proxy-Async-Status" "pending" w in
      let w := Header_Set "Content-Type" "application/json" w in
      let w := if String.eqb reqID "" then w else Header_Set "X-Request-Id" reqID w in
      WriteHeader 202 w (BJson (JObj [("retry_tag", JStr tag); ("status", JStr "pending")]))
  | Ok (AsyncJobs.OutcomeCompleted resp) =>
      let w := map_fold (fun key vals w => if Forwarder.isHopByHop key then w else Header_AddAll key vals w) w
                 (default ∅ (AsyncRecord.Header resp)) in
      let w := if String.eqb reqID "" then w else Header_Set "X-Request-Id" reqID w in
      let w := Header_Del "Proxy-Async-Status" w in
      WriteHeader (AsyncRecord.StatusCode resp) w
        (match AsyncRecord.Body resp with
         | Some b => if String.eqb b "" then NoBody else BBytes b
         | None => NoBody
         end)
  | Ok AsyncJobs.OutcomeTombstoned => WriteError w "tag_evicted" 410 reqID
  | Ok AsyncJobs.OutcomeQueueFull => WriteError w "queue_full" 503 reqID
  end.

(** ** Routing errors of async jobs ([zone_forwarder.go]) *)

Definition zoneErrorResponse (status : Z) (code : string) : AsyncRecord.UpstreamResponse :=
  AsyncRecord.mkResponse status
    (Some (Header_Set "Content-Type" "application/json" (Header_Set "X-Proxy-Error" code ∅)))
    (Some ("{" +:+ String (Ascii.ascii_of_nat 34) "error" +:+ String (Ascii.ascii_of_nat 34) ":"
           +:+ String (Ascii.ascii_of_nat 34) code +:+ String (Ascii.ascii_of_nat 34) "}")).

Definition classifyRouteError (e : err) : AsyncRecord.UpstreamResponse :=
  match e with
  | Public msg =>
      if HasPrefix msg Scheduler.PrefixUnknownZone then zoneErrorResponse 400 "unknown_zone"
      else zoneErrorResponse 502 "zone_bring_up_failure"
  | _ => zoneErrorResponse 502 "zone_error"
  end.

(** ** Health ([health.go], [live_health.go]) *)

Record HealthEntry := mkEntry { he_ID : string; he_Healthy : bool; he_AgeSeconds : Z }.

Definition tunnelHealthEntry (h : TunnelHealth) (now maxAge : Z) : HealthEntry :=
  let ts := th_LastHandshake h in
  if match th_Err h with Some _ => true | None => false end || IsZero ts
  then mkEntry (th_ID h) false (-1)
  else
    let age := Z.max 0 (Sub now ts) in
    mkEntry (th_ID h) (age <=? maxAge) (Z.quot age Second).

Definition aggregateStatus (entries : list HealthEntry) : string :=
  match entries with
  | [] => "down"
  | _ =>
      let healthy := length (filter (fun e => he_Healthy e = true) entries) in
      if Nat.eqb healthy (length entries) then "ok"
      else if Nat.eqb healthy 0 then "down" else "degraded"
  end.

Definition Reports (stream ondemand : TunnelHealth * bool) : list TunnelHealth :=
  match stream, ondemand with
  | (s, true), (o, true) => [s; o]
  | (s, true), _ => [s]
  | _, (o, true) => [o]
  | _, _ => []
  end.

Definition fetchCounts {E} (c : res E AsyncStore.JobCounts) : AsyncStore.JobCounts :=
  match c with Ok n => n | Err _ => AsyncStore.mkCounts (-1) (-1) (-1) end.

(** Status code, overall status, entries and counts of the health endpoint. *)
Definition healthServe {E} (method : string) (now maxAge : Z) (reports : list TunnelHealth)
    (counts : res E AsyncStore.JobCounts)
    : Z * option (string * list HealthEntry * AsyncStore.JobCounts) :=
  if negb (String.eqb method "GET") then (405, None)
  else
    let entries := (fun rep => tunnelHealthEntry rep now maxAge) <$> reports in
    let status := aggregateStatus entries in
    (if String.eqb status "down" then 503 else 200, Some (status, entries, fetchCounts counts)).

(** ** The tunnel catalog ([tunnels.go]) *)

Definition groupByCountry (entries : list Eligible.CatalogEntry) : gmap string (list string) :=
  let out := fold_left (fun (m : gmap string (list string)) ent =>
      let cc := if String.eqb (Eligible.ce_Country ent) "" then "zz" else Eligible.ce_Country ent in
      <[cc := default [] (m !! cc) ++ [Eligible.ce_ID ent]]> m) entries ∅ in
  sortStrings <$> out.

Definition countryFilter `{GoUnicode} (raw : string) : list string :=
  filter (fun t => t <> "") ((fun tok => ToLower (TrimSpace tok)) <$> Split raw ",").

Definition tunnelsServe `{GoUnicode} (method country : string) (entries : list Eligible.CatalogEntry)
    : Z * option (gmap string (list string)) :=
  if negb (String.eqb method "GET") then (405, None)
  else
    let grouped := groupByCountry entries in
    if String.eqb country "" then (200, Some grouped)
    else
      match countryFilter country with
      | [] => (200, Some grouped)
      | allowed => (200, Some (filter (fun kv => fst kv ∈ allowed) grouped))
      end.

(** ** Rotation ([rotate.go], [cmd/vpntunnel/rotate.go]) *)

Definition ParseBool (s : string) : option bool :=
  if bool_decide (s ∈ ["1"; "t"; "T"; "true"; "TRUE"; "True"]) then Some true
  else if bool_decide (s ∈ ["0"; "f"; "F"; "false"; "FALSE"; "False"]) then Some false
  else None.

Definition parseForceParam (raw : string) : option bool :=
  if String.eqb raw "" then Some false else ParseBool raw.

(** The adapter's outcome: status, country and the sessions reported. *)
Definition rotateAdapter (r : res err Supervisor.RotateResult) (active : Z)
    : res err (Supervisor.RotateOutcome * string * Z) :=
  match r with
  | Err e => Err e
  | Ok res => Ok (Supervisor.rr_Outcome res, Supervisor.rr_Country res,
                  match Supervisor.rr_Outcome res with
                  | Supervisor.RotateSkippedActive => active | _ => 0 end)
  end.

Definition rotateServe (w : header) (method force reqID : string)
    (rotate : bool -> res err (Supervisor.RotateOutcome * string * Z)) : served :=
  if negb (String.eqb method "POST") then
    WriteError (Header_Set "Allow" "POST" w) "method_not_allowed" 405 reqID
  else match parseForceParam force with
  | None => WriteError w "bad_request" 400 reqID
  | Some f =>
      match rotate f with
      | Err _ => WroteNothing
      | Ok (outcome, country, active) =>
          let w := Header_Set "Content-Type" "application/json" w in
          match outcome with
          | Supervisor.RotateRotated =>
              WriteHeader 200 w (BJson (JObj (("status", JStr "rotated")
                :: if String.eqb country "" then [] else [("country", JStr country)])))
          | Supervisor.RotateSkippedActive =>
              WriteHeader 200 w (BJson (JObj [("status", JStr "skipped_active");
                                              ("active_sessions", JNum active)]))
          | Supervisor.RotateUnavailable =>
              WriteHeader 503 w (BJson (JObj [("status", JStr "unavailable")]))
          end
      end
  end.

(** ** Authentication ([middleware/authtokens.go], [tools/bearerauth]) *)

Inductive Role := RoleAdmin | RoleProxy.

#[export] Instance Role_eq_dec : EqDecision Role.
Proof. solve_decision. Defined.

(** SHA-512 of [crypto/sha512]. *)
Class Sha512 := { Sum512 : string -> string }.

Record Tokens := mkTokens { t_admin : string; t_proxy : string }.

Definition minTokenLen : nat := 64.
Definition maxTokenLen : nat := 512.

(** [Match]: both comparisons are made before the decision. *)
Definition Match `{Sha512} (t : Tokens) (hdr : string) : option Role :=
  let h := TrimSpace hdr in
  if String.eqb h "" then None
  else
    let sum := Sum512 h in
    let okAdmin := String.eqb sum (t_admin t) in
    let okProxy := String.eqb sum (t_proxy t) in
    if okAdmin then Some RoleAdmin else if okProxy then Some RoleProxy else None.

(** A token file as [os.Stat] and [os.ReadFile] see it; the owner is unknown where
    [Sys] is not a [Stat_t]. *)
Record tokenFile := mkTokenFile { tf_perm : Z; tf_uid : option Z; tf_content : option string }.

(** [checkOwnerUID] on unix: both ids are 32-bit numbers. *)
Definition checkOwnerUID (getuid : Z) (f : tokenFile) : bool :=
  match tf_uid f with None => false | Some uid => Z.eqb uid (getuid mod 2 ^ 32) end.

Definition resolvePath (path configDir : string) : string :=
  if IsAbs path then path else JoinPath configDir path.

(** Why loading fails; the text of the messages is not modelled. *)
Inductive tokenError := TokenStat | TokenMode | TokenOwner | TokenRead | TokenLength | TokensEqual.

Definition loadOneToken `{Sha512} (getuid : Z) (fs : string -> option tokenFile) (path configDir : string)
    : res tokenError string :=
  match fs (resolvePath path configDir) with
  | None => Err TokenStat
  | Some f =>
      if negb (Z.eqb (tf_perm f) 384) then Err TokenMode
      else if negb (checkOwnerUID getuid f) then Err TokenOwner
      else match tf_content f with
           | None => Err TokenRead
           | Some raw =>
               let plaintext := TrimSpace raw in
               let n := String.length plaintext in
               if Nat.ltb n minTokenLen || Nat.ltb maxTokenLen n then Err TokenLength
               else Ok (Sum512 plaintext)
           end
  end.

Definition LoadTokens `{Sha512} (getuid : Z) (fs : string -> option tokenFile) (admin proxy configDir : string)
    : res tokenError Tokens :=
  let? a := loadOneToken getuid fs admin configDir in
  let? p := loadOneToken getuid fs proxy configDir in
  if String.eqb a p then Err TokensEqual
  else Ok (mkTokens a p).

(** [BearerVerifier.Verify] of the forward proxy. *)
Definition Verify (token hdr : string) : bool :=
  match Fields hdr with
  | [scheme; tok] => if negb (EqualFold scheme "Bearer") then false else String.eqb tok token
  | _ => false
  end.

(** [None] is the panic. *)
Definition NewBearerVerifier (token : string) : option (string -> bool) :=
  if String.eqb token "" then None else Some (Verify token).

(** ** The router's chain ([router/server.go]) *)

Inductive route := RTunnels | RHealth | RRotate | RProxy | RNotFound.

Definition requireRole (allowed : list Role) (role : option Role) : option (string * Z) :=
  match role with
  | None => Some ("internal_error", 500)
  | Some r => if bool_decide (r ∈ allowed) then None else Some ("forbidden", 403)
  end.

(** The role guard of each route of [buildMux]. *)
Definition routeRoles (rt : route) : option (list Role) :=
  match rt with
  | RTunnels | RProxy => Some [RoleProxy; RoleAdmin]
  | RHealth | RRotate => Some [RoleAdmin]
  | RNotFound => None
  end.

(** [withRequestID (withAuth mux)]: the error envelope, or the handler reached. *)
Definition dispatch `{Sha512} (t : Tokens) (hdr : header) (rt : route) : (string * Z) + route :=
  match Match t (Header_Get hdr "X-Vpntunnel-Token") with
  | None => inl ("unauthorized", 401)
  | Some role =>
      match routeRoles rt with
      | None => inl ("bad_request", 404)
      | Some allowed =>
          match requireRole allowed (Some role) with
          | Some e => inl e
          | None => inr rt
          end
      end
  end.
End Handlers.
