(* ===== verification/Bodies.v ===== *)
(** * Request bodies and their limits
    ([countReader] of the router, the body of [ServeHTTP], [drainBody] of the pool)

    A body arrives in chunks; whoever consumes it calls Read with buffers of any size
    until it gets an error ([io.EOF] at the end).  The counter of the access log is
    below [http.MaxBytesReader] (synchronous requests) or [io.LimitReader] (the body of
    a job), both of which are written out as in the standard library. *)

From S2P Require Import Prelude GoStrings GoJson Domain AsyncRecord AsyncStore AsyncJobs Http Forwarder.

Module Bodies.

Definition bytes := list ascii.
Inductive rerr := EOF | MaxBytesError | ConnError.

(** The body of the connection: non-empty chunks, then an error. *)
Record source := mkSource { chunks : list bytes; final : rerr }.

Definition src_read (m : nat) (s : source) : bytes * option rerr * source :=
  match chunks s with
  | [] => ([], Some (final s), s)
  | c :: cs => (take m c, None, mkSource (match drop m c with [] => cs | c' => c' :: cs end) (final s))
  end.

(** [countReader] *)
Record countingReader := mkCounting { c_src : source; c_n : Z }.

Definition countingReader_Read (m : nat) (c : countingReader) : bytes * option rerr * countingReader :=
  let '(b, e, s) := src_read m (c_src c) in (b, e, mkCounting s (c_n c + Z.of_nat (length b))).

(** [http.MaxBytesReader] *)
Record maxBytesReader := mkMax { m_r : countingReader; m_n : Z; m_err : option rerr }.

Definition max_read (m : nat) (l : maxBytesReader) : bytes * option rerr * maxBytesReader :=
  match m_err l with
  | Some e => ([], Some e, l)
  | None =>
      if Nat.eqb m 0 then ([], None, l)
      else
        let m := if m_n l <? Z.of_nat m - 1 then Z.to_nat (m_n l + 1) else m in
        let '(b, e, r) := countingReader_Read m (m_r l) in
        if Z.of_nat (length b) <=? m_n l then (b, e, mkMax r (m_n l - Z.of_nat (length b)) e)
        else (take (Z.to_nat (m_n l)) b, Some MaxBytesError, mkMax r 0 (Some MaxBytesError))
  end.

(** [io.LimitReader] *)
Record limitedReader := mkLimited { l_r : countingReader; l_n : Z }.

Definition limited_read (m : nat) (l : limitedReader) : bytes * option rerr * limitedReader :=
  if l_n l <=? 0 then ([], Some EOF, l)
  else
    let m := if l_n l <? Z.of_nat m then Z.to_nat (l_n l) else m in
    let '(b, e, r) := countingReader_Read m (l_r l) in (b, e, mkLimited r (l_n l - Z.of_nat (length b))).

(** Reading to the first error, with buffers of the given sizes; [None] when there are
    not enough of them. *)
Section Consume.
Context {R : Type} (read : nat -> R -> bytes * option rerr * R).

Fixpoint consume (sizes : list nat) (r : R) (acc : bytes) : option (bytes * rerr * R) :=
  match sizes with
  | [] => None
  | m :: sizes' =>
      match read m r with
      | (b, Some e, r') => Some (acc ++ b, e, r')
      | (b, None, r') => consume sizes' r' (acc ++ b)
      end
  end.
End Consume.

(** The outgoing body of a synchronous request, and the status of its failure. *)
Definition sync_body (limit : Z) (sizes : list nat) (s : source) : option (bytes * rerr * maxBytesReader) :=
  consume max_read sizes (mkMax (mkCounting s 0) limit None) [].

Definition isBodyTooLarge (e : rerr) : bool := match e with MaxBytesError => true | _ => false end.

(** [drainBody]: [io.ReadAll] of a [LimitReader], then the comparison with the cap. *)
Definition drain (sizes : list nat) (s : source) : option (res AsyncJobs.poolError bytes * limitedReader) :=
  match consume limited_read sizes (mkLimited (mkCounting s 0) (AsyncJobs.maxBodyBytes + 1)) [] with
  | None => None
  | Some (data, EOF, r) =>
      Some (if AsyncJobs.maxBodyBytes <? Z.of_nat (length data) then Err AsyncJobs.ErrBodyTooLarge else Ok data, r)
  | Some (_, _, r) => Some (Err AsyncJobs.ErrDrain, r)
  end.
End Bodies.
Import Bodies Forwarder.

(** ** One read of the counter *)

Definition ready (s : source) : Prop := Forall (fun c => c <> []) (chunks s) /\ final s = EOF.
Definition rest_of (c : countingReader) : bytes := concat (chunks (c_src c)).

Lemma count_read_spec m c :
  ready (c_src c) -> m <> 0%nat ->
  exists b c', countingReader_Read m c = (b, if decide (rest_of c = []) then Some EOF else None, c')
    /\ ready (c_src c') /\ rest_of c = b ++ rest_of c' /\ c_n c' = c_n c + Z.of_nat (length b)
    /\ (length b <= m)%nat /\ (rest_of c <> [] -> b <> []).
Proof.
  intros [Hc Hf] Hm. unfold countingReader_Read, src_read, rest_of in *. destruct c as [[cs f] n]. cbn in *. subst f.
  destruct cs as [|c cs]; cbn.
  - exists [], (mkCounting (mkSource [] EOF) (n + 0)). split_and!; try done. cbn. lia.
  - apply Forall_cons in Hc as [Hc Hcs]. rewrite decide_False by (destruct c; done).
    exists (take m c), (mkCounting (mkSource (match drop m c with [] => cs | c' => c' :: cs end) EOF) (n + Z.of_nat (length (take m c)))).
    split_and!; [done | | | done | rewrite length_take; lia | destruct c, m; done].
    + split; [| done]. cbn. destruct (drop m c) eqn:E; [done |]. by constructor.
    + cbn. rewrite <- (take_drop m c) at 1. rewrite <- (assoc_L (++)). f_equal. by destruct (drop m c).
Qed.

(** The limited bodies, by the number of bytes that are left. *)
Lemma max_consume sizes r n acc :
  ready (c_src r) -> Forall (fun m => m <> 0%nat) sizes -> 0 <= n -> (length (rest_of r) < length sizes)%nat ->
  exists r', consume max_read sizes (mkMax r n None) acc
    = Some (if Z.of_nat (length (rest_of r)) <=? n then (acc ++ rest_of r, EOF, r')
            else (acc ++ take (Z.to_nat n) (rest_of r), MaxBytesError, r'))
    /\ c_n (m_r r') = c_n r + Z.min (Z.of_nat (length (rest_of r))) (n + 1).
Proof.
  revert r n acc. induction sizes as [|m sizes IH]; intros r n acc Hr Hs Hn Hlen; [cbn in Hlen; lia |].
  apply Forall_cons in Hs as [Hm Hs]. cbn [consume]. unfold max_read at 1. cbn [m_err m_n m_r].
  rewrite (proj2 (Nat.eqb_neq _ _) Hm).
  set (m' := if n <? Z.of_nat m - 1 then Z.to_nat (n + 1) else m).
  assert (m' <> 0%nat /\ Z.of_nat m' <= n + 1) as [Hm' Hmn] by (subst m'; destruct (Z.ltb_spec n (Z.of_nat m - 1)); lia).
  destruct (count_read_spec m' r Hr Hm') as (b & r1 & -> & Hr1 & Hrest & Hc & Hb & Hne).
  destruct (decide (rest_of r = [])) as [E|E].
  - rewrite E in Hrest |- *. symmetry in Hrest. apply app_nil in Hrest as [-> E1]. cbn [length] in *. change (Z.of_nat 0) with 0 in *.
    rewrite (proj2 (Z.leb_le 0 n) Hn). eexists. split; [done |]. cbn [m_r]. lia.
  - specialize (Hne E). rewrite Hrest, length_app. rewrite Hrest, length_app in Hlen.
    assert (0 < length b)%nat as Hb0 by (destruct b; [done | cbn; lia]).
    destruct (Z.leb_spec (Z.of_nat (length b)) n) as [Hle|Hgt].
    + destruct (IH r1 (n - Z.of_nat (length b)) (acc ++ b)) as (r' & -> & Hcount); [done | done | lia | cbn in Hlen; lia |].
      exists r'. split; [| lia]. f_equal.
      destruct (Z.leb_spec (Z.of_nat (length (rest_of r1))) (n - Z.of_nat (length b))),
        (Z.leb_spec (Z.of_nat (length b + length (rest_of r1))) n); try lia; rewrite <- !(assoc_L (++)); [done |].
      rewrite take_app_ge by lia. by replace (Z.to_nat n - length b)%nat with (Z.to_nat (n - Z.of_nat (length b))) by lia.
    + rewrite (proj2 (Z.leb_gt _ _)) by lia. exists (mkMax r1 0 (Some MaxBytesError)). split; [| cbn [m_r]; lia].
      by rewrite take_app_le by lia.
Qed.

Lemma limited_consume sizes r n acc :
  ready (c_src r) -> Forall (fun m => m <> 0%nat) sizes -> 0 <= n -> (length (rest_of r) < length sizes)%nat ->
  exists r', consume limited_read sizes (mkLimited r n) acc = Some (acc ++ take (Z.to_nat n) (rest_of r), EOF, r')
    /\ c_n (l_r r') = c_n r + Z.min (Z.of_nat (length (rest_of r))) n.
Proof.
  revert r n acc. induction sizes as [|m sizes IH]; intros r n acc Hr Hs Hn Hlen; [cbn in Hlen; lia |].
  apply Forall_cons in Hs as [Hm Hs]. cbn [consume]. unfold limited_read at 1. cbn [l_n l_r].
  destruct (Z.leb_spec n 0) as [Hn0|Hn0].
  - assert (n = 0) as -> by lia. eexists. split; [done |]. cbn [l_r]. lia.
  - set (m' := if n <? Z.of_nat m then Z.to_nat n else m).
    assert (m' <> 0%nat /\ Z.of_nat m' <= n) as [Hm' Hmn] by (subst m'; destruct (Z.ltb_spec n (Z.of_nat m)); lia).
    destruct (count_read_spec m' r Hr Hm') as (b & r1 & -> & Hr1 & Hrest & Hc & Hb & Hne).
    destruct (decide (rest_of r = [])) as [E|E].
    + rewrite E in Hrest |- *. symmetry in Hrest. apply app_nil in Hrest as [-> E1]. eexists. rewrite take_nil. split; [done |].
      cbn [l_r length] in *. lia.
    + specialize (Hne E). rewrite Hrest, length_app. rewrite Hrest, length_app in Hlen.
      assert (0 < length b)%nat as Hb0 by (destruct b; [done | cbn; lia]).
      destruct (IH r1 (n - Z.of_nat (length b)) (acc ++ b)) as (r' & -> & Hcount); [done | done | lia | cbn in Hlen; lia |].
      exists r'. split; [| lia]. rewrite <- (assoc_L (++)), take_app_ge by lia.
      by replace (Z.to_nat n - length b)%nat with (Z.to_nat (n - Z.of_nat (length b))) by lia.
Qed.

(** ** The limits *)

(** C34: The limits of request bodies, however a body is cut into chunks and whatever the
    buffers it is read with.  A synchronous body of up to [limit] bytes reaches the
    upstream whole; of a longer one exactly [limit] bytes are passed on and the error is
    the one answered with 413.  The body of a job is accepted whole up to the pool's cap,
    refused beyond it, and [limit] does not matter.  The access log counts the bytes
    taken from the connection: the whole body, or one byte more than the limit. *)
Theorem body_limits limit sizes s :
  ready s -> Forall (fun m => m <> 0%nat) sizes -> 0 <= limit ->
  let data := concat (chunks s) in
  let len := Z.of_nat (length data) in
  (length data < length sizes)%nat ->
  (exists r, sync_body limit sizes s
     = Some (if len <=? limit then (data, EOF, r) else (take (Z.to_nat limit) data, MaxBytesError, r))
     /\ c_n (m_r r) = Z.min len (limit + 1))
  /\ (exists r, drain sizes s
     = Some (if len <=? AsyncJobs.maxBodyBytes then Ok data else Err AsyncJobs.ErrBodyTooLarge, r)
     /\ c_n (l_r r) = Z.min len (AsyncJobs.maxBodyBytes + 1))
  /\ isBodyTooLarge MaxBytesError = true /\ isBodyTooLarge EOF = false
  /\ forall e, hasMaxBytes e = true -> mapDoError e = Some ("body_too_large", 413).
Proof.
  intros Hr Hs Hl data len Hlen. split_and!; [| | done | done |].
  - unfold sync_body. destruct (max_consume sizes (mkCounting s 0) limit [] Hr Hs Hl Hlen) as (r' & -> & Hc).
    exists r'. split; [| exact Hc]. cbn. done.
  - unfold drain. destruct (limited_consume sizes (mkCounting s 0) (AsyncJobs.maxBodyBytes + 1) [] Hr Hs) as (r' & -> & Hc); [done | done |].
    cbn [app c_n] in *. exists r'. split; [| exact Hc]. unfold rest_of. cbn [c_src]. fold data. do 2 f_equal.
    rewrite length_take. destruct (Z.leb_spec len AsyncJobs.maxBodyBytes) as [Hle|Hgt].
    + rewrite (proj2 (Z.ltb_ge _ _)) by lia. by rewrite take_ge by lia.
    + by rewrite (proj2 (Z.ltb_lt _ _)) by lia.
  - intros e He. unfold mapDoError. by rewrite He.
Qed.

(** A retry tag gets a body past the configured limit. *)
Lemma async_ignores_limit limit sizes s :
  ready s -> Forall (fun m => m <> 0%nat) sizes -> 0 <= limit ->
  limit < Z.of_nat (length (concat (chunks s))) <= AsyncJobs.maxBodyBytes -> (length (concat (chunks s)) < length sizes)%nat ->
  (exists r b, sync_body limit sizes s = Some (b, MaxBytesError, r))
  /\ exists r, drain sizes s = Some (Ok (concat (chunks s)), r).
Proof.
  intros Hr Hs Hl [H1 H2] Hlen. split.
  - unfold sync_body. destruct (max_consume sizes (mkCounting s 0) limit [] Hr Hs Hl Hlen) as (r' & -> & _).
    unfold rest_of. cbn [c_src]. rewrite (proj2 (Z.leb_gt _ _)) by lia. by eexists _, _.
  - unfold drain. destruct (limited_consume sizes (mkCounting s 0) (AsyncJobs.maxBodyBytes + 1) [] Hr Hs) as (r' & -> & _); [done | done |].
    exists r'. unfold rest_of. cbn [app c_src]. rewrite take_ge by lia. by rewrite (proj2 (Z.ltb_ge _ _)) by lia.
Qed.

Module BodyDemo.
Definition body : source := mkSource [String.list_ascii_of_string "ab"; String.list_ascii_of_string "cde"] EOF.
Definition sizes : list nat := [1; 4; 2; 3; 3; 3]%nat.

Lemma body_ready : ready body.
Proof. split; [by repeat constructor | done]. Qed.
End BodyDemo.

Lemma body_limits_witness :
  (exists r, sync_body 4 BodyDemo.sizes BodyDemo.body = Some (String.list_ascii_of_string "abcd", MaxBytesError, r) /\ c_n (m_r r) = 5)
  /\ exists r, drain BodyDemo.sizes BodyDemo.body = Some (Ok (String.list_ascii_of_string "abcde"), r) /\ c_n (l_r r) = 5.
Proof.
  destruct (body_limits 4 BodyDemo.sizes BodyDemo.body BodyDemo.body_ready) as (H1 & H2 & _);
    [by repeat constructor | done | cbn; lia |]. split; [exact H1 | exact H2].
Defined.
