(* ===== verification/ProxyFlow.v ===== *)
(** * A proxied request from the handler to the response
    ([httpV1/handlers/proxy.go], [forwarder.go], [zone_forwarder.go])

    The whole of the proxy handler: validation ([Handlers.ServeHTTP]), the route, the
    forwarder with its transport cache, and the release of the route.  The HTTP
    client ([client.Do] on a transport), [http.NewRequestWithContext], the router
    and the job pool are arguments; the router's calls are listed in [rr_routes].
    Log lines are not modelled. *)

From S2P Require Import Prelude GoStrings GoText GoUtf8 GoJson Domain Eligible Scheduler Supervisor Base64 AsyncRecord AsyncStore AsyncJobs Http Forwarder Handlers.
Import Forwarder Handlers.

Module ProxyFlow.

Section Flow.
Context {Dialer Resolver : Type}.
Notation transport := (Dialer * Resolver)%type.
Notation cache := (gmap string transport).

(** The outbound request: method, absolute URL and headers. *)
Record outRequest := mkOut { o_method : string; o_url : string; o_header : header }.

Context (Do : transport -> outRequest -> doError + upstream).

(** [mapDoError]: the envelope, with the request id of the response headers. *)
Definition writeDoError (w : header) (e : doError) : served :=
  match mapDoError e with
  | None => WroteNothing
  | Some (code, status) => WriteError w code status (Header_Get w "X-Request-Id")
  end.

(** [Forward]; a panic of [WriteHeader] is recovered and mapped to 500, on the
    headers written so far. *)
Definition Forward (w : header) (ts : cache) (id : string) (d : Dialer) (r : Resolver)
    (req : outRequest) : served * cache :=
  let '(t, ts') := transportFor ts id d r in
  (match Do t req with
   | inl e => writeDoError w e
   | inr u =>
       let w' := copyUpstreamResponse w (u_header u) (Header_Get w "X-Request-Id") in
       match WriteHeader (u_status u) w' (BBytes (u_body u)) with
       | Panicked => WriteError w' "internal" 500 (Header_Get w' "X-Request-Id")
       | s => s
       end
   end, ts').

Inductive routeEvent := Acquired (id : string) | Released (id : string).

(** What a call did: the response, the transport cache, and the routes taken. *)
Record result (A : Type) := mkResult { rr_out : A; rr_cache : cache; rr_routes : list routeEvent }.
Arguments mkResult {A} _ _ _.
Arguments rr_out {A} _.
Arguments rr_cache {A} _.
Arguments rr_routes {A} _.

Context (route : string -> res err transport)
        (NewRequest : string -> string -> bool).

(** [proxyHandler.ServeHTTP]; [plan] is what its validation decided and [submit]
    the job pool.  [Forward] returns no error, so the handler adds nothing to what
    it wrote. *)
Definition serveProxy (submit : string -> outRequest -> res AsyncJobs.poolError AsyncJobs.Outcome)
    (w : header) (ts : cache) (method : string) (pl : plan) : result served :=
  let reqID := Header_Get w "X-Request-Id" in
  match pl with
  | Reject code status => mkResult (WriteError w code status reqID) ts []
  | Async tag id target host hdr =>
      mkResult (serveAsync w tag reqID (submit tag (mkOut method target hdr))) ts []
  | Sync id target timeout hdr =>
      if negb (NewRequest method target) then mkResult (WriteError w "bad_request" 400 reqID) ts []
      else match route id with
           | Err _ => mkResult (WriteError w "tunnel_unavailable" 503 reqID) ts []
           | Ok (d, r) =>
               let '(s, ts') := Forward w ts id d r (mkOut method target hdr) in
               mkResult s ts' [Acquired id; Released id]
           end
  end.

(** [ZoneRoutingForwarder.Forward], the forwarder of the job pool's workers, with
    [tunnelForwarder.ForwardRaw] below it. *)
Definition zoneForward (ts : cache) (req : outRequest)
    : result (option AsyncRecord.UpstreamResponse) :=
  let zoneID := Header_Get (o_header req) internalTunnelIDHeader in
  if String.eqb zoneID "" then mkResult (Some (zoneErrorResponse 400 "tunnel_required")) ts []
  else match route zoneID with
       | Err e => mkResult (Some (classifyRouteError e)) ts []
       | Ok (d, r) =>
           let '(t, ts') := transportFor ts zoneID d r in
           let out := mkOut (o_method req) (o_url req) (stripServiceHeaders (o_header req)) in
           mkResult (ForwardRaw (Do t out)) ts' [Acquired zoneID; Released zoneID]
       end.
End Flow.
Arguments mkResult {Dialer Resolver A} _ _ _.
Arguments rr_out {Dialer Resolver A} _.
Arguments rr_cache {Dialer Resolver A} _.
Arguments rr_routes {Dialer Resolver A} _.
End ProxyFlow.
Import ProxyFlow.

(** ** Lemmas on response headers *)

Lemma WriteError_wrote w code status id :
  100 <= status <= 999 ->
  exists r, WriteError w code status id = Wrote r /\ r_status r = status
    /\ r_header r !! "X-Proxy-Error" = Some [code]
    /\ r_body r = BJson (JObj [("error", JStr code); ("request_id", JStr id)]).
Proof.
  intros Hs. unfold WriteError, WriteHeader.
  rewrite (proj2 (Z.ltb_ge _ _)), (proj2 (Z.ltb_ge _ _)) by lia. cbn [orb].
  eexists. split_and!; [done | done | | done]. cbn [r_header]. unfold Header_Set.
  change (CanonicalMIMEHeaderKey "X-Proxy-Error") with "X-Proxy-Error".
  change (CanonicalMIMEHeaderKey "X-Request-Id") with "X-Request-Id".
  destruct (String.eqb id ""); [by rewrite lookup_insert_eq |].
  rewrite lookup_insert_ne by done. by rewrite lookup_insert_eq.
Qed.

Lemma copyUpstream_lookup (w hdr : header) id k :
  canonical_keys hdr -> id <> "" ->
  copyUpstreamResponse w hdr id !! k =
    if bool_decide (k = "X-Proxy-Error") then None
    else if bool_decide (k = "X-Request-Id") then Some [id]
    else match hdr !! k with
         | Some vs => if isHopByHop k then w !! k else Some (default [] (w !! k) ++ vs)
         | None => w !! k
         end.
Proof.
  intros Hc Hid. unfold copyUpstreamResponse. rewrite (proj2 (String.eqb_neq _ _) Hid).
  unfold Header_Del, Header_Set.
  change (CanonicalMIMEHeaderKey "X-Proxy-Error") with "X-Proxy-Error".
  change (CanonicalMIMEHeaderKey "X-Request-Id") with "X-Request-Id".
  case_bool_decide as H1; [subst k; by rewrite lookup_delete_eq |].
  rewrite lookup_delete_ne by done.
  case_bool_decide as H2; [subst k; by rewrite lookup_insert_eq |].
  rewrite lookup_insert_ne by done.
  rewrite (copy_fold _ (fun k => negb (isHopByHop k))); [| done |].
  - by destruct (hdr !! k), (isHopByHop k).
  - intros k' vs dst _. by destruct (isHopByHop k').
Qed.

(** What [serveAsync] replays of a stored response. *)
Lemma serveAsync_completed (w : header) tag id resp hdr :
  AsyncRecord.Header resp = Some hdr -> canonical_keys hdr -> id <> "" ->
  100 <= AsyncRecord.StatusCode resp <= 999 ->
  exists r, serveAsync w tag id (Ok (AsyncJobs.OutcomeCompleted resp)) = Wrote r
    /\ r_status r = AsyncRecord.StatusCode resp
    /\ r_body r = match AsyncRecord.Body resp with
                  | Some b => if String.eqb b "" then NoBody else BBytes b
                  | None => NoBody
                  end
    /\ forall k, r_header r !! k =
         if bool_decide (k = "Proxy-Async-Status") then None
         else if bool_decide (k = "X-Request-Id") then Some [id]
         else match hdr !! k with
              | Some vs => if isHopByHop k then w !! k else Some (default [] (w !! k) ++ vs)
              | None => w !! k
              end.
Proof.
  intros Hh Hc Hid Hs. unfold serveAsync, WriteHeader. rewrite Hh. change (default ∅ (Some hdr)) with hdr.
  rewrite (proj2 (String.eqb_neq _ _) Hid).
  rewrite (proj2 (Z.ltb_ge _ _)), (proj2 (Z.ltb_ge _ _)) by lia. cbn [orb].
  eexists. split_and!; [done | done | done |]. cbn [r_header]. intros k. unfold Header_Del, Header_Set.
  change (CanonicalMIMEHeaderKey "Proxy-Async-Status") with "Proxy-Async-Status".
  change (CanonicalMIMEHeaderKey "X-Request-Id") with "X-Request-Id".
  case_bool_decide as H1; [subst k; by rewrite lookup_delete_eq |].
  rewrite lookup_delete_ne by done.
  case_bool_decide as H2; [subst k; by rewrite lookup_insert_eq |].
  rewrite lookup_insert_ne by done.
  rewrite (copy_fold _ (fun k => negb (isHopByHop k))); [| done |].
  - by destruct (hdr !! k), (isHopByHop k).
  - intros k' vs dst _. by destruct (isHopByHop k').
Qed.

Lemma ServeHTTP_reject_status ParseDuration urlParse e dflt maxT asyncPool q code st :
  ServeHTTP ParseDuration urlParse e dflt maxT asyncPool q = Reject code st -> st ∈ [400; 405; 503].
Proof.
  unfold ServeHTTP, asyncRequest. intros H. repeat case_match; simplify_eq; set_solver.
Qed.

(** What a response tells: written by the daemon with the marker, or relayed. *)
Definition marked {T} (Do : T -> outRequest -> doError + upstream) (w : header) (s : served) : Prop :=
  match s with
  | Panicked => False
  | WroteNothing => exists t out err, Do t out = inl err /\ hasCanceled err = true
  | Wrote r =>
      match r_header r !! "X-Proxy-Error" with
      | Some vs => exists code id, vs = [code]
          /\ r_body r = BJson (JObj [("error", JStr code); ("request_id", JStr id)])
      | None => exists t out u, Do t out = inr u /\ r_status r = u_status u /\ r_body r = BBytes (u_body u)
          /\ r_header r !! "X-Request-Id" = Some [Header_Get w "X-Request-Id"]
          /\ forall k, isHopByHop k = true -> k <> "X-Request-Id" -> r_header r !! k = w !! k
      end
  end.

Lemma WriteError_marked {T} (Do : T -> outRequest -> doError + upstream) w w' code st id :
  100 <= st <= 999 -> marked Do w (WriteError w' code st id).
Proof. intros Hst. destruct (WriteError_wrote w' code st id Hst) as (r & -> & _ & Hr & Hb). cbn. rewrite Hr. eauto. Qed.

Lemma writeDoError_marked {T} (Do : T -> outRequest -> doError + upstream) w t out e :
  Do t out = inl e -> marked Do w (writeDoError w e).
Proof.
  intros Hdo. unfold writeDoError. destruct (mapDoError e) as [[code st]|] eqn:Hm; unfold mapDoError in Hm.
  - apply WriteError_marked. repeat case_match; simplify_eq; lia.
  - exists t, out, e. split; [done |]. repeat case_match; simplify_eq; done.
Qed.

Lemma Forward_marked {D R} (Do : D * R -> outRequest -> doError + upstream) w ts id d r out :
  Header_Get w "X-Request-Id" <> "" ->
  (forall t out u, Do t out = inr u -> canonical_keys (u_header u)) ->
  marked Do w (fst (Forward Do w ts id d r out)).
Proof.
  intros Hid Hcan. unfold Forward. destruct (transportFor ts id d r) as [t ts']. cbn [fst].
  destruct (Do t out) as [er|u] eqn:Hdo; [by eapply writeDoError_marked |].
  pose proof (fun k => copyUpstream_lookup w (u_header u) _ k (Hcan _ _ _ Hdo) Hid) as Hl.
  unfold WriteHeader. destruct (_ || _); [by apply WriteError_marked |]. cbn [marked r_header].
  rewrite Hl. rewrite bool_decide_eq_true_2 by done. exists t, out, u. split_and!; [done | done | done | |].
  - rewrite Hl. done.
  - intros k Hk Hne. rewrite Hl. rewrite (bool_decide_eq_false_2 (k = "X-Request-Id")) by done.
    case_bool_decide as Hp; [subst; by vm_compute in Hk |]. rewrite Hk. by destruct (u_header u !! k).
Qed.

(** ** Theorems *)

Section Claims.
Context {Dialer Resolver : Type} (Do : Dialer * Resolver -> outRequest -> doError + upstream).

(** C33: the error marker of the synchronous path.  Whatever the request, the route
    and the upstream: the handler does not panic; a response with X-Proxy-Error is
    the daemon's envelope with that code; one without it has the upstream's status and body, our
    request id and none of the upstream's hop-by-hop headers; nothing is written
    only when the client went away; and a route that was acquired is released once. *)
Theorem proxy_marker route NewRequest submit (w : header) ts ParseDuration urlParse e dflt maxT asyncPool q :
  let pl := ServeHTTP ParseDuration urlParse e dflt maxT asyncPool q in
  let res := serveProxy Do route NewRequest submit w ts (q_method q) pl in
  Header_Get w "X-Request-Id" <> "" ->
  (forall t out u, Do t out = inr u -> canonical_keys (u_header u)) ->
  Header_Get (q_header q) "Proxy-Retry-Tag" = "" ->
  marked Do w (rr_out res)
  /\ (rr_routes res = [] \/ exists id d r, rr_routes res = [Acquired id; Released id] /\ route id = Ok (d, r)).
Proof.
  intros pl res Hid Hcan Htag. subst res.
  destruct pl as [code st | tag id target host hdr | id target timeout hdr] eqn:Hpl; unfold pl in Hpl.
  - apply ServeHTTP_reject_status in Hpl. split; [| by left]. apply WriteError_marked. set_unfold; lia.
  - exfalso. unfold ServeHTTP in Hpl. rewrite Htag in Hpl. repeat case_match; done.
  - clear Hpl pl. cbn [serveProxy]. destruct (NewRequest (q_method q) target); cbn [negb].
    2: { split; [by apply WriteError_marked | by left]. }
    destruct (route id) as [er|[d rs]] eqn:Hr; [split; [by apply WriteError_marked | by left] |].
    pose proof (Forward_marked Do w ts id d rs (mkOut (q_method q) target hdr) Hid Hcan) as Hf.
    destruct (Forward _ _ _ _ _ _ _) as [s ts']. split; [exact Hf |]. right. eauto.
Qed.

(** The bytes a client reads. *)
Definition bodyBytes (b : respBody) : string := match b with BBytes s => s | _ => "" end.

(** C32: the asynchronous path delivers what the synchronous one would.  An
    upstream response below the size cap, read completely, free of the daemon's two
    marker headers and with headers in valid UTF-8, reaches the client of a retry-tag job
    (materialised, stored as JSON, replayed) with the status, the headers and the body
    that a synchronous request gets. *)
Theorem sync_async_same (w : header) ts id d r out u tag :
  Header_Get w "X-Request-Id" <> "" -> w !! "X-Proxy-Error" = None -> w !! "Proxy-Async-Status" = None ->
  Do (fst (transportFor ts id d r)) out = inr u ->
  canonical_keys (u_header u) -> 100 <= u_status u <= 999 -> u_readErr u = false ->
  Z.of_nat (String.length (u_body u)) < forwardRawMaxBody ->
  u_header u !! "X-Proxy-Error" = None -> u_header u !! "Proxy-Async-Status" = None ->
  AsyncRecord.utf8_header (u_header u) ->
  exists resp r1 r2,
    ForwardRaw (inr u) = Some resp
    /\ fst (Forward Do w ts id d r out) = Wrote r1
    /\ serveAsync w tag (Header_Get w "X-Request-Id") (Ok (AsyncJobs.OutcomeCompleted (AsyncRecord.stored_response resp))) = Wrote r2
    /\ r_status r1 = r_status r2 /\ r_header r1 = r_header r2
    /\ bodyBytes (r_body r1) = u_body u /\ bodyBytes (r_body r2) = u_body u.
Proof.
  intros Hid Hw1 Hw2 Hdo Hcan Hst Hrd Hlen Hu1 Hu2 Hutf.
  set (hdr := filter (fun kv => isHopByHop (fst kv) = false) (u_header u) : header).
  assert (canonical_keys hdr) as Hcan'.
  { intros k vs [Hk _]%map_lookup_filter_Some. eauto. }
  assert (ForwardRaw (inr u) = Some (AsyncRecord.mkResponse (u_status u) (Some hdr) (Some (u_body u)))) as Hraw.
  { unfold ForwardRaw, readLimited. rewrite (proj2 (Z.ltb_lt _ _) Hlen), Hrd. done. }
  assert (AsyncRecord.stored_response (AsyncRecord.mkResponse (u_status u) (Some hdr) (Some (u_body u)))
    = AsyncRecord.mkResponse (u_status u) (Some hdr) (Some (u_body u))) as Hstore.
  { apply AsyncRecord.stored_response_id. intros m [= <-] k vs [Hk _]%map_lookup_filter_Some. by apply (Hutf k vs). }
  destruct (serveAsync_completed w tag (Header_Get w "X-Request-Id")
    (AsyncRecord.mkResponse (u_status u) (Some hdr) (Some (u_body u))) hdr eq_refl Hcan' Hid Hst)
    as (r2 & Hr2 & Hs2 & Hb2 & Hh2).
  unfold Forward. destruct (transportFor ts id d r) as [t ts'] eqn:Ht. cbn [fst] in Hdo |- *. rewrite Hdo.
  unfold WriteHeader. rewrite (proj2 (Z.ltb_ge _ _)), (proj2 (Z.ltb_ge _ _)) by lia. cbn [orb].
  do 3 eexists. split_and!; [exact Hraw | done | rewrite Hstore; exact Hr2 | by rewrite Hs2 | | done |].
  - cbn [r_header]. apply map_eq. intros k. rewrite Hh2, copyUpstream_lookup by done.
    assert (hdr !! k = if isHopByHop k then None else u_header u !! k) as Hk.
    { subst hdr. destruct (u_header u !! k) as [vs|] eqn:E.
      - destruct (isHopByHop k) eqn:Eh.
        + apply map_lookup_filter_None. right. intros v _. cbn. congruence.
        + by apply map_lookup_filter_Some.
      - destruct (isHopByHop k); apply map_lookup_filter_None; by left. }
    rewrite Hk. case_bool_decide as H1; [subst k; cbn; by rewrite Hu1, Hw1 |].
    case_bool_decide as H2; case_bool_decide as H3; subst; try done.
    + by rewrite Hu2, Hw2.
    + by destruct (isHopByHop k), (u_header u !! k).
  - rewrite Hb2. cbn. by destruct (String.eqb_spec (u_body u) "") as [->|].
Qed.
(** On the asynchronous path the marker does not tell who wrote the response.
    An upstream that sends X-Proxy-Error has it stored and replayed to the client,
    and the 502 the daemon stores when the upstream cannot be reached carries no
    marker. *)
Theorem async_marker_unreliable (w : header) u e v tag id :
  id <> "" -> w !! "X-Proxy-Error" = None ->
  canonical_keys (u_header u) -> 100 <= u_status u <= 999 -> u_readErr u = false ->
  u_header u !! "X-Proxy-Error" = Some [v] ->
  (exists resp r, ForwardRaw (inr u) = Some resp
     /\ serveAsync w tag id (Ok (AsyncJobs.OutcomeCompleted resp)) = Wrote r
     /\ r_header r !! "X-Proxy-Error" = Some [v])
  /\ ForwardRaw (inl e) = None
  /\ exists r, serveAsync w tag id (Ok (AsyncJobs.OutcomeCompleted AsyncJobs.synthetic_502)) = Wrote r
       /\ r_status r = 502 /\ r_header r !! "X-Proxy-Error" = None.
Proof.
  intros Hid Hw Hcan Hst Hrd Hv. split_and!; [| done |].
  - assert (exists body, readLimited forwardRawMaxBody u = Some body) as [body Hb].
    { unfold readLimited. rewrite Hrd. destruct (_ <? _); eauto. }
    unfold ForwardRaw. rewrite Hb.
    set (hdr := filter (fun kv => isHopByHop (fst kv) = false) (u_header u) : header).
    assert (canonical_keys hdr) as Hcan'.
    { intros k vs [Hk _]%map_lookup_filter_Some. eauto. }
    destruct (serveAsync_completed w tag id (AsyncRecord.mkResponse (u_status u) (Some hdr) (Some body))
      hdr eq_refl Hcan' Hid Hst) as (r & Hr & _ & _ & Hh).
    do 2 eexists. split_and!; [done | exact Hr |]. rewrite Hh.
    assert (hdr !! "X-Proxy-Error" = Some [v]) as -> by (by apply map_lookup_filter_Some).
    rewrite Hw. done.
  - unfold serveAsync, WriteHeader. cbn [AsyncJobs.synthetic_502 AsyncRecord.StatusCode AsyncRecord.Header].
    rewrite (proj2 (String.eqb_neq _ _) Hid). eexists. split_and!; [done | done |].
    cbn [r_header]. change (default ∅ None) with (∅ : header). rewrite map_fold_empty.
    unfold Header_Del, Header_Set. rewrite lookup_delete_ne by done. rewrite lookup_insert_ne by done. done.
Qed.
End Claims.

(** ** Concrete requests *)
Module FlowDemo.
Definition w0 : header := {[ "X-Request-Id" := ["rid"] ]}.
Definition page : upstream := mkUpstream 200 (list_to_map [("Content-Type", ["text/plain"]); ("Connection", ["close"])]) "hi" false.
Definition spoof : upstream := mkUpstream 200 (list_to_map [("X-Proxy-Error", ["bad"])]) "hi" false.
Definition Do0 (t : nat * nat) (out : outRequest) : doError + upstream := inr page.
Definition set0 : Eligible.EligibleSet := Eligible.mkSet {[ "aa" := Eligible.mkEntry "aa" "" "/t/aa.conf" ]} ["aa"].
Definition q0 : request := mkRequest "GET" "https" "aa" "example.org/x" "" ∅.
Definition parse0 (s : string) : option (string * string) := Some ("example.org", s).
Definition route0 (id : string) : res err (nat * nat) := Ok (1%nat, 2%nat).
Definition submit0 (tag : string) (out : outRequest) : res AsyncJobs.poolError AsyncJobs.Outcome :=
  Ok AsyncJobs.OutcomePending.

Lemma canonical_of_list (l : list (string * list string)) :
  forallb (fun '(k, vs) => String.eqb (CanonicalMIMEHeaderKey k) k && negb (Nat.eqb (length vs) 0)) l = true ->
  canonical_keys (list_to_map l).
Proof.
  intros Hl k vs Hk. apply elem_of_list_to_map_2 in Hk.
  pose proof (proj1 (forallb_forall _ _) Hl (k, vs)) as H. cbn in H. rewrite <- list_elem_of_In in H.
  apply H in Hk. apply andb_true_iff in Hk as [Hk Hn]. apply String.eqb_eq in Hk. split; [done |]. by destruct vs.
Qed.
End FlowDemo.
Import FlowDemo.

Lemma proxy_marker_witness :
  let res := serveProxy Do0 route0 (fun _ _ => true) submit0 w0 ∅ "GET"
               (ServeHTTP (fun _ => None) parse0 set0 30 60 false q0) in
  marked Do0 w0 (rr_out res)
  /\ (rr_routes res = [] \/ exists id d r, rr_routes res = [Acquired id; Released id] /\ route0 id = Ok (d, r)).
Proof.
  apply (proxy_marker Do0 route0 (fun _ _ => true) submit0 w0 ∅ (fun _ => None) parse0 set0 30 60 false q0).
  - by vm_compute.
  - intros t out u [= <-]. by apply canonical_of_list.
  - reflexivity.
Defined.

Lemma sync_async_same_witness :
  exists resp r1 r2,
    ForwardRaw (inr page) = Some resp
    /\ fst (Forward Do0 w0 ∅ "aa" 1%nat 2%nat (mkOut "GET" "https://example.org/x" ∅)) = Wrote r1
    /\ serveAsync w0 "tag" (Header_Get w0 "X-Request-Id") (Ok (AsyncJobs.OutcomeCompleted (AsyncRecord.stored_response resp))) = Wrote r2
    /\ r_status r1 = r_status r2 /\ r_header r1 = r_header r2
    /\ bodyBytes (r_body r1) = u_body page /\ bodyBytes (r_body r2) = u_body page.
Proof.
  apply (sync_async_same Do0 w0 ∅ "aa" 1%nat 2%nat (mkOut "GET" "https://example.org/x" ∅) page "tag");
    try (by vm_compute).
  - by apply canonical_of_list.
  - intros k vs Hk%elem_of_list_to_map_2. apply list_elem_of_In in Hk as [[= <- <-]|[[= <- <-]|[]]];
      (split; [reflexivity | by apply Forall_singleton]).
Defined.

(** A header value that is not UTF-8 (here Latin-1) reaches a synchronous client as it is
    and an asynchronous one with U+FFFD in its place. *)
Definition latin1 : upstream := mkUpstream 200 {[ "Server" := [String "233" ""] ]} "" false.

Lemma async_header_mangled :
  exists resp r, ForwardRaw (inr latin1) = Some resp
    /\ serveAsync w0 "tag" "rid" (Ok (AsyncJobs.OutcomeCompleted (AsyncRecord.stored_response resp))) = Wrote r
    /\ r_header r !! "Server" = Some [GoUtf8.Utf8.replacement]
    /\ match fst (Forward (fun _ _ => inr latin1) w0 ∅ "aa" 1%nat 2%nat (mkOut "GET" "https://example.org/x" ∅)) with
       | Wrote r1 => r_header r1 !! "Server" = Some [String "233" ""]
       | _ => False
       end.
Proof. do 2 eexists. split; [vm_compute; reflexivity |]. split; [vm_compute; reflexivity |]. by vm_compute. Qed.

Lemma async_marker_unreliable_witness :
  (exists resp r, ForwardRaw (inr spoof) = Some resp
     /\ serveAsync w0 "tag" "rid" (Ok (AsyncJobs.OutcomeCompleted resp)) = Wrote r
     /\ r_header r !! "X-Proxy-Error" = Some ["bad"])
  /\ ForwardRaw (inl (mkDoError false false false false false false None false)) = None
  /\ exists r, serveAsync w0 "tag" "rid" (Ok (AsyncJobs.OutcomeCompleted AsyncJobs.synthetic_502)) = Wrote r
       /\ r_status r = 502 /\ r_header r !! "X-Proxy-Error" = None.
Proof.
  apply (async_marker_unreliable w0 spoof (mkDoError false false false false false false None false) "bad" "tag" "rid");
    try by vm_compute. by apply canonical_of_list.
Defined.
