(* ===== verification/ForwardProxy.v ===== *)
(** * The forward proxy ([internal/application/proxy.go])

    A handler is the list of the actions it takes: updates of the two gauges,
    responses, dials, closes and access-log records, in program order.  What the
    outside answers (the HTTP client, the dialer, hijacking and the first write)
    are arguments, and so are elapsed times.  [net.ParseIP] is [ParseAddr] without
    zones.  Operational log lines are not modelled. *)

From S2P Require Import Prelude GoStrings GoText GoJson Domain Eligible Scheduler Supervisor Base64 AsyncRecord AsyncStore AsyncJobs Http Forwarder Handlers.
Import Forwarder Handlers.

Module ForwardProxy.

Definition ErrFallbackMessage : string := "Something went wrong. Try again later.".

(** The error values of the logging package, which is third-party: what its
    constructor's result shows to the public and to the log. *)
Class PublicErrorDetails := {
  Details : string -> string;
  Error : string -> string
}.

(** ** Headers *)

Definition hopByHopHeaders : list string :=
  ["Connection"; "Keep-Alive"; "Proxy-Authenticate"; "Proxy-Authorization"; "TE"; "Trailers";
   "Transfer-Encoding"; "Upgrade"].

Definition copyHeaders (dst src : header) : header :=
  map_fold (fun k vv dst => Header_AddAll k vv dst) dst src.

(** The field names the Connection header lists. *)
Definition connFields (incoming : header) : list string :=
  filter (fun name => name <> "")
    (TrimSpace <$> mjoin ((fun v => Split v ",") <$> default [] (incoming !! "Connection"))).

Definition stripHopByHop (h incoming : header) : header :=
  let fields := connFields incoming in
  let h := fold_left (fun h name => Header_Del name h) hopByHopHeaders h in
  fold_left (fun h name => Header_Del name h) fields h.

(** ** Authentication *)

Section Auth.
Context `{GoUnicode, AddrText, PublicErrorDetails}.

Definition isLoopbackRemote (addr : string) : bool :=
  match SplitHostPort addr with
  | None => false
  | Some (host, _) =>
      match ParseIP host with None => false | Some ip => IsLoopback ip end
  end.

Definition classifyAuthFailure (hdr : string) : string :=
  if String.eqb hdr "" then "missing"
  else match Fields hdr with
       | [] => "malformed"
       | [p] => if HasPrefix (ToLower p) "bearer" then "malformed"
                else if negb (EqualFold p "Bearer") then "wrong_scheme" else "wrong_token"
       | p :: _ => if negb (EqualFold p "Bearer") then "wrong_scheme" else "wrong_token"
       end.

(** [url.URL], with the parts that [logTarget] keeps in [u_rest]. *)
Record URL := mkURL {
  u_scheme : string;
  u_host : string;
  u_rest : string;
  u_user : option string;
  u_rawQuery : string;
  u_fragment : string
}.
Context (URL_String : URL -> string).

Definition IsAbsURL (u : URL) : bool := negb (String.eqb (u_scheme u) "").

Definition logTarget (u : URL) : string :=
  URL_String (mkURL (u_scheme u) (u_host u) (u_rest u) None "" "").

Record proxyRequest := mkProxyRequest {
  pr_method : string;
  pr_url : URL;
  pr_host : string;
  pr_requestURI : string;
  pr_remoteAddr : string;
  pr_header : header
}.

Definition authLogTarget (r : proxyRequest) : string :=
  if String.eqb (pr_method r) "CONNECT" then pr_host r
  else if IsAbsURL (pr_url r) then logTarget (pr_url r)
  else pr_requestURI r.

(** ** Actions *)

Inductive conn := ClientConn | UpstreamConn.

Inductive act :=
| ASessions (delta : Z)
| ATunnels (delta : Z)
| ARespond (status : Z) (hdr : header) (body : string)
| ADo (hdr : header)
| ADial (target : string)
| AHijack
| AEstablished
| AClose (c : conn)
| APanic
| ALog (s : RequestSummary).

Definition summary (r : proxyRequest) (target : string) (status bytesIn bytesOut ms : Z) (e : string) : act :=
  ALog (mkSummary (pr_method r) target (pr_remoteAddr r) status bytesIn bytesOut ms e).

(** [checkAuth]: whether to go on, and what was done. *)
Definition checkAuth (verifier : option (string -> bool)) (r : proxyRequest) : bool * list act :=
  match verifier with
  | None => (true, [])
  | Some verify =>
      if isLoopbackRemote (pr_remoteAddr r) then (true, [])
      else
        let hdr := Header_Get (pr_header r) "Proxy-Authorization" in
        if negb (String.eqb hdr "") && verify hdr then (true, [])
        else
          (false, [ARespond 407 (Header_Set "Proxy-Authenticate"
                     ("Bearer realm=" +:+ String (Ascii.ascii_of_nat 34) "vpntunnel" +:+ String (Ascii.ascii_of_nat 34) "") ∅)
                     "Proxy authentication required.";
                   summary r (authLogTarget r) 407 0 0 0 ""])
  end.

(** [HandleHTTP], with its deferred actions; [do_] is the text of the HTTP client's
    error, or its response.  [WriteHeader] panics on a status code outside 100..999. *)
Definition HandleHTTP (verifier : option (string -> bool)) (r : proxyRequest) (newRequestErr : option string)
    (do_ : string + upstream) (ms : Z) : list act :=
  match checkAuth verifier r with
  | (false, acts) => acts
  | (true, _) =>
      let target := logTarget (pr_url r) in
      if negb (IsAbsURL (pr_url r)) then
        let pe := "Proxy expects absolute-URI request form." in
        [ARespond 400 ∅ (Details pe); summary r target 400 0 0 ms (Error pe)]
      else match newRequestErr with
      | Some e => [ARespond 500 ∅ ErrFallbackMessage; summary r target 500 0 0 ms e]
      | None =>
          let out := stripHopByHop (copyHeaders ∅ (pr_header r)) (pr_header r) in
          match do_ with
          | inl e =>
              [ASessions 1; ADo out; ARespond 502 ∅ (Details "Upstream unreachable."); summary r target 502 0 0 ms e;
               ASessions (-1)]
          | inr u =>
              let hdr := stripHopByHop (u_header u) (u_header u) in
              if (u_status u <? 100) || (999 <? u_status u) then [ASessions 1; ADo out; APanic; ASessions (-1)]
              else
              [ASessions 1; ADo out; ARespond (u_status u) (copyHeaders ∅ hdr) (u_body u);
               summary r target (u_status u) 0 (Z.of_nat (String.length (u_body u))) ms ""; ASessions (-1)]
          end
      end
  end.

(** What the outside answers to a CONNECT request, in the order it is asked. *)
Record connectAnswers := mkAnswers {
  dialErr : option string;
  canHijack : bool;
  hijackOk : bool;
  writeOk : bool;
  flushOk : bool
}.

(** [HandleCONNECT] up to its return: the actions, deferred ones included, and
    whether the session was handed to the tunnel goroutine. *)
Definition HandleCONNECT (verifier : option (string -> bool)) (r : proxyRequest) (a : connectAnswers) (ms : Z)
    : list act * bool :=
  match checkAuth verifier r with
  | (false, acts) => (acts, false)
  | (true, _) =>
      let target := pr_host r in
      match SplitHostPort target with
      | None =>
          let pe := "Invalid CONNECT target. Expected host:port." in
          ([ARespond 400 ∅ (Details pe); summary r target 400 0 0 ms (Error pe)], false)
      | Some _ =>
          match dialErr a with
          | Some e =>
              ([ASessions 1; ADial target; ARespond 502 ∅ (Details "Upstream unreachable."); summary r target 502 0 0 ms e;
                ASessions (-1)], false)
          | None =>
              if negb (canHijack a) then
                ([ASessions 1; ADial target; ARespond 500 ∅ ErrFallbackMessage; AClose UpstreamConn;
                  summary r target 500 0 0 ms ""; ASessions (-1)], false)
              else if negb (hijackOk a) then
                ([ASessions 1; ADial target; AClose UpstreamConn; summary r target 500 0 0 ms ""; ASessions (-1)],
                 false)
              else if negb (writeOk a) || negb (flushOk a) then
                ([ASessions 1; ADial target; AHijack; AClose ClientConn; AClose UpstreamConn;
                  summary r target 500 0 0 ms ""; ASessions (-1)], false)
              else ([ASessions 1; ADial target; AHijack; AEstablished; ATunnels 1], true)
          end
      end
  end.

(** The tunnel goroutine once both copies have ended.  (Each copying goroutine also
    half-closes its destination, at any time between the end of its copy and after
    these actions; the copies and half-closes are [Relay].) *)
Definition tunnelEnds (r : proxyRequest) (bytesIn bytesOut ms : Z) : list act :=
  [AClose ClientConn; AClose UpstreamConn; summary r (pr_host r) 200 bytesIn bytesOut ms "";
   ASessions (-1); ATunnels (-1)].
End Auth.
End ForwardProxy.
