(* ===== verification/ForwardThms.v ===== *)
(** * Theorems of the forward proxy

    The session gauge covers every dial and outlives every connection; who gets
    past the authentication; which headers are forwarded. *)

From S2P Require Import Prelude GoStrings GoText GoJson Domain Eligible Scheduler Supervisor Base64 AsyncRecord AsyncStore AsyncJobs Http Forwarder Handlers ProxyFlow ForwardProxy.
Import Forwarder Handlers ForwardProxy.

(** ** The session gauge *)

(** What an observer of a request's actions keeps: the two gauges, the open
    connections, the numbers of responses and of log records, and whether every
    dial and every close happened while the session was counted. *)
Record monitor := mkMonitor {
  m_sessions : Z;
  m_tunnels : Z;
  m_upstream : bool;
  m_client : bool;
  m_responses : nat;
  m_logs : nat;
  m_ok : bool
}.

Definition observe (dialed : bool) (m : monitor) (a : act) : monitor :=
  match a with
  | ASessions d => mkMonitor (m_sessions m + d) (m_tunnels m) (m_upstream m) (m_client m) (m_responses m) (m_logs m)
      (* counted out only with every connection closed *)
      (m_ok m && (negb (d <? 0) || negb (m_upstream m || m_client m)))
  | ATunnels d => mkMonitor (m_sessions m) (m_tunnels m + d) (m_upstream m) (m_client m) (m_responses m) (m_logs m) (m_ok m)
  | ARespond _ _ _ => mkMonitor (m_sessions m) (m_tunnels m) (m_upstream m) (m_client m) (S (m_responses m)) (m_logs m) (m_ok m)
  | ADo _ => mkMonitor (m_sessions m) (m_tunnels m) (m_upstream m) (m_client m) (m_responses m) (m_logs m)
      (m_ok m && (m_sessions m =? 1))
  | ADial _ => mkMonitor (m_sessions m) (m_tunnels m) dialed (m_client m) (m_responses m) (m_logs m)
      (m_ok m && (m_sessions m =? 1))
  | AHijack => mkMonitor (m_sessions m) (m_tunnels m) (m_upstream m) true (m_responses m) (m_logs m) (m_ok m)
  | AEstablished => mkMonitor (m_sessions m) (m_tunnels m) (m_upstream m) (m_client m) (S (m_responses m)) (m_logs m) (m_ok m)
  | AClose UpstreamConn => mkMonitor (m_sessions m) (m_tunnels m) false (m_client m) (m_responses m) (m_logs m)
      (m_ok m && m_upstream m && (m_sessions m =? 1))
  | AClose ClientConn => mkMonitor (m_sessions m) (m_tunnels m) (m_upstream m) false (m_responses m) (m_logs m)
      (m_ok m && m_client m && (m_sessions m =? 1))
  | APanic => m
  | ALog _ => mkMonitor (m_sessions m) (m_tunnels m) (m_upstream m) (m_client m) (m_responses m) (S (m_logs m)) (m_ok m)
  end.

Definition run_monitor (dialed : bool) (acts : list act) : monitor :=
  fold_left (observe dialed) acts (mkMonitor 0 0 false false 0 0 true).

(** The whole life of a CONNECT request. *)
Definition connectLife `{GoUnicode, AddrText, PublicErrorDetails} URL_String verifier r a ms bytesIn bytesOut ms' : list act :=
  let '(acts, handedOff) := HandleCONNECT URL_String verifier r a ms in
  acts ++ if handedOff then tunnelEnds r bytesIn bytesOut ms' else [].

Section Claims.
Context `{GoUnicode, AddrText, PublicErrorDetails} (URL_String : URL -> string).

(** C25: the session gauge of the forward proxy.  On every path of [HandleCONNECT]
    with its tunnel goroutine and of [HandleHTTP], whatever the outside answers:
    the upstream is contacted only while the session is counted; the session is
    counted out exactly once and only when both connections are closed; every
    connection opened gets one [Close] (half-closes aside); and (unless the upstream's status code makes
    the server panic) there is exactly one access-log record and at most one
    response. *)
Theorem session_contract verifier r a ms bytesIn bytesOut ms' newErr do_ :
  let m1 := run_monitor (bool_decide (dialErr a = None)) (connectLife URL_String verifier r a ms bytesIn bytesOut ms') in
  let m2 := run_monitor false (HandleHTTP URL_String verifier r newErr do_ ms) in
  (m_ok m1 = true /\ m_sessions m1 = 0 /\ m_tunnels m1 = 0 /\ m_upstream m1 = false /\ m_client m1 = false
   /\ m_logs m1 = 1%nat /\ (m_responses m1 <= 1)%nat)
  /\ (m_ok m2 = true /\ m_sessions m2 = 0
      /\ ((m_logs m2 = 1%nat /\ m_responses m2 = 1%nat)
          \/ exists u, do_ = inr u /\ ~ (100 <= u_status u <= 999))).
Proof.
  cbn zeta. unfold connectLife, HandleCONNECT, HandleHTTP.
  destruct (checkAuth URL_String verifier r) as [[] acts] eqn:Hauth.
  2: { unfold checkAuth in Hauth. repeat case_match; simplify_eq. by vm_compute; auto 10. }
  clear Hauth. split.
  - destruct (SplitHostPort (pr_host r)) as [[]|]; [| by vm_compute; auto 10].
    destruct (dialErr a); [by vm_compute; auto 10 |].
    destruct (canHijack a); cbn [negb]; [| by vm_compute; auto 10].
    destruct (hijackOk a); cbn [negb]; [| by vm_compute; auto 10].
    destruct (writeOk a), (flushOk a); by vm_compute; auto 10.
  - destruct (IsAbsURL (pr_url r)); cbn [negb]; [| by vm_compute; auto 10].
    destruct newErr; [by vm_compute; auto 10 |].
    destruct do_ as [e|u]; [by vm_compute; auto 10 |].
    destruct (Z.ltb_spec (u_status u) 100); [split_and!; [done | done |]; right; exists u; split; [done | lia] |].
    destruct (Z.ltb_spec 999 (u_status u)); [split_and!; [done | done |]; right; exists u; split; [done | lia] |].
    cbn [orb]. by split_and!; auto.
Qed.

(** ** Authentication *)

(** The address of a peer on the loopback interface, by its number: 127.0.0.0/8, the same
    range mapped into IPv6, or ::1, without a zone. *)
Definition loopback_number (ip : Addr) : Prop :=
  match ip with
  | V4 n => 127 * 2 ^ 24 <= n < 128 * 2 ^ 24
  | V6 n z => z = "" /\ (n = 1 \/ 65535 * 2 ^ 32 + 127 * 2 ^ 24 <= n < 65535 * 2 ^ 32 + 128 * 2 ^ 24)
  end.
Definition loopback_peer (addr : string) : Prop :=
  exists host port ip, SplitHostPort addr = Some (host, port) /\ ParseAddr host = Some ip /\ loopback_number ip.

Lemma Unmap_loopback n z : match Unmap (V6 n z) with V4 m => Z.shiftr m 24 = 127 | V6 m _ => m = 1 end
  <-> n = 1 \/ 65535 * 2 ^ 32 + 127 * 2 ^ 24 <= n < 65535 * 2 ^ 32 + 128 * 2 ^ 24.
Proof.
  unfold Unmap. change (2 ^ 32 - 1) with (Z.ones 32). rewrite Z.land_ones by done.
  destruct (Z.eqb_spec (Z.shiftr n 32) 65535) as [E|E].
  - apply shiftr_range in E; [| done]. rewrite shiftr_range by done.
    assert (n mod 2 ^ 32 = n - 65535 * 2 ^ 32) as -> by (symmetry; apply (Z.mod_unique _ _ 65535); lia). lia.
  - rewrite shiftr_range in E by done. lia.
Qed.

(** The addresses [isLoopbackRemote] lets in. *)
Lemma isLoopbackRemote_spec addr : isLoopbackRemote addr = true <-> loopback_peer addr.
Proof.
  unfold isLoopbackRemote, ParseIP, loopback_peer, loopback_number. split.
  - destruct (SplitHostPort addr) as [[host port]|]; [| done].
    destruct (ParseAddr host) as [[n|n z]|] eqn:Hp; [| | done].
    + intros Hl%Z.eqb_eq. exists host, port, (V4 n). split; [done |]. split; [done |]. cbn in Hl. apply shiftr_range in Hl; lia.
    + destruct (String.eqb_spec z "") as [->|]; [| done]. unfold IsLoopback. intros Hl.
      exists host, port, (V6 n ""). do 3 (split; [done |]). apply (proj1 (Unmap_loopback n "")).
      revert Hl. destruct (Unmap (V6 n "")); by rewrite Z.eqb_eq.
  - intros (host & port & ip & -> & -> & Hl). destruct ip as [n|n z]; [apply Z.eqb_eq; cbn; apply shiftr_range; lia |].
    destruct Hl as [-> Hl]. apply (proj2 (Unmap_loopback n "")) in Hl. change (IsLoopback (V6 n "") = true). unfold IsLoopback. revert Hl.
    destruct (Unmap (V6 n "")); by rewrite Z.eqb_eq.
Qed.

Lemma Verify_spec token h : Verify token h = true <-> exists scheme, Fields h = [scheme; token] /\ EqualFold scheme "Bearer" = true.
Proof.
  unfold Verify. split.
  - destruct (Fields h) as [|scheme [|tok [|]]]; try done.
    destruct (EqualFold scheme "Bearer") eqn:He; [| done]. cbn [negb]. intros ->%String.eqb_eq. eauto.
  - intros (scheme & -> & ->). cbn. apply String.eqb_refl.
Qed.

(** Whether the outside was contacted. *)
Definition contacts (acts : list act) : bool :=
  existsb (fun a => match a with ADial _ | ADo _ => true | _ => false end) acts.

(** C26: the authentication gate of the forward proxy.  With a token configured, [checkAuth]
    lets a request through exactly if its peer is on the loopback interface (its address
    parses and is in 127.0.0.0/8, also mapped, or is ::1, without a zone) or its
    Proxy-Authorization header is the word bearer, in any case, and the token; only such a
    request reaches the dialer or the HTTP client, and every other one gets one 407 with the
    challenge and is logged. *)
Theorem auth_gate token r a ms newErr do_ :
  let verifier := Some (Verify token) in
  let hdr := Header_Get (pr_header r) "Proxy-Authorization" in
  let allowed := loopback_peer (pr_remoteAddr r)
                 \/ exists scheme, Fields hdr = [scheme; token] /\ EqualFold scheme "Bearer" = true in
  (fst (checkAuth URL_String verifier r) = true <-> allowed)
  /\ (contacts (fst (HandleCONNECT URL_String verifier r a ms)) = true
      \/ contacts (HandleHTTP URL_String verifier r newErr do_ ms) = true -> allowed)
  /\ (~ allowed ->
      fst (HandleCONNECT URL_String verifier r a ms) = HandleHTTP URL_String verifier r newErr do_ ms
      /\ exists h s, HandleHTTP URL_String verifier r newErr do_ ms
           = [ARespond 407 h "Proxy authentication required."; ALog s]
         /\ rs_StatusCode s = 407 /\ is_Some (h !! "Proxy-Authenticate")).
Proof.
  cbn zeta. rewrite <- isLoopbackRemote_spec, <- Verify_spec. unfold HandleCONNECT, HandleHTTP, checkAuth.
  destruct (isLoopbackRemote (pr_remoteAddr r)).
  { split; [split; [by left | done] |]. split; [by left |]. intros Hn. exfalso. apply Hn. by left. }
  set (hdr := Header_Get (pr_header r) "Proxy-Authorization").
  assert (negb (String.eqb hdr "") && Verify token hdr = Verify token hdr) as Hne.
  { destruct (String.eqb_spec hdr "") as [->|]; [| done]. by unfold Verify. }
  rewrite Hne. destruct (Verify token hdr) eqn:Hv.
  - split; [split; [by right | done] |]. split; [by right |]. intros Hn. exfalso. apply Hn. by right.
  - split; [split; [done | by intros []] |]. split; [by intros [] |]. intros _. split; [done |].
    do 2 eexists. split_and!; [done | done |]. unfold Header_Set.
    change (CanonicalMIMEHeaderKey "Proxy-Authenticate") with "Proxy-Authenticate". rewrite lookup_insert_eq. eauto.
Qed.

(** ** Headers *)

Lemma copyHeaders_id src : canonical_keys src -> copyHeaders ∅ src = src.
Proof.
  intros Hc. apply map_eq. intros k. unfold copyHeaders.
  rewrite (copy_fold _ (fun _ => true)); [| done | done]. rewrite lookup_empty. by destruct (src !! k).
Qed.

Lemma del_fold names (h : header) k :
  fold_left (fun h name => Header_Del name h) names h !! k
  = if bool_decide (k ∈ CanonicalMIMEHeaderKey <$> names) then None else h !! k.
Proof.
  revert h. induction names as [|n names IH]; intros h; [done |]. cbn [fold_left fmap list_fmap]. rewrite IH.
  unfold Header_Del. destruct (decide (k = CanonicalMIMEHeaderKey n)) as [->|Hne].
  - rewrite lookup_delete_eq. rewrite (bool_decide_eq_true_2 (_ ∈ _ :: _)) by set_solver. by case_bool_decide.
  - rewrite lookup_delete_ne by done. case_bool_decide as Hi; case_bool_decide as Hj; try done; exfalso; set_solver.
Qed.

(** The headers the forward proxy passes on.  Of a request with canonical keys
    the upstream gets every header with its values, except the fixed hop-by-hop
    names and those the Connection header lists; and the same holds of the
    response's headers on their way to the client. *)
Theorem hop_by_hop_stripped (src : header) k :
  canonical_keys src ->
  (stripHopByHop (copyHeaders ∅ src) src !! k
   = if bool_decide (k ∈ CanonicalMIMEHeaderKey <$> hopByHopHeaders ++ connFields src) then None else src !! k)
  /\ copyHeaders ∅ (stripHopByHop src src) !! k = stripHopByHop (copyHeaders ∅ src) src !! k.
Proof.
  intros Hc. rewrite copyHeaders_id by done.
  assert (forall k, stripHopByHop src src !! k
    = if bool_decide (k ∈ CanonicalMIMEHeaderKey <$> hopByHopHeaders ++ connFields src) then None else src !! k) as Hs.
  { intros k'. unfold stripHopByHop. rewrite !del_fold, fmap_app.
    repeat case_bool_decide; try done; exfalso; set_solver. }
  split; [apply Hs |]. rewrite copyHeaders_id; [done |].
  intros k' vs Hk. rewrite Hs in Hk. case_bool_decide; [done |]. eauto.
Qed.
End Claims.

(** A request that names one of its headers in Connection. *)
Lemma hop_by_hop_stripped_witness :
  let src : header := list_to_map [("Connection", ["close, x-trace"]); ("X-Trace", ["1"]); ("Accept", ["a"; "b"])] in
  stripHopByHop (copyHeaders ∅ src) src !! "X-Trace" = None
  /\ stripHopByHop (copyHeaders ∅ src) src !! "Accept" = Some ["a"; "b"].
Proof.
  intros src. assert (canonical_keys src) as Hc by (by apply FlowDemo.canonical_of_list).
  split.
  - rewrite (proj1 (hop_by_hop_stripped src "X-Trace" Hc)). by vm_compute.
  - rewrite (proj1 (hop_by_hop_stripped src "Accept" Hc)). by vm_compute.
Defined.
