(* ===== verification/TunnelDrain.v ===== *)
(** * Waiting for the CONNECT tunnels at shutdown
    ([ProxyService.WaitTunnels] and the tunnel goroutine of [HandleCONNECT])

    The counter is atomic; the notification channel is read and replaced under a
    mutex.  Every atomic operation and every critical section is a step, and the
    steps of the waiter and of all tunnel goroutines interleave freely.  Channels
    are numbered in the order they are made: those below [current] are closed. *)

From S2P Require Import Prelude.

Module TunnelDrain.

(** A tunnel goroutine: running, or past [tunnelCount.Add(-1) == 0] and before
    its critical section. *)
Inductive tunnel := TRunning | TZero.

(** Where [WaitTunnels] is: before the first load, before the critical section,
    before the second load with its channel, in the select, or returned. *)
Inductive waiter :=
| WLoad
| WGet
| WRecheck (notify : nat)
| WSelect (notify : nat)
| WNil
| WCtxErr.

Record state := mkState {
  tunnelCount : Z;
  current : nat;
  tunnels : gmap nat tunnel;
  wait : waiter
}.

Definition running (t : tunnel) : bool := match t with TRunning => true | TZero => false end.

(** The waiter's next step; [None] when the select blocks (or it returned). *)
Definition waiter_next (s : state) : option waiter :=
  match wait s with
  | WLoad => Some (if tunnelCount s =? 0 then WNil else WGet)
  | WGet => Some (WRecheck (current s))
  | WRecheck c => Some (if tunnelCount s =? 0 then WNil else WSelect c)
  | WSelect c => if Nat.ltb c (current s) then Some WLoad else None
  | WNil | WCtxErr => None
  end.

Inductive step (s : state) : state -> Prop :=
| d_start k :
    tunnels s !! k = None ->
    step s (mkState (tunnelCount s + 1) (current s) (<[k := TRunning]> (tunnels s)) (wait s))
| d_last k :
    tunnels s !! k = Some TRunning -> tunnelCount s - 1 = 0 ->
    step s (mkState 0 (current s) (<[k := TZero]> (tunnels s)) (wait s))
| d_end k :
    tunnels s !! k = Some TRunning -> tunnelCount s - 1 <> 0 ->
    step s (mkState (tunnelCount s - 1) (current s) (delete k (tunnels s)) (wait s))
| d_notify k :
    tunnels s !! k = Some TZero ->
    step s (mkState (tunnelCount s) (S (current s)) (delete k (tunnels s)) (wait s))
| d_waiter w :
    waiter_next s = Some w -> step s (mkState (tunnelCount s) (current s) (tunnels s) w)
| d_ctx c :
    wait s = WSelect c -> step s (mkState (tunnelCount s) (current s) (tunnels s) WCtxErr).

Definition init (s : state) : Prop := tunnelCount s = 0 /\ tunnels s = ∅ /\ wait s = WLoad.

(** The counter counts the running tunnels, and a waiter in the select will be
    woken: its channel is closed, or is the current one while a tunnel runs or is
    about to close it. *)
Record inv (s : state) : Prop := {
  inv_count : tunnelCount s = Z.of_nat (count running (tunnels s));
  inv_channel : forall c, wait s = WRecheck c \/ wait s = WSelect c -> (c <= current s)%nat;
  inv_wake : wait s = WSelect (current s) ->
    0 < tunnelCount s \/ exists k, tunnels s !! k = Some TZero
}.

Lemma inv_init s : init s -> inv s.
Proof. intros (Hc & Ht & Hw). split; rewrite ?Hc, ?Ht, ?Hw; [done | by intros c [] | done]. Qed.

Lemma inv_step s s' : inv s -> step s s' -> inv s'.
Proof.
  intros [Hc Hch Hw] Hst. destruct Hst as [k Hk | k Hk Hz | k Hk Hz | k Hk | w Hn | c Hs].
  - split; cbn; [rewrite count_insert by done; cbn; lia | done |].
    intros E. destruct (Hw E) as [|[k' Hk']]; [left; lia | right]. exists k'.
    rewrite lookup_insert_ne; [done | congruence].
  - split; cbn; [| done | intros _; right; exists k; apply lookup_insert_eq].
    pose proof (count_update running (tunnels s) k TRunning TZero Hk) as Hu. cbn in Hu. lia.
  - split; cbn; [rewrite (count_delete running (tunnels s) k TRunning Hk) in Hc; cbn in Hc; lia | done |].
    intros _. left. pose proof (count_pos running (tunnels s) k TRunning Hk eq_refl). lia.
  - split; cbn; [rewrite (count_delete running (tunnels s) k TZero Hk) in Hc; cbn in Hc; lia | |].
    + intros c E. specialize (Hch c E). lia.
    + intros E. specialize (Hch _ (or_intror E)). lia.
  - unfold waiter_next in Hn. destruct (wait s) as [| |c|c| |] eqn:E; try done.
    + split; cbn; [done | |]; destruct (tunnelCount s =? 0); simplify_eq; try done; by intros c [].
    + injection Hn as <-. split; cbn; [done | | done]. intros c [[= ->] | [=]]. done.
    + specialize (Hch c (or_introl eq_refl)). destruct (Z.eqb_spec (tunnelCount s) 0); injection Hn as <-.
      * split; cbn; [done | by intros c' [] | done].
      * split; cbn; [done | by intros c' [[=] | [= <-]] |]. intros _. left. lia.
    + destruct (Nat.ltb_spec c (current s)); [| done]. injection Hn as <-.
      split; cbn; [done | by intros c' [] | done].
  - split; cbn; [done | by intros c' [] | done].
Qed.

Lemma reachable_inv s : reachable init step s -> inv s.
Proof. apply reachable_invariant; [apply inv_init | eauto using inv_step]. Qed.

(** The waiter running alone. *)
Fixpoint run_waiter (fuel : nat) (s : state) : waiter :=
  match fuel with
  | O => wait s
  | S n => match waiter_next s with
           | Some w => run_waiter n (mkState (tunnelCount s) (current s) (tunnels s) w)
           | None => wait s
           end
  end.
End TunnelDrain.
Import TunnelDrain.

(** C28: shutdown's wait for the CONNECT tunnels.  In every interleaving of tunnel
    goroutines and the waiter: [WaitTunnels] returns nil only at a moment when no
    tunnel runs; and it misses no wake-up: in any state without tunnel goroutines,
    a waiter that has not returned is not blocked and returns nil after at most four
    of its own steps. *)
Theorem wait_tunnels s :
  reachable init step s ->
  (waiter_next s = Some WNil -> forall k, tunnels s !! k <> Some TRunning)
  /\ (tunnels s = ∅ -> wait s <> WCtxErr -> run_waiter 4 s = WNil).
Proof.
  intros Hr. destruct (reachable_inv s Hr) as [Hc Hch Hw]. split.
  - intros Hn k Hk. pose proof (count_pos running (tunnels s) k TRunning Hk eq_refl) as Hp.
    unfold waiter_next in Hn. destruct (wait s); try done; try (destruct (Z.eqb_spec (tunnelCount s) 0); [lia | done]).
    by destruct (Nat.ltb _ _).
  - intros Ht Hctx. assert (tunnelCount s = 0) as H0 by (rewrite Hc, Ht; done).
    destruct s as [n cur ts w]. cbn in *. rewrite H0 in *. clear H0 Hr Hc. subst ts. destruct w as [| |c|c| |]; try done.
    assert (c <> cur) as Hne.
    { intros ->. destruct (Hw eq_refl) as [|[k Hk]]; [lia | done]. }
    specialize (Hch c (or_intror eq_refl)). cbn [run_waiter waiter_next wait current].
    destruct (Nat.ltb_spec c cur); [reflexivity | lia].
Qed.

(** A run in which the last tunnel ends while the waiter is in the select. *)
Module DrainDemo.
Definition s0 : state := mkState 0 0 ∅ WLoad.
Definition s3 : state := mkState 0 1 ∅ (WSelect 0).

Lemma s3_reach : reachable init step s3.
Proof.
  exists s0. split; [done |].
  eapply rtc_l; [apply (d_start s0 0%nat eq_refl) |].
  eapply rtc_l; [apply (d_waiter _ WGet); reflexivity |]. cbn [tunnelCount current tunnels].
  eapply rtc_l; [apply (d_waiter _ (WRecheck 0)); reflexivity |]. cbn [tunnelCount current tunnels].
  eapply rtc_l; [apply (d_waiter _ (WSelect 0)); reflexivity |]. cbn [tunnelCount current tunnels].
  eapply rtc_l; [apply (d_last _ 0%nat); reflexivity |]. cbn [tunnelCount current tunnels wait].
  eapply rtc_l; [apply (d_notify _ 0%nat); reflexivity |]. cbn [tunnelCount current tunnels wait].
  match goal with |- rtc _ ?a ?b => replace a with b; [apply rtc_refl | reflexivity] end.
Qed.
End DrainDemo.
Import DrainDemo.

Lemma wait_tunnels_witness : run_waiter 4 s3 = WNil.
Proof. apply (proj2 (wait_tunnels s3 s3_reach)); [reflexivity | discriminate]. Defined.
