(* ===== verification/Relay.v ===== *)
(** * The two copies of a CONNECT tunnel (the goroutines of [HandleCONNECT], [halfClose])

    Two goroutines copy the two directions of a tunnel with [io.Copy]; a third waits for
    both counts, closes both connections and writes the access-log record.  Every read,
    write, channel operation and close is a step, and the steps of the three goroutines
    and of the two peers interleave freely.

    A connection is its kind ([*net.TCPConn], or any other type behind [net.Conn]), what
    its peer has sent and not been read (in the hijacked reader's buffer and in the
    socket), and what has been written to it.  A read takes at least one byte; a write
    that fails may have got a prefix out.  A write held up by flow control is one whose
    step has not been taken yet. *)

From S2P Require Import Prelude GoStrings.

Module Relay.

Definition bytes := list ascii.

Inductive kind := TCPConn | OtherConn.
Inductive side := Client | Upstream.

Record conn := mkConn {
  c_kind : kind;
  c_buf : bytes;        (* in the buffered reader that Hijack returned *)
  c_rx : bytes;         (* in the socket *)
  c_eof : bool;         (* the peer has ended its direction *)
  c_reset : bool;       (* the peer has reset the connection *)
  c_sent : bytes;       (* all the peer has ever sent *)
  c_tx : bytes;         (* all that has been written to the peer *)
  c_wclosed : bool;     (* CloseWrite *)
  c_closed : bool       (* Close *)
}.

(** ** What is done to a connection *)

Definition CloseWrite (c : conn) : conn :=
  mkConn (c_kind c) (c_buf c) (c_rx c) (c_eof c) (c_reset c) (c_sent c) (c_tx c) true (c_closed c).
Definition Close (c : conn) : conn :=
  mkConn (c_kind c) (c_buf c) (c_rx c) (c_eof c) (c_reset c) (c_sent c) (c_tx c) (c_wclosed c) true.
Definition halfClose (c : conn) : conn :=
  match c_kind c with TCPConn => CloseWrite c | OtherConn => Close c end.

Definition written (b : bytes) (c : conn) : conn :=
  mkConn (c_kind c) (c_buf c) (c_rx c) (c_eof c) (c_reset c) (c_sent c) (c_tx c ++ b) (c_wclosed c) (c_closed c).
Definition left_to_read (buf rx : bytes) (c : conn) : conn :=
  mkConn (c_kind c) buf rx (c_eof c) (c_reset c) (c_sent c) (c_tx c) (c_wclosed c) (c_closed c).

(** A read of up to [n] bytes: the buffer first, then the socket, unless closed here. *)
Definition read (n : nat) (c : conn) : option (bytes * conn) :=
  match n, c_buf c, c_rx c with
  | O, _, _ => None
  | _, _ :: _, _ => Some (take n (c_buf c), left_to_read (drop n (c_buf c)) (c_rx c) c)
  | _, [], _ :: _ =>
      if c_closed c then None else Some (take n (c_rx c), left_to_read [] (drop n (c_rx c)) c)
  | _, [], [] => None
  end.
Definition read_eof (c : conn) : bool :=
  match c_buf c, c_rx c with [], [] => c_eof c && negb (c_closed c) | _, _ => false end.
Definition read_fails (c : conn) : bool :=
  match c_buf c with [] => c_closed c || c_reset c | _ => false end.

Definition writable (c : conn) : bool := negb (c_wclosed c) && negb (c_closed c).
(** A write of [b] that fails after [k] bytes. *)
Definition write_fails (k : nat) (b : bytes) (c : conn) : bool :=
  if writable c then c_reset c && Nat.ltb k (length b) else Nat.eqb k 0.

(** What the peer does. *)
Inductive peer_act := PSend (b : bytes) | PEnd | PReset.

Definition peer (a : peer_act) (c : conn) : option conn :=
  if c_eof c || c_reset c then None
  else Some match a with
       | PSend b => mkConn (c_kind c) (c_buf c) (c_rx c ++ b) false false (c_sent c ++ b) (c_tx c) (c_wclosed c) (c_closed c)
       | PEnd => mkConn (c_kind c) (c_buf c) (c_rx c) true false (c_sent c) (c_tx c) (c_wclosed c) (c_closed c)
       | PReset => mkConn (c_kind c) (c_buf c) (c_rx c) false true (c_sent c) (c_tx c) (c_wclosed c) (c_closed c)
       end.

(** ** The goroutines *)

(** A copying goroutine: about to read, about to write what it has read, out of the copy,
    past the send on its channel, past [halfClose]. *)
Inductive phase := Reading | Holding (b : bytes) | Ended | Sent | Finished.

Record pump := mkPump { p_phase : phase; p_n : Z; p_ch : option Z }.

(** The waiting goroutine, and the byte counts of the record it writes. *)
Inductive waiting :=
| WaitIn
| WaitOut (bytesIn : Z)
| CloseClient (bytesIn bytesOut : Z)
| CloseUpstream (bytesIn bytesOut : Z)
| Logged (bytesIn bytesOut : Z).

Record tunnel := mkTunnel {
  client : conn; upstream : conn;
  p_in : pump; p_out : pump;      (* client to upstream, upstream to client *)
  main : waiting
}.

Inductive dir := In | Out.
Definition src (d : dir) : side := match d with In => Client | Out => Upstream end.
Definition dst (d : dir) : side := match d with In => Upstream | Out => Client end.

Definition conn_of (s : side) (t : tunnel) : conn := match s with Client => client t | Upstream => upstream t end.
Definition set_conn (s : side) (c : conn) (t : tunnel) : tunnel :=
  match s with
  | Client => mkTunnel c (upstream t) (p_in t) (p_out t) (main t)
  | Upstream => mkTunnel (client t) c (p_in t) (p_out t) (main t)
  end.
Definition pump_of (d : dir) (t : tunnel) : pump := match d with In => p_in t | Out => p_out t end.
Definition set_pump (d : dir) (p : pump) (t : tunnel) : tunnel :=
  match d with
  | In => mkTunnel (client t) (upstream t) p (p_out t) (main t)
  | Out => mkTunnel (client t) (upstream t) (p_in t) p (main t)
  end.
Definition set_main (m : waiting) (t : tunnel) : tunnel :=
  mkTunnel (client t) (upstream t) (p_in t) (p_out t) m.

Inductive pump_act := Read (n : nat) | ReadEOF | ReadErr | Write_ | WriteErr (k : nat) | SendCount | HalfClose.

(** A goroutine that copies from [s] to [w]. *)
Definition copy_step (a : pump_act) (p : pump) (s w : conn) : option (pump * conn * conn) :=
  let to ph n := mkPump ph n (p_ch p) in
  match p_phase p, a with
  | Reading, Read n => '(b, s') ← read n s; Some (to (Holding b) (p_n p), s', w)
  | Reading, ReadEOF => if read_eof s then Some (to Ended (p_n p), s, w) else None
  | Reading, ReadErr => if read_fails s then Some (to Ended (p_n p), s, w) else None
  | Holding b, Write_ =>
      if writable w then Some (to Reading (p_n p + Z.of_nat (length b)), s, written b w) else None
  | Holding b, WriteErr k =>
      if write_fails k b w then Some (to Ended (p_n p + Z.of_nat k), s, written (take k b) w) else None
  | Ended, SendCount => Some (mkPump Sent (p_n p) (Some (p_n p)), s, w)
  | Sent, HalfClose => Some (to Finished (p_n p), s, halfClose w)
  | _, _ => None
  end.

Definition pump_step (d : dir) (a : pump_act) (t : tunnel) : option tunnel :=
  '(p, s, w) ← copy_step a (pump_of d t) (conn_of (src d) t) (conn_of (dst d) t);
  Some (set_pump d p (set_conn (src d) s (set_conn (dst d) w t))).

Definition main_step (t : tunnel) : option tunnel :=
  match main t with
  | WaitIn => n ← p_ch (p_in t); Some (set_main (WaitOut n) (set_pump In (mkPump (p_phase (p_in t)) (p_n (p_in t)) None) t))
  | WaitOut n => m ← p_ch (p_out t);
      Some (set_main (CloseClient n m) (set_pump Out (mkPump (p_phase (p_out t)) (p_n (p_out t)) None) t))
  | CloseClient n m => Some (set_main (CloseUpstream n m) (set_conn Client (Close (client t)) t))
  | CloseUpstream n m => Some (set_main (Logged n m) (set_conn Upstream (Close (upstream t)) t))
  | Logged _ _ => None
  end.

Inductive action := Peer (s : side) (a : peer_act) | Pump (d : dir) (a : pump_act) | Main.

Definition step (a : action) (t : tunnel) : option tunnel :=
  match a with
  | Peer s a => c ← peer a (conn_of s t); Some (set_conn s c t)
  | Pump d a => pump_step d a t
  | Main => main_step t
  end.

Fixpoint run (l : list action) (t : tunnel) : option tunnel :=
  match l with [] => Some t | a :: l' => t' ← step a t; run l' t' end.

(** A tunnel just set up: the client may have sent bytes that are in the buffer. *)
Definition fresh (k : kind) (early : bytes) : conn := mkConn k early [] false false early [] false false.
Definition start (kc ku : kind) (early : bytes) : tunnel :=
  mkTunnel (fresh kc early) (fresh ku []) (mkPump Reading 0 None) (mkPump Reading 0 None) WaitIn.
End Relay.

Import Relay.

(** ** What holds in every state *)

Definition past_send (p : pump) : bool := match p_phase p with Sent | Finished => true | _ => false end.
Definition copy_over (p : pump) : bool := match p_phase p with Reading | Holding _ => false | _ => true end.

(** One direction: what has been written is what was sent first, in order, and the count
    is its length; during the copy nothing is lost. *)
Definition dir_inv (p : pump) (s w : conn) : Prop :=
  p_n p = Z.of_nat (length (c_tx w))
  /\ match p_phase p with
     | Reading => c_sent s = c_tx w ++ c_buf s ++ c_rx s
     | Holding b => c_sent s = c_tx w ++ b ++ c_buf s ++ c_rx s
     | _ => c_tx w `prefix_of` c_sent s
     end
  /\ match p_ch p with Some n => n = p_n p /\ past_send p = true | None => True end.
Definition dir_ok (d : dir) (t : tunnel) : Prop := dir_inv (pump_of d t) (conn_of (src d) t) (conn_of (dst d) t).

Definition main_ok (t : tunnel) : Prop :=
  match main t with
  | WaitIn => (past_send (p_in t) = true -> is_Some (p_ch (p_in t))) /\ (past_send (p_out t) = true -> is_Some (p_ch (p_out t)))
  | WaitOut n => n = p_n (p_in t) /\ past_send (p_in t) = true /\ (past_send (p_out t) = true -> is_Some (p_ch (p_out t)))
  | CloseClient n m => n = p_n (p_in t) /\ m = p_n (p_out t) /\ past_send (p_in t) = true /\ past_send (p_out t) = true
  | CloseUpstream n m => n = p_n (p_in t) /\ m = p_n (p_out t) /\ past_send (p_in t) = true /\ past_send (p_out t) = true
      /\ c_closed (client t) = true
  | Logged n m => n = p_n (p_in t) /\ m = p_n (p_out t) /\ past_send (p_in t) = true /\ past_send (p_out t) = true
      /\ c_closed (client t) = true /\ c_closed (upstream t) = true
  end.

Record ok (t : tunnel) : Prop := mk_ok {
  ok_dir d : dir_ok d t;
  ok_main : main_ok t;
  ok_buf : c_buf (upstream t) = []
}.

Lemma read_split n c b c' :
  read n c = Some (b, c') ->
  exists buf rx, c' = left_to_read buf rx c /\ c_buf c ++ c_rx c = b ++ buf ++ rx /\ b <> []
    /\ (c_buf c = [] -> buf = []).
Proof.
  unfold read. destruct n as [|n]; [done |]. destruct (c_buf c) as [|x l] eqn:Eb.
  - destruct (c_rx c) as [|y r] eqn:Er; [done |]. destruct (c_closed c); [done |]. intros [= <- <-].
    eexists _, _. split; [done |]. split; [cbn; by rewrite take_drop |]. by split.
  - intros [= <- <-]. eexists _, _. split; [done |].
    split; [cbn; by rewrite (assoc_L (++)), take_drop |]. by split.
Qed.

Lemma relay_ok_start kc ku early : ok (start kc ku early).
Proof. split; [intros []; split_and!; cbn; by rewrite ?app_nil_r | done | done]. Qed.

(** The other goroutines leave what a direction is about alone. *)
Lemma dir_inv_dst p s w w' : c_tx w' = c_tx w -> dir_inv p s w -> dir_inv p s w'.
Proof. unfold dir_inv. by intros ->. Qed.

Lemma dir_inv_src p s s' w :
  c_sent s' = c_sent s -> c_buf s' = c_buf s -> c_rx s' = c_rx s -> dir_inv p s w -> dir_inv p s' w.
Proof. unfold dir_inv. by intros -> -> ->. Qed.

Lemma peer_fields a c c' :
  peer a c = Some c' ->
  c_kind c' = c_kind c /\ c_tx c' = c_tx c /\ c_buf c' = c_buf c /\ c_closed c' = c_closed c /\ c_wclosed c' = c_wclosed c
  /\ (exists b, c_sent c' = c_sent c ++ b /\ c_rx c' = c_rx c ++ b) /\ c_eof c = false /\ c_reset c = false.
Proof.
  unfold peer. destruct (c_eof c), (c_reset c); try done. cbn [orb]. intros [= <-].
  destruct a; cbn; split_and!; try done; by first [exists b | exists []; rewrite !app_nil_r].
Qed.

Lemma dir_inv_peer a p s s' w : peer a s = Some s' -> dir_inv p s w -> dir_inv p s' w.
Proof.
  intros (_ & _ & Hb & _ & _ & (b & Hs & Hr) & _)%peer_fields. unfold dir_inv. rewrite Hb, Hs, Hr.
  intros (Hn & Hp & Hc). split_and!; [done | | done].
  destruct (p_phase p); rewrite ?Hp, <- ?(assoc_L (++)); try done; by apply prefix_app_r.
Qed.

Lemma halfClose_fields c :
  c_kind (halfClose c) = c_kind c /\ c_tx (halfClose c) = c_tx c /\ c_buf (halfClose c) = c_buf c
  /\ c_rx (halfClose c) = c_rx c /\ c_sent (halfClose c) = c_sent c /\ c_eof (halfClose c) = c_eof c
  /\ c_reset (halfClose c) = c_reset c.
Proof. by destruct c as [[]]. Qed.

Lemma copy_dir_inv a p s w p' s' w' : copy_step a p s w = Some (p', s', w') -> dir_inv p s w -> dir_inv p' s' w'.
Proof.
  destruct p as [ph n ch]. unfold copy_step, dir_inv. cbn. intros Hs (-> & Hp & Hc).
  destruct ph, a; try discriminate Hs; cbn in Hp, Hc.
  - destruct (read n s) as [[b s1]|] eqn:E; [| done]. injection Hs as <- <- <-.
    apply read_split in E as (buf & rx & -> & Hr & _). cbn. rewrite Hp, Hr.
    split_and!; [done | done |]. destruct ch; [by destruct Hc | done].
  - destruct (read_eof s); [| done]. injection Hs as <- <- <-. cbn. rewrite Hp. split_and!; [done | by apply prefix_app_r | destruct ch; [by destruct Hc | done]].
  - destruct (read_fails s); [| done]. injection Hs as <- <- <-. cbn. rewrite Hp. split_and!; [done | by apply prefix_app_r | destruct ch; [by destruct Hc | done]].
  - destruct (writable w); [| done]. injection Hs as <- <- <-. cbn. rewrite length_app. split_and!; [lia | by rewrite <- (assoc_L (++)) |].
    destruct ch; [by destruct Hc | done].
  - destruct (write_fails k b w) eqn:E; [| done]. injection Hs as <- <- <-. cbn. rewrite length_app, length_take.
    assert (k <= length b)%nat as Hk.
    { unfold write_fails in E. destruct (writable w); [apply andb_true_iff in E as [_ E%Nat.ltb_lt]; lia | apply Nat.eqb_eq in E; lia]. }
    split_and!; [lia | | destruct ch; [by destruct Hc | done]].
    rewrite Hp. apply prefix_app. rewrite <- (take_drop k b) at 2. rewrite <- (assoc_L (++)). by apply prefix_app_r.
  - injection Hs as <- <- <-. cbn. by split_and!.
  - injection Hs as <- <- <-. destruct (halfClose_fields w) as (_ & -> & _). cbn. split_and!; [done | done |].
    destruct ch as [n'|]; [by destruct Hc |]. done.
Qed.

(** What a copying goroutine leaves alone. *)
Definition same_inbound (w w' : conn) : Prop :=
  c_kind w' = c_kind w /\ c_sent w' = c_sent w /\ c_buf w' = c_buf w /\ c_rx w' = c_rx w /\ c_eof w' = c_eof w
  /\ c_reset w' = c_reset w /\ (c_closed w = true -> c_closed w' = true).

Lemma copy_frame a p s w p' s' w' :
  copy_step a p s w = Some (p', s', w') ->
  (exists buf rx, s' = left_to_read buf rx s /\ (c_buf s = [] -> buf = [])) /\ same_inbound w w'
  /\ (past_send p = true -> past_send p' = true /\ p_n p' = p_n p /\ p_ch p' = p_ch p)
  /\ ((past_send p = true -> is_Some (p_ch p)) -> past_send p' = true -> is_Some (p_ch p')).
Proof.
  assert (forall c, c = left_to_read (c_buf c) (c_rx c) c) as Hid by by intros [].
  destruct p as [ph n ch]. unfold copy_step, same_inbound. cbn. intros Hs.
  destruct ph, a; try discriminate Hs; cbn in Hs.
  1: destruct (read _ s) as [[b s1]|] eqn:E; [apply read_split in E as (buf & rx & -> & _ & _ & Hb) | discriminate Hs].
  all: repeat match goal with H : (if ?x then _ else _) = Some _ |- _ => destruct x; [| discriminate H] end.
  all: cbn in Hs; injection Hs as <- <- <-; split_and!; try (by eauto).
  all: by destruct w as [[]].
Qed.

Lemma dir_inv_same p s w w' : same_inbound w w' -> dir_inv p w s -> dir_inv p w' s.
Proof. intros (_ & ? & ? & ? & _). by apply dir_inv_src. Qed.

Lemma main_ok_pump d a t t' : step (Pump d a) t = Some t' -> main_ok t -> main_ok t'.
Proof.
  cbn. unfold pump_step. destruct (copy_step _ _ _ _) as [[[p' s'] w']|] eqn:E; [| done]. intros [= <-] Hm.
  apply copy_frame in E as ((buf & rx & -> & _) & (_ & _ & _ & _ & _ & _ & Hcl) & Hp1 & Hp2).
  destruct t as [c u pi po m], d; cbn in *; unfold main_ok in *; cbn in *; destruct m.
  all: repeat match goal with
    | H : _ /\ _ |- _ => destruct H
    | H : past_send ?x = true -> _ /\ _, H' : past_send ?x = true |- _ => destruct (H H') as (? & ? & ?); clear H
    end; split_and!; auto; congruence.
Qed.

Lemma ok_step a t t' : step a t = Some t' -> ok t -> ok t'.
Proof.
  intros Hs [Hd Hm Hb]. pose proof (Hd In) as HI. pose proof (Hd Out) as HO. unfold dir_ok in HI, HO.
  destruct a as [s a|d a|].
  - cbn in Hs. destruct (peer a _) as [c'|] eqn:E; [| done]. injection Hs as <-.
    pose proof (peer_fields _ _ _ E) as (_ & Ht & Hbuf & Hcl & _).
    destruct t as [c u pi po m], s; cbn in *; (split; [intros [] | |]); cbn; unfold dir_ok; cbn;
      eauto using dir_inv_peer, dir_inv_dst; try congruence;
      unfold main_ok in *; cbn in *; destruct m; rewrite ?Hcl; done.
  - pose proof (main_ok_pump _ _ _ _ Hs Hm) as Hm'. cbn in Hs. unfold pump_step in Hs.
    destruct (copy_step _ _ _ _) as [[[p' s'] w']|] eqn:E; [| done]. injection Hs as <-.
    pose proof (copy_dir_inv _ _ _ _ _ _ _ E) as Hown.
    destruct (copy_frame _ _ _ _ _ _ _ E) as ((buf & rx & -> & Hbuf) & Hw & _).
    destruct t as [c u pi po m], d; cbn in *; (split; [intros [] | exact Hm' |]); unfold dir_ok; cbn; eauto.
    + eapply dir_inv_dst; [| by eapply dir_inv_same]. done.
    + destruct Hw as (_ & _ & Hw & _). congruence.
    + eapply dir_inv_dst; [| by eapply dir_inv_same]. done.
  - destruct t as [c u pi po m]. cbn in Hs. unfold main_step in Hs. cbn in *.
    destruct m; cbn in Hs.
    + destruct (p_ch pi) as [n|] eqn:E; [| done]. injection Hs as <-. 
      destruct HI as (HI1 & HI2 & HI3). rewrite E in HI3. destruct HI3 as [-> Hpast], Hm as [_ Hm].
      split; [intros []; [by split | exact HO] | | done]. by split_and!.
    + destruct (p_ch po) as [n|] eqn:E; [| done]. injection Hs as <-. 
      destruct HO as (HO1 & HO2 & HO3). rewrite E in HO3. destruct HO3 as [-> Hpast], Hm as (? & ? & _).
      split; [intros []; [exact HI | by split] | | done]. by split_and!.
    + injection Hs as <-. destruct Hm as (? & ? & ? & ?). split; [by intros [] | by split_and! | done].
    + injection Hs as <-. destruct Hm as (? & ? & ? & ? & ?). split; [by intros [] | by split_and! | done].
    + done.
Qed.

Lemma run_ind (P : tunnel -> Prop) :
  (forall a t t', step a t = Some t' -> P t -> P t') -> forall l t t', run l t = Some t' -> P t -> P t'.
Proof.
  intros HP. induction l as [|a l IH]; intros t t'; cbn; [by intros [= ->] |].
  destruct (step a t) as [t1|] eqn:E; [| done]. cbn. eauto.
Qed.

Lemma ok_run l t t' : run l t = Some t' -> ok t -> ok t'.
Proof. apply run_ind. apply ok_step. Qed.

(** ** TCP on both sides: everything is relayed *)

Definition dir_tcp (p : pump) (s w : conn) : Prop :=
  (copy_over p = true -> c_eof s = true /\ c_sent s = c_tx w) /\ (c_wclosed w = true -> copy_over p = true).

(** Two TCP connections, neither reset: a copy ends at the end of its input, with all of
    it written, and the connections are closed only after both copies. *)
Definition tcp_inv (t : tunnel) : Prop :=
  c_kind (client t) = TCPConn /\ c_kind (upstream t) = TCPConn
  /\ (c_reset (client t) = false -> c_reset (upstream t) = false ->
      dir_tcp (p_in t) (client t) (upstream t) /\ dir_tcp (p_out t) (upstream t) (client t)
      /\ (c_closed (client t) || c_closed (upstream t) = true -> past_send (p_in t) && past_send (p_out t) = true)).

Lemma past_copy_over p : past_send p = true -> copy_over p = true.
Proof. by destruct p as [[]]. Qed.

Lemma copy_dir_tcp a p s w p' s' w' :
  copy_step a p s w = Some (p', s', w') -> c_kind w = TCPConn -> c_reset s = false -> c_reset w = false ->
  dir_inv p s w -> dir_tcp p s w ->
  (c_closed s = true \/ c_closed w = true -> copy_over p = true) ->
  dir_tcp p' s' w' /\ c_closed s' = c_closed s /\ c_closed w' = c_closed w /\ c_wclosed s' = c_wclosed s.
Proof.
  destruct p as [ph n ch]. unfold copy_step, dir_inv, dir_tcp. cbn.
  intros Hs Hk Hrs Hrw (_ & Hp & _) [Ho Hw] Hcl. cbn in Ho, Hw, Hcl.
  destruct ph, a; try discriminate Hs; cbn in *.
  - destruct (read _ s) as [[b s1]|] eqn:E; [| done]. injection Hs as <- <- <-.
    apply read_split in E as (buf & rx & -> & _). by split_and!.
  - unfold read_eof in Hs. destruct (c_buf s), (c_rx s); try done. destruct (c_eof s) eqn:He; [| done].
    destruct (c_closed s) eqn:Hc; [done |]. injection Hs as <- <- <-. rewrite app_nil_r in Hp. by split_and!.
  - unfold read_fails in Hs. destruct (c_buf s); [| done]. rewrite Hrs, orb_false_r in Hs.
    destruct (c_closed s); [| done]. discriminate Hcl; by left.
  - destruct (writable w); [| done]. injection Hs as <- <- <-. by split_and!.
  - unfold write_fails, writable in Hs. rewrite Hrw in Hs.
    destruct (c_wclosed w); [by specialize (Hw eq_refl) |]. destruct (c_closed w); [discriminate Hcl; by right |]. done.
  - injection Hs as <- <- <-. by split_and!.
  - injection Hs as <- <- <-. unfold halfClose. rewrite Hk. by split_and!.
Qed.

Lemma dir_tcp_frame p s w s' w' :
  c_eof s' = c_eof s -> c_sent s' = c_sent s -> c_tx w' = c_tx w -> c_wclosed w' = c_wclosed w ->
  dir_tcp p s w -> dir_tcp p s' w'.
Proof. unfold dir_tcp. by intros -> -> -> ->. Qed.

Lemma dir_tcp_peer p s w s' a : peer a s = Some s' -> dir_tcp p s w -> dir_tcp p s' w.
Proof.
  intros (_ & _ & _ & _ & _ & _ & He & _)%peer_fields [Ho Hw]. split; [| done].
  intros Hc. destruct (Ho Hc). congruence.
Qed.

Lemma tcp_step a t t' : step a t = Some t' -> ok t /\ tcp_inv t -> ok t' /\ tcp_inv t'.
Proof.
  intros Hs [Hok Ht]. split; [by eapply ok_step |]. destruct Hok as [Hd Hm _].
  pose proof (Hd In) as HI. pose proof (Hd Out) as HO. unfold dir_ok in HI, HO. clear Hd.
  destruct Ht as (Hkc & Hku & Ht), t as [c u pi po m]. destruct a as [s a|d a|]; cbn in *.
  - destruct (peer a _) as [c'|] eqn:E; [| done]. injection Hs as <-.
    pose proof (peer_fields _ _ _ E) as (Hk & Htx & _ & Hcl & Hwc & _ & He & Hr).
    destruct s; cbn in *; unfold tcp_inv; cbn; (split_and!; [congruence | congruence |]); intros Hr1 Hr2.
    + destruct (Ht Hr Hr2) as (HtI & HtO & Hc). rewrite Hcl.
      split_and!; [by eapply dir_tcp_peer | by eapply dir_tcp_frame | done].
    + destruct (Ht Hr1 Hr) as (HtI & HtO & Hc). rewrite Hcl.
      split_and!; [by eapply dir_tcp_frame | by eapply dir_tcp_peer | done].
  - unfold pump_step in Hs. destruct (copy_step _ _ _ _) as [[[p' s'] w']|] eqn:E; [| done]. injection Hs as <-.
    pose proof (copy_frame _ _ _ _ _ _ _ E) as ((buf & rx & -> & _) & (Hk & Hsent & _ & _ & He & Hr & _) & Hpast & _).
    destruct d; cbn in *; unfold tcp_inv; cbn; (split_and!; [congruence | congruence |]); intros Hr1 Hr2.
    + rewrite Hr in Hr2. destruct (Ht Hr1 Hr2) as (HtI & HtO & Hc).
      destruct (copy_dir_tcp _ _ _ _ _ _ _ E Hku Hr1 Hr2 HI HtI) as (HtI' & Hc1 & Hc2 & Hc3).
      { intros Hcl%orb_true_intro. apply Hc, andb_true_iff in Hcl as [? _]. by apply past_copy_over. }
      split_and!; [done | by eapply dir_tcp_frame |].
      cbn in Hc1. rewrite Hc2. intros [Hp1 Hp2]%Hc%andb_true_iff. by rewrite Hp2, (proj1 (Hpast Hp1)).
    + rewrite Hr in Hr1. destruct (Ht Hr1 Hr2) as (HtI & HtO & Hc).
      destruct (copy_dir_tcp _ _ _ _ _ _ _ E Hkc Hr2 Hr1 HO HtO) as (HtO' & Hc1 & Hc2 & Hc3).
      { intros Hcl%or_comm%orb_true_intro. apply Hc, andb_true_iff in Hcl as [_ ?]. by apply past_copy_over. }
      split_and!; [by eapply dir_tcp_frame | done |].
      cbn in Hc1. rewrite Hc2. intros [Hp1 Hp2]%Hc%andb_true_iff. by rewrite Hp1, (proj1 (Hpast Hp2)).
  - unfold main_step, main_ok in *. cbn in *. destruct m; cbn in Hs.
    + destruct (p_ch pi); [| done]. by injection Hs as <-.
    + destruct (p_ch po); [| done]. by injection Hs as <-.
    + injection Hs as <-. split_and!; [done | done |]. intros Hr1 Hr2. destruct (Ht Hr1 Hr2) as (? & ? & _).
      destruct Hm as (_ & _ & H1 & H2). split_and!; [done | done |]. intros _. cbn. by rewrite H1, H2.
    + injection Hs as <-. split_and!; [done | done |]. intros Hr1 Hr2. destruct (Ht Hr1 Hr2) as (? & ? & _).
      destruct Hm as (_ & _ & H1 & H2 & _). split_and!; [done | done |]. intros _. cbn. by rewrite H1, H2.
    + done.
Qed.

Lemma tcp_start early : tcp_inv (start TCPConn TCPConn early).
Proof. by split_and!. Qed.

(** ** The copies end *)

(** What the three goroutines can still do. *)
Definition phase_left (ph : phase) : nat :=
  match ph with Reading => 3 | Holding _ => 5 | Ended => 2 | Sent => 1 | Finished => 0 end.
Definition unread (c : conn) : nat := length (c_buf c) + length (c_rx c).
Definition main_left (m : waiting) : nat :=
  match m with WaitIn => 4 | WaitOut _ => 3 | CloseClient _ _ => 2 | CloseUpstream _ _ => 1 | Logged _ _ => 0 end.
Definition work (t : tunnel) : nat :=
  3 * unread (client t) + 3 * unread (upstream t) + phase_left (p_phase (p_in t)) + phase_left (p_phase (p_out t)) + main_left (main t).

Definition own (a : action) : bool := match a with Peer _ _ => false | _ => true end.

Lemma copy_work a p s w p' s' w' :
  copy_step a p s w = Some (p', s', w') ->
  (3 * unread s' + phase_left (p_phase p') < 3 * unread s + phase_left (p_phase p))%nat /\ unread w' = unread w.
Proof.
  destruct p as [ph n ch]. unfold copy_step, unread. cbn. intros Hs.
  destruct ph, a; try discriminate Hs; cbn in Hs.
  1: { destruct (read _ s) as [[b s1]|] eqn:E; [| done]. injection Hs as <- <- <-.
       apply read_split in E as (buf & rx & -> & Hb & Hne & _). cbn. apply (f_equal length) in Hb.
       rewrite !length_app in Hb. destruct b; [done |]. cbn in Hb. lia. }
  all: repeat match goal with H : (if ?x then _ else _) = Some _ |- _ => destruct x; [| discriminate H] end.
  all: cbn in Hs; injection Hs as <- <- <-; cbn; try lia.
  destruct (halfClose_fields w) as (_ & _ & -> & -> & _). lia.
Qed.

Lemma work_step a t t' : own a = true -> step a t = Some t' -> (work t' < work t)%nat.
Proof.
  intros Ho Hs. destruct t as [c u pi po m], a as [|d a|]; [done | |]; cbn in Hs; unfold work.
  - unfold pump_step in Hs. destruct (copy_step _ _ _ _) as [[[p' s'] w']|] eqn:E; [| done]. injection Hs as <-.
    apply copy_work in E. unfold unread in *. destruct d; cbn in *; lia.
  - unfold main_step in Hs. destruct m; cbn in Hs.
    + destruct (p_ch pi); [| done]. injection Hs as <-. unfold unread. cbn. lia.
    + destruct (p_ch po); [| done]. injection Hs as <-. unfold unread. cbn. lia.
    + injection Hs as <-. unfold unread. cbn. lia.
    + injection Hs as <-. unfold unread. cbn. lia.
    + done.
Qed.

(** The peer has stopped sending, one way or the other. *)
Definition peer_over (c : conn) : bool := c_eof c || c_reset c.

Lemma copy_progress p s w :
  peer_over s = true -> p_phase p <> Finished -> exists a p' s' w', copy_step a p s w = Some (p', s', w').
Proof.
  destruct p as [ph n ch]. unfold copy_step, peer_over. cbn. intros Ho Hph. destruct ph as [|b| | |]; [| | | | done].
  - destruct (c_buf s) as [|x l] eqn:Eb.
    + destruct (c_closed s) eqn:Ec.
      { exists ReadErr. unfold read_fails. rewrite Eb, Ec. by do 3 eexists. }
      destruct (c_rx s) as [|y r] eqn:Er.
      * destruct (c_eof s) eqn:Ee.
        -- exists ReadEOF. unfold read_eof. rewrite Eb, Er, Ee, Ec. by do 3 eexists.
        -- exists ReadErr. unfold read_fails. cbn in Ho. rewrite Eb, Ho, orb_true_r. by do 3 eexists.
      * exists (Read 1). unfold read. rewrite Eb, Er, Ec. cbn. by do 3 eexists.
    + exists (Read 1). unfold read. rewrite Eb. cbn. by do 3 eexists.
  - destruct (writable w) eqn:Ew; [exists Write_; by do 3 eexists | exists (WriteErr 0)]. unfold write_fails. rewrite Ew. by do 3 eexists.
  - exists SendCount. by do 3 eexists.
  - exists HalfClose. by do 3 eexists.
Qed.

Lemma tunnel_progress t :
  ok t -> peer_over (client t) = true -> peer_over (upstream t) = true ->
  (forall n m, main t <> Logged n m) -> exists a t', own a = true /\ step a t = Some t'.
Proof.
  intros Hok Hc Hu Hm. assert (forall d, p_phase (pump_of d t) = Finished \/ p_phase (pump_of d t) <> Finished) as Hdec.
  { intros d. destruct (p_phase (pump_of d t)); auto. }
  assert (forall d, p_phase (pump_of d t) <> Finished -> exists a t', own a = true /\ step a t = Some t') as Hpump.
  { intros d Hd. destruct (copy_progress (pump_of d t) (conn_of (src d) t) (conn_of (dst d) t)) as (a & p' & s' & w' & E);
      [by destruct d | done |]. exists (Pump d a). eexists. split; [done |]. cbn. unfold pump_step. rewrite E. done. }
  destruct (Hdec In) as [HI|HI]; [| by apply (Hpump In)]. destruct (Hdec Out) as [HO|HO]; [| by apply (Hpump Out)].
  exists Main. destruct Hok as [_ Hmain _]. cbn in *. unfold main_ok, main_step, past_send in *. rewrite HI, HO in Hmain.
  destruct (main t) eqn:Em.
  - destruct (proj1 Hmain eq_refl) as [n ->]. by eexists.
  - destruct (proj2 (proj2 Hmain) eq_refl) as [k ->]. by eexists.
  - by eexists.
  - by eexists.
  - by destruct (Hm bytesIn bytesOut).
Qed.

Lemma own_run_over l t t' :
  forallb own l = true -> run l t = Some t' ->
  peer_over (client t') = peer_over (client t) /\ peer_over (upstream t') = peer_over (upstream t)
  /\ (length l + work t' <= work t)%nat.
Proof.
  revert t. induction l as [|a l IH]; intros t; cbn [forallb run length]; [by intros _ [= ->] |].
  intros [Ha Hl]%andb_true_iff. destruct (step a t) as [t1|] eqn:E; [| done]. cbn [mbind option_bind]. intros Hr.
  destruct (IH t1 Hl Hr) as (-> & -> & Hlen). pose proof (work_step _ _ _ Ha E). clear IH Hr.
  assert (peer_over (client t1) = peer_over (client t) /\ peer_over (upstream t1) = peer_over (upstream t)) as [-> ->]; [| split_and!; [done | done | lia]].
  destruct t as [c u pi po m], a as [|d a|]; [done | |]; cbn in E.
  - unfold pump_step in E. destruct (copy_step _ _ _ _) as [[[p' s'] w']|] eqn:Ec; [| done]. injection E as <-.
    apply copy_frame in Ec as ((buf & rx & -> & _) & (_ & _ & _ & _ & He & Hr & _) & _).
    destruct d; cbn in *; unfold peer_over; cbn; by rewrite He, Hr.
  - unfold main_step in E. destruct m; cbn in E; [destruct (p_ch pi); [|done] | destruct (p_ch po); [|done] | | | done];
      by injection E as <-.
Qed.

(** ** The theorems *)

(** In every interleaving, what a CONNECT tunnel has written to the upstream is the
    beginning of what the client has sent, in order and without a gap, and likewise from
    the upstream to the client; when the access-log record is written its byte counts are
    the lengths of the two, and both connections are closed. *)
Theorem relay_in_order kc ku early l t :
  run l (start kc ku early) = Some t ->
  c_tx (upstream t) `prefix_of` c_sent (client t) /\ c_tx (client t) `prefix_of` c_sent (upstream t)
  /\ forall bytesIn bytesOut, main t = Logged bytesIn bytesOut ->
       bytesIn = Z.of_nat (length (c_tx (upstream t))) /\ bytesOut = Z.of_nat (length (c_tx (client t)))
       /\ c_closed (client t) = true /\ c_closed (upstream t) = true.
Proof.
  intros [Hd Hm _]%ok_run; [| apply relay_ok_start]. pose proof (Hd In) as (HI1 & HI2 & _). pose proof (Hd Out) as (HO1 & HO2 & _).
  cbn in *. split_and!.
  - destruct (p_phase (p_in t)); rewrite ?HI2; try done; by apply prefix_app_r.
  - destruct (p_phase (p_out t)); rewrite ?HO2; try done; by apply prefix_app_r.
  - intros n m E. unfold main_ok in Hm. rewrite E in Hm. destruct Hm as (-> & -> & _ & _ & ? & ?). done.
Qed.

(** C27: Between two TCP connections that are not reset, a tunnel relays everything: when
    the record is written both peers have ended their direction, and each has been sent
    all that the other sent, the early bytes of the client included. *)
Theorem relay_complete early l t n m :
  run l (start TCPConn TCPConn early) = Some t -> main t = Logged n m ->
  c_reset (client t) = false -> c_reset (upstream t) = false ->
  c_eof (client t) = true /\ c_eof (upstream t) = true
  /\ c_tx (upstream t) = c_sent (client t) /\ c_tx (client t) = c_sent (upstream t).
Proof.
  intros Hr Hm Hrc Hru. destruct (run_ind (fun t => ok t /\ tcp_inv t) tcp_step _ _ _ Hr) as [[_ Hmain _] (_ & _ & Ht)].
  { split; [apply relay_ok_start | apply tcp_start]. }
  unfold main_ok in Hmain. rewrite Hm in Hmain. destruct Hmain as (_ & _ & H1 & H2 & _).
  destruct (Ht Hrc Hru) as ([HI _] & [HO _] & _). apply past_copy_over in H1, H2.
  destruct (HI H1), (HO H2). done.
Qed.

(** C36: A tunnel ends: once both peers have ended or reset their direction, the steps of
    the daemon's three goroutines always lead to the access-log record, in at most [work]
    steps whatever their order. *)
Theorem relay_terminates kc ku early l t :
  run l (start kc ku early) = Some t -> peer_over (client t) = true -> peer_over (upstream t) = true ->
  (forall l' t', forallb own l' = true -> run l' t = Some t' -> (length l' <= work t)%nat)
  /\ forall l' t', forallb own l' = true -> run l' t = Some t' ->
       exists l'' t'' n m, forallb own l'' = true /\ run l'' t' = Some t'' /\ main t'' = Logged n m.
Proof.
  intros Hr Hc Hu. apply ok_run in Hr; [| apply relay_ok_start]. split.
  { intros l' t' Hl Hl'. destruct (own_run_over _ _ _ Hl Hl') as (_ & _ & ?). lia. }
  intros l' t' Hl Hl'. destruct (own_run_over _ _ _ Hl Hl') as (Hc' & Hu' & _). rewrite Hc in Hc'. rewrite Hu in Hu'.
  apply ok_run in Hl'; [| done]. clear - Hc' Hu' Hl'. rename t' into t, Hl' into Hok.
  induction (well_founded_ltof _ work t) as [t _ IH]. unfold ltof in IH.
  destruct (main t) eqn:Em; try (by exists [], t; do 2 eexists).
  all: destruct (tunnel_progress t Hok Hc' Hu' ltac:(by intros n m; rewrite Em)) as (a & t1 & Ha & Hs).
  all: destruct (own_run_over [a] t t1) as (E1 & E2 & _); [by cbn; rewrite Ha | by cbn; rewrite Hs |].
  all: destruct (IH t1 (work_step _ _ _ Ha Hs)) as (l'' & t'' & n & m & H1 & H2 & H3);
    [first [congruence | by eapply ok_step] .. |].
  all: exists (a :: l''), t'', n, m; cbn; by rewrite Ha, Hs.
Qed.

(** ** A destination that is not a TCP connection *)

(** What the copy to the client has in hand. *)
Definition in_hand (p : pump) : bytes := match p_phase p with Holding b => b | _ => [] end.

Definition cut (b : bytes) (t : tunnel) : Prop :=
  c_closed (upstream t) = true /\ c_buf (upstream t) = []
  /\ (c_tx (client t) ++ in_hand (p_out t)) `prefix_of` b.

Lemma cut_step b a t t' : step a t = Some t' -> cut b t -> cut b t'.
Proof.
  intros Hs (Hcl & Hb & Hp). destruct t as [c u pi po m], a as [s a|d a|]; cbn in *.
  - destruct (peer a _) as [c'|] eqn:E; [| done]. injection Hs as <-.
    apply peer_fields in E as (_ & Ht & Hb' & Hc' & _). destruct s; cbn in *; unfold cut; cbn; by rewrite ?Ht, ?Hb', ?Hc'.
  - unfold pump_step in Hs. destruct (copy_step _ _ _ _) as [[[p' s'] w']|] eqn:E; [| done]. injection Hs as <-.
    pose proof (copy_frame _ _ _ _ _ _ _ E) as ((buf & rx & -> & Hbuf) & (_ & _ & Hwb & _ & _ & _ & Hwc) & _).
    destruct d; cbn in *; unfold cut; cbn; [split_and!; [auto | congruence | done] |]. split_and!; [done | auto |].
    destruct po as [ph n ch]. unfold copy_step, in_hand in *. cbn in *.
    destruct ph, a; try discriminate E; cbn in *.
    + unfold read in E. rewrite Hb, Hcl in E. by destruct n0, (c_rx u).
    + unfold read_eof in E. rewrite Hb, Hcl, andb_false_r in E. by destruct (c_rx u).
    + destruct (read_fails u); [| done]. by injection E as <- _ <-.
    + destruct (writable c); [| done]. injection E as <- _ <-. cbn. by rewrite app_nil_r.
    + destruct (write_fails _ _ _); [| done]. injection E as <- _ <-. cbn. rewrite app_nil_r.
      etrans; [| exact Hp]. apply prefix_app. rewrite <- (take_drop k b0) at 2. by apply prefix_app_r.
    + by injection E as <- _ <-.
    + injection E as <- _ <-. by rewrite (proj1 (proj2 (halfClose_fields c))).
  - unfold main_step in Hs. unfold cut. destruct m; cbn in Hs;
      [destruct (p_ch pi); [|done] | destruct (p_ch po); [|done] | | | done]; injection Hs as <-; by split_and!.
Qed.

Definition other_inv (t : tunnel) : Prop :=
  c_kind (upstream t) = OtherConn /\ (p_phase (p_in t) = Finished -> c_closed (upstream t) = true).

Lemma other_step a t t' : step a t = Some t' -> other_inv t -> other_inv t'.
Proof.
  unfold other_inv. intros Hs [Hk Hcl].
  destruct t as [c u pi po m], a as [s a|d a|]; cbn in *.
  - destruct (peer a _) as [c'|] eqn:E; [| done]. injection Hs as <-.
    apply peer_fields in E as (Hk' & _ & _ & Hc' & _). destruct s; cbn in *; [done |]. by rewrite Hk', Hc'.
  - unfold pump_step in Hs. destruct (copy_step _ _ _ _) as [[[p' s'] w']|] eqn:E; [| done]. injection Hs as <-.
    pose proof (copy_frame _ _ _ _ _ _ _ E) as ((buf & rx & -> & _) & (Hk' & _ & _ & _ & _ & _ & Hwc) & _).
    destruct d; cbn in *; [| by split]. split; [congruence |]. intros Hf. destruct pi as [ph n ch]. unfold copy_step in E.
    cbn in E. destruct ph, a; try discriminate E; cbn in E.
    1: destruct (read _ c) as [[? ?]|]; [| discriminate E].
    all: repeat match goal with H : (if ?x then _ else _) = Some _ |- _ => destruct x; [| discriminate H] end.
    all: cbn in E; injection E as <- _ <-; try discriminate Hf.
    unfold halfClose. by rewrite Hk.
  - unfold main_step in Hs. destruct m; cbn in Hs;
      [destruct (p_ch pi); [|done] | destruct (p_ch po); [|done] | | | done]; by injection Hs as <-.
Qed.

(** Where the upstream connection is of any other type than a TCP connection of package
    net (the tunnel's own network stack returns such a type), the end of the client's
    direction cuts the answer: [halfClose] closes the whole connection, and from then on the
    client is sent at most the chunk that was already in hand, whatever the upstream sends. *)
Theorem relay_cut kc early l t l' t' :
  run l (start kc OtherConn early) = Some t -> p_phase (p_in t) = Finished -> run l' t = Some t' ->
  c_tx (client t') `prefix_of` c_tx (client t) ++ in_hand (p_out t).
Proof.
  intros Hr Hf Hl'.
  destruct (run_ind other_inv other_step _ _ _ Hr) as [_ Hcl]; [done |].
  pose proof (ok_run _ _ _ Hr (relay_ok_start _ _ _)) as [_ _ Hb].
  destruct (run_ind (cut (c_tx (client t) ++ in_hand (p_out t))) (cut_step _) _ _ _ Hl') as (_ & _ & Hp); [by split_and!; auto |].
  etrans; [| exact Hp]. by apply prefix_app_r.
Qed.

(** ** Two tunnels *)
Module RelayDemo.
Definition text (s : string) : bytes := String.list_ascii_of_string s.

(** The client sends a request and ends its direction; the upstream then answers. *)
Definition request_over : list action :=
  [Pump In (Read 100); Pump In Write_; Peer Client PEnd; Pump In ReadEOF; Pump In SendCount; Pump In HalfClose].
Definition answer : list action := [Peer Upstream (PSend (text "answer")); Peer Upstream PEnd].
Definition close_all : list action := [Pump Out SendCount; Pump Out HalfClose; Main; Main; Main; Main].

Definition over_tcp : list action := request_over ++ answer ++ [Pump Out (Read 3); Pump Out Write_; Pump Out (Read 9); Pump Out Write_; Pump Out ReadEOF] ++ close_all.
Definition over_other : list action := answer ++ [Pump Out ReadErr] ++ close_all.

Definition at_end (l : list action) (t : tunnel) : tunnel := default t (run l t).
Definition t0 : tunnel := start TCPConn TCPConn (text "request").
Definition t1 : tunnel := at_end request_over (start TCPConn OtherConn (text "request")).
End RelayDemo.
Import RelayDemo.

Lemma relay_in_order_witness :
  c_tx (upstream (at_end over_tcp t0)) `prefix_of` c_sent (client (at_end over_tcp t0))
  /\ 6 = Z.of_nat (length (c_tx (client (at_end over_tcp t0)))).
Proof.
  destruct (relay_in_order TCPConn TCPConn (text "request") over_tcp (at_end over_tcp t0)) as (H & _ & Hl);
    [by vm_compute |].
  split; [exact H |]. exact (proj1 (proj2 (Hl 7 6 ltac:(by vm_compute)))).
Defined.

Lemma relay_complete_witness :
  main (at_end over_tcp t0) = Logged 7 6 /\ c_tx (client (at_end over_tcp t0)) = c_sent (upstream (at_end over_tcp t0)).
Proof.
  split; [by vm_compute |].
  refine (proj2 (proj2 (proj2 (relay_complete (text "request") over_tcp (at_end over_tcp t0) 7 6 _ _ _ _)))); by vm_compute.
Defined.

Lemma relay_terminates_witness :
  exists l t n m, forallb own l = true /\ run l (at_end (request_over ++ answer) t0) = Some t /\ main t = Logged n m.
Proof.
  refine (proj2 (relay_terminates TCPConn TCPConn (text "request") (request_over ++ answer)
    (at_end (request_over ++ answer) t0) _ _ _) [] (at_end (request_over ++ answer) t0) _ _); by vm_compute.
Defined.

(** The answer is lost, and the access log says 200. *)
Lemma relay_cut_witness :
  main (at_end over_other t1) = Logged 7 0 /\ c_sent (upstream (at_end over_other t1)) = text "answer"
  /\ c_tx (client (at_end over_other t1)) `prefix_of` [].
Proof.
  split; [by vm_compute |]. split; [by vm_compute |].
  refine (relay_cut TCPConn (text "request") request_over t1 over_other (at_end over_other t1) _ _ _); by vm_compute.
Defined.
