(* ===== verification/HandlersThms.v ===== *)
(** * Theorems of the forwarder and the handlers

    The SSRF deny list, the header policy towards the upstream, access control,
    and what the endpoints answer. *)

From stdpp Require Import pretty.
From S2P Require Import Prelude GoStrings GoText GoUtf8 GoJson JsonText Domain Eligible Scheduler SchedulerInv SchedulerSpec SchedulerSystem Supervisor Base64 AsyncRecord AsyncStore AsyncJobs AsyncThms Http Forwarder Handlers.
From Stdlib Require Import Sorted.
Import Handlers.

(** ** The deny list *)

(** The addresses the daemon must not dial, as ranges: the IPv4 blocks 0/8, 127/8, 10/8,
    172.16/12, 192.168/16 and 169.254/16, also mapped into IPv6 (::ffff:0:0/96), and, for
    an address without a zone, ::1 and fc00::/7. *)
Definition quad (a b c d : Z) : Z := a * 2 ^ 24 + b * 2 ^ 16 + c * 2 ^ 8 + d.
Definition forbidden_v4 (n : Z) : Prop :=
  quad 0 0 0 0 <= n <= quad 0 255 255 255 \/ quad 127 0 0 0 <= n <= quad 127 255 255 255
  \/ quad 10 0 0 0 <= n <= quad 10 255 255 255 \/ quad 172 16 0 0 <= n <= quad 172 31 255 255
  \/ quad 192 168 0 0 <= n <= quad 192 168 255 255 \/ quad 169 254 0 0 <= n <= quad 169 254 255 255.
Definition forbidden (ip : Addr) : Prop :=
  match ip with
  | V4 n => forbidden_v4 n
  | V6 n z =>
      (exists m, 0 <= m < 2 ^ 32 /\ n = 65535 * 2 ^ 32 + m /\ forbidden_v4 m)
      \/ (z = "" /\ (n = 1 \/ 252 * 2 ^ 120 <= n < 254 * 2 ^ 120))
  end.

Lemma deny_v4 n : Forwarder.Contains Forwarder.DefaultDeny (V4 n) = true <-> forbidden_v4 n.
Proof.
  rewrite Forwarder.Contains_existsb. unfold Forwarder.DefaultDeny, Forwarder.DenyCIDRs, Forwarder.v4. cbn [existsb].
  rewrite !orb_true_iff, !Forwarder.v4_prefix_bits.
  change (Z.shiftr (0 * 2 ^ 24 + 0 * 2 ^ 16 + 0 * 2 ^ 8 + 0) (32 - 8)) with 0.
  change (Z.shiftr (127 * 2 ^ 24 + 0 * 2 ^ 16 + 0 * 2 ^ 8 + 0) (32 - 8)) with 127.
  change (Z.shiftr (10 * 2 ^ 24 + 0 * 2 ^ 16 + 0 * 2 ^ 8 + 0) (32 - 8)) with 10.
  change (Z.shiftr (172 * 2 ^ 24 + 16 * 2 ^ 16 + 0 * 2 ^ 8 + 0) (32 - 12)) with 2753.
  change (Z.shiftr (192 * 2 ^ 24 + 168 * 2 ^ 16 + 0 * 2 ^ 8 + 0) (32 - 16)) with 49320.
  change (Z.shiftr (169 * 2 ^ 24 + 254 * 2 ^ 16 + 0 * 2 ^ 8 + 0) (32 - 16)) with 43518.
  change (Prefix_Contains (mkPrefix (V6 1 "") 128) (V4 n)) with false.
  change (Prefix_Contains (mkPrefix (V6 (252 * 2 ^ 120) "") 7) (V4 n)) with false.
  rewrite !shiftr_range by done. unfold forbidden_v4, quad. lia.
Qed.

Lemma deny_v6 n z :
  Forwarder.Contains Forwarder.DefaultDeny (V6 n z) = true <-> z = "" /\ (n = 1 \/ 252 * 2 ^ 120 <= n < 254 * 2 ^ 120).
Proof.
  rewrite Forwarder.Contains_existsb. unfold Forwarder.DefaultDeny, Forwarder.DenyCIDRs, Forwarder.v4. cbn [existsb].
  assert (forall a k, Prefix_Contains (mkPrefix (V4 a) k) (V6 n z) = false) as HF by done.
  rewrite !HF, !orb_true_iff, !Forwarder.v6_prefix_bits.
  change (Z.shiftr 1 (128 - 128)) with 1. change (Z.shiftr (252 * 2 ^ 120) (128 - 7)) with 126.
  rewrite !shiftr_range by done. assert (forall x, x = "" \/ x <> "") as Hz by (intros x; destruct (decide (x = "")); auto).
  destruct (Hz z) as [->|]; [| naive_solver]. split; [| intros [_ [?|?]]; [do 6 right; left | do 7 right; left]; split; (done || lia)].
  intros [|[|[|[|[|[|[[_ ?]|[[_ ?]|]]]]]]]]; try done; (split; [done | lia]).
Qed.

(** The deny list covers exactly these ranges. *)
Lemma deny_list_ranges ip : Forwarder.Contains Forwarder.DefaultDeny (Unmap ip) = true <-> forbidden ip.
Proof.
  destruct ip as [n|n z]; [apply deny_v4 |]. unfold Unmap. change (2 ^ 32 - 1) with (Z.ones 32). rewrite Z.land_ones by done.
  destruct (Z.eqb_spec (Z.shiftr n 32) 65535) as [E|E]; unfold forbidden.
  - apply shiftr_range in E; [| done]. rewrite deny_v4.
    assert (n mod 2 ^ 32 = n - 65535 * 2 ^ 32) as -> by (symmetry; apply (Z.mod_unique _ _ 65535); lia). split.
    + intros Hf. left. exists (n - 65535 * 2 ^ 32). split; [lia |]. split; [lia | done].
    + intros [(m & Hm & -> & Hf)|[_ ?]]; [| lia]. by replace (65535 * 2 ^ 32 + m - 65535 * 2 ^ 32) with m by lia.
  - rewrite deny_v6. rewrite shiftr_range in E by done. split; [by right |].
    intros [(m & Hm & -> & _)|?]; [lia | done].
Qed.

Lemma not_forbidden ip : Forwarder.Contains Forwarder.DefaultDeny (Unmap ip) = false <-> ~ forbidden ip.
Proof. rewrite <- deny_list_ranges. by destruct (Forwarder.Contains _ _). Qed.

Lemma existsb_forbidden l :
  existsb (fun addr => Forwarder.Contains Forwarder.DefaultDeny (Unmap addr)) l = false <-> Forall (fun a => ~ forbidden a) l.
Proof.
  induction l as [|a l IH]; [done |]. cbn [existsb]. rewrite orb_false_iff, Forall_cons, IH, not_forbidden. done.
Qed.

(** C31: the SSRF guard of the forwarder.  When it calls the tunnel's dialer, it is with the
    literal address of the request, outside the forbidden ranges (0/8, 127/8, 10/8,
    172.16/12, 192.168/16 and 169.254/16, also mapped into IPv6; ::1 and fc00::/7 without
    a zone), or with the first of the addresses the tunnel's resolver gave, all of them
    outside; a literal address inside, or one resolved address inside, is refused as
    denied and the dialer is not called, and nothing outside is denied. *)
Theorem deny_dial_safe `{AddrText} {Dialer Resolver Conn} dial lookup (d : Dialer) (r : Resolver) address host port :
  SplitHostPort address = Some (host, port) ->
  let result := Forwarder.denyAwareDial (Conn := Conn) dial lookup d r address in
  (forall target, snd result = Some target ->
     fst result = dial d target
     /\ exists ip, ~ forbidden ip
        /\ ((ParseAddr host = Some ip /\ target = address)
            \/ (ParseAddr host = None /\ target = JoinHostPort (Addr_String ip) port
                /\ (addr_ok ip -> ParseAddr (Addr_String ip) = Some ip)
                /\ exists rest, lookup r host = Some (ip :: rest) /\ Forall (fun a => ~ forbidden a) (ip :: rest))))
  /\ (forall ip, forbidden ip ->
        ParseAddr host = Some ip \/ (ParseAddr host = None /\ exists ips, lookup r host = Some ips /\ ip ∈ ips) ->
        result = (Err Forwarder.errDenyList, None))
  /\ (forall ip, ParseAddr host = Some ip -> ~ forbidden ip -> result = (dial d address, Some address))
  /\ (forall ip rest, ParseAddr host = None -> lookup r host = Some (ip :: rest) -> Forall (fun a => ~ forbidden a) (ip :: rest) ->
        snd result = Some (JoinHostPort (Addr_String ip) port)).
Proof.
  intros Hsp. cbn zeta. unfold Forwarder.denyAwareDial. rewrite Hsp. destruct (ParseAddr host) as [ip|].
  - destruct (Forwarder.Contains _ _) eqn:Hd; split_and!; try done.
    + intros ip' [= <-] Hf. by rewrite <- deny_list_ranges in Hf.
    + intros target [= <-]. split; [done |]. exists ip. rewrite <- not_forbidden. auto.
    + intros ip' Hf [[= <-]|[? _]]; [| done]. apply deny_list_ranges in Hf. congruence.
  - destruct (lookup r host) as [[|a rest]|]; [split_and!; try done; intros ip _ [|[_ (ips & [= <-] & Hin)]]; [done | by apply elem_of_nil in Hin] | |
      split_and!; try done; intros ip _ [|[_ (ips & ? & _)]]; done].
    destruct (existsb _ (a :: rest)) eqn:He; split_and!; try done.
    + intros ip rest' _ [= <- <-] Hf. apply existsb_forbidden in Hf. congruence.
    + apply existsb_forbidden in He. intros target [= <-]. split; [done |]. exists a.
      split; [by apply Forall_cons in He as [? _] |]. right. split_and!; auto using Parse_String. by exists rest.
    + intros ip Hf [?|[_ (ips & [= <-] & Hin)]]; [done |]. apply existsb_forbidden in He. rewrite Forall_forall in He.
      by destruct (He ip Hin).
    + by intros ip rest' _ [= <- <-] _.
Qed.

(** A literal IPv6 address with a zone passes the deny list whatever it is
    (a zoned address is in no prefix), so the loopback and unique-local ranges are
    dialed when the client writes them with a zone. *)
Theorem zoned_literal_dialed `{AddrText} {Dialer Resolver Conn} dial lookup (d : Dialer) (r : Resolver)
    address host port n z :
  SplitHostPort address = Some (host, port) -> ParseAddr host = Some (V6 n z) ->
  z <> "" -> Z.shiftr n 32 <> 65535 ->
  Forwarder.denyAwareDial (Conn := Conn) dial lookup d r address = (dial d address, Some address).
Proof.
  intros Hs Hp Hz Hm. unfold Forwarder.denyAwareDial. rewrite Hs, Hp.
  assert (Forwarder.Contains Forwarder.DefaultDeny (Unmap (V6 n z)) = false) as ->; [| done].
  unfold Unmap. rewrite (proj2 (Z.eqb_neq _ _) Hm). cbn. by destruct (String.eqb_spec z "").
Qed.

(** The transport cache keeps the first dialer: once a tunnel id has been
    used, every later request for it dials through the dialer of the first one,
    whatever dialer the router granted now, also after that device was closed. *)
Theorem transport_cache_first_dialer {Dialer Resolver} (m : gmap string (Dialer * Resolver)) id
    d1 r1 d2 r2 :
  m !! id = None ->
  let '(t1, m1) := Forwarder.transportFor m id d1 r1 in
  let '(t2, m2) := Forwarder.transportFor m1 id d2 r2 in
  t1 = (d1, r1) /\ t2 = (d1, r1) /\ m2 = m1.
Proof.
  intros Hm. unfold Forwarder.transportFor. rewrite Hm, lookup_insert_eq. done.
Qed.

(** ** The header policy *)

Lemma strip_lookup (h : header) k :
  stripServiceHeaders h !! k = if bool_decide (k ∈ serviceHeaders) then None else h !! k.
Proof.
  unfold stripServiceHeaders, serviceHeaders. cbn [fold_left]. unfold Header_Del.
  change (CanonicalMIMEHeaderKey "X-Vpntunnel-Token") with "X-Vpntunnel-Token".
  change (CanonicalMIMEHeaderKey internalTunnelIDHeader) with internalTunnelIDHeader.
  change (CanonicalMIMEHeaderKey "X-Proxy-Timeout") with "X-Proxy-Timeout".
  change (CanonicalMIMEHeaderKey "X-Proxy-Forward-Headers") with "X-Proxy-Forward-Headers".
  change (CanonicalMIMEHeaderKey "Proxy-Retry-Tag") with "Proxy-Retry-Tag".
  case_bool_decide as Hin.
  - repeat (apply elem_of_cons in Hin as [->|Hin]; [by rewrite ?lookup_delete_eq, ?lookup_delete_None; auto 10 |]).
    by apply elem_of_nil in Hin.
  - rewrite !lookup_delete_ne; [done | ..]; intros <-; apply Hin; set_solver.
Qed.

(** What reaches the upstream.  Of a request with canonical header keys, the
    synchronous path forwards exactly the allowed headers with their values (the
    fixed set and those the client named), an empty User-Agent when the client sent
    none, and never a service header (token, tunnel id, timeout, retry tag), even
    if the client names it; the asynchronous path drops the service headers too. *)
Theorem upstream_headers (src : header) (extra : list string) k :
  canonical_keys src ->
  (copyProxyHeaders ∅ src extra !! k =
     if bool_decide (k = "User-Agent" /\ Header_Get src "User-Agent" = "") then Some [""]
     else if copied (alwaysForward ++ extra) k then src !! k else None)
  /\ (k ∈ serviceHeaders ->
      copyProxyHeaders ∅ src extra !! k = None /\ stripServiceHeaders src !! k = None)
  /\ (k ∉ serviceHeaders -> stripServiceHeaders src !! k = src !! k).
Proof.
  intros Hcan.
  assert (copyProxyHeaders ∅ src extra !! k =
     if bool_decide (k = "User-Agent" /\ Header_Get src "User-Agent" = "") then Some [""]
     else if copied (alwaysForward ++ extra) k then src !! k else None) as Hcopy.
  { unfold copyProxyHeaders. assert (map_fold (fun k vals dst => if copied (alwaysForward ++ extra) k
        then Header_AddAll (CanonicalMIMEHeaderKey k) vals dst else dst) (∅ : header) src !! k
      = if copied (alwaysForward ++ extra) k then src !! k else None) as Hf.
    { rewrite (copy_fold _ (copied (alwaysForward ++ extra))), lookup_empty; [| done |].
      - by destruct (src !! k), (copied (alwaysForward ++ extra) k).
      - by intros k' vs dst ->. }
    destruct (String.eqb_spec (Header_Get src "User-Agent") "") as [Hu|Hu].
    - destruct (decide (k = "User-Agent")) as [->|Hk].
      + rewrite lookup_insert_eq. by rewrite bool_decide_eq_true_2.
      + rewrite lookup_insert_ne by done. rewrite bool_decide_eq_false_2; [done |]. by intros [? _].
    - rewrite bool_decide_eq_false_2; [done |]. by intros [_ ?]. }
  split_and!; [done | |].
  - intros Hk. rewrite strip_lookup, (bool_decide_eq_true_2 (k ∈ serviceHeaders)) by done.
    split; [| done]. rewrite Hcopy. assert (k <> "User-Agent" /\ CanonicalMIMEHeaderKey k = k) as [Hne Hck].
    { repeat (apply elem_of_cons in Hk as [->|Hk]; [by vm_compute |]). by apply elem_of_nil in Hk. }
    rewrite bool_decide_eq_false_2 by (by intros [? _]). unfold copied.
    by rewrite Hck, (bool_decide_eq_true_2 (k ∈ serviceHeaders)).
  - intros Hk. by rewrite strip_lookup, bool_decide_eq_false_2.
Qed.

(** The proxy handler forwards only valid requests: when it plans to forward,
    the target scheme is http or https, the tunnel is in the eligible set, the
    target has a host, the timeout is the default or within the maximum, and the
    headers follow the policy; an async plan has a well-formed retry tag. *)
Theorem proxy_plan_valid ParseDuration urlParse e dflt maxT asyncPool r :
  match ServeHTTP ParseDuration urlParse e dflt maxT asyncPool r with
  | Reject _ st => st ∈ [400; 405; 503]
  | Sync id target timeout hdr =>
      q_scheme r ∈ ["http"; "https"] /\ id = q_id r /\ is_Some (Eligible.Lookup e id)
      /\ (exists host, urlParse (targetStr r) = Some (host, target) /\ host <> "")
      /\ (timeout = dflt \/ 0 < timeout <= maxT)
      /\ hdr = copyProxyHeaders ∅ (q_header r)
                 (extraHeaders (Header_Get (q_header r) "X-Proxy-Forward-Headers"))
  | Async tag id target host hdr =>
      asyncPool = true /\ q_scheme r ∈ ["http"; "https"] /\ id = q_id r
      /\ is_Some (Eligible.Lookup e id) /\ urlParse (targetStr r) = Some (host, target) /\ host <> ""
      /\ retryTagRegexp tag = true /\ q_method r <> "CONNECT"
      /\ Header_Get hdr internalTunnelIDHeader = q_id r
  end.
Proof.
  unfold ServeHTTP.
  destruct (negb (String.eqb (q_scheme r) "http") && negb (String.eqb (q_scheme r) "https")) eqn:Hs; [set_solver |].
  assert (q_scheme r ∈ ["http"; "https"]) as Hsch.
  { destruct (String.eqb_spec (q_scheme r) "http") as [->|]; [set_solver |].
    destruct (String.eqb_spec (q_scheme r) "https") as [->|]; [set_solver | done]. }
  destruct (String.eqb (q_id r) ""); [set_solver |].
  destruct (Eligible.IsEligible e (q_id r)) eqn:He; cbn [negb]; [| set_solver].
  assert (is_Some (Eligible.Lookup e (q_id r))) as Hel.
  { apply bool_decide_eq_true in He as [ent E]. unfold Eligible.Lookup. rewrite E. by eexists. }
  destruct (String.eqb (Header_Get (q_header r) "Proxy-Retry-Tag") ""); cbn [negb].
  - destruct (String.eqb (Header_Get (q_header r) "X-Proxy-Timeout") "").
    + destruct (urlParse (targetStr r)) as [[host target]|] eqn:Hu; [| set_solver].
      destruct (String.eqb_spec host ""); [set_solver |]. split_and!; eauto.
    + destruct (ParseDuration _) as [d|]; [| set_solver].
      destruct ((d <=? 0) || (maxT <? d)) eqn:Hb; [set_solver |].
      apply orb_false_iff in Hb as [?%Z.leb_gt ?%Z.ltb_ge].
      destruct (urlParse (targetStr r)) as [[host target]|] eqn:Hu; [| set_solver].
      destruct (String.eqb_spec host ""); [set_solver |]. split_and!; eauto.
  - destruct (String.eqb_spec (q_method r) "CONNECT"); [set_solver |].
    destruct (retryTagRegexp _) eqn:Ht; [| set_solver]. cbn [negb].
    destruct asyncPool; [| set_solver]. cbn [negb]. unfold asyncRequest.
    destruct (urlParse (targetStr r)) as [[host target]|] eqn:Hu; [| set_solver].
    destruct (String.eqb_spec host ""); [set_solver |]. split_and!; eauto.
    unfold Header_Get, Header_Set. by rewrite lookup_insert_eq.
Qed.

(** ** Access control *)

Lemma loadOneToken_private `{Sha512} uid fs path dir h :
  loadOneToken uid fs path dir = Ok h ->
  exists f raw, fs (resolvePath path dir) = Some f /\ tf_perm f = 384 /\ tf_uid f = Some (uid mod 2 ^ 32)
    /\ tf_content f = Some raw /\ h = Sum512 (TrimSpace raw)
    /\ (minTokenLen <= String.length (TrimSpace raw) <= maxTokenLen)%nat.
Proof.
  unfold loadOneToken, checkOwnerUID. destruct (fs _) as [f|]; [| done]. destruct (Z.eqb_spec (tf_perm f) 384) as [Hp|]; [| done].
  cbn [negb]. destruct (tf_uid f) as [u|] eqn:Hu; [| done]. destruct (Z.eqb_spec u (uid mod 2 ^ 32)) as [->|]; [| done]. cbn [negb].
  destruct (tf_content f) as [raw|] eqn:Hc; [| done]. destruct (Nat.ltb_spec (String.length (TrimSpace raw)) minTokenLen); [done |].
  destruct (Nat.ltb_spec maxTokenLen (String.length (TrimSpace raw))); [done |]. intros [= <-]. exists f, raw. by split_and!.
Qed.

Lemma LoadTokens_spec `{Sha512} uid fs admin proxy dir t :
  LoadTokens uid fs admin proxy dir = Ok t ->
  loadOneToken uid fs admin dir = Ok (t_admin t) /\ loadOneToken uid fs proxy dir = Ok (t_proxy t) /\ t_admin t <> t_proxy t.
Proof.
  unfold LoadTokens. destruct (loadOneToken uid fs admin dir) as [|a]; [done |].
  destruct (loadOneToken uid fs proxy dir) as [|p]; [done |]. destruct (String.eqb_spec a p); [done |]. by intros [= <-].
Qed.

(** A token is taken only from a private file: a regular start has read both from files
    with mode 0600 that belong to the user of the process, each is the hash of what the file
    holds between white space, 64 to 512 bytes long, and the two differ. *)
Theorem token_files_private `{Sha512} uid fs admin proxy dir t :
  LoadTokens uid fs admin proxy dir = Ok t ->
  t_admin t <> t_proxy t
  /\ Forall (fun '(path, h) => exists f raw, fs (resolvePath path dir) = Some f /\ tf_perm f = 384 /\ tf_uid f = Some (uid mod 2 ^ 32)
       /\ tf_content f = Some raw /\ h = Sum512 (TrimSpace raw) /\ (64 <= String.length (TrimSpace raw) <= 512)%nat)
       [(admin, t_admin t); (proxy, t_proxy t)].
Proof.
  intros (Ha%loadOneToken_private & Hp%loadOneToken_private & Hne)%LoadTokens_spec. split; [done |]. by repeat constructor.
Qed.

(** Access control.  With tokens loaded from the two files, a handler is
    reached only with a header that carries one of the two tokens; the admin
    endpoints only with the admin token's digest, never with the proxy token's;
    the unauthenticated get 401 on every route, also unknown ones. *)
Theorem access_control `{Sha512} uid fs admin proxy dir t hdr rt rt' :
  LoadTokens uid fs admin proxy dir = Ok t ->
  (dispatch t hdr rt = inr rt' ->
     rt' = rt /\ rt <> RNotFound
     /\ let sum := Sum512 (TrimSpace (Header_Get hdr "X-Vpntunnel-Token")) in
        (sum = t_admin t \/ (sum = t_proxy t /\ rt <> RHealth /\ rt <> RRotate)))
  /\ (Match t (Header_Get hdr "X-Vpntunnel-Token") = None -> dispatch t hdr rt = inl ("unauthorized", 401))
  /\ (Sum512 (TrimSpace (Header_Get hdr "X-Vpntunnel-Token")) = t_proxy t -> rt = RHealth \/ rt = RRotate ->
      exists st, dispatch t hdr rt = inl st /\ snd st ∈ [401; 403]).
Proof.
  intros Hl. assert (t_admin t <> t_proxy t) as Hne.
  { by destruct (LoadTokens_spec _ _ _ _ _ _ Hl) as (_ & _ & ?). }
  unfold dispatch, Match.
  destruct (String.eqb (TrimSpace _) "").
  { split_and!; [done | done |]. intros _ _. eexists. split; [done | set_solver]. }
  destruct (String.eqb_spec (Sum512 (TrimSpace (Header_Get hdr "X-Vpntunnel-Token"))) (t_admin t)) as [Ha|Ha].
  { split_and!; [| done | congruence]. destruct rt; cbn; try done; intros [= <-]; split_and!; auto. }
  destruct (String.eqb_spec (Sum512 (TrimSpace (Header_Get hdr "X-Vpntunnel-Token"))) (t_proxy t)) as [Hp|Hp].
  - split_and!; [| done |].
    + destruct rt; cbn; try done; intros [= <-]; split_and!; auto.
    + intros _ [-> | ->]; cbn; eexists; (split; [done | set_solver]).
  - split_and!; [done | done |]. intros _ _. eexists. split; [done | set_solver].
Qed.

(** ** What the endpoints answer *)

Lemma filter_length_all {A} (P : A -> Prop) `{forall x, Decision (P x)} l :
  (length (filter P l) = length l <-> Forall P l) /\ (length (filter P l) = 0%nat <-> Forall (fun x => ~ P x) l).
Proof.
  induction l as [|x l [IH1 IH2]]; [by split; split |]. rewrite filter_cons, !Forall_cons.
  pose proof (length_filter P l). case_decide as Hx; cbn [length]; split; split; intros Hl;
    try (exfalso; lia); try tauto.
  - split; [done |]. apply IH1. lia.
  - destruct Hl as [_ Hl]. apply IH1 in Hl. lia.
Qed.

Lemma aggregateStatus_spec entries :
  (aggregateStatus entries = "ok" <-> entries <> [] /\ Forall (fun e => he_Healthy e = true) entries)
  /\ (aggregateStatus entries = "down" <-> Forall (fun e => he_Healthy e <> true) entries)
  /\ aggregateStatus entries ∈ ["ok"; "down"; "degraded"].
Proof.
  unfold aggregateStatus. destruct entries as [|e es]; [split_and!; [by split; [| intros [? _]] | done | set_solver] |].
  destruct (filter_length_all (fun e => he_Healthy e = true) (e :: es)) as [Ha Hn].
  set (n := length (filter _ _)) in *.
  destruct (Nat.eqb_spec n (length (e :: es))) as [E|E].
  - split_and!; [split; [intros _; split; [done | by apply Ha] | done] | | set_solver].
    split; [done |]. intros Hd%Hn. rewrite Hd in E. done.
  - destruct (Nat.eqb_spec n 0) as [E0|E0].
    + split_and!; [| split; [intros _; by apply Hn | done] | set_solver].
      split; [done |]. intros [_ Hx%Ha]. done.
    + split_and!; [| | set_solver]; split; try done.
      * intros [_ Hx%Ha]. done.
      * intros Hx%Hn. done.
Qed.

(** The health endpoint's status: ok with 200 exactly when some tunnel is live
    and all are healthy, down with 503 exactly when none is healthy, degraded with
    200 otherwise; a tunnel is healthy exactly when it reports a handshake that is
    not in the zero time and not older than the maximum. *)
Theorem health_status {E} now maxAge reports (counts : res E AsyncStore.JobCounts) :
  0 <= maxAge ->
  let entries := (fun rep => tunnelHealthEntry rep now maxAge) <$> reports in
  let healthy (h : TunnelHealth) :=
    th_Err h = None /\ th_LastHandshake h <> time_zero /\ Sub now (th_LastHandshake h) <= maxAge in
  (forall h, he_Healthy (tunnelHealthEntry h now maxAge) = true <-> healthy h)
  /\ exists status code, healthServe "GET" now maxAge reports counts
       = (code, Some (status, entries, fetchCounts counts))
     /\ (status = "ok" <-> reports <> [] /\ Forall healthy reports)
     /\ (status = "down" <-> Forall (fun h => ~ healthy h) reports)
     /\ (code = 503 <-> status = "down") /\ (code = 200 <-> status <> "down").
Proof.
  intros Hm. cbn zeta.
  set (healthy := fun h : TunnelHealth => th_Err h = None /\ th_LastHandshake h <> time_zero
    /\ Sub now (th_LastHandshake h) <= maxAge).
  assert (forall h, he_Healthy (tunnelHealthEntry h now maxAge) = true <-> healthy h) as Hh.
  { intros h. unfold tunnelHealthEntry, healthy, IsZero.
    destruct (th_Err h); cbn; [by split; [| intros (? & _)] |].
    destruct (Z.eqb_spec (th_LastHandshake h) time_zero) as [Hz|Hz]; cbn; [by split; [| intros (_ & ? & _)] |].
    rewrite Z.leb_le. split; [intros; split_and!; auto; lia | intros (_ & _ & ?); lia]. }
  split; [done |]. unfold healthServe. cbn [negb String.eqb].
  eexists _, _. split; [done |].
  set (entries := (fun rep => tunnelHealthEntry rep now maxAge) <$> reports).
  pose proof (aggregateStatus_spec entries) as (Hok & Hdown & Hdom).
  assert (Forall (fun e => he_Healthy e = true) entries <-> Forall healthy reports) as H1.
  { unfold entries. rewrite Forall_fmap. by apply Forall_iff. }
  assert (Forall (fun e => he_Healthy e <> true) entries <-> Forall (fun h => ~ healthy h) reports) as H2.
  { unfold entries. rewrite Forall_fmap. apply Forall_iff. intros h. cbn. by rewrite Hh. }
  assert (entries <> [] <-> reports <> []) as H3 by (unfold entries; by destruct reports).
  rewrite H1, H3 in Hok. rewrite H2 in Hdown. split_and!; [done | done | |].
  - destruct (String.eqb_spec (aggregateStatus entries) "down"); split; (done || congruence).
  - destruct (String.eqb_spec (aggregateStatus entries) "down"); split; (done || congruence).
Qed.

Definition bucket (ent : Eligible.CatalogEntry) : string :=
  if String.eqb (Eligible.ce_Country ent) "" then "zz" else Eligible.ce_Country ent.

Definition ids_of (cc : string) (entries : list Eligible.CatalogEntry) : list string :=
  Eligible.ce_ID <$> filter (fun ent => bucket ent = cc) entries.

Lemma group_fold entries (m : gmap string (list string)) cc :
  fold_left (fun (m : gmap string (list string)) ent =>
      let cc := if String.eqb (Eligible.ce_Country ent) "" then "zz" else Eligible.ce_Country ent in
      <[cc := default [] (m !! cc) ++ [Eligible.ce_ID ent]]> m) entries m !! cc
  = match ids_of cc entries with
    | [] => m !! cc
    | ids => Some (default [] (m !! cc) ++ ids)
    end.
Proof.
  revert m. induction entries as [|ent entries IH]; intros m; [done |]. cbn [fold_left].
  rewrite IH. cbn zeta. fold (bucket ent). unfold ids_of at 2. rewrite filter_cons.
  destruct (decide (bucket ent = cc)) as [<-|Hne]; cbn [fmap list_fmap].
  - rewrite lookup_insert_eq. fold (ids_of (bucket ent) entries).
    destruct (ids_of (bucket ent) entries); [done |]. cbn. by rewrite <- app_assoc.
  - by rewrite lookup_insert_ne.
Qed.

(** The catalog endpoint groups the whole catalog: the bucket of a country is
    the sorted list of exactly the ids of its entries (those without a country
    under zz), and is absent when there is none; a country filter keeps exactly the
    buckets it names, case-insensitively. *)
Theorem catalog_groups `{GoUnicode} entries cc country :
  (groupByCountry entries !! cc =
     match ids_of cc entries with [] => None | ids => Some (sortStrings ids) end)
  /\ Sorted string_le (sortStrings (ids_of cc entries))
  /\ sortStrings (ids_of cc entries) ≡ₚ ids_of cc entries
  /\ (country <> "" -> countryFilter country <> [] ->
      exists m, tunnelsServe "GET" country entries = (200, Some m)
        /\ m !! cc = if bool_decide (cc ∈ countryFilter country) then groupByCountry entries !! cc else None).
Proof.
  split_and!.
  - unfold groupByCountry. rewrite lookup_fmap, group_fold, lookup_empty. by destruct (ids_of cc entries).
  - apply sortStrings_Sorted.
  - apply sortStrings_perm.
  - intros Hc Hf. unfold tunnelsServe. cbn [negb String.eqb].
    destruct (String.eqb_spec country ""); [done |].
    change (negb (String.eqb "GET" "GET")) with false. cbv iota.
    destruct (countryFilter country) as [|a l]; [done |]. eexists. split; [done |].
    case_bool_decide as Hin.
    + destruct (groupByCountry entries !! cc) as [ids|] eqn:E.
      * by apply map_lookup_filter_Some.
      * apply map_lookup_filter_None. by left.
    + apply map_lookup_filter_None. right. intros ids _. done.
Qed.

(** Fetching a job that GC timed out while pending makes the handler panic:
    the stored response is the zero one and its status code 0 is not a valid
    argument of [WriteHeader]. *)
Theorem timed_out_job_panics g now r (w : header) tag reqID :
  AsyncJobs.timeout_filter g now r = true -> AsyncRecord.Response r = None ->
  exists r', gc_step g now r = Some r'
    /\ serveAsync w tag reqID (Ok (AsyncJobs.outcomeForRecord r')) = Panicked.
Proof.
  intros Hf Hr. unfold gc_step. rewrite Hf. eexists. split; [done |].
  unfold AsyncJobs.outcomeForRecord. cbn -[Header_Del Header_Set]. by rewrite Hr.
Qed.

(** Routing errors keep their class through the async path: the error of
    [Route] for an unknown tunnel is stored as 400 unknown_zone, a failed bring-up
    as 502 zone_bring_up_failure, a cancelled wait as 502, each marked as the
    daemon's own by X-Proxy-Error. *)
Theorem route_error_classes o tid ch :
  (forall e, Route_request o tid ch = Err e -> classifyRouteError e = zoneErrorResponse 400 "unknown_zone")
  /\ classifyRouteError (bringUpError tid) = zoneErrorResponse 502 "zone_bring_up_failure"
  /\ classifyRouteError Ctx = zoneErrorResponse 502 "zone_error"
  /\ (forall st code, exists h, AsyncRecord.Header (zoneErrorResponse st code) = Some h
        /\ Header_Get h "X-Proxy-Error" = code).
Proof.
  split_and!; try done.
  - unfold Route_request. destruct (Eligible.Lookup (Scheduler.eligible o) tid); [done |]. by intros e [= <-].
  - intros st code. eexists. split; [done |]. unfold Header_Get, Header_Set.
    change (CanonicalMIMEHeaderKey "X-Proxy-Error") with "X-Proxy-Error".
    change (CanonicalMIMEHeaderKey "Content-Type") with "Content-Type".
    rewrite lookup_insert_ne by done. by rewrite lookup_insert_eq.
Qed.

(** ** The theorems on concrete requests *)
Module HandlersDemo.
#[local] Existing Instance AddrDemo.demo_addr.
Definition dial (d : nat) (address : string) : res Forwarder.dialError string := Ok address.
Definition lookup (r : unit) (host : string) : option (list Addr) := Some [V4 134744072].
Definition public : string := "8.8.8.8:443".
Definition zoned : string := Addr_String (V6 1 "lo") +:+ ":443".

#[export] Instance demo_sha : Sha512 := {| Sum512 := fun s => s |}.
#[export] Instance demo_uni : GoUnicode := {| unicode_lower := fun s => s |}.

Fixpoint many (n : nat) (c : ascii) : string :=
  match n with O => "" | S n => String c (many n c) end.
Definition fs (p : string) : option tokenFile :=
  Some (mkTokenFile 384 (Some 1000) (Some (if String.eqb p "/a" then many 64 "a" else many 64 "b"))).
Definition toks : Tokens := mkTokens (many 64 "a") (many 64 "b").
Definition hdr : header := {[ "X-Vpntunnel-Token" := [many 64 "b"]; "Accept" := ["*/*"] ]}.
End HandlersDemo.
#[local] Existing Instances AddrDemo.demo_addr HandlersDemo.demo_sha HandlersDemo.demo_uni.

Lemma deny_dial_safe_witness :
  (exists ip, ~ forbidden ip /\ ParseAddr "8.8.8.8" = Some ip)
  /\ Forwarder.denyAwareDial HandlersDemo.dial HandlersDemo.lookup 0%nat tt "10.1.2.3:80" = (Err Forwarder.errDenyList, None).
Proof.
  assert (SplitHostPort HandlersDemo.public = Some ("8.8.8.8", "443")) as H1 by (vm_compute; reflexivity).
  assert (SplitHostPort "10.1.2.3:80" = Some ("10.1.2.3", "80")) as H2 by (vm_compute; reflexivity).
  split.
  - destruct (proj1 (deny_dial_safe HandlersDemo.dial HandlersDemo.lookup 0%nat tt HandlersDemo.public _ _ H1) HandlersDemo.public)
      as (_ & ip & Hf & [[Hp _]|[Hp _]]); [vm_compute; reflexivity | | vm_compute in Hp; discriminate Hp].
    exists ip. split; [exact Hf | exact Hp].
  - apply (proj1 (proj2 (deny_dial_safe HandlersDemo.dial HandlersDemo.lookup 0%nat tt "10.1.2.3:80" _ _ H2)) (V4 (quad 10 1 2 3))).
    + unfold forbidden, forbidden_v4, quad. lia.
    + left. vm_compute. reflexivity.
Defined.

Lemma zoned_literal_dialed_witness :
  Forwarder.denyAwareDial HandlersDemo.dial HandlersDemo.lookup 0%nat tt HandlersDemo.zoned
  = (Ok HandlersDemo.zoned, Some HandlersDemo.zoned).
Proof.
  refine (zoned_literal_dialed HandlersDemo.dial HandlersDemo.lookup 0%nat tt HandlersDemo.zoned
    (Addr_String (V6 1 "lo")) "443" 1 "lo" _ _ _ _); vm_compute; (reflexivity || discriminate).
Defined.

Lemma transport_cache_first_dialer_witness :
  let '(_, m1) := Forwarder.transportFor (∅ : gmap string (nat * unit)) "t" 1%nat tt in
  fst (Forwarder.transportFor m1 "t" 2%nat tt) = (1%nat, tt).
Proof.
  exact (proj1 (proj2 (transport_cache_first_dialer (∅ : gmap string (nat * unit)) "t" 1%nat tt 2%nat tt
    eq_refl))).
Defined.

Lemma upstream_headers_witness :
  copyProxyHeaders ∅ HandlersDemo.hdr ["X-Vpntunnel-Token"] !! "X-Vpntunnel-Token" = None.
Proof.
  refine (proj1 (proj1 (proj2 (upstream_headers HandlersDemo.hdr ["X-Vpntunnel-Token"] "X-Vpntunnel-Token" _)) _)).
  - intros k vs Hk. unfold HandlersDemo.hdr in Hk.
    apply lookup_insert_Some in Hk as [[<- <-]|[_ Hk]]; [by vm_compute |].
    apply lookup_singleton_Some in Hk as [<- <-]. by vm_compute.
  - apply list_elem_of_here.
Defined.

Lemma access_control_witness :
  exists st, dispatch HandlersDemo.toks HandlersDemo.hdr RHealth = inl st /\ snd st ∈ [401; 403].
Proof.
  refine (proj2 (proj2 (access_control 1000 HandlersDemo.fs "/a" "/b" "/" HandlersDemo.toks HandlersDemo.hdr
    RHealth RHealth _)) _ _); [vm_compute; reflexivity | vm_compute; reflexivity | by left].
Defined.

Lemma health_status_witness :
  exists status code, healthServe (E := unit) "GET" 100 10 [mkTunnelHealth "a" 95 None] (Err tt)
    = (code, Some (status, (fun rep => tunnelHealthEntry rep 100 10) <$> [mkTunnelHealth "a" 95 None],
        AsyncStore.mkCounts (-1) (-1) (-1))).
Proof.
  destruct (proj2 (health_status (E := unit) 100 10 [mkTunnelHealth "a" 95 None] (Err tt) ltac:(lia)))
    as (status & code & E & _).
  exists status, code. exact E.
Defined.

Lemma timed_out_job_panics_witness :
  exists r', gc_step GCDemo.g (120 * Second) GCDemo.r0 = Some r'
    /\ serveAsync ∅ "t" "id" (Ok (AsyncJobs.outcomeForRecord r')) = Panicked.
Proof. apply (timed_out_job_panics GCDemo.g (120 * Second) GCDemo.r0 ∅ "t" "id"); by vm_compute. Defined.

(** ** The size of the tombstone of an accepted tag *)
Module Tombstone.
Import Utf8 AsyncRecord.

Lemma tag_char_printed c : tag_char c = true -> JsonText.escape (Some (String c "")) = String c "" /\ (code c < 128)%nat.
Proof. intros Hc. split; by destruct c as [[] [] [] [] [] [] [] []]; first [vm_compute; reflexivity | vm_compute; lia | vm_compute in Hc]. Qed.

Lemma tag_printed s : string_forallb tag_char s = true -> JsonText.print_chars JsonText.escape s = s.
Proof. by apply print_plain, tag_char_printed. Qed.

(** A tombstone takes 73 bytes, its tag and the digits of its three times. *)
Lemma tombstone_size (now : Z) r :
  retryTagRegexp (Tag r) = true -> IsZero now = false ->
  exists data, Marshal (AsyncJobs.tombstone_mutate now r) = Ok data
    /\ (String.length data = 73 + String.length (Tag r) + String.length (pretty (Unix (CreatedAt r)))
        + 2 * String.length (pretty (Unix now)))%nat.
Proof.
  intros [_ Ht]%andb_true_iff Hnow. eexists. split; [reflexivity |].
  unfold json_record. cbn [AsyncJobs.tombstone_mutate Tag Status_ CreatedAt UpdatedAt EvictedAt Response].
  rewrite Hnow. cbn [negb omitempty app fmap list_fmap option_fmap option_map].
  cbn [JsonText.print_with fmap list_fmap JsonText.commas]. unfold JsonText.print_string at 2. rewrite (tag_printed _ Ht).
  rewrite !append_length.
  repeat match goal with |- context [JsonText.print_string _ ?s] =>
    let v := eval vm_compute in (JsonText.print_string JsonText.escape s) in change (JsonText.print_string JsonText.escape s) with v end.
  cbn [String.length]. lia.
Qed.

(** With a UUID as the tag that is more than the 120 bytes a tombstone is meant to stay under. *)
Lemma tombstone_uuid_size :
  String.length <$> (match Marshal (AsyncJobs.tombstone_mutate (fromUnix 1700000100)
      (NewPendingRecord "0190163d-8694-739b-aea5-966c26f8ad91" (fromUnix 1700000000))) with Ok d => Some d | Err _ => None end)
  = Some 139%nat.
Proof. vm_compute. reflexivity. Qed.
End Tombstone.
