(* ===== verification/Router.v ===== *)
(** * The API listener

    [gateway/router/server.go] (the mux with its middleware, the access-log wrapper),
    [gateway/middleware/requestid.go], [httpV1/routes/routes.go] and the dispatch and
    shutdown of [gateway/httpserver/server.go].  [http.ServeMux] is modelled for the
    patterns that are registered, with its cleaning of paths, its redirects and its
    decoding of segments.  A request has its path as it is on the wire. *)

From S2P Require Import Prelude GoStrings GoText GoJson Domain Http Handlers.
Import Handlers.

Module Router.

(** ** Request ids *)

(** [binary.BigEndian.PutUint64] of a timestamp in the upper six bytes. *)
Definition byte_of (x k : Z) : Z := Z.land (Z.shiftr x (8 * k)) 255.
Definition put48 (ms : Z) : list Z := byte_of ms <$> [5; 4; 3; 2; 1; 0].

(** [%x] of bytes. *)
Definition hex_byte (b : Z) : string :=
  String (hex_digit (Z.to_nat (b / 16))) (String (hex_digit (Z.to_nat (b mod 16))) "").
Definition hex_bytes (bs : list Z) : string := foldr (fun b s => hex_byte b +:+ s) "" bs.

(** [rnd] is what [rand.Read] puts into bytes 6 to 15. *)
Definition NewRequestID (unixMilli : Z) (rnd : list Z) : string :=
  let ms := Z.land unixMilli (2 ^ 48 - 1) in
  let b := put48 ms ++ rnd in
  let b := alter (fun x => Z.lor (Z.land x 15) 112) 6%nat b in
  let b := alter (fun x => Z.lor (Z.land x 63) 128) 8%nat b in
  hex_bytes (take 4 b) +:+ "-" +:+ hex_bytes (take 2 (drop 4 b)) +:+ "-" +:+ hex_bytes (take 2 (drop 6 b))
    +:+ "-" +:+ hex_bytes (take 2 (drop 8 b)) +:+ "-" +:+ hex_bytes (take 6 (drop 10 b)).

(** ** [http.ServeMux] with the routes of [buildMux] *)

Definition unhex (c : ascii) : option nat :=
  if is_digit c then Some (code c - 48)%nat
  else if between "a" "f" c then Some (code c - 87)%nat
  else if between "A" "F" c then Some (code c - 55)%nat
  else None.

(** [url.PathUnescape]; a segment with a bad escape is left alone. *)
Fixpoint unescape (s : string) : option string :=
  match s with
  | "" => Some ""
  | String "%" (String a (String b s')) =>
      match unhex a, unhex b with
      | Some x, Some y => String (ascii_of_nat (16 * x + y)) <$> unescape s'
      | _, _ => None
      end
  | String "%" _ => None
  | String c s' => String c <$> unescape s'
  end.
Definition pathUnescape (s : string) : string := default s (unescape s).

(** The segments of a path that starts with a slash; a trailing slash is a segment. *)
Fixpoint seg_list (l : list string) : list string :=
  match l with
  | [] => []
  | [last] => [if String.eqb last "" then "/" else pathUnescape last]
  | s :: l' => pathUnescape s :: seg_list l'
  end.
Definition segs (path : string) : list string :=
  match path with "" => [] | String _ p => seg_list (Split p "/") end.

(** [routes.go]: the pattern with its wildcards on the segments of a path.  A single
    wildcard does not match a trailing slash, [{rest...}] matches any rest. *)
Inductive pat := Lit (s : string) | Wild | Multi.
Definition Tunnels : list pat := [Lit "v1"; Lit "tunnels"].
Definition AdminHealth : list pat := [Lit "v1"; Lit "admin"; Lit "health"].
Definition AdminRotate : list pat := [Lit "v1"; Lit "admin"; Lit "rotate"].
Definition TunnelProxy : list pat := [Lit "v1"; Lit "tunnels"; Wild; Lit "proxy"; Wild; Multi].
Definition catchAllPattern : list pat := [Multi].

Fixpoint matches (p : list pat) (s : list string) : bool :=
  match p, s with
  | [], [] => true
  | Multi :: _, _ :: _ => true
  | Lit x :: p', y :: s' => String.eqb x y && matches p' s'
  | Wild :: p', y :: s' => negb (String.eqb y "/") && matches p' s'
  | _, _ => false
  end.

(** Patterns with the method of the request are tried first ([HEAD] as [GET]), then those
    for any method, the most specific first. *)
Definition match_route (method path : string) : option (route * list pat) :=
  let s := segs path in
  let get := String.eqb method "GET" || String.eqb method "HEAD" in
  if get && matches Tunnels s then Some (RTunnels, Tunnels)
  else if get && matches AdminHealth s then Some (RHealth, AdminHealth)
  else if matches AdminRotate s then Some (RRotate, AdminRotate)
  else if matches TunnelProxy s then Some (RProxy, TunnelProxy)
  else if matches catchAllPattern s then Some (RNotFound, catchAllPattern)
  else None.

Definition count_slashes (s : string) : nat := length (filter (fun c => c = "/"%char) (String.list_ascii_of_string s)).
Definition ends_multi (p : list pat) : bool := match last p with Some Multi => true | _ => false end.

Definition exactMatch (m : option (route * list pat)) (path : string) : bool :=
  match m with
  | None => false
  | Some (_, p) => negb (ends_multi p) || (ends_slash path && Nat.eqb (length p) (count_slashes path))
  end.

Definition cleanPath (p : string) : string :=
  if String.eqb p "" then "/"
  else
    let p := if IsAbs p then p else "/" +:+ p in
    let np := Clean p in
    if ends_slash p && negb (String.eqb np "/") then np +:+ "/" else np.

Inductive muxResult := MRedirect (path : string) | MRoute (rt : route) | MDefaultNotFound.

(** The redirect to the path with a slash. *)
Definition slash_redirect (method path : string) : option string :=
  if negb (exactMatch (match_route method path) path) && negb (ends_slash path) && negb (String.eqb path "")
     && exactMatch (match_route method (path +:+ "/")) (path +:+ "/")
  then Some (path +:+ "/") else None.

Definition mux (method escapedPath : string) : muxResult :=
  let path := if String.eqb method "CONNECT" then escapedPath else cleanPath escapedPath in
  match slash_redirect method path with
  | Some p => MRedirect p
  | None =>
      if negb (String.eqb path escapedPath) then MRedirect path
      else match match_route method path with
           | Some (rt, _) => MRoute rt
           | None => MDefaultNotFound
           end
  end.

(** ** The chain of [buildMux] *)

Record httpRequest := mkReq { q_method : string; q_path : string; q_header : header }.

(** What the chain did: an error of its own, a redirect or plain 404 of the mux, or the
    route's handler, with the response header it started from. *)
Inductive outcome :=
| OError (s : served)
| ORedirect (w : header) (path : string)
| OPlainNotFound (w : header)
| OHandler (rt : route) (w : header) (role : Role).

(** [requireRole] of a route, around its handler. *)
Definition guarded (rt : route) (role : option Role) (w : header) (requestID : string) : outcome :=
  match routeRoles rt with
  | None => OError (WriteError w "bad_request" 404 requestID)
  | Some allowed =>
      match requireRole allowed role, role with
      | Some (code, status), _ => OError (WriteError w code status requestID)
      | None, Some r => OHandler rt w r
      | None, None => OError (WriteError w "internal_error" 500 requestID)
      end
  end.

Definition withAuth `{Sha512} (t : Tokens) (w : header) (requestID : string) (q : httpRequest) : outcome :=
  match Match t (Header_Get (q_header q) "X-Vpntunnel-Token") with
  | None => OError (WriteError w "unauthorized" 401 requestID)
  | Some role =>
      match mux (q_method q) (q_path q) with
      | MRedirect p => ORedirect w p
      | MDefaultNotFound => OPlainNotFound w
      | MRoute rt => guarded rt (Some role) w requestID
      end
  end.

Definition withRequestID `{Sha512} (t : Tokens) (id : string) (q : httpRequest) : outcome :=
  withAuth t (Header_Set "X-Request-Id" id ∅) id q.

(** ** The access-log wrapper *)

(** What a handler does with its writer: [WriteHeader] or a [Write] of [n] bytes. *)
Inductive wevent := WHeader (code : Z) | WWrite (n : Z).
Record responseCapture := mkCapture { rc_status : Z; rc_written : Z }.

Definition capture (rc : responseCapture) (ev : wevent) : responseCapture :=
  match ev with
  | WHeader code => mkCapture code (rc_written rc)
  | WWrite n => mkCapture (rc_status rc) (rc_written rc + n)
  end.

(** [withAccessLog]: the line for a request whose handler wrote [evs] and read the body
    in the pieces [reads]. *)
Definition withAccessLog (method target client : string) (reads : list Z) (evs : list wevent) (ms : Z) : RequestSummary :=
  let rc := foldl capture (mkCapture 200 0) evs in
  mkSummary method target client (rc_status rc) (foldl Z.add 0 reads) (rc_written rc) ms "".

(** ** [httpserver] *)

Definition rootHandler {A} (method : string) (handleCONNECT handleHTTP : A) : A :=
  if String.eqb method "CONNECT" then handleCONNECT else handleHTTP.

(** The HTTP server of [NewWithHandler]: no write deadline, so that tunnels outlive it. *)
Record proxyOptions := mkProxyOptions { po_Listen : string; po_ReadHeaderTimeout : Z; po_IdleTimeout : Z }.
Record httpServer := mkHttpServer {
  hs_Addr : string;
  hs_ReadHeaderTimeout : Z;
  hs_IdleTimeout : Z;
  hs_WriteTimeout : Z
}.
Definition NewWithHandler (o : proxyOptions) : httpServer :=
  mkHttpServer (po_Listen o) (po_ReadHeaderTimeout o) (po_IdleTimeout o) 0.

(** [Start]: what [ListenAndServe] returned, except that of a closed server. *)
Definition Start {E} (closed : E -> bool) (served : E) : option E := if closed served then None else Some served.

(** [Shutdown]: the tunnels are waited for only if the server drained. *)
Definition Shutdown {E} (http : option E) (waitTunnels : option E) : option E * bool :=
  match http with
  | Some e => (Some e, false)
  | None => (waitTunnels, true)
  end.
End Router.
