(* ===== verification/RouterThms.v ===== *)
(** * Theorems on the API listener *)

From S2P Require Import Prelude GoStrings GoText GoJson Domain Http Handlers HandlersThms Router.
Import Handlers Router.

(** ** Request ids *)

(** The number that hexadecimal text denotes, skipping anything else. *)
Fixpoint hex_value (s : string) (acc : Z) : Z :=
  match s with
  | "" => acc
  | String c s' => match unhex c with Some d => hex_value s' (acc * 16 + Z.of_nat d) | None => hex_value s' acc end
  end.

Definition is_byte (b : Z) : Prop := 0 <= b < 256.

Lemma unhex_digit n : (n < 16)%nat -> unhex (hex_digit n) = Some n.
Proof. intros Hn. do 16 (destruct n as [|n]; [done |]). lia. Qed.

Lemma hex_value_byte b s acc : is_byte b -> hex_value (hex_byte b +:+ s) acc = hex_value s (acc * 256 + b).
Proof.
  intros Hb. unfold hex_byte. rewrite !append_cons, append_nil_l. cbn [hex_value].
  assert (0 <= b / 16 < 16) by (split; [apply Z.div_pos | apply Z.div_lt_upper_bound]; unfold is_byte in Hb; lia).
  pose proof (Z.mod_pos_bound b 16 ltac:(lia)). rewrite !unhex_digit by lia. rewrite !Z2Nat.id by lia.
  f_equal. pose proof (Z.div_mod b 16 ltac:(lia)). lia.
Qed.

Lemma byte_of_byte x k : 0 <= k -> is_byte (byte_of x k).
Proof.
  intros Hk. unfold is_byte, byte_of. change 255 with (Z.ones 8). rewrite Z.land_ones by lia.
  apply Z.mod_pos_bound. lia.
Qed.

(** Six bytes of a 48-bit number put together again. *)
Lemma bytes_value ms : 0 <= ms < 2 ^ 48 ->
  ((((byte_of ms 5 * 256 + byte_of ms 4) * 256 + byte_of ms 3) * 256 + byte_of ms 2) * 256 + byte_of ms 1) * 256 + byte_of ms 0 = ms.
Proof.
  intros Hms. unfold byte_of. change 255 with (Z.ones 8). rewrite !Z.land_ones, !Z.shiftr_div_pow2 by lia.
  change (2 ^ (8 * 5)) with 1099511627776. change (2 ^ (8 * 4)) with 4294967296. change (2 ^ (8 * 3)) with 16777216.
  change (2 ^ (8 * 2)) with 65536. change (2 ^ (8 * 1)) with 256. change (2 ^ (8 * 0)) with 1. change (2 ^ 8) with 256.
  change (2 ^ 48) with 281474976710656 in Hms. lia.
Qed.

(** The version and variant bits, for all 256 values of a byte. *)
Lemma version_byte b : is_byte b -> hex_byte (Z.lor (Z.land b 15) 112) = String "7" (String (hex_digit (Z.to_nat (b mod 16))) "").
Proof.
  intros Hb. assert (forallb (fun n => let b := Z.of_nat n in
    String.eqb (hex_byte (Z.lor (Z.land b 15) 112)) (String "7" (String (hex_digit (Z.to_nat (b mod 16))) ""))) (seq 0 256) = true) as Hall by (vm_compute; reflexivity).
  rewrite forallb_forall in Hall. specialize (Hall (Z.to_nat b)). unfold is_byte in Hb. rewrite in_seq, Z2Nat.id in Hall by lia.
  apply String.eqb_eq, Hall. lia.
Qed.
Lemma variant_byte b : is_byte b ->
  exists c d, hex_byte (Z.lor (Z.land b 63) 128) = String c (String d "") /\ c ∈ ["8"; "9"; "a"; "b"]%char.
Proof.
  intros Hb. assert (forallb (fun n => match hex_byte (Z.lor (Z.land (Z.of_nat n) 63) 128) with
      String c (String _ "") => bool_decide (c ∈ ["8"; "9"; "a"; "b"]%char) | _ => false end) (seq 0 256) = true) as Hall by (vm_compute; reflexivity).
  rewrite forallb_forall in Hall. specialize (Hall (Z.to_nat b)). unfold is_byte in Hb. rewrite in_seq, Z2Nat.id in Hall by lia.
  specialize (Hall ltac:(lia)). destruct (hex_byte _) as [|c [|d []]]; try done. exists c, d. split; [done |].
  by apply bool_decide_eq_true in Hall.
Qed.

(** Request ids are UUIDs of version 7 whose order is time.  An id has 36 characters
    with dashes in the places of the standard form, the version digit 7 and a variant
    digit 8 to b; and its first twelve hexadecimal digits are the clock in milliseconds,
    so ids of later milliseconds are different and compare later. *)
Theorem request_id_v7 ms rnd :
  0 <= ms < 2 ^ 48 -> length rnd = 10%nat -> Forall is_byte rnd ->
  let id := NewRequestID ms rnd in
  String.length id = 36%nat
  /\ (forall i, i ∈ [8; 13; 18; 23]%nat -> String.get i id = Some "-"%char)
  /\ String.get 14 id = Some "7"%char
  /\ (exists c, String.get 19 id = Some c /\ c ∈ ["8"; "9"; "a"; "b"]%char)
  /\ hex_value (slice_to id 13) 0 = ms.
Proof.
  intros Hms Hlen Hr id. destruct rnd as [|r6 [|r7 [|r8 [|r9 [|r10 [|r11 [|r12 [|r13 [|r14 [|r15 [|]]]]]]]]]]]; try done.
  assert (is_byte r6 /\ is_byte r8) as [H6 H8] by (rewrite !Forall_cons in Hr; tauto). clear Hlen Hr.
  assert (id = hex_byte (byte_of ms 5) +:+ hex_byte (byte_of ms 4) +:+ hex_byte (byte_of ms 3) +:+ hex_byte (byte_of ms 2) +:+ "-"
    +:+ hex_byte (byte_of ms 1) +:+ hex_byte (byte_of ms 0) +:+ "-" +:+ hex_byte (Z.lor (Z.land r6 15) 112) +:+ hex_byte r7 +:+ "-"
    +:+ hex_byte (Z.lor (Z.land r8 63) 128) +:+ hex_byte r9 +:+ "-" +:+ hex_bytes [r10; r11; r12; r13; r14; r15]) as Hid.
  { subst id. unfold NewRequestID. change (2 ^ 48 - 1) with (Z.ones 48). rewrite Z.land_ones, Z.mod_small by lia. reflexivity. }
  destruct (variant_byte r8 H8) as (c & d & Hv & Hc). rewrite (version_byte r6 H6), Hv in Hid. rewrite Hid. split_and!.
  - reflexivity.
  - intros i Hi. rewrite !elem_of_cons, elem_of_nil in Hi. by destruct_or! Hi; subst.
  - reflexivity.
  - by exists c.
  - transitivity (hex_value (hex_byte (byte_of ms 5) +:+ hex_byte (byte_of ms 4) +:+ hex_byte (byte_of ms 3) +:+ hex_byte (byte_of ms 2) +:+ String "-"
      (hex_byte (byte_of ms 1) +:+ hex_byte (byte_of ms 0) +:+ "")) 0); [reflexivity |].
    rewrite !hex_value_byte by (apply byte_of_byte; lia). cbn [hex_value]. change (unhex "-") with (@None nat). cbn iota.
    rewrite !hex_value_byte by (apply byte_of_byte; lia). cbn [hex_value]. rewrite <- (bytes_value ms Hms) at 7. ring.
Qed.

(** ** Clean paths *)

Definition canon (l : list string) : string := "/" +:+ Join l "/".

Lemma clean_go_rooted cs : forall out, Forall plain out -> Forall (fun c => Contains c "/" = false) cs -> Forall plain (clean_go true out cs).
Proof.
  induction cs as [|c cs IH]; intros out Ho Hc; [done |]. apply Forall_cons in Hc as [Hc Hcs]. cbn [clean_go].
  destruct (String.eqb c "" || String.eqb c ".") eqn:E; [auto |].
  apply orb_false_iff in E as [H1%String.eqb_neq H2%String.eqb_neq].
  destruct (String.eqb_spec c "..") as [->|H3].
  - destruct out as [|d out]; [auto |]. apply Forall_cons in Ho as [(_ & _ & Hd & _) Ho].
    destruct (String.eqb_spec d ".."); [done | auto].
  - apply IH; [| done]. by constructor.
Qed.

Lemma clean_go_plain_list l : forall out, Forall plain l -> clean_go true out l = reverse l ++ out.
Proof.
  induction l as [|a l IH]; intros out Hl; [done |]. apply Forall_cons in Hl as [(H1 & H2 & H3 & _) Hl]. cbn [clean_go].
  rewrite (proj2 (String.eqb_neq _ _) H1), (proj2 (String.eqb_neq _ _) H2), (proj2 (String.eqb_neq _ _) H3). cbn [orb].
  by rewrite IH, reverse_cons, <- app_assoc.
Qed.

Lemma Clean_rooted p : IsAbs p = true -> exists l, Forall plain l /\ Clean p = canon l.
Proof.
  intros Hp. unfold Clean. rewrite Hp. destruct (String.eqb_spec p "") as [->|_]; [done |].
  exists (reverse (clean_go true [] (Split p "/"))). split; [| done].
  apply Forall_reverse, clean_go_rooted; [done | apply Split_no_sep].
Qed.

(** The segments of a canonical path, with and without a trailing slash. *)
Lemma Split_canon l : Forall plain l ->
  Split (canon l) "/" = "" :: match l with [] => [""] | _ => l end /\ (l <> [] -> Split (canon l +:+ "/") "/" = "" :: l ++ [""]).
Proof.
  intros Hl. unfold canon. change ("/" +:+ ?x) with ("" +:+ String "/" x). rewrite Split_line by done.
  assert (l <> [] -> Split (Join l "/") "/" = l) as HJ.
  { intros Hne. apply Split_Join; [done |]. eapply Forall_impl; [exact Hl |]. by intros a (_ & _ & _ & ?). }
  split; [destruct l; [done |]; by rewrite HJ |]. intros Hne.
  change (("" +:+ String "/" (Join l "/")) +:+ "/") with (String "/" (Join l "/" +:+ "/")).
  cbn [Split]. rewrite Ascii.eqb_refl. change (Join l "/" +:+ "/") with (Join l "/" +:+ String "/" "").
  by rewrite Split_app, HJ.
Qed.

Lemma Clean_canon l : Forall plain l -> Clean (canon l) = canon l /\ (l <> [] -> Clean (canon l +:+ "/") = canon l).
Proof.
  intros Hl. destruct (Split_canon l Hl) as [E1 E2]. unfold Clean. split.
  - change (String.eqb (canon l) "") with false. change (IsAbs (canon l)) with (IsAbs (String "/" (Join l "/"))).
    assert (forall s, IsAbs (String "/" s) = true) as Ha by (by intros []). rewrite Ha, E1. cbn [clean_go String.eqb orb].
    destruct l as [|a l]; [done |]. rewrite clean_go_plain_list by done. rewrite app_nil_r, reverse_involutive. done.
  - intros Hne. change (String.eqb (canon l +:+ "/") "") with false.
    assert (IsAbs (canon l +:+ "/") = true) as -> by (unfold canon; rewrite append_assoc; by destruct (Join l "/" +:+ "/")).
    rewrite E2 by done. cbn [clean_go String.eqb orb].
    assert (clean_go true [] (l ++ [""]) = reverse l) as ->; [| by rewrite reverse_involutive].
    rewrite <- (app_nil_r (reverse l)), <- (clean_go_plain_list l []) by done. generalize (@nil string) at 1 3.
    clear. induction l as [|a l IH]; intros out; [done |]. cbn [app clean_go].
    destruct (String.eqb a "" || String.eqb a "."); [done |]. destruct (String.eqb a ".."); [| done].
    destruct out as [|d out]; [done |]. by destruct (String.eqb d "..").
Qed.

Lemma ends_slash_app s : ends_slash (s +:+ "/") = true.
Proof. unfold ends_slash, HasSuffix. apply bool_decide_eq_true. exists s. by apply CutSuffix_Some. Qed.

Lemma ends_slash_plain P a : plain a -> ends_slash (P +:+ a) = false.
Proof.
  intros (Hne & _ & _ & Ha). unfold ends_slash, HasSuffix. apply bool_decide_eq_false. intros [t Ht%CutSuffix_Some].
  apply (f_equal string_rev) in Ht. rewrite !string_rev_app in Ht. rewrite <- Contains_rev in Ha.
  destruct (string_rev a) as [|c r] eqn:E.
  - apply (f_equal string_rev) in E. by rewrite string_rev_rev in E.
  - rewrite append_cons in Ht. change (string_rev "/") with "/" in Ht. rewrite append_cons in Ht. injection Ht as -> _.
    by rewrite Contains_cons in Ha.
Qed.

Lemma ends_slash_canon l : Forall plain l -> ends_slash (canon l) = bool_decide (l = []).
Proof.
  intros Hl. destruct l as [|a l _] using rev_ind; [done |]. rewrite bool_decide_eq_false_2 by (by destruct l).
  apply Forall_app in Hl as [_ Hl]. apply Forall_cons in Hl as [Hl _]. destruct (Join_last l "/") as [P HP].
  unfold canon. rewrite HP. exact (ends_slash_plain ("/" +:+ P) a Hl).
Qed.

Lemma canon_root l : Forall plain l -> String.eqb (canon l) "/" = bool_decide (l = []).
Proof.
  intros Hl. destruct l as [|a l]; [done |]. rewrite bool_decide_eq_false_2 by done.
  apply String.eqb_neq. intros E. apply Forall_cons in Hl as [(Hne & _) _].
  unfold canon in E. change ("/" +:+ ?x) with (String "/" x) in E. injection E as E.
  destruct a; [done |]. by destruct l.
Qed.

(** What [cleanPath] returns, and that it is left alone by another [cleanPath]. *)
Lemma cleanPath_form p : exists l, Forall plain l /\ (cleanPath p = canon l \/ l <> [] /\ cleanPath p = canon l +:+ "/").
Proof.
  unfold cleanPath. destruct (String.eqb p ""); [by exists []; split; [constructor | left] |].
  set (p' := if IsAbs p then p else "/" +:+ p).
  destruct (Clean_rooted p') as (l & Hl & ->).
  { subst p'. destruct (IsAbs p) eqn:E; [done |]. by destruct p. }
  exists l. split; [done |]. destruct (ends_slash p'); cbn [andb]; [| by left]. rewrite canon_root by done.
  case_bool_decide; [by left | by right].
Qed.

Lemma cleanPath_slash l : Forall plain l -> l <> [] -> cleanPath (canon l +:+ "/") = canon l +:+ "/".
Proof.
  intros Hl Hne. unfold cleanPath. change (String.eqb (canon l +:+ "/") "") with false.
  assert (IsAbs (canon l +:+ "/") = true) as -> by (unfold canon; rewrite append_assoc; by destruct (Join l "/" +:+ "/")).
  cbn zeta. rewrite (proj2 (Clean_canon l Hl) Hne), ends_slash_app, canon_root by done.
  by rewrite bool_decide_eq_false_2.
Qed.

Lemma cleanPath_canon l : Forall plain l -> cleanPath (canon l) = canon l.
Proof.
  intros Hl. unfold cleanPath. change (String.eqb (canon l) "") with false.
  assert (IsAbs (canon l) = true) as -> by (unfold canon; by destruct (Join l "/")).
  cbn zeta. rewrite (proj1 (Clean_canon l Hl)), ends_slash_canon, canon_root by done. by case_bool_decide.
Qed.

Lemma cleanPath_idem p : cleanPath (cleanPath p) = cleanPath p.
Proof.
  destruct (cleanPath_form p) as (l & Hl & [->|[Hne ->]]); [by apply cleanPath_canon | by apply cleanPath_slash].
Qed.

Lemma slash_redirect_Some m p q : slash_redirect m p = Some q -> q = p +:+ "/" /\ ends_slash p = false.
Proof.
  unfold slash_redirect. destruct (ends_slash p); cbn [negb]; [by rewrite andb_false_r |].
  case_match; [| done]. by intros [= <-].
Qed.

Lemma slash_redirect_slash m p : slash_redirect m (p +:+ "/") = None.
Proof. unfold slash_redirect. rewrite ends_slash_app. cbn [negb]. by rewrite andb_false_r. Qed.

(** A redirect of the router leads somewhere.  The path it names is not redirected
    again: it is in clean form, and a slash has been added at most once. *)
Theorem redirect_once method path path' :
  mux method path = MRedirect path' -> forall again, mux method path' <> MRedirect again.
Proof.
  unfold mux. destruct (String.eqb method "CONNECT") eqn:Ec.
  - destruct (slash_redirect method path) as [q|] eqn:Es.
    + intros [= <-] again. destruct (slash_redirect_Some _ _ _ Es) as [-> _]. rewrite slash_redirect_slash, String.eqb_refl.
      cbn [negb]. by destruct (match_route _ _) as [[]|].
    + rewrite String.eqb_refl. cbn [negb]. by destruct (match_route _ _) as [[]|].
  - destruct (slash_redirect method (cleanPath path)) as [q|] eqn:Es.
    + intros [= <-] again. destruct (slash_redirect_Some _ _ _ Es) as [-> Hends].
      assert (cleanPath (cleanPath path +:+ "/") = cleanPath path +:+ "/") as ->.
      { destruct (cleanPath_form path) as (l & Hl & [E|[_ E]]); rewrite E in Hends |- *; [| by rewrite ends_slash_app in Hends].
        apply cleanPath_slash; [done |]. intros ->. done. }
      rewrite slash_redirect_slash, String.eqb_refl. cbn [negb]. by destruct (match_route _ _) as [[]|].
    + destruct (String.eqb (cleanPath path) path); cbn [negb]; [by destruct (match_route _ _) as [[]|] |].
      intros [= <-] again. rewrite cleanPath_idem, Es, String.eqb_refl. cbn [negb]. by destruct (match_route _ _) as [[]|].
Qed.

(** ** Who reaches a handler *)

(** The paths of the routes, in decoded segments. *)
Definition route_path (rt : route) (method : string) (s : list string) : Prop :=
  match rt with
  | RTunnels => method ∈ ["GET"; "HEAD"] /\ s = ["v1"; "tunnels"]
  | RHealth => method ∈ ["GET"; "HEAD"] /\ s = ["v1"; "admin"; "health"]
  | RRotate => s = ["v1"; "admin"; "rotate"]
  | RProxy => exists id scheme rest, s = "v1" :: "tunnels" :: id :: "proxy" :: scheme :: rest /\ id <> "/" /\ scheme <> "/" /\ rest <> []
  | RNotFound => True
  end.

(** The header of a response, once there is one. *)
Definition out_header (o : outcome) : option header :=
  match o with
  | OError (Wrote r) => Some (r_header r)
  | OError _ => None
  | ORedirect w _ | OPlainNotFound w | OHandler _ w _ => Some w
  end.
Definition out_status (o : outcome) : option Z :=
  match o with OError (Wrote r) => Some (r_status r) | _ => None end.

Lemma Get_Set k k' v w :
  Header_Get (Header_Set k v w) k' = if String.eqb (CanonicalMIMEHeaderKey k) (CanonicalMIMEHeaderKey k') then v else Header_Get w k'.
Proof.
  unfold Header_Get, Header_Set. destruct (String.eqb_spec (CanonicalMIMEHeaderKey k) (CanonicalMIMEHeaderKey k')) as [->|Hne].
  - by rewrite lookup_insert_eq.
  - by rewrite lookup_insert_ne.
Qed.

Lemma WriteError_spec w code status id :
  100 <= status <= 999 -> Header_Get w "X-Request-Id" = id ->
  exists r, WriteError w code status id = Wrote r /\ r_status r = status /\ Header_Get (r_header r) "X-Request-Id" = id.
Proof.
  intros Hs Hw. unfold WriteError, WriteHeader.
  destruct (Z.ltb_spec status 100), (Z.ltb_spec 999 status); try lia. cbn [orb]. eexists. split_and!; [done | done |]. cbn [r_header].
  destruct (String.eqb id ""); by rewrite !Get_Set.
Qed.


Lemma matches_lits p s : matches (Lit <$> p) s = true -> s = p.
Proof.
  revert s. induction p as [|x p IH]; intros [|y s]; cbn; try done.
  intros [Hx Hs]%andb_true_iff. apply String.eqb_eq in Hx as ->. by rewrite (IH s Hs).
Qed.

Lemma matches_proxy s : matches TunnelProxy s = true ->
  exists id scheme rest, s = "v1" :: "tunnels" :: id :: "proxy" :: scheme :: rest /\ id <> "/" /\ scheme <> "/" /\ rest <> [].
Proof.
  unfold TunnelProxy. destruct s as [|a [|b [|id [|c [|scheme [|r rest]]]]]]; cbn [matches]; rewrite ?andb_false_r; try done.
  rewrite !andb_true_iff, !negb_true_iff, !String.eqb_eq, !String.eqb_neq. intros (<- & <- & Hid & <- & Hs & _).
  by exists id, scheme, (r :: rest).
Qed.

Lemma match_route_path m p rt pats : match_route m p = Some (rt, pats) -> route_path rt m (segs p).
Proof.
  unfold match_route. destruct (String.eqb m "GET" || String.eqb m "HEAD") eqn:Em; cbn [andb].
  1: assert (m ∈ ["GET"; "HEAD"]) as Hm by (apply orb_true_iff in Em as [Hg|Hg]; apply String.eqb_eq in Hg; subst; set_solver).
  1: destruct (matches Tunnels (segs p)) eqn:E1; [intros [= <- <-]; by split; [| apply (matches_lits ["v1"; "tunnels"])] |].
  1: destruct (matches AdminHealth (segs p)) eqn:E2; [intros [= <- <-]; by split; [| apply (matches_lits ["v1"; "admin"; "health"])] |].
  all: destruct (matches AdminRotate (segs p)) eqn:E3; [intros [= <- <-]; by apply (matches_lits ["v1"; "admin"; "rotate"]) |].
  all: destruct (matches TunnelProxy (segs p)) eqn:E4; [intros [= <- <-]; by apply matches_proxy |].
  all: destruct (matches catchAllPattern (segs p)); [by intros [= <- <-] | done].
Qed.

Lemma mux_route m p rt : mux m p = MRoute rt -> route_path rt m (segs p).
Proof.
  unfold mux. set (path := if String.eqb m "CONNECT" then p else cleanPath p).
  destruct (slash_redirect m path); [done |]. destruct (String.eqb_spec path p) as [->|]; [| done]. cbn [negb].
  destruct (match_route m p) as [[rt' pats]|] eqn:E; [| done]. intros [= <-]. by eapply match_route_path.
Qed.

(** Who reaches which handler, by the path on the wire.  Every response carries the
    request's id.  A handler runs only for a token that matches, with a role its route
    allows, and on a path whose decoded segments are those of the route; without a valid
    token every path is answered 401, whether it exists or not; and the proxy token gets
    403 on the admin routes. *)
Theorem router_access `{Sha512} t id q :
  let o := withRequestID t id q in
  let role := Match t (Header_Get (q_header q) "X-Vpntunnel-Token") in
  (exists w, out_header o = Some w /\ Header_Get w "X-Request-Id" = id)
  /\ (forall rt w r, o = OHandler rt w r ->
        role = Some r /\ (exists allowed, routeRoles rt = Some allowed /\ r ∈ allowed)
        /\ route_path rt (q_method q) (segs (q_path q)))
  /\ (role = None -> out_status o = Some 401)
  /\ (role = Some RoleProxy -> forall rt, mux (q_method q) (q_path q) = MRoute rt -> rt ∈ [RHealth; RRotate] -> out_status o = Some 403).
Proof.
  cbn zeta. unfold withRequestID, withAuth.
  assert (Header_Get (Header_Set "X-Request-Id" id ∅) "X-Request-Id" = id) as Hid by (by rewrite Get_Set).
  set (w0 := Header_Set "X-Request-Id" id ∅) in *.
  destruct (Match t (Header_Get (q_header q) "X-Vpntunnel-Token")) as [role|].
  2: { destruct (WriteError_spec w0 "unauthorized" 401 id) as (r & -> & Hs & Hr); [lia | done |].
       split_and!; try done; [by exists (r_header r) |]. intros _. cbn. by rewrite Hs. }
  destruct (mux (q_method q) (q_path q)) as [p|rt|] eqn:Em;
    [split_and!; [by exists w0 | done | done | by intros _ rt [=]] | | split_and!; [by exists w0 | done | done | by intros _ rt [=]]].
  pose proof (mux_route _ _ _ Em) as Hpath. unfold guarded.
  destruct (routeRoles rt) as [allowed|] eqn:Er.
  2: { destruct (WriteError_spec w0 "bad_request" 404 id) as (r & -> & Hs & Hr); [lia | done |].
       split_and!; try done; [by exists (r_header r) |]. intros _ rt' [= <-] Hin. rewrite !elem_of_cons, elem_of_nil in Hin. by destruct_or! Hin; subst rt. }
  unfold requireRole. case_bool_decide as Hin.
  - split_and!; try done; [by exists w0 | |].
    + intros rt' w r [= <- <- <-]. split_and!; try done. by exists allowed.
    + intros [= ->] rt' [= <-] Hrt. rewrite !elem_of_cons, elem_of_nil in Hrt.
      destruct_or! Hrt; subst rt; injection Er as <-; set_solver.
  - destruct (WriteError_spec w0 "forbidden" 403 id) as (r & -> & Hs & Hr); [lia | done |].
    split_and!; try done; [by exists (r_header r) |]. intros _ rt' _ _. cbn. by rewrite Hs.
Qed.

(** ** Concrete requests *)

Lemma request_id_v7_witness :
  NewRequestID 1700000000000 [255; 0; 255; 1; 2; 3; 4; 5; 6; 7] = "018bcfe5-6800-7f00-bf01-020304050607"
  /\ hex_value (slice_to (NewRequestID 1700000000000 [255; 0; 255; 1; 2; 3; 4; 5; 6; 7]) 13) 0 = 1700000000000.
Proof.
  split; [vm_compute; reflexivity |].
  apply (request_id_v7 1700000000000 [255; 0; 255; 1; 2; 3; 4; 5; 6; 7]); [lia | done | repeat constructor; unfold is_byte; lia].
Defined.

Lemma redirect_once_witness :
  mux "GET" "/v1/tunnels/x/proxy/https" = MRedirect "/v1/tunnels/x/proxy/https/"
  /\ mux "GET" "/v1//admin/../tunnels" = MRedirect "/v1/tunnels"
  /\ mux "GET" "/v1/tunnels" = MRoute RTunnels
  /\ forall again, mux "GET" "/v1/tunnels/x/proxy/https/" <> MRedirect again.
Proof.
  split; [vm_compute; reflexivity |]. split; [vm_compute; reflexivity |]. split; [vm_compute; reflexivity |].
  apply (redirect_once "GET" "/v1/tunnels/x/proxy/https"). vm_compute. reflexivity.
Defined.
