(* ===== verification/ApiServer.v ===== *)
(** * The API server as one function from request to response
    ([gateway/router/server.go], [tools/rotation/rotation.go])

    [New] wires the handlers with their defaults, [buildMux] (the chain of [Router])
    chooses the handler, and the handlers of [Handlers] and [ProxyFlow] answer.  A field
    of [Options] that is a component is what the component answers during the request.
    A nil pointer in a Go interface is not a nil interface, which [iface] tells apart.
    [Options.ProxyForwarder], which only tests set, is left out. *)

From S2P Require Import Prelude GoStrings GoText GoJson GoTime Domain Eligible Scheduler Supervisor AsyncRecord AsyncStore AsyncJobs Http Forwarder Handlers ProxyFlow Router RouterThms HandlersThms.
Import Forwarder Handlers ProxyFlow Router.

Module ApiServer.

(** ** [url.ParseQuery] and [Values.Get] *)

(** [url.QueryUnescape]. *)
Definition queryUnescape (s : string) : option string :=
  unescape (String.string_of_list_ascii
    ((fun c => if Ascii.eqb c "+" then " "%char else c) <$> String.list_ascii_of_string s)).

(** One setting; those with a semicolon or a bad escape are dropped, as is an empty one. *)
Definition query_pair (kv : string) : option (string * string) :=
  if String.eqb kv "" || GoStrings.Contains kv ";" then None
  else
    let '(k, v) := match IndexByte kv "=" with
                   | Some i => (slice_to kv i, slice_from kv (S i))
                   | None => (kv, "")
                   end in
    match queryUnescape k, queryUnescape v with
    | Some k', Some v' => Some (k', v')
    | _, _ => None
    end.
Definition ParseQuery (raw : string) : list (string * string) := omap query_pair (Split raw "&").
Definition Query_Get (raw key : string) : string :=
  match list_find (fun kv => fst kv = key) (ParseQuery raw) with Some (_, kv) => snd kv | None => "" end.

(** ** The pieces of a path that the proxy route names *)

Definition path_values (path : string) : option (string * string * string) :=
  match path with
  | "" => None
  | String _ p =>
      match Split p "/" with
      | _ :: _ :: id :: _ :: scheme :: rest =>
          Some (pathUnescape id, pathUnescape scheme, pathUnescape (Join rest "/"))
      | _ => None
      end
  end.

(** ** Construction *)

(** An interface that is set from a pointer of type [*A]. *)
Inductive iface (A : Type) := NilInterface | Holds (p : option A).
Arguments NilInterface {A}.
Arguments Holds {A} p.
Definition is_nil {A} (i : iface A) : bool := match i with NilInterface => true | Holds _ => false end.

Section Server.
Context `{GoUnicode, GoFloat, Sha512} {Dialer Resolver E : Type}.
Notation transport := (Dialer * Resolver)%type.
Notation cache := (gmap string transport).
Notation rotator := (bool -> res err (Supervisor.RotateOutcome * string * Z)).
Notation submitter := (string -> outRequest -> res AsyncJobs.poolError AsyncJobs.Outcome).

(** Without the address, the shutdown timeout and the limit of request bodies, which the
    listener, the caller and the HTTP client apply. *)
Record Options := mkOptions {
  Cert : bool;
  o_Tokens : Tokens;
  LiveHealth : list TunnelHealth;
  TunnelCatalog : list Eligible.CatalogEntry;
  ZoneChecker : Eligible.EligibleSet;
  ZoneRouter : string -> res err transport;
  UpstreamTimeout : Z;
  MaxUpstreamTimeout : Z;
  HealthMaxAge : Z;
  JobCounter : option (res E AsyncStore.JobCounts);
  JobPool : option submitter;
  Access : bool;
  Rotator : option rotator
}.

Definition noopCounter : res E AsyncStore.JobCounts := Ok (AsyncStore.mkCounts 0 0 0).
Definition NoopRotator : rotator := fun _ => Ok (Supervisor.RotateUnavailable, "", 0).

Record Server := mkServer {
  s_opts : Options;
  s_counter : res E AsyncStore.JobCounts;
  s_asyncPool : iface submitter;
  s_rotator : rotator
}.

Definition New (opts : Options) : Server :=
  mkServer opts (default noopCounter (JobCounter opts)) (Holds (JobPool opts)) (default NoopRotator (Rotator opts)).

(** The timeouts of the HTTP server. *)
Record httpTimeouts := mkTimeouts { ReadHeaderTimeout : Z; IdleTimeout : Z; WriteTimeout : Z }.
Definition buildHTTPServer : httpTimeouts := mkTimeouts (10 * Second) (90 * Second) 0.

(** [StartOn]: whether the listener is wrapped in TLS, and the error that is passed on. *)
Inductive serveError := ErrServerClosed | ErrListener.
Definition StartOn (opts : Options) (serve : serveError) : bool * option serveError :=
  (Cert opts, match serve with ErrServerClosed => None | ErrListener => Some ErrListener end).

(** [Start]: [listen] says whether the address could be bound. *)
Inductive startError := EListen | EServe (e : serveError).
Definition Start (opts : Options) (listen : bool) (serve : serveError) : option startError :=
  if negb listen then Some EListen else EServe <$> snd (StartOn opts serve).

(** ** Handlers *)

Definition json_entry (e : HealthEntry) : json :=
  JObj [("id", JStr (he_ID e)); ("healthy", JBool (he_Healthy e)); ("handshake_age_seconds", JNum (he_AgeSeconds e))].

(** The 405 of the catalog and health handlers, which [HEAD] reaches. *)
Definition get_only (w : header) : served := WriteHeader 405 (Header_Set "Allow" "GET" w) NoBody.

Definition handleHealth (s : Server) (now : Z) (w : header) (method : string) : served :=
  match healthServe method now (HealthMaxAge (s_opts s)) (LiveHealth (s_opts s)) (s_counter s) with
  | (_, None) => get_only w
  | (code, Some (status, entries, counts)) =>
      WriteHeader code (Header_Set "Content-Type" "application/json" w)
        (BJson (JObj [("status", JStr status); ("tunnels", JArr (json_entry <$> entries));
                      ("pending_jobs_count", JNum (AsyncStore.nPending counts));
                      ("completed_jobs_count", JNum (AsyncStore.nCompleted counts));
                      ("tombstone_jobs_count", JNum (AsyncStore.nTombstone counts))]))
  end.

(** [json.Marshal] of a map sorts its keys. *)
Definition json_catalog (m : gmap string (list string)) : json :=
  JObj ((fun cc => (cc, JArr (JStr <$> default [] (m !! cc)))) <$> sortStrings (map_to_list m).*1).

Definition handleTunnels (s : Server) (w : header) (method rawQuery : string) : served :=
  match tunnelsServe method (Query_Get rawQuery "country") (TunnelCatalog (s_opts s)) with
  | (_, None) => get_only w
  | (code, Some m) => WriteHeader code (Header_Set "Content-Type" "application/json" w) (BJson (json_catalog m))
  end.

Definition handleRotate (s : Server) (w : header) (method rawQuery : string) : served :=
  rotateServe w method (Query_Get rawQuery "force") (Header_Get w "X-Request-Id") (s_rotator s).

Context (Do : transport -> outRequest -> doError + upstream)
        (NewRequest : string -> string -> bool)
        (urlParse : string -> option (string * string)).

(** The method call on a nil pool dereferences it. *)
Definition handleProxy (s : Server) (w : header) (ts : cache) (q : request) : result served :=
  let pl := ServeHTTP GoTime.ParseDuration urlParse (ZoneChecker (s_opts s)) (UpstreamTimeout (s_opts s))
              (MaxUpstreamTimeout (s_opts s)) (negb (is_nil (s_asyncPool s))) q in
  let proxied submit := serveProxy Do (ZoneRouter (s_opts s)) NewRequest submit w ts (Handlers.q_method q) pl in
  match s_asyncPool s with
  | Holds (Some submit) => proxied submit
  | Holds None | NilInterface =>
      match pl with Async _ _ _ _ _ => mkResult Panicked ts [] | _ => proxied (fun _ _ => Err AsyncJobs.ErrPoolClosed) end
  end.

(** ** One request *)

Record wireRequest := mkWire { r_http : httpRequest; r_rawQuery : string }.

Inductive answer := Answered (s : served) | Redirected (w : header) (path : string) | PlainNotFound (w : header).

(** The answer, the transport cache, the routes taken and the status in the access log. *)
Record exchange := mkExchange { x_answer : answer; x_cache : cache; x_routes : list routeEvent; x_logged : option Z }.

(** [withAccessLog] writes its line when the handler returned; 200 if it wrote nothing. *)
Definition logged_status (s : served) : option Z :=
  match s with Wrote r => Some (r_status r) | WroteNothing => Some 200 | Panicked => None end.

Definition proxyRequest (r : wireRequest) (id scheme rest : string) : request :=
  mkRequest (q_method (r_http r)) scheme id rest (r_rawQuery r) (q_header (r_http r)).

Definition serve (s : Server) (now : Z) (id : string) (ts : cache) (r : wireRequest) : exchange :=
  let plain a := mkExchange a ts [] None in
  match withRequestID (o_Tokens (s_opts s)) id (r_http r) with
  | OError e => plain (Answered e)
  | ORedirect w p => plain (Redirected w p)
  | OPlainNotFound w => plain (PlainNotFound w)
  | OHandler rt w _ =>
      match rt with
      | RTunnels => plain (Answered (handleTunnels s w (q_method (r_http r)) (r_rawQuery r)))
      | RHealth => plain (Answered (handleHealth s now w (q_method (r_http r))))
      | RRotate => plain (Answered (handleRotate s w (q_method (r_http r)) (r_rawQuery r)))
      | RNotFound => plain (Answered (WriteError w "bad_request" 404 id))
      | RProxy =>
          let '(tid, scheme, rest) := default ("", "", "") (path_values (q_path (r_http r))) in
          let res := handleProxy s w ts (proxyRequest r tid scheme rest) in
          mkExchange (Answered (rr_out res)) (rr_cache res) (rr_routes res)
            (if Access (s_opts s) then logged_status (rr_out res) else None)
      end
  end.
End Server.
End ApiServer.
