(* ===== verification/ApiThms.v ===== *)
(** * Theorems on the API server *)

From S2P Require Import Prelude GoStrings GoText GoJson GoTime Domain Eligible Scheduler Supervisor AsyncRecord AsyncStore AsyncJobs Http Forwarder Handlers HandlersThms ProxyFlow Router RouterThms ApiServer.
Import Forwarder Handlers ProxyFlow Router ApiServer.

(** ** The request id and panics *)

(** Whatever a handler did, it did not panic, and what it wrote carries the id. *)
Definition carries (id : string) (s : served) : Prop :=
  match s with Wrote r => Header_Get (r_header r) "X-Request-Id" = id | WroteNothing => True | Panicked => False end.

Lemma Get_Del k k' w :
  CanonicalMIMEHeaderKey k <> CanonicalMIMEHeaderKey k' -> Header_Get (Header_Del k w) k' = Header_Get w k'.
Proof. intros Hk. unfold Header_Get, Header_Del. by rewrite lookup_delete_ne. Qed.

Lemma WriteError_carries w code st : 100 <= st <= 999 -> carries (Header_Get w "X-Request-Id") (WriteError w code st (Header_Get w "X-Request-Id")).
Proof. intros Hst. destruct (WriteError_spec w code st _ Hst eq_refl) as (r & -> & _ & Hr). done. Qed.

Lemma WriteHeader_carries w id code b : 100 <= code <= 999 -> Header_Get w "X-Request-Id" = id -> carries id (WriteHeader code w b).
Proof. intros Hc Hw. unfold WriteHeader. destruct (Z.ltb_spec code 100), (Z.ltb_spec 999 code); try lia. done. Qed.

Lemma rotate_carries w method force rot :
  carries (Header_Get w "X-Request-Id") (rotateServe w method force (Header_Get w "X-Request-Id") rot).
Proof.
  unfold rotateServe. destruct (negb _).
  - pose proof (WriteError_carries (Header_Set "Allow" "POST" w) "method_not_allowed" 405 ltac:(lia)) as Hc. by rewrite Get_Set in Hc.
  - destruct (parseForceParam force); [| by apply WriteError_carries].
    destruct (rot b) as [|[[[] country] active]]; [done | ..]; by apply WriteHeader_carries; [lia | rewrite Get_Set].
Qed.

Lemma async_carries w tag (out : res AsyncJobs.poolError AsyncJobs.Outcome) :
  Header_Get w "X-Request-Id" <> "" ->
  (forall resp, out = Ok (AsyncJobs.OutcomeCompleted resp) -> 100 <= AsyncRecord.StatusCode resp <= 999) ->
  carries (Header_Get w "X-Request-Id") (serveAsync w tag (Header_Get w "X-Request-Id") out).
Proof.
  intros Hid Hst. unfold serveAsync. set (id := Header_Get w "X-Request-Id") in *. apply String.eqb_neq in Hid.
  assert (forall code st, 100 <= st <= 999 -> carries id (WriteError w code st id)) as He by (intros; by apply WriteError_carries).
  destruct out as [[]|[]]; try (apply He; lia); rewrite Hid.
  - apply WriteHeader_carries; [lia | by rewrite !Get_Set].
  - apply WriteHeader_carries; [by apply Hst | by rewrite Get_Del, Get_Set].
Qed.

Section Api.
Context {Dialer Resolver : Type}.

Lemma Forward_carries (Do : Dialer * Resolver -> outRequest -> doError + upstream) w ts tid d r out :
  Header_Get w "X-Request-Id" <> "" -> carries (Header_Get w "X-Request-Id") (fst (Forward Do w ts tid d r out)).
Proof.
  intros Hid. unfold Forward. destruct (transportFor ts tid d r) as [t ts']. cbn [fst].
  set (id := Header_Get w "X-Request-Id") in *.
  assert (forall code st, 100 <= st <= 999 -> carries id (WriteError w code st id)) as He by (intros; by apply WriteError_carries).
  destruct (Do t out) as [e|u].
  - unfold writeDoError. destruct (mapDoError e) as [[code st]|] eqn:Hm; [| done]. apply He.
    unfold mapDoError in Hm. repeat case_match; simplify_eq; lia.
  - set (w' := copyUpstreamResponse w (u_header u) id).
    assert (Header_Get w' "X-Request-Id" = id) as Hw'.
    { unfold w', copyUpstreamResponse. apply String.eqb_neq in Hid. by rewrite Hid, Get_Del, Get_Set. }
    unfold WriteHeader. destruct (_ || _); [| done].
    pose proof (WriteError_carries w' "internal" 500 ltac:(lia)) as Hc. by rewrite Hw' in Hc |- *.
Qed.

(** ** What the proxy handler sends upstream *)

(** The headers that are between the client and the daemon. *)
Definition own_headers : list string :=
  ["X-Vpntunnel-Token"; "X-Vpntunnel-Tunnel-Id"; "X-Proxy-Timeout"; "X-Proxy-Forward-Headers"; "Proxy-Retry-Tag"].

(** The URL that a path and a query name. *)
Definition target_url (scheme rest query : string) : string :=
  scheme +:+ "://" +:+ rest +:+ (if String.eqb query "" then "" else "?" +:+ query).

Lemma targetStr_url q : targetStr q = target_url (q_scheme q) (q_rest q) (q_rawQuery q).
Proof.
  unfold targetStr, target_url. destruct (String.eqb _ ""); [by rewrite append_nil_r |]. by rewrite !append_assoc.
Qed.

(** An upstream request with this method and URL, and none of the daemon's own headers. *)
Definition permitted (urlParse : string -> option (string * string)) (method target : string) (out : outRequest) : Prop :=
  o_method out = method
  /\ (exists host, urlParse target = Some (host, o_url out) /\ host <> "")
  /\ forall k, k ∈ own_headers -> o_header out !! k = None.

(** A job that is submitted under the retry tag: the same request with all the client's
    headers, and the tunnel in the daemon's own. *)
Definition job (urlParse : string -> option (string * string)) (hdr : header) (method tid target tag : string) (out : outRequest) : Prop :=
  tag = Header_Get hdr "Proxy-Retry-Tag" /\ o_method out = method
  /\ (exists host, urlParse target = Some (host, o_url out) /\ host <> "")
  /\ o_header out = Header_Set "X-Vpntunnel-Tunnel-Id" tid hdr.

Lemma ServeHTTP_sync ParseDuration urlParse e dflt maxT pool q tid target timeout hdr :
  ServeHTTP ParseDuration urlParse e dflt maxT pool q = Sync tid target timeout hdr ->
  tid = q_id q /\ Eligible.IsEligible e tid = true /\ q_scheme q ∈ ["http"; "https"]
  /\ (exists host, urlParse (targetStr q) = Some (host, target) /\ host <> "")
  /\ exists extra, hdr = copyProxyHeaders ∅ (Handlers.q_header q) extra.
Proof.
  unfold ServeHTTP, asyncRequest.
  destruct (negb (q_scheme q =? "http")%string && negb (q_scheme q =? "https")%string) eqn:Es; [done |].
  apply andb_false_iff in Es. destruct (String.eqb (q_id q) ""); [done |].
  destruct (Eligible.IsEligible e (q_id q)) eqn:Ee; [| done]. cbn [negb].
  assert (q_scheme q ∈ ["http"; "https"]) as Hs.
  { destruct Es as [Hs|Hs]; apply negb_false_iff, String.eqb_eq in Hs; rewrite Hs; set_solver. }
  destruct (negb (Header_Get _ "Proxy-Retry-Tag" =? "")%string); [by repeat case_match |].
  destruct (if String.eqb (Header_Get _ "X-Proxy-Timeout") "" then _ else _) as [[]|]; [done |].
  destruct (urlParse (targetStr q)) as [[host t]|] eqn:Eu; [| done]. destruct (String.eqb_spec host "") as [|Hne]; [done |].
  intros [= <- <- <- <-]. split_and!; try done; by eexists.
Qed.

Lemma ServeHTTP_async ParseDuration urlParse e dflt maxT pool q tag tid target host hdr :
  ServeHTTP ParseDuration urlParse e dflt maxT pool q = Async tag tid target host hdr ->
  tid = q_id q /\ Eligible.IsEligible e tid = true /\ q_scheme q ∈ ["http"; "https"]
  /\ job urlParse (Handlers.q_header q) (Handlers.q_method q) tid (targetStr q) tag (mkOut (Handlers.q_method q) target hdr).
Proof.
  unfold ServeHTTP, asyncRequest.
  destruct (negb (q_scheme q =? "http")%string && negb (q_scheme q =? "https")%string) eqn:Es; [done |].
  apply andb_false_iff in Es. destruct (String.eqb (q_id q) ""); [done |].
  destruct (Eligible.IsEligible e (q_id q)) eqn:Ee; [| done]. cbn [negb].
  assert (q_scheme q ∈ ["http"; "https"]) as Hs.
  { destruct Es as [Hs|Hs]; apply negb_false_iff, String.eqb_eq in Hs; rewrite Hs; set_solver. }
  destruct (negb (Header_Get _ "Proxy-Retry-Tag" =? "")%string); [| by repeat case_match].
  destruct (String.eqb _ "CONNECT"); [done |]. destruct (retryTagRegexp _); [| done]. destruct pool; [| done]. cbn [negb].
  destruct (urlParse (targetStr q)) as [[h t]|] eqn:Eu; [| done]. destruct (String.eqb_spec h "") as [|Hne]; [done |].
  intros [= <- <- <- <- <-]. split_and!; [done | done | done |]. split_and!; [done | done | by exists h | done].
Qed.

(** What a worker sends for a job. *)
Lemma job_permitted urlParse hdr method tid target tag out :
  job urlParse hdr method tid target tag out ->
  permitted urlParse method target (mkOut (o_method out) (o_url out) (stripServiceHeaders (o_header out)))
  /\ Header_Get (o_header out) internalTunnelIDHeader = tid.
Proof.
  intros (_ & Hm & Hu & Hh). split.
  - split_and!; [done | done |]. intros k Hk. cbn [o_header]. by rewrite strip_lookup, bool_decide_eq_true_2.
  - rewrite Hh. by rewrite Get_Set.
Qed.

Lemma zoneForward_agree (Do Do' : Dialer * Resolver -> outRequest -> doError + upstream) route ts urlParse hdr method tid target tag out :
  job urlParse hdr method tid target tag out ->
  (forall t o, permitted urlParse method target o -> Do t o = Do' t o) ->
  zoneForward Do' route ts out = zoneForward Do route ts out.
Proof.
  intros [Hp _]%job_permitted Hd. unfold zoneForward. destruct (String.eqb _ ""); [done |].
  destruct (route _) as [|[d r]]; [done |]. destruct (transportFor _ _ _ _) as [t ts']. by rewrite (Hd _ _ Hp).
Qed.

(** ** The path of the proxy route *)

(** The escaped path is, after its first byte (the slash), [v1/tunnels/{id}/proxy/{scheme}/{rest...}],
    each piece escaped in its own way; the rest may hold slashes. *)
Definition names_target (path tid scheme rest : string) : Prop :=
  exists c v1 tunnels id proxy sch raw,
    path = String c (v1 +:+ "/" +:+ tunnels +:+ "/" +:+ id +:+ "/" +:+ proxy +:+ "/" +:+ sch +:+ "/" +:+ raw)
    /\ Forall (fun p => GoStrings.Contains p "/" = false) [v1; tunnels; id; proxy; sch]
    /\ pathUnescape v1 = "v1" /\ pathUnescape tunnels = "tunnels" /\ pathUnescape proxy = "proxy"
    /\ tid = pathUnescape id /\ scheme = pathUnescape sch /\ rest = pathUnescape raw.

Lemma path_values_segs path id scheme rest :
  segs path = "v1" :: "tunnels" :: id :: "proxy" :: scheme :: rest -> rest <> [] ->
  exists tail, path_values path = Some (id, scheme, tail) /\ names_target path id scheme tail.
Proof.
  unfold segs, path_values, names_target. destruct path as [|c p]; [done |]. intros Hs Hr.
  pose proof (Join_Split p "/") as Hj. pose proof (Split_no_sep p "/") as Hn.
  destruct (Split p "/") as [|a [|b [|i [|k [|sc [|t l]]]]]]; cbn [seg_list] in Hs; simplify_eq; try done.
  eexists. split; [done |]. exists c, a, b, i, k, sc, (Join (t :: l) "/"). rewrite !Forall_cons in Hn.
  split; [reflexivity |]. split; [| done]. destruct Hn as (? & ? & ? & ? & ? & _). by repeat constructor.
Qed.

Section Wired.
Context `{GoUnicode, GoFloat, Sha512} {E : Type} (NewRequest : string -> string -> bool)
        (urlParse : string -> option (string * string)).
Notation client := (Dialer * Resolver -> outRequest -> doError + upstream).
Notation options := (Options (Dialer := Dialer) (Resolver := Resolver) (E := E)).
Notation server := (Server (Dialer := Dialer) (Resolver := Resolver) (E := E)).
Notation handleProxy Do := (handleProxy Do NewRequest urlParse).
Notation serve Do := (serve Do NewRequest urlParse).

Definition set_JobPool pool (o : options) : options :=
  mkOptions (Cert o) (o_Tokens o) (LiveHealth o) (TunnelCatalog o) (ZoneChecker o) (ZoneRouter o) (UpstreamTimeout o)
    (MaxUpstreamTimeout o) (HealthMaxAge o) (JobCounter o) pool (Access o) (Rotator o).

Lemma handleProxy_ok (Do : client) (opts : options) pool w ts q :
  Header_Get w "X-Request-Id" <> "" -> JobPool opts = Some pool ->
  (forall tag out resp, pool tag out = Ok (AsyncJobs.OutcomeCompleted resp) -> 100 <= AsyncRecord.StatusCode resp <= 999) ->
  canonical_keys (Handlers.q_header q) ->
  let res := handleProxy Do (New opts) w ts q in
  let ok := Eligible.IsEligible (ZoneChecker opts) (q_id q) = true /\ q_scheme q ∈ ["http"; "https"] in
  carries (Header_Get w "X-Request-Id") (rr_out res)
  /\ (rr_routes res = [] \/
      rr_routes res = [Acquired (q_id q); Released (q_id q)] /\ ok /\ is_ok (ZoneRouter opts (q_id q)) = true)
  /\ (forall Do' : client,
       (forall t out, ok -> permitted urlParse (Handlers.q_method q) (targetStr q) out -> Do t out = Do' t out) ->
       handleProxy Do' (New opts) w ts q = res)
  /\ forall pool',
       (forall tag out, ok -> job urlParse (Handlers.q_header q) (Handlers.q_method q) (q_id q) (targetStr q) tag out -> pool tag out = pool' tag out) ->
       handleProxy Do (New (set_JobPool (Some pool') opts)) w ts q = res.
Proof.
  intros Hid Hpool Hst Hcan. cbn zeta. unfold ApiServer.handleProxy.
  cbn [New set_JobPool s_asyncPool s_opts JobPool ZoneChecker ZoneRouter UpstreamTimeout MaxUpstreamTimeout is_nil negb]. rewrite Hpool.
  destruct (ServeHTTP _ _ _ _ _ _ q) as [code st|tag tid target host hdr|tid target timeout hdr] eqn:Hpl; cbn [serveProxy].
  - apply ServeHTTP_reject_status in Hpl. split_and!; [| by left | done | done]. apply WriteError_carries. set_unfold. lia.
  - apply ServeHTTP_async in Hpl as (-> & Hel & Hs & Hjob). split_and!; [| by left | done |].
    + apply async_carries; [done |]. intros resp Hr. by eapply Hst.
    + intros pool' Hp. by rewrite (Hp _ _ (conj Hel Hs) Hjob).
  - apply ServeHTTP_sync in Hpl as (-> & Hel & Hs & Hu & extra & ->).
    destruct (NewRequest _ _); cbn [negb]; [| split_and!; [by apply WriteError_carries | by left | done | done]].
    destruct (ZoneRouter opts (q_id q)) as [er|[d r]] eqn:Hr; [split_and!; [by apply WriteError_carries | by left | done | done] |].
    set (out := mkOut _ _ _). pose proof (Forward_carries Do w ts (q_id q) d r out Hid) as Hc.
    assert (permitted urlParse (Handlers.q_method q) (targetStr q) out) as Hp.
    { split_and!; [done | done |]. intros k Hk. by apply (upstream_headers _ extra k Hcan). }
    split_and!; [by destruct (Forward _ _ _ _ _ _ _) | right; by destruct (Forward _ _ _ _ _ _ _) | | done].
    intros Do' Hdo. unfold Forward. destruct (transportFor ts (q_id q) d r). by rewrite (Hdo _ _ (conj Hel Hs) Hp).
Qed.

(** ** Whole requests *)

Definition answer_carries (id : string) (a : answer) : Prop :=
  match a with Answered s => carries id s | Redirected w _ | PlainNotFound w => Header_Get w "X-Request-Id" = id end.

(** The client's token has the digest of the admin token, or of one of the two tokens. *)
Definition client_token (r : wireRequest) : string := TrimSpace (Header_Get (q_header (r_http r)) "X-Vpntunnel-Token").
Definition is_admin (opts : options) (r : wireRequest) : Prop :=
  client_token r <> "" /\ Sum512 (client_token r) = t_admin (o_Tokens opts).
Definition authentic (opts : options) (r : wireRequest) : Prop :=
  client_token r <> "" /\ (Sum512 (client_token r) = t_admin (o_Tokens opts) \/ Sum512 (client_token r) = t_proxy (o_Tokens opts)).

Lemma Match_token (opts : options) r :
  let role := Match (o_Tokens opts) (Header_Get (q_header (r_http r)) "X-Vpntunnel-Token") in
  (is_Some role -> authentic opts r) /\ (role = Some RoleAdmin -> is_admin opts r).
Proof.
  cbn zeta. unfold Match, authentic, is_admin, client_token. set (tok := TrimSpace _).
  destruct (String.eqb_spec tok "") as [|Hne]; [split; [by intros [] | done] |].
  destruct (String.eqb_spec (Sum512 tok) (t_admin (o_Tokens opts))), (String.eqb_spec (Sum512 tok) (t_proxy (o_Tokens opts)));
    (split; [intros [role Hr] | intros Hr]); auto; done.
Qed.

(** [r] has a valid token and its path names [tid], a tunnel of the set, and [url], which is
    built from the scheme, the rest of the path and the query, of scheme http or https. *)
Definition asks_for (opts : options) (r : wireRequest) (tid url : string) : Prop :=
  authentic opts r
  /\ is_Some (Eligible.byKey (ZoneChecker opts) !! tid)
  /\ exists scheme rest, names_target (q_path (r_http r)) tid scheme rest /\ scheme ∈ ["http"; "https"]
       /\ url = target_url scheme rest (r_rawQuery r).

(** An upstream request, and a job, that the daemon may make for [r]. *)
Definition may_send (opts : options) (r : wireRequest) (out : outRequest) : Prop :=
  exists tid url, asks_for opts r tid url /\ permitted urlParse (q_method (r_http r)) url out.
Definition may_submit (opts : options) (r : wireRequest) (tag : string) (out : outRequest) : Prop :=
  exists tid url, asks_for opts r tid url /\ job urlParse (q_header (r_http r)) (q_method (r_http r)) tid url tag out.

Definition set_Rotator rot (o : options) : options :=
  mkOptions (Cert o) (o_Tokens o) (LiveHealth o) (TunnelCatalog o) (ZoneChecker o) (ZoneRouter o) (UpstreamTimeout o)
    (MaxUpstreamTimeout o) (HealthMaxAge o) (JobCounter o) (JobPool o) (Access o) rot.

Lemma get_only_carries w : carries (Header_Get w "X-Request-Id") (get_only w).
Proof. apply WriteHeader_carries; [lia | by rewrite Get_Set]. Qed.

Lemma health_carries (s : server) now w m :
  carries (Header_Get w "X-Request-Id") (handleHealth s now w m).
Proof.
  unfold handleHealth, healthServe. destruct (negb _); [apply get_only_carries |].
  apply WriteHeader_carries; [case_match; lia | by rewrite Get_Set].
Qed.

Lemma tunnels_carries (s : server) w m raw :
  carries (Header_Get w "X-Request-Id") (handleTunnels s w m raw).
Proof.
  unfold handleTunnels, tunnelsServe. destruct (negb _); [apply get_only_carries |].
  repeat case_match; simplify_eq; (apply WriteHeader_carries; [lia | by rewrite Get_Set]).
Qed.

Lemma serve_proxy (Do : client) (s : server) now id ts r w role tid scheme rest :
  withRequestID (o_Tokens (s_opts s)) id (r_http r) = OHandler RProxy w role ->
  path_values (q_path (r_http r)) = Some (tid, scheme, rest) ->
  serve Do s now id ts r =
    let res := handleProxy Do s w ts (proxyRequest r tid scheme rest) in
    mkExchange (Answered (rr_out res)) (rr_cache res) (rr_routes res) (if Access (s_opts s) then logged_status (rr_out res) else None).
Proof. intros Ho Hp. unfold ApiServer.serve. by rewrite Ho, Hp. Qed.

(** A worker's request for a job of [r] is one that may be sent for [r]. *)
Lemma submit_sends (Do Do' : client) (opts : options) r tag out route ts :
  may_submit opts r tag out -> (forall t o, may_send opts r o -> Do t o = Do' t o) ->
  zoneForward Do' route ts out = zoneForward Do route ts out.
Proof.
  intros (tid & url & Ha & Hj) Hd. eapply zoneForward_agree; [exact Hj |]. intros t o Hp. apply Hd. by exists tid, url.
Qed.

(** C35: One API request, from the wire to the response.  For every request, component
    state and upstream: the daemon does not panic, and whatever it writes carries the
    request's id.  A tunnel is acquired only for a request whose token has the digest of the
    admin or the proxy token and whose path names that tunnel, if it is in the set and the
    target scheme is http or https, and it is released once.  The upstream is asked for nothing else than requests with the client's
    method and the URL of its path and query (scheme, "://", the unescaped rest of the
    path, "?" and the query unless it is empty), without the daemon's own headers: the
    answer is the same with any upstream that agrees on those.  The job pool is asked for
    nothing else than the job under the client's retry tag with that method and URL, and
    what a worker then sends upstream for the job is again such a request only.  The
    rotator is not consulted unless an admin token comes with a POST.  (Given that a stored
    response has a status that can be written, and that the server canonicalised the
    header keys.) *)
Theorem api_request (Do : client) (opts : options) pool now id ts r :
  id <> "" -> JobPool opts = Some pool ->
  (forall tag out resp, pool tag out = Ok (AsyncJobs.OutcomeCompleted resp) -> 100 <= AsyncRecord.StatusCode resp <= 999) ->
  canonical_keys (q_header (r_http r)) ->
  let x := serve Do (New opts) now id ts r in
  answer_carries id (x_answer x)
  /\ (x_routes x = [] \/ exists tid url, x_routes x = [Acquired tid; Released tid]
       /\ asks_for opts r tid url /\ is_ok (ZoneRouter opts tid) = true)
  /\ (forall Do' : client, (forall t out, may_send opts r out -> Do t out = Do' t out) ->
        serve Do' (New opts) now id ts r = x
        /\ forall tag out ts', may_submit opts r tag out ->
             zoneForward Do' (ZoneRouter opts) ts' out = zoneForward Do (ZoneRouter opts) ts' out)
  /\ (forall pool', (forall tag out, may_submit opts r tag out -> pool tag out = pool' tag out) ->
        serve Do (New (set_JobPool (Some pool') opts)) now id ts r = x)
  /\ (forall rot, ~ is_admin opts r \/ q_method (r_http r) <> "POST" ->
        serve Do (New (set_Rotator rot opts)) now id ts r = x).
Proof.
  intros Hid Hpool Hst Hcan x. subst x. destruct (Match_token opts r) as [Htok Hadmin].
  assert (forall Do' : client, (forall t out, may_send opts r out -> Do t out = Do' t out) ->
    forall tag out ts', may_submit opts r tag out -> zoneForward Do' (ZoneRouter opts) ts' out = zoneForward Do (ZoneRouter opts) ts' out) as Hzone
    by (intros Do' Hd tag out ts' Hm; by eapply submit_sends).
  destruct (router_access (o_Tokens opts) id (r_http r)) as ((w0 & Hw0 & Hget) & Hhandler & _).
  destruct (withRequestID (o_Tokens opts) id (r_http r)) as [e|w p|w|rt w role'] eqn:Ho.
  1-3: unfold ApiServer.serve; cbn [New s_opts set_Rotator set_JobPool o_Tokens]; rewrite Ho; split_and!; [| by left | intros Do2 Hd2; split; [done | by apply Hzone] | done | done].
  1-3: cbn in Hw0 |- *; try (destruct e; try done); by injection Hw0 as <-.
  injection Hw0 as <-. destruct (Hhandler rt w role' eq_refl) as (Hrole & (allowed & Hall & Hin) & Hpath).
  destruct rt; [..| done].
  - unfold ApiServer.serve. cbn [New s_opts set_Rotator set_JobPool o_Tokens]. rewrite Ho. rewrite <- Hget.
    split_and!; [apply tunnels_carries | by left | intros Do2 Hd2; split; [done | by apply Hzone] | done | done].
  - unfold ApiServer.serve. cbn [New s_opts set_Rotator set_JobPool o_Tokens]. rewrite Ho. rewrite <- Hget.
    split_and!; [apply health_carries | by left | intros Do2 Hd2; split; [done | by apply Hzone] | done | done].
  - unfold ApiServer.serve. cbn [New s_opts set_Rotator set_JobPool o_Tokens]. rewrite Ho. rewrite <- Hget.
    split_and!; [apply rotate_carries | by left | intros Do2 Hd2; split; [done | by apply Hzone] | done |]. intros rot [Hr|Hm].
    + destruct Hr. apply Hadmin. rewrite Hrole. injection Hall as <-. set_solver.
    + unfold handleRotate, rotateServe. apply String.eqb_neq in Hm. by rewrite Hm.
  - destruct Hpath as (tid & scheme & rest & Hsegs & _ & _ & Hrest).
    destruct (path_values_segs _ _ _ _ Hsegs Hrest) as (tail & Hp & Hn).
    set (q := proxyRequest r tid scheme tail).
    assert (Eligible.IsEligible (ZoneChecker opts) (q_id q) = true /\ q_scheme q ∈ ["http"; "https"] -> asks_for opts r tid (targetStr q)) as Hask.
    { intros [Hel Hs]. split; [apply Htok; by rewrite Hrole; eauto |]. split; [by apply bool_decide_eq_true in Hel |]. exists scheme, tail.
      split; [done |]. split; [done | apply targetStr_url]. }
    destruct (handleProxy_ok Do opts pool w ts q) as (Hc & Hr & Hdo & Hsub); [by rewrite Hget | done | done | done |].
    rewrite !(serve_proxy Do (New opts) now id ts r w role' tid scheme tail) by done. cbn zeta. cbn [x_answer x_routes]. fold q.
    split_and!.
    + by rewrite <- Hget.
    + destruct Hr as [Hr|(Hr & Hok & Hz)]; [by left |]. right. exists tid, (targetStr q). auto.
    + intros Do' Hd. split; [| by apply Hzone]. rewrite (serve_proxy Do' (New opts) now id ts r w role' tid scheme tail) by done. cbn zeta.
      fold q. rewrite Hdo; [done |]. intros t out Hok Hperm. apply Hd. exists tid, (targetStr q). auto.
    + intros pool' Hp'. rewrite (serve_proxy Do _ now id ts r w role' tid scheme tail) by done. cbn zeta. fold q.
      rewrite Hsub; [done |]. intros tag out Hok Hj. apply Hp'. exists tid, (targetStr q). auto.
    + intros rot _. by rewrite (serve_proxy Do (New (set_Rotator rot opts)) now id ts r w role' tid scheme tail).
Qed.

Lemma ServeHTTP_no_pool ParseDuration e dflt maxT q tag tid target host hdr :
  ServeHTTP ParseDuration urlParse e dflt maxT true q = Async tag tid target host hdr ->
  ServeHTTP ParseDuration urlParse e dflt maxT false q = Reject "async_disabled" 503.
Proof.
  unfold ServeHTTP. destruct (negb _ && negb _); [done |]. destruct (String.eqb (q_id q) ""); [done |]. destruct (negb _); [done |].
  destruct (negb (Header_Get _ "Proxy-Retry-Tag" =? "")%string).
  - destruct (String.eqb (Handlers.q_method q) "CONNECT"); [done |]. by destruct (negb (retryTagRegexp _)).
  - destruct (if String.eqb (Header_Get _ "X-Proxy-Timeout") "" then _ else _) as [[]|]; [done |].
    destruct (urlParse (targetStr q)) as [[h t]|]; [by destruct (String.eqb h "") | done].
Qed.

(** A server without a job pool.  The handler answers 503 async_disabled to a request with a
    retry tag if the interface of its pool is nil, but [New] sets it from a nil pointer: the
    interface is not nil, and the same request panics on the method call. *)
Theorem nil_pool_panics (Do : client) (opts : options) c rot w ts q tag tid target host hdr :
  JobPool opts = None ->
  ServeHTTP GoTime.ParseDuration urlParse (ZoneChecker opts) (UpstreamTimeout opts) (MaxUpstreamTimeout opts) true q
    = Async tag tid target host hdr ->
  rr_out (handleProxy Do (New opts) w ts q) = Panicked
  /\ rr_out (handleProxy Do (mkServer opts c NilInterface rot) w ts q)
     = WriteError w "async_disabled" 503 (Header_Get w "X-Request-Id").
Proof.
  intros Hnil Hpl. unfold ApiServer.handleProxy. cbn [New s_asyncPool s_opts is_nil negb]. rewrite Hnil, Hpl. split; [done |].
  by rewrite (ServeHTTP_no_pool _ _ _ _ _ _ _ _ _ _ Hpl).
Qed.
End Wired.
End Api.

(** ** A server and its requests *)

Module ApiDemo.
#[export] Existing Instances HandlersDemo.demo_sha HandlersDemo.demo_uni GoTime.TimeDemo.demo_float.
Definition opts (pool : bool) : Options (Dialer := nat) (Resolver := nat) (E := unit) :=
  mkOptions true HandlersDemo.toks [mkTunnelHealth "aa" (100 * Second) None] [Eligible.mkCatalog "aa" "aa.conf" "de"] FlowDemo.set0
    FlowDemo.route0 (30 * Second) (60 * Second) (180 * Second) None (if pool then Some FlowDemo.submit0 else None) true None.
Definition get (path query : string) (hdr : header) : wireRequest := mkWire (mkReq "GET" path hdr) query.
Definition tagged : header := <["Proxy-Retry-Tag" := ["order-4711"]]> HandlersDemo.hdr.
Definition run (pool : bool) (r : wireRequest) : exchange :=
  serve FlowDemo.Do0 (fun _ _ => true) FlowDemo.parse0 (New (opts pool)) (200 * Second) "rid" ∅ r.
Definition admin : header := {[ "X-Vpntunnel-Token" := [HandlersDemo.many 64 "a"] ]}.
Definition status (x : exchange (Dialer := nat) (Resolver := nat)) : option Z :=
  match x_answer x with Answered (Wrote r) => Some (r_status r) | _ => None end.

Lemma hdr_canonical : canonical_keys HandlersDemo.hdr.
Proof.
  intros k vs Hk. unfold HandlersDemo.hdr in Hk. apply lookup_insert_Some in Hk as [[<- <-]|[_ Hk]]; [by vm_compute |].
  apply lookup_singleton_Some in Hk as [<- <-]. by vm_compute.
Qed.

(** The catalog with a filter, health, rotation without a rotator, a proxied request, a
    retry tag with and without a pool. *)
Lemma demo_requests :
  x_answer (run true (get "/v1/tunnels" "x=1&country=%44e,+fr" HandlersDemo.hdr))
    = Answered (Wrote (mkResp 200 (list_to_map [("Content-Type", ["application/json"]); ("X-Request-Id", ["rid"])])
        (BJson (JObj [("de", JArr [JStr "aa"])]))))
  /\ status (run true (get "/v1/admin/health" "" admin)) = Some 200
  /\ status (run true (get "/v1/admin/health" "" HandlersDemo.hdr)) = Some 403
  /\ status (run true (mkWire (mkReq "POST" "/v1/admin/rotate" admin) "force=1")) = Some 503
  /\ status (run true (mkWire (mkReq "POST" "/v1/admin/rotate" admin) "force=perhaps")) = Some 400
  /\ status (run true (get "/v1/tunnels/aa/proxy/https/example.org/x" "" tagged)) = Some 202
  /\ x_answer (run false (get "/v1/tunnels/aa/proxy/https/example.org/x" "" tagged)) = Answered Panicked
  /\ status (run true (get "/v1/tunnels/aa/proxy/https/example.org/x" "" ∅)) = Some 401.
Proof. by vm_compute. Qed.
End ApiDemo.
Import ApiDemo.

Lemma api_request_witness :
  let x := run true (get "/v1/tunnels/aa/proxy/https/example.org/x" "" HandlersDemo.hdr) in
  status x = Some 200 /\ x_logged x = Some 200 /\ x_routes x = [Acquired "aa"; Released "aa"]
  /\ answer_carries "rid" (x_answer x).
Proof.
  cbn zeta. split; [vm_compute; reflexivity |]. split; [vm_compute; reflexivity |]. split; [vm_compute; reflexivity |].
  refine (proj1 (api_request (fun _ _ => true) FlowDemo.parse0 FlowDemo.Do0 (opts true) FlowDemo.submit0 (200 * Second) "rid" ∅
    (get "/v1/tunnels/aa/proxy/https/example.org/x" "" HandlersDemo.hdr) _ eq_refl _ hdr_canonical)); [discriminate |].
  intros tag out resp Hr. discriminate Hr.
Defined.
