(* ===== verification/Regexp.v ===== *)
(** * Regular expressions as package regexp runs them

    The leftmost-first (Perl) search for patterns made of characters, classes, greedy
    repetition of a class, choice, [^] and [\b], and the replacement of all matches.
    The patterns the program writes down have only ASCII classes, so the search is on
    bytes: no byte of a longer rune is in a class, and none is a word character.

    [go] is the backtracking search, [matches] says which texts a pattern describes in
    which surroundings; [go_sound] and [go_complete] relate the two. *)

From S2P Require Import Prelude GoStrings.

Module Regexp.

Inductive re :=
| Eps
| Chr (p : ascii -> bool)
| Cat (a b : re)
| Alt (a b : re)          (* [a|b], preferring [a] *)
| Many (p : ascii -> bool) (* [p*] *)
| Bol                     (* [^] *)
| WordB.                  (* [\b] *)

Definition Plus (p : ascii -> bool) : re := Cat (Chr p) (Many p).
Definition Opt (a : re) : re := Alt a Eps.
(** [p{1,3}] *)
Definition OneToThree (p : ascii -> bool) : re := Cat (Chr p) (Opt (Cat (Chr p) (Opt (Chr p)))).
Fixpoint Text (s : string) : re :=
  match s with "" => Eps | String c s' => Cat (Chr (Ascii.eqb c)) (Text s') end.

Definition word_char (c : ascii) : bool := is_upper c || is_lower c || is_digit c || Ascii.eqb c "_".
Definition is_word (c : option ascii) : bool := match c with Some c => word_char c | None => false end.

(** ** The search *)

(** [prev] is the byte in front, [k] what has to match behind; the result is how many
    bytes are taken in all. *)
Definition cont := option ascii -> list ascii -> option nat.

Fixpoint many (p : ascii -> bool) (prev : option ascii) (s : list ascii) (k : cont) : option nat :=
  match s with
  | [] => k prev []
  | c :: s' =>
      if p c then match many p (Some c) s' k with Some n => Some (S n) | None => k prev (c :: s') end
      else k prev (c :: s')
  end.

Fixpoint go (r : re) (prev : option ascii) (s : list ascii) (k : cont) : option nat :=
  match r with
  | Eps => k prev s
  | Chr p => match s with c :: s' => if p c then S <$> k (Some c) s' else None | [] => None end
  | Cat a b => go a prev s (fun prev s => go b prev s k)
  | Alt a b => match go a prev s k with Some n => Some n | None => go b prev s k end
  | Many p => many p prev s k
  | Bol => match prev with None => k prev s | Some _ => None end
  | WordB => if xorb (is_word prev) (is_word (head s)) then k prev s else None
  end.

Definition match_at (r : re) (prev : option ascii) (s : list ascii) : option nat := go r prev s (fun _ _ => Some O).

(** ** Searching and replacing *)

Fixpoint find (r : re) (prev : option ascii) (s : list ascii) : bool :=
  match match_at r prev s with
  | Some _ => true
  | None => match s with [] => false | c :: s' => find r (Some c) s' end
  end.
Definition MatchString (r : re) (s : string) : bool := find r None (String.list_ascii_of_string s).

(** [ReplaceAllStringFunc] of a pattern that matches no empty text; [skip] bytes belong
    to the last match. *)
Fixpoint replace (r : re) (f : list ascii -> list ascii) (skip : nat) (prev : option ascii) (s : list ascii) : list ascii :=
  match s with
  | [] => []
  | c :: s' =>
      match skip with
      | S k => replace r f k (Some c) s'
      | O =>
          match match_at r prev s with
          | Some (S n) => f (take (S n) s) ++ replace r f n (Some c) s'
          | _ => c :: replace r f O (Some c) s'
          end
      end
  end.

Definition ReplaceAllStringFunc (r : re) (s : string) (f : string -> string) : string :=
  String.string_of_list_ascii
    (replace r (fun m => String.list_ascii_of_string (f (String.string_of_list_ascii m))) O None
       (String.list_ascii_of_string s)).
(** The replacement has no [$]. *)
Definition ReplaceAllString (r : re) (s repl : string) : string := ReplaceAllStringFunc r s (fun _ => repl).

(** ** What a pattern describes *)

Definition lastp (prev : option ascii) (m : list ascii) : option ascii :=
  match last m with Some c => Some c | None => prev end.

(** [m], after [prev] and before [rest]. *)
Fixpoint matches (r : re) (prev : option ascii) (m rest : list ascii) : Prop :=
  match r with
  | Eps => m = []
  | Chr p => exists c, m = [c] /\ p c = true
  | Cat a b => exists m1 m2, m = m1 ++ m2 /\ matches a prev m1 (m2 ++ rest) /\ matches b (lastp prev m1) m2 rest
  | Alt a b => matches a prev m rest \/ matches b prev m rest
  | Many p => forallb p m = true
  | Bol => m = [] /\ prev = None
  | WordB => m = [] /\ xorb (is_word prev) (is_word (head rest)) = true
  end.
End Regexp.
Import Regexp.

Lemma lastp_nil prev : lastp prev [] = prev.
Proof. done. Qed.

Lemma lastp_app prev a b : lastp prev (a ++ b) = lastp (lastp prev a) b.
Proof. unfold lastp. rewrite last_app. by destruct (last b). Qed.

Lemma lastp_cons prev c m : lastp prev (c :: m) = lastp (Some c) m.
Proof. apply (lastp_app prev [c] m). Qed.

Lemma many_sound p prev s k n :
  many p prev s k = Some n ->
  exists m rest n', s = m ++ rest /\ forallb p m = true /\ k (lastp prev m) rest = Some n' /\ n = (length m + n')%nat.
Proof.
  revert prev n. induction s as [|c s IH]; intros prev n; cbn; [by exists [], [], n |].
  destruct (p c) eqn:Ep; [| by exists [], (c :: s), n].
  destruct (many p (Some c) s k) as [n1|] eqn:E; [| by exists [], (c :: s), n]. intros [= <-].
  destruct (IH _ _ E) as (m & rest & n' & -> & Hm & Hk & ->). exists (c :: m), rest, n'.
  cbn. rewrite Ep, lastp_cons. done.
Qed.

Lemma many_complete p prev m rest k :
  forallb p m = true -> is_Some (k (lastp prev m) rest) -> is_Some (many p prev (m ++ rest) k).
Proof.
  revert prev. induction m as [|c m IH]; intros prev Hm Hk.
  - destruct rest as [|c s]; [done |]. cbn. destruct (p c); [| done]. destruct (many _ _ _ _); [done | exact Hk].
  - cbn in *. apply andb_true_iff in Hm as [-> Hm]. rewrite lastp_cons in Hk. by destruct (IH _ Hm Hk) as [n ->].
Qed.

(** The search finds only what the pattern describes, and finds something if the pattern
    describes a text at this place. *)
Lemma go_sound r prev s k n :
  go r prev s k = Some n ->
  exists m rest n', s = m ++ rest /\ matches r prev m rest /\ k (lastp prev m) rest = Some n' /\ n = (length m + n')%nat.
Proof.
  revert prev s k n. induction r as [|p|a IHa b IHb|a IHa b IHb|p| |]; intros prev s k n; cbn.
  - by exists [], s, n.
  - destruct s as [|c s]; [done |]. destruct (p c) eqn:Ep; [| done]. destruct (k (Some c) s) as [n'|] eqn:E; [| done].
    intros [= <-]. exists [c], s, n'. split_and!; [done | by eauto | done | done].
  - intros (m1 & r1 & n1 & -> & H1 & (m2 & rest & n2 & -> & H2 & Hk & ->)%IHb & ->)%IHa.
    exists (m1 ++ m2), rest, n2. rewrite lastp_app, length_app, (assoc_L (++)). split_and!; [done | by eauto | done | lia].
  - destruct (go a prev s k) as [n1|] eqn:E; intros H.
    + injection H as <-. destruct (IHa _ _ _ _ E) as (m & rest & n' & ? & ? & ?). exists m, rest, n'. by eauto.
    + destruct (IHb _ _ _ _ H) as (m & rest & n' & ? & ? & ?). exists m, rest, n'. by eauto.
  - apply many_sound.
  - destruct prev; [done |]. intros H. by exists [], s, n.
  - destruct (xorb _ _) eqn:E; [| done]. intros H. by exists [], s, n.
Qed.

Lemma go_cat a b prev s k n :
  go (Cat a b) prev s k = Some n ->
  exists m rest n', s = m ++ rest /\ matches a prev m rest /\ go b (lastp prev m) rest k = Some n' /\ n = (length m + n')%nat.
Proof. exact (go_sound a prev s _ n). Qed.

Lemma go_complete r prev m rest k :
  matches r prev m rest -> is_Some (k (lastp prev m) rest) -> is_Some (go r prev (m ++ rest) k).
Proof.
  revert prev m rest k. induction r as [|p|a IHa b IHb|a IHa b IHb|p| |]; intros prev m rest k; cbn.
  - by intros ->.
  - intros (c & -> & Hp) [n Hn]. cbn. rewrite Hp. unfold lastp in Hn. cbn in Hn. by rewrite Hn.
  - intros (m1 & m2 & -> & H1 & H2) Hk. rewrite <- (assoc_L (++)). apply IHa; [done |]. apply IHb; [done |]. by rewrite <- lastp_app.
  - intros [Ha|Hb] Hk; [by destruct (IHa _ _ _ _ Ha Hk) as [n ->] |].
    destruct (go a prev (m ++ rest) k); [done | by apply IHb].
  - apply many_complete.
  - intros [-> ->]. done.
  - intros [-> H]. rewrite app_nil_l. by rewrite H.
Qed.

(** A repetition at the end takes all it can. *)
Lemma many_greedy p prev s n : many p prev s (fun _ _ => Some O) = Some n -> match drop n s with c :: _ => p c = false | [] => True end.
Proof.
  revert prev n. induction s as [|c s IH]; intros prev n; cbn; [by intros [= <-] |].
  destruct (p c) eqn:Ep; [| by intros [= <-]]. destruct (many p (Some c) s _) as [n1|] eqn:E.
  - intros [= <-]. by apply (IH _ _ E).
  - destruct (many_complete p (Some c) [] s (fun _ _ => Some O)) as [n' Hn]; [done | done |]. cbn in Hn. congruence.
Qed.

(** Only whether the next byte is a word character matters of what follows. *)
Lemma matches_rest r prev m rest rest' :
  is_word (head rest) = is_word (head rest') -> matches r prev m rest -> matches r prev m rest'.
Proof.
  revert prev m rest rest'. induction r as [|p|a IHa b IHb|a IHa b IHb|p| |]; intros prev m rest rest' Hw; cbn; try done.
  - intros (m1 & m2 & -> & H1 & H2). exists m1, m2. split_and!; [done | | by eapply IHb].
    eapply IHa; [| exact H1]. by destruct m2.
  - intros [H|H]; [left; by eapply IHa | right; by eapply IHb].
  - by rewrite Hw.
Qed.

(** A superset of the characters of the texts a pattern describes. *)
Fixpoint chars (r : re) (c : ascii) : bool :=
  match r with
  | Chr p | Many p => p c
  | Cat a b | Alt a b => chars a c || chars b c
  | _ => false
  end.

Lemma matches_chars r prev m rest : matches r prev m rest -> forall c, c ∈ m -> chars r c = true.
Proof.
  revert prev m rest. induction r as [|p|a IHa b IHb|a IHa b IHb|p| |]; intros prev m rest; cbn.
  - intros ->. by intros c ?%not_elem_of_nil.
  - intros (c & -> & Hp) c' ->%list_elem_of_singleton. done.
  - intros (m1 & m2 & -> & H1 & H2) c [Hc|Hc]%elem_of_app; apply orb_true_iff; eauto.
  - intros [H|H] c Hc; apply orb_true_iff; eauto.
  - intros Hm c Hc. rewrite forallb_forall in Hm. by apply Hm, list_elem_of_In.
  - intros [-> _]. by intros c ?%not_elem_of_nil.
  - intros [-> _]. by intros c ?%not_elem_of_nil.
Qed.

(** ** Searching *)

(** Somewhere in [s] there is a text that the pattern describes. *)
Definition hit (r : re) (prev : option ascii) (s : list ascii) : Prop :=
  exists pre m post, s = pre ++ m ++ post /\ matches r (lastp prev pre) m post.

Lemma match_at_sound r prev s n :
  match_at r prev s = Some n -> exists m rest, s = m ++ rest /\ matches r prev m rest /\ n = length m.
Proof.
  intros (m & rest & n' & -> & Hm & [= <-] & ->)%go_sound. exists m, rest. split_and!; [done | done | lia].
Qed.

Lemma match_at_complete r prev m rest : matches r prev m rest -> is_Some (match_at r prev (m ++ rest)).
Proof. intros Hm. by eapply go_complete. Qed.

Lemma find_spec r prev s : find r prev s = true <-> hit r prev s.
Proof.
  revert prev. induction s as [|c s IH]; intros prev; cbn [find].
  - destruct (match_at r prev []) as [n|] eqn:E; split; try done.
    + intros _. apply match_at_sound in E as (m & rest & Hs & Hm & _). by exists [], m, rest.
    + intros (pre & m & post & Hs & Hm). symmetry in Hs. apply app_nil in Hs as [-> [-> ->]%app_nil].
      destruct (match_at_complete _ _ _ _ Hm). cbn in *. congruence.
  - destruct (match_at r prev (c :: s)) as [n|] eqn:E.
    + split; [intros _ | done]. apply match_at_sound in E as (m & rest & Hs & Hm & _). by exists [], m, rest.
    + rewrite IH. split; intros (pre & m & post & Hs & Hm).
      * exists (c :: pre), m, post. rewrite lastp_cons. by subst.
      * destruct pre as [|x pre].
        -- destruct (match_at_complete _ _ _ _ Hm) as [n Hn]. cbn in Hs. rewrite <- Hs in Hn. cbn in Hn. congruence.
        -- injection Hs as <- ->. exists pre, m, post. by rewrite lastp_cons in Hm.
Qed.

Lemma replace_skip r f n prev s : replace r f n prev s = replace r f O (lastp prev (take n s)) (drop n s).
Proof.
  revert prev s. induction n as [|n IH]; intros prev s; [by rewrite take_0 |].
  destruct s as [|c s]; [done |]. cbn [replace take drop]. by rewrite lastp_cons, IH.
Qed.

(** Nothing to find, nothing replaced. *)
Lemma replace_clean r f prev s : find r prev s = false -> replace r f O prev s = s.
Proof.
  revert prev. induction s as [|c s IH]; intros prev; [done |]. cbn [find replace].
  destruct (match_at r prev (c :: s)); [done |]. intros Hf. by rewrite IH.
Qed.
