(* ===== verification/Scrub.v ===== *)
(** * The patterns of the log scrubber ([infrastructure/observability/scrubhandler.go])

    [scrubString] replaces addresses with [<HOST:PORT>] in four passes.  No pass leaves
    a match of its own pattern behind or makes one of an earlier pattern, so none of
    the four patterns matches in what [scrubString] returns. *)

From S2P Require Import Prelude GoStrings Regexp.
Import Regexp.

Module Scrub.

Definition hex_char (c : ascii) : bool := is_digit c || between "a" "f" c || between "A" "F" c.
Definition letter (c : ascii) : bool := is_upper c || is_lower c.

(** [:\d+] *)
Definition port : re := Cat (Chr (Ascii.eqb ":")) (Plus is_digit).

(** [\b(?:\d{1,3}\.){3}\d{1,3}:\d+\b] *)
Definition reIPv4Port : re :=
  let octet := OneToThree is_digit in
  let dotted := Cat octet (Chr (Ascii.eqb ".")) in
  Cat (Cat WordB (Cat dotted (Cat dotted (Cat dotted octet)))) (Cat port WordB).

(** [\[[0-9a-fA-F:]+\]:\d+] *)
Definition reIPv6Port : re :=
  Cat (Cat (Chr (Ascii.eqb "[")) (Cat (Plus (fun c => hex_char c || Ascii.eqb c ":")) (Chr (Ascii.eqb "]")))) port.

(** The class of white space, and the class of characters in front of a host name. *)
Definition space (c : ascii) : bool :=
  bool_decide (c ∈ [" "; ascii_of_nat 9; ascii_of_nat 10; ascii_of_nat 12; ascii_of_nat 13]%char).
Definition delim (c : ascii) : bool :=
  space c || bool_decide (c ∈ [ascii_of_nat 34; "'"; "="; ","; "("]%char).

(** [(?:^|D)[a-zA-Z][\w.-]*\.[a-zA-Z]{2,}:\d+\b], where D is the class [delim] *)
Definition reHostnamePort : re :=
  Cat (Cat (Alt Bol (Chr delim))
        (Cat (Chr letter)
          (Cat (Many (fun c => word_char c || Ascii.eqb c "." || Ascii.eqb c "-"))
            (Cat (Chr (Ascii.eqb ".")) (Cat (Chr letter) (Plus letter))))))
      (Cat port WordB).

(** [\blocalhost:\d+\b] *)
Definition reLocalhostPort : re := Cat (Cat WordB (Text "localhost")) (Cat port WordB).

Definition scrubReplacement : string := "<HOST:PORT>".

(** The characters kept in front of a host name: space, tab, newline, quotes, [=], [,], [(]. *)
Definition kept_delims : list ascii := [" "; ascii_of_nat 9; ascii_of_nat 10; ascii_of_nat 34; "'"; "="; ","; "("]%char.

Definition scrub_hostname (m : string) : string :=
  match m with
  | "" => scrubReplacement
  | String c _ => if bool_decide (c ∈ kept_delims) then String c scrubReplacement else scrubReplacement
  end.

Definition scrubString (s : string) : string :=
  let s := ReplaceAllString reIPv4Port s scrubReplacement in
  let s := ReplaceAllString reIPv6Port s scrubReplacement in
  let s := ReplaceAllStringFunc reHostnamePort s scrub_hostname in
  ReplaceAllString reLocalhostPort s scrubReplacement.
End Scrub.
Import Scrub.

Example scrub_examples :
  scrubString "dial tcp 10.0.0.1:80: refused" = "dial tcp <HOST:PORT>: refused"
  /\ scrubString "addr=[fe80::1]:443" = "addr=<HOST:PORT>"
  /\ scrubString "a.example.org:1,b.example.org:22x x=b.example.org:22" = "<HOST:PORT>,b.example.org:22x x=<HOST:PORT>"
  /\ scrubString "/users.json:5 localhost:8080" = "/users.json:5 <HOST:PORT>".
Proof. by vm_compute. Qed.

(** ** One pass *)

Definition repl : list ascii := String.list_ascii_of_string scrubReplacement.

(** A match stays clear of the ends of the replacement text and ends in a digit. *)
Definition plain (m : list ascii) : Prop :=
  "<"%char ∉ m /\ ">"%char ∉ m /\ exists c, last m = Some c /\ is_digit c = true.

Lemma digit_word c : is_digit c = true -> word_char c = true.
Proof. unfold word_char. intros ->. by rewrite orb_true_r. Qed.

(** A plain text cannot overlap a text without digits that ends in [>]. *)
Lemma no_overlap x y pre m post :
  x ++ y = pre ++ m ++ post -> last x = Some ">"%char -> (forall c, c ∈ x -> is_digit c = false) -> plain m ->
  exists pre2, pre = x ++ pre2 /\ y = pre2 ++ m ++ post.
Proof.
  intros He Hl Hx (_ & Hgt & cd & Hm & Hd). apply app_eq_inv in He as [(k & -> & Hk)|(k & -> & Hk)]; [| by eauto].
  destruct k as [|z k']; [exists []; rewrite !app_nil_r; by cbn in Hk |]. exfalso.
  rewrite last_app_cons in Hl. apply app_eq_inv in Hk as [(k & -> & _)|(k & E & _)].
  - apply Hgt, elem_of_app. left. by apply last_Some_elem_of.
  - assert (cd ∈ m) as Hin by by apply last_Some_elem_of.
    rewrite (Hx cd) in Hd; [done |]. apply elem_of_app. right. rewrite E. apply elem_of_app. by left.
Qed.

Section Pass.
Context (R Q : re) (f : list ascii -> list ascii).

(** The replacement keeps at most the first character, and only if it is no word character. *)
Definition redacts : Prop :=
  forall m, f m = repl \/ exists c m', m = c :: m' /\ word_char c = false /\ c <> "<"%char /\ f m = c :: repl.

(** Matches do not begin in the middle of a word. *)
Definition starts_clear (r : re) : Prop :=
  forall prev m rest, matches r prev m rest -> m <> [] /\ (is_word prev = false \/ is_word (head m) = false).

Definition plain_matches (r : re) : Prop := forall prev m rest, matches r prev m rest -> plain m.

(** What [Q] describes right behind a replacement it describes right behind the match
    that was replaced. *)
Definition restarts : Prop :=
  forall prev m rest m' rest', match_at R prev (m ++ rest) = Some (length m) -> matches R prev m rest ->
    rest = m' ++ rest' -> m' <> [] -> matches Q (Some ">"%char) m' rest' -> matches Q (lastp prev m) m' rest'.

Context (Hf : redacts) (HR : starts_clear R) (HQ : plain_matches Q) (Hre : restarts).

Lemma replaced_shape m : last (f m) = Some ">"%char /\ (forall c, c ∈ f m -> is_digit c = false).
Proof.
  assert (forall c, c ∈ repl -> is_digit c = false) as Hr.
  { intros c Hc. assert (forallb (fun c => negb (is_digit c)) repl = true) as H by reflexivity.
    rewrite forallb_forall in H. apply negb_true_iff, H. by apply list_elem_of_In. }
  destruct (Hf m) as [->|(c & m' & _ & Hc & _ & ->)]; [done |]. split; [done |].
  intros x [->|Hx]%elem_of_cons; [| by apply Hr]. destruct (is_digit c) eqn:E; [| done]. by rewrite (digit_word _ E) in Hc.
Qed.

(** The beginning of what a pass returns, up to a digit and without [<], is unchanged, and
    so is whether a word character follows. *)
Lemma out_prefix prev s m post :
  replace R f O prev s = m ++ post -> "<"%char ∉ m ->
  match last m with Some c => is_digit c = true | None => is_word prev = true end ->
  exists post', s = m ++ post' /\ is_word (head post) = is_word (head post')
    /\ (m <> [] -> forall n, match_at R prev s <> Some (S n)).
Proof.
  revert prev m. induction s as [|c s IH]; intros prev m Ho Hlt Hl.
  { cbn in Ho. symmetry in Ho. apply app_nil in Ho as [-> ->]. by exists []. }
  destruct (match_at R prev (c :: s)) as [[|n]|] eqn:E; cbn [replace] in Ho; rewrite E in Ho.
  2: { apply match_at_sound in E as (m0 & rest & Hs & Hm0 & Hn). rewrite Hs, Hn, take_app_length in Ho.
       destruct (HR _ _ _ Hm0) as [_ Hcl]. destruct m0 as [|c0 m0]; [done |]. injection Hs as <- Hs. cbn in Hcl.
       destruct m as [|x m].
       - cbn in Ho, Hl. exists (c :: s). rewrite <- Ho. split; [done |]. split; [| done].
         destruct Hcl as [Hcl|Hcl]; [congruence |]. cbn. rewrite Hcl.
         destruct (Hf (c :: m0)) as [->|(c1 & m1 & [= <- <-] & Hc1 & _ & ->)]; [done | exact Hc1].
       - exfalso. destruct (Hf (c :: m0)) as [Hx|(c1 & m1 & [= <- <-] & Hc1 & _ & Hx)]; rewrite Hx in Ho; cbn in Ho.
         + injection Ho as <- _. by apply Hlt; left.
         + injection Ho as <- Ho. destruct m as [|y m].
           * cbn in Hl. by rewrite (digit_word _ Hl) in Hc1.
           * cbn in Ho. injection Ho as <- _. by apply Hlt; right; left. }
  all: destruct m as [|x m]; [cbn in Ho; exists (c :: s); by rewrite <- Ho |].
  all: injection Ho as <- Ho; destruct (IH (Some c) m Ho) as (post' & -> & Hw & _);
    [by intros ?; apply Hlt; right | destruct m as [|y m]; [by apply digit_word | by destruct (last_is_Some (y :: m)) as [_ [z Hz]]; [| rewrite last_cons_cons, Hz in Hl; rewrite Hz]] |].
  all: exists post'; split; [done |]; by split.
Qed.

(** A match of [Q] in what a pass returns is one in what it was given, at a place where
    [R] does not match. *)
Lemma out_hit s prev prev' pre m post :
  replace R f O prev s = pre ++ m ++ post -> matches Q (lastp prev' pre) m post ->
  (forall m0 post0, s = m0 ++ post0 -> m0 <> [] -> matches Q prev' m0 post0 -> matches Q prev m0 post0) ->
  exists pre' post', s = pre' ++ m ++ post' /\ matches Q (lastp prev pre') m post'
    /\ forall n, match_at R (lastp prev pre') (m ++ post') <> Some (S n).
Proof.
  revert prev prev' pre. induction s as [s IH] using (induction_ltof1 _ (@length ascii)). unfold ltof in IH.
  intros prev prev' pre Ho Hm Hedge. pose proof (HQ _ _ _ Hm) as Hpl. pose proof Hpl as (Hlt & _ & cd & Hl & Hd).
  destruct s as [|c s].
  { cbn in Ho. symmetry in Ho. apply app_nil in Ho as [-> [-> ->]%app_nil]. done. }
  assert (m <> []) as Hne by by intros ->.
  destruct (match_at R prev (c :: s)) as [[|n]|] eqn:E.
  2: { pose proof E as E0. cbn [replace] in Ho. rewrite E, replace_skip in Ho.
       apply match_at_sound in E as (m0 & rest & Hs & Hm0 & Hn).
       assert (drop n s = rest /\ lastp (Some c) (take n s) = lastp prev m0) as [Hd1 Hd2].
       { destruct m0 as [|c0 m0]; [done |]. injection Hs as <- ->. injection Hn as ->. rewrite drop_app_length, take_app_length, lastp_cons. done. }
       rewrite Hd1, Hd2 in Ho. destruct (replaced_shape (take (S n) (c :: s))) as [Hlast Hdig].
       destruct (no_overlap _ _ _ _ _ Ho Hlast Hdig Hpl) as (pre2 & -> & Ho2).
       assert (lastp prev' (f (take (S n) (c :: s)) ++ pre2) = lastp (Some ">"%char) pre2) as Hlp.
       { rewrite lastp_app. unfold lastp at 2. by rewrite Hlast. }
       rewrite Hlp in Hm. destruct (IH rest) with (prev := lastp prev m0) (prev' := Some ">"%char) (pre := pre2)
         as (pre' & post' & -> & Hq & Hnm); [| done | done | |].
       - rewrite Hs, length_app. destruct m0; [done |]. cbn. lia.
       - intros m1 p1 -> Hne1. eapply Hre; [| done | done | done]. rewrite <- Hs. by rewrite E0, Hn.
       - exists (m0 ++ pre'), post'. rewrite lastp_app, Hs, (assoc_L (++)). done. }
  all: destruct pre as [|x pre].
  1, 3: destruct (out_prefix prev (c :: s) m post Ho Hlt ltac:(by rewrite Hl)) as (post' & Hs & Hw & Hnm);
    exists [], post'; rewrite Hs in *; split_and!; [done | | by apply Hnm];
    apply Hedge; [done | done |]; by eapply matches_rest.
  all: cbn [replace] in Ho; rewrite E in Ho; injection Ho as <- Ho; rewrite lastp_cons in Hm.
  all: destruct (IH s) with (prev := Some c) (prev' := Some c) (pre := pre) as (pre' & post' & -> & Hq & Hnm);
    [cbn; lia | done | done | done |].
  all: exists (c :: pre'), post'; rewrite lastp_cons; done.
Qed.

Lemma pass_keeps_clean s : find Q None s = false -> find Q None (replace R f O None s) = false.
Proof.
  intros Hc. apply not_true_iff_false. intros (pre & m & post & Ho & Hm)%find_spec.
  destruct (out_hit s None None pre m post Ho Hm) as (pre' & post' & Hs & Hq & _); [done |].
  apply (not_true_iff_false (find Q None s)) in Hc. apply Hc, find_spec. by exists pre', m, post'.
Qed.
End Pass.

Lemma pass_cleans R f s :
  redacts f -> starts_clear R -> plain_matches R -> restarts R R -> find R None (replace R f O None s) = false.
Proof.
  intros Hf HR HQ Hre. apply not_true_iff_false. intros (pre & m & post & Ho & Hm)%find_spec.
  destruct (out_hit R R f Hf HR HQ Hre s None None pre m post Ho Hm) as (pre' & post' & Hs & Hq & Hnm); [done |].
  destruct (match_at_complete _ _ _ _ Hq) as [n Hn]. destruct n as [|n]; [| by apply (Hnm n)].
  apply match_at_sound in Hn as (m0 & rest & _ & Hm0 & Hlen). destruct (HR _ _ _ Hm0) as [Hne _]. by destruct m0.
Qed.

(** ** The four patterns *)

Lemma port_last prev m rest : matches port prev m rest -> exists c, last m = Some c /\ is_digit c = true.
Proof.
  intros (m1 & m2 & -> & _ & m3 & ds & -> & (c & -> & Hc) & Hds). cbn in Hds.
  change ([c] ++ ds) with (c :: ds). rewrite last_app_cons.
  destruct (last (c :: ds)) as [d|] eqn:E; [| by apply last_None in E]. exists d. split; [done |].
  apply last_Some_elem_of, elem_of_cons in E as [->|Hd]; [done |].
  rewrite forallb_forall in Hds. by apply Hds, list_elem_of_In.
Qed.

Lemma port_word_end prev m rest :
  matches (Cat port WordB) prev m rest ->
  (exists c, last m = Some c /\ is_digit c = true) /\ is_word (head rest) = false.
Proof.
  intros (m1 & m2 & -> & Hp & -> & Hw). rewrite app_nil_r. destruct (port_last _ _ _ Hp) as (c & Hl & Hc).
  split; [by exists c |]. unfold lastp in Hw. rewrite Hl in Hw. cbn in Hw. rewrite (digit_word _ Hc) in Hw.
  by destruct (is_word (head rest)).
Qed.

(** A pattern that ends in a port and [\b]. *)
Lemma host_port A prev m rest :
  matches (Cat A (Cat port WordB)) prev m rest ->
  (exists c, last m = Some c /\ is_digit c = true) /\ is_word (head rest) = false.
Proof.
  intros (m1 & m2 & -> & _ & [(c & Hl & Hc) Hw]%port_word_end). split; [| done]. exists c. by rewrite last_app, Hl.
Qed.

Lemma plain_of r prev m rest :
  matches r prev m rest -> chars r "<" = false -> chars r ">" = false ->
  (exists c, last m = Some c /\ is_digit c = true) -> plain m.
Proof. intros Hm H1 H2 Hd. split_and!; [| | done]; intros Hc%(matches_chars _ _ _ _ Hm); congruence. Qed.

Lemma plain_IPv4 : plain_matches reIPv4Port.
Proof. intros p m rest H. eapply plain_of; [exact H | done | done | exact (proj1 (host_port _ _ _ _ H))]. Qed.
Lemma plain_Hostname : plain_matches reHostnamePort.
Proof. intros p m rest H. eapply plain_of; [exact H | done | done | exact (proj1 (host_port _ _ _ _ H))]. Qed.
Lemma plain_Localhost : plain_matches reLocalhostPort.
Proof. intros p m rest H. eapply plain_of; [exact H | done | done | exact (proj1 (host_port _ _ _ _ H))]. Qed.
Lemma plain_IPv6 : plain_matches reIPv6Port.
Proof.
  intros p m rest H. eapply plain_of; [exact H | done | done |]. destruct H as (m1 & m2 & -> & _ & Hp).
  destruct (port_last _ _ _ Hp) as (c & Hl & Hc). exists c. by rewrite last_app, Hl.
Qed.

Lemma plain_ne m : plain m -> m <> [].
Proof. by intros (_ & _ & c & Hl & _) ->. Qed.

(** A pattern that begins with [\b]. *)
Lemma word_start A T prev m rest :
  matches (Cat (Cat WordB A) T) prev m rest -> m <> [] -> is_word prev = negb (is_word (head m)).
Proof.
  intros (m1 & m2 & -> & (m3 & m4 & -> & [-> Hw] & _) & _) Hne. cbn in *. rewrite (assoc_L (++)) in Hw.
  destruct (m4 ++ m2) as [|c m]; [done |]. cbn in *. by destruct (is_word prev), (word_char c).
Qed.

Lemma delim_not_word c : delim c = true -> word_char c = false.
Proof. by destruct c as [[] [] [] [] [] [] [] []]; vm_compute. Qed.

Lemma word_start_clear A T : plain_matches (Cat (Cat WordB A) T) -> starts_clear (Cat (Cat WordB A) T).
Proof.
  intros Hp prev m rest H. pose proof (plain_ne _ (Hp _ _ _ H)) as Hne. split; [done |].
  rewrite (word_start _ _ _ _ _ H Hne). destruct (is_word (head m)); [by left | by right].
Qed.

Lemma clear_IPv6 : starts_clear reIPv6Port.
Proof.
  intros prev m rest (m1 & m2 & -> & (m3 & m4 & -> & (c & -> & Hc) & _) & _). split; [done |]. right. cbn.
  apply Ascii.eqb_eq in Hc as <-. done.
Qed.

Lemma clear_Hostname : starts_clear reHostnamePort.
Proof.
  intros prev m rest H. split; [by eapply plain_ne, plain_Hostname |].
  destruct H as (m1 & m2 & -> & (m3 & m4 & -> & [[-> ->]|(c & -> & Hc)] & _) & _); [by left |].
  right. by apply delim_not_word.
Qed.

(** Behind a match that ends in [\b] no pattern that begins with [\b] starts. *)
Lemma restart_word A B T : restarts (Cat A (Cat port WordB)) (Cat (Cat WordB B) T).
Proof.
  intros prev m rest m' rest' _ [_ Hw]%host_port -> Hne Hq. exfalso.
  pose proof (word_start _ _ _ _ _ Hq Hne) as Hs. destruct m' as [|c m']; [done |]. cbn in Hs, Hw. by rewrite Hw in Hs.
Qed.

(** Patterns without [^] and [\b]. *)
Fixpoint context_free (r : re) : bool :=
  match r with Bol | WordB => false | Cat a b | Alt a b => context_free a && context_free b | _ => true end.

Lemma matches_anywhere r prev prev' m rest rest' :
  context_free r = true -> matches r prev m rest -> matches r prev' m rest'.
Proof.
  revert prev prev' m rest rest'. induction r as [|p|a IHa b IHb|a IHa b IHb|p| |]; intros prev prev' m rest rest'; cbn; try done.
  - intros [Ha Hb]%andb_true_iff (m1 & m2 & -> & H1 & H2). exists m1, m2. eauto.
  - intros [Ha Hb]%andb_true_iff [H|H]; eauto.
Qed.

Lemma restart_IPv6 R : restarts R reIPv6Port.
Proof. intros prev m rest m' rest' _ _ _ _ H. by eapply matches_anywhere. Qed.

Lemma restart_Hostname R : starts_clear R -> restarts R reHostnamePort.
Proof.
  intros HR prev m rest m' rest' _ Hm _ _ (m1 & m2 & -> & (m3 & m4 & -> & [[_ [=]]|(c & -> & Hc)] & H4) & H2).
  exists ([c] ++ m4), m2. split; [done |]. split.
  - exists [c], m4. split; [done |]. split; [right; by exists c | exact H4].
  - cbn in *. rewrite lastp_cons in *. exact H2.
Qed.

(** An IPv6 match takes all the digits of the port. *)
Lemma IPv6_greedy prev m rest :
  match_at reIPv6Port prev (m ++ rest) = Some (length m) -> match rest with c :: _ => is_digit c = false | [] => True end.
Proof.
  unfold match_at, reIPv6Port, port, Plus. intros (a & r1 & n1 & Hs & _ & H & Hn)%go_cat. apply go_cat in H as (b & r2 & n2 & -> & _ & H & ->).
  apply go_cat in H as (d & r3 & n3 & -> & _ & H & ->).
  apply many_greedy in H. rewrite !(assoc_L (++)) in Hs.
  assert (rest = drop n3 r3) as ->; [| exact H].
  apply (f_equal (drop (length m))) in Hs. rewrite drop_app_length in Hs. rewrite Hs.
  rewrite drop_app_ge by (rewrite !length_app; lia). f_equal. rewrite !length_app. lia.
Qed.

Lemma restart_IPv6_IPv4 : restarts reIPv6Port reIPv4Port.
Proof.
  intros prev m rest m' rest' Hg%IPv6_greedy _ -> Hne Hq. exfalso.
  destruct Hq as (m1 & m2 & -> & (m3 & m4 & -> & [-> _] & m5 & m6 & -> & (m7 & m8 & -> & H & _) & _) & _).
  destruct H as (m9 & m10 & -> & (c & -> & Hc) & _). cbn in Hg. congruence.
Qed.

Lemma redacts_all : redacts (fun _ => repl).
Proof. intros m. by left. Qed.

Lemma redacts_hostname : redacts (fun m => String.list_ascii_of_string (scrub_hostname (String.string_of_list_ascii m))).
Proof.
  intros [|c m]; [by left |]. cbn. case_bool_decide as Hc; [| by left]. right. exists c, m.
  assert (word_char c = false /\ c <> "<"%char) as [? ?]; [| done].
  unfold kept_delims in Hc. set_unfold in Hc. destruct_or! Hc; by subst c.
Qed.

(** ** The result of [scrubString] *)

Definition scrubPatterns : list re := [reIPv4Port; reIPv6Port; reHostnamePort; reLocalhostPort].

(** No pattern matches in [s]. *)
Definition address_free (s : string) : bool := forallb (fun r => negb (MatchString r s)) scrubPatterns.

Lemma address_free_spec s : address_free s = true <-> forall r, r ∈ scrubPatterns -> MatchString r s = false.
Proof.
  unfold address_free. rewrite forallb_forall. setoid_rewrite <- list_elem_of_In.
  split; intros H r Hr; [by apply negb_true_iff, H | by apply negb_true_iff, H].
Qed.

Lemma MatchString_replaced r r' f s :
  MatchString r (ReplaceAllStringFunc r' s f)
  = find r None (replace r' (fun m => String.list_ascii_of_string (f (String.string_of_list_ascii m))) O None (String.list_ascii_of_string s)).
Proof. unfold MatchString, ReplaceAllStringFunc. by rewrite String.list_ascii_of_string_of_list_ascii. Qed.

Lemma scrubString_free s : address_free (scrubString s) = true.
Proof.
  pose proof (word_start_clear _ _ plain_IPv4) as H4. pose proof (word_start_clear _ _ plain_Localhost) as HL.
  pose proof clear_IPv6 as H6. pose proof clear_Hostname as HH.
  apply address_free_spec. unfold scrubString. set (s1 := ReplaceAllString reIPv4Port s _).
  set (s2 := ReplaceAllString reIPv6Port s1 _). set (s3 := ReplaceAllStringFunc reHostnamePort s2 _).
  assert (MatchString reIPv4Port s1 = false) as E1.
  { unfold s1, ReplaceAllString. rewrite MatchString_replaced. apply pass_cleans; eauto using redacts_all, plain_IPv4. apply restart_word. }
  assert (MatchString reIPv4Port s2 = false /\ MatchString reIPv6Port s2 = false) as [E2 F2].
  { unfold s2, ReplaceAllString. rewrite !MatchString_replaced. split.
    - apply pass_keeps_clean; eauto using redacts_all, plain_IPv4, restart_IPv6_IPv4.
    - apply pass_cleans; eauto using redacts_all, plain_IPv6, restart_IPv6. }
  assert (MatchString reIPv4Port s3 = false /\ MatchString reIPv6Port s3 = false /\ MatchString reHostnamePort s3 = false) as (E3 & F3 & G3).
  { unfold s3. rewrite !MatchString_replaced. split_and!.
    - apply pass_keeps_clean; eauto using redacts_hostname, plain_IPv4. apply restart_word.
    - apply pass_keeps_clean; eauto using redacts_hostname, plain_IPv6, restart_IPv6.
    - apply pass_cleans; eauto using redacts_hostname, plain_Hostname, restart_Hostname. }
  unfold ReplaceAllString. intros r Hr. rewrite MatchString_replaced. unfold scrubPatterns in Hr. set_unfold in Hr.
  destruct_or! Hr; subst r.
  - apply pass_keeps_clean; eauto using redacts_all, plain_IPv4. apply restart_word.
  - apply pass_keeps_clean; eauto using redacts_all, plain_IPv6, restart_IPv6.
  - apply pass_keeps_clean; eauto using redacts_all, plain_Hostname, restart_Hostname.
  - apply pass_cleans; eauto using redacts_all, plain_Localhost. apply restart_word.
Qed.

Lemma ReplaceAll_clean r f s : MatchString r s = false -> ReplaceAllStringFunc r s f = s.
Proof.
  intros Hc. unfold ReplaceAllStringFunc. rewrite replace_clean by exact Hc. apply String.string_of_list_ascii_of_string.
Qed.

Lemma scrubString_id s : address_free s = true -> scrubString s = s.
Proof.
  rewrite address_free_spec. intros Hs. unfold scrubString, ReplaceAllString.
  rewrite !(ReplaceAll_clean _ _ s); [done | apply Hs; set_solver ..].
Qed.

(** [scrubString] removes every address.  None of its four patterns (IPv4 with a port,
    bracketed IPv6 with a port, a host name with a port, localhost with a port) matches
    anywhere in what it returns, although the patterns are replaced one after the other; a
    text in which none matches is returned as it is, so scrubbing twice changes nothing. *)
Theorem scrub_complete s :
  (forall r, r ∈ [reIPv4Port; reIPv6Port; reHostnamePort; reLocalhostPort] -> MatchString r (scrubString s) = false)
  /\ scrubString (scrubString s) = scrubString s
  /\ ((forall r, r ∈ [reIPv4Port; reIPv6Port; reHostnamePort; reLocalhostPort] -> MatchString r s = false) -> scrubString s = s).
Proof.
  split_and!; [apply address_free_spec, scrubString_free | apply scrubString_id, scrubString_free |].
  intros Hs. by apply scrubString_id, address_free_spec.
Qed.

(** ** What the patterns leave *)

(** The address of a zoned interface as [net.JoinHostPort] writes it is not scrubbed. *)
Lemma zone_not_scrubbed : scrubString "dial tcp [fe80::1%eth0]:443" = "dial tcp [fe80::1%eth0]:443".
Proof. vm_compute. reflexivity. Qed.

(** A carriage return in front of a host name is not kept, a newline is. *)
Lemma return_dropped :
  scrubString (String (ascii_of_nat 13) "example.org:80") = "<HOST:PORT>"
  /\ scrubString (String (ascii_of_nat 10) "example.org:80") = String (ascii_of_nat 10) "<HOST:PORT>".
Proof. by vm_compute. Qed.
