(* ===== verification/ScrubSpec.v ===== *)
(** * What the log scrubber removes, said without its patterns

    [holds_address s]: somewhere in [s] there is an IPv4 or bracketed IPv6 address, a host
    name or localhost, with a port, in the surroundings the scrubber asks for.  The four
    patterns of [Scrub] match exactly there. *)

From S2P Require Import Prelude GoStrings Regexp Scrub.
Import Regexp Scrub.

Definition one_of (cs : string) (c : ascii) : bool := bool_decide (c ∈ String.list_ascii_of_string cs).
Definition digit10 : ascii -> bool := one_of "0123456789".
Definition letter52 : ascii -> bool := one_of "abcdefghijklmnopqrstuvwxyzABCDEFGHIJKLMNOPQRSTUVWXYZ".
(** White space, quotes, [=], [,] and [(]. *)
Definition in_front (c : ascii) : bool :=
  one_of " '=,(" c || bool_decide (c ∈ ascii_of_nat <$> [9; 10; 12; 13; 34]%nat).

Definition all_of (p : ascii -> bool) (m : list ascii) : Prop := m <> [] /\ forallb p m = true.
Definition octet (m : list ascii) : Prop := all_of digit10 m /\ (length m <= 3)%nat.

(** Four groups of one to three digits, [localhost], or an IPv6 address in brackets. *)
Definition ipv4_text (h : list ascii) : Prop :=
  exists a b c d, h = a ++ "."%char :: b ++ "."%char :: c ++ "."%char :: d /\ octet a /\ octet b /\ octet c /\ octet d.
Definition ipv6_text (h : list ascii) : Prop :=
  exists x, h = "["%char :: x ++ ["]"%char] /\ all_of (one_of "0123456789abcdefABCDEF:") x.
(** A name that begins with a letter and ends in a dot and two or more letters. *)
Definition host_text (h : list ascii) : Prop :=
  exists l x t, h = l :: x ++ "."%char :: t /\ letter52 l = true
    /\ forallb (fun c => letter52 c || digit10 c || one_of "_.-" c) x = true /\ forallb letter52 t = true /\ (2 <= length t)%nat.

(** [m], after [prev] and before [rest], is an address with a port. *)
Definition address_at (prev : option ascii) (m rest : list ascii) : Prop :=
  exists h p, m = h ++ ":"%char :: p /\ all_of digit10 p
    /\ (ipv6_text h
        \/ is_word (head rest) = false
           /\ (is_word prev = false /\ (ipv4_text h \/ h = String.list_ascii_of_string "localhost")
               \/ prev = None /\ host_text h
               \/ exists c h', h = c :: h' /\ in_front c = true /\ host_text h')).
Definition holds_address (s : string) : Prop :=
  exists pre m rest, String.list_ascii_of_string s = pre ++ m ++ rest /\ address_at (last pre) m rest.

Ltac each_char := intros c; by destruct c as [[] [] [] [] [] [] [] []]; vm_compute.
Lemma digit10_eq c : is_digit c = digit10 c. Proof. revert c. each_char. Qed.
Lemma letter52_eq c : letter c = letter52 c. Proof. revert c. each_char. Qed.
Lemma in_front_eq c : delim c = in_front c. Proof. revert c. each_char. Qed.
Lemma hex_eq c : hex_char c || Ascii.eqb c ":" = one_of "0123456789abcdefABCDEF:" c. Proof. revert c. each_char. Qed.
Lemma name_eq c : word_char c || Ascii.eqb c "." || Ascii.eqb c "-" = letter52 c || digit10 c || one_of "_.-" c. Proof. revert c. each_char. Qed.

Lemma forallb_eq (p q : ascii -> bool) l : (forall c, p c = q c) -> forallb p l = forallb q l.
Proof. intros H. induction l as [|c l IH]; [done |]. cbn. by rewrite H, IH. Qed.

Lemma matches_chr p b prev m rest :
  matches (Cat (Chr p) b) prev m rest <-> exists c m2, m = c :: m2 /\ p c = true /\ matches b (Some c) m2 rest.
Proof.
  cbn. split.
  - intros (m1 & m2 & -> & (c & -> & Hc) & Hm). by exists c, m2.
  - intros (c & m2 & -> & Hc & Hm). exists [c], m2. split_and!; [done | by eauto | done].
Qed.

Lemma matches_plus p prev m rest : matches (Plus p) prev m rest <-> all_of p m.
Proof.
  unfold Plus. rewrite matches_chr. unfold all_of. cbn [matches]. split.
  - intros (c & m2 & -> & Hc & Hm). cbn. by rewrite Hc.
  - intros [Hne Hm]. destruct m as [|c m]; [done |]. cbn in Hm. apply andb_true_iff in Hm as [Hc Hm]. by exists c, m.
Qed.

Lemma matches_octet prev m rest : matches (OneToThree is_digit) prev m rest <-> octet m.
Proof.
  unfold OneToThree, Opt, octet, all_of. rewrite matches_chr. 
  rewrite (forallb_eq digit10 is_digit) by (intros; by rewrite digit10_eq). split.
  - intros (c & m2 & -> & Hc & [H|Hm]); [| cbn in Hm; subst; cbn; rewrite Hc; split_and!; [done | done | lia]].
    apply matches_chr in H as (c2 & m3 & -> & Hc2 & [(c3 & -> & Hc3)|Hm]); [| cbn in Hm; subst]; cbn; rewrite Hc, Hc2, ?Hc3; split_and!; done || lia.
  - intros [[Hne Hm] Hl]. destruct m as [|c [|c2 [|c3 [|]]]]; cbn in Hm, Hl; [done | | | | lia]; rewrite ?andb_true_iff in Hm.
    + exists c, []. split_and!; [done | tauto | by right].
    + exists c, [c2]. split_and!; [done | tauto |]. left. apply matches_chr. exists c2, []. split_and!; [done | tauto | by right].
    + exists c, [c2; c3]. split_and!; [done | tauto |]. left. apply matches_chr. exists c2, [c3]. split_and!; [done | tauto |].
      left. exists c3. tauto.
Qed.

Lemma matches_text s prev m rest : matches (Text s) prev m rest <-> m = String.list_ascii_of_string s.
Proof.
  revert prev m. induction s as [|c s IH]; intros prev m; [done |]. cbn [Text]. rewrite matches_chr. split.
  - intros (c' & m2 & -> & <-%Ascii.eqb_eq & ->%IH). done.
  - intros ->. exists c, (String.list_ascii_of_string s). split_and!; [done | apply Ascii.eqb_refl | by apply IH].
Qed.

Lemma matches_port prev m rest : matches port prev m rest <-> exists p, m = ":"%char :: p /\ all_of digit10 p.
Proof.
  unfold port. rewrite matches_chr. setoid_rewrite matches_plus. unfold all_of.
  setoid_rewrite (fun p => forallb_eq digit10 is_digit p (fun c => eq_sym (digit10_eq c))). split.
  - intros (c & m2 & -> & <-%Ascii.eqb_eq & H). eauto.
  - intros (p & -> & H). exists ":"%char, p. done.
Qed.

(** A number ends in a word character. *)
Lemma number_word prev p : all_of digit10 p -> is_word (lastp prev (":"%char :: p)) = true.
Proof.
  intros [Hne Hp]. destruct (exists_last Hne) as (p' & c & ->). unfold lastp. rewrite app_comm_cons, last_snoc. cbn.
  apply digit_word. rewrite digit10_eq. rewrite forallb_app in Hp. cbn in Hp. rewrite !andb_true_iff in Hp. by destruct Hp as [_ [? _]].
Qed.

(** A word boundary behind a number, and one in front of a word. *)
Lemma matches_port_end prev m rest :
  matches (Cat port WordB) prev m rest <-> (exists p, m = ":"%char :: p /\ all_of digit10 p) /\ is_word (head rest) = false.
Proof.
  cbn [matches]. split.
  - intros (m1 & m2 & -> & (p & -> & Hp)%matches_port & -> & Hx). split; [exists p; by rewrite app_nil_r |].
    rewrite number_word in Hx by done. by destruct (is_word (head rest)).
  - intros [(p & -> & Hp) Hr]. exists (":"%char :: p), []. rewrite app_nil_r. split; [done |].
    split; [apply matches_port; by eauto |]. split; [done |]. by rewrite number_word, Hr.
Qed.

Lemma matches_word_front b prev m rest :
  (forall prev m rest, matches b prev m rest -> is_word (head (m ++ rest)) = true) ->
  matches (Cat WordB b) prev m rest <-> is_word prev = false /\ matches b prev m rest.
Proof.
  intros Hb. cbn [matches]. split.
  - intros (m1 & m2 & -> & [-> Hx] & Hm). pose proof (Hb _ _ _ Hm) as Hw. rewrite Hw in Hx. by destruct (is_word prev).
  - intros [Hp Hm]. exists [], m. split_and!; [done | done | | done]. by rewrite (Hb _ _ _ Hm), Hp.
Qed.

(** A host in front of a port. *)
Lemma matches_host A prev m rest (P : list ascii -> Prop) :
  (forall m rest, matches A prev m rest <-> P m) ->
  matches (Cat A (Cat port WordB)) prev m rest
  <-> exists h p, m = h ++ ":"%char :: p /\ all_of digit10 p /\ is_word (head rest) = false /\ P h.
Proof.
  intros HA. split.
  - intros (h & m2 & -> & Hh%HA & [(p & -> & Hp) Hr]%matches_port_end). exists h, p. done.
  - intros (h & p & -> & Hp & Hr & Hh). exists h, (":"%char :: p). split_and!; [done | by apply HA |]. apply matches_port_end. eauto.
Qed.

Lemma octet_head m rest : octet m -> is_word (head (m ++ rest)) = true.
Proof.
  intros [[Hne Hm] _]. destruct m as [|c m]; [done |]. cbn in *. apply andb_true_iff in Hm as [Hc _].
  apply digit_word. by rewrite digit10_eq.
Qed.

Lemma matches_dotted b prev m rest (P : list ascii -> Prop) :
  (forall prev m rest, matches b prev m rest <-> P m) ->
  matches (Cat (Cat (OneToThree is_digit) (Chr (Ascii.eqb "."))) b) prev m rest <-> exists a m2, m = a ++ "."%char :: m2 /\ octet a /\ P m2.
Proof.
  intros Hb. split.
  - intros (m1 & m2 & -> & (a & d & -> & Ha%matches_octet & c & -> & <-%Ascii.eqb_eq) & Hm%Hb). exists a, m2.
    by rewrite <- (assoc_L (++)).
  - intros (a & m2 & -> & Ha & Hm). exists (a ++ ["."%char]), m2. rewrite <- (assoc_L (++)). split_and!; [done | | by apply Hb].
    exists a, ["."%char]. split_and!; [done | by apply matches_octet |]. by exists "."%char.
Qed.

Lemma matches_ipv4 prev m rest :
  matches reIPv4Port prev m rest
  <-> exists h p, m = h ++ ":"%char :: p /\ all_of digit10 p /\ is_word (head rest) = false /\ is_word prev = false /\ ipv4_text h.
Proof.
  unfold reIPv4Port. set (dotted := Cat (Cat (OneToThree is_digit) (Chr (Ascii.eqb "."))) _).
  assert (forall prev m rest, matches dotted prev m rest <-> ipv4_text m) as Hd.
  { intros pr x r. unfold dotted, ipv4_text.
    rewrite (matches_dotted _ _ _ _ (fun m => exists b c d, m = b ++ "."%char :: c ++ "."%char :: d /\ octet b /\ octet c /\ octet d)).
    - split; [intros (a & m2 & -> & Ha & b & c & d & -> & Hb) | intros (a & b & c & d & -> & Ha & Hb)]; eauto 10.
    - intros pr2 x2 r2. rewrite (matches_dotted _ _ _ _ (fun m => exists c d, m = c ++ "."%char :: d /\ octet c /\ octet d)).
      + split; [intros (b & m2 & -> & Hb & c & d & -> & Hc) | intros (b & c & d & -> & Hb & Hc)]; eauto 10.
      + intros pr3 x3 r3. by rewrite (matches_dotted _ _ _ _ octet) by apply matches_octet. }
  apply (matches_host _ _ _ _ (fun h => is_word prev = false /\ ipv4_text h)).
  intros x r. rewrite matches_word_front; [by rewrite Hd |]. intros pr2 x2 r2 (a & b & c & d & -> & Ha & _)%Hd.
  rewrite <- (assoc_L (++)). by apply octet_head.
Qed.

Lemma matches_localhost prev m rest :
  matches reLocalhostPort prev m rest
  <-> exists h p, m = h ++ ":"%char :: p /\ all_of digit10 p /\ is_word (head rest) = false /\ is_word prev = false
      /\ h = String.list_ascii_of_string "localhost".
Proof.
  apply (matches_host _ _ _ _ (fun h => is_word prev = false /\ h = String.list_ascii_of_string "localhost")).
  intros x r. rewrite matches_word_front; [by rewrite matches_text |]. by intros pr2 x2 r2 ->%matches_text.
Qed.

Lemma matches_ipv6 prev m rest :
  matches reIPv6Port prev m rest <-> exists h p, m = h ++ ":"%char :: p /\ all_of digit10 p /\ ipv6_text h.
Proof.
  assert (forall prev m rest, matches (Cat (Chr (Ascii.eqb "[")) (Cat (Plus (fun c => hex_char c || Ascii.eqb c ":")) (Chr (Ascii.eqb "]")))) prev m rest
    <-> ipv6_text m) as H6.
  { intros pr x r. rewrite matches_chr. unfold ipv6_text. split.
    - intros (c & m2 & -> & <-%Ascii.eqb_eq & (y & z & -> & [Hne Hy]%matches_plus & (d & -> & <-%Ascii.eqb_eq))). exists y. split; [done |].
      split; [done |]. by rewrite <- (forallb_eq _ _ y hex_eq).
    - intros (y & -> & Hne & Hy). exists "["%char, (y ++ ["]"%char]). split_and!; [done | done |]. exists y, ["]"%char].
      split_and!; [done | | by exists "]"%char]. apply matches_plus. split; [done |]. by rewrite (forallb_eq _ _ y hex_eq). }
  split.
  - intros (h & m2 & -> & Hh%H6 & (p & -> & Hp)%matches_port). by exists h, p.
  - intros (h & p & -> & Hp & Hh). exists h, (":"%char :: p). split_and!; [done | by apply H6 | apply matches_port; eauto].
Qed.

Lemma matches_name prev m rest :
  matches (Cat (Chr letter) (Cat (Many (fun c => word_char c || Ascii.eqb c "." || Ascii.eqb c "-"))
    (Cat (Chr (Ascii.eqb ".")) (Cat (Chr letter) (Plus letter))))) prev m rest <-> host_text m.
Proof.
  rewrite matches_chr. unfold host_text. split.
  - intros (l & m2 & -> & Hl & (y & z & -> & Hy & H)). apply matches_chr in H as (d & t & -> & <-%Ascii.eqb_eq & H).
    apply matches_chr in H as (l1 & t' & -> & Hl1 & [Hne Ht]%matches_plus). exists l, y, (l1 :: t').
    rewrite letter52_eq in Hl. rewrite letter52_eq in Hl1. cbn in Hy. rewrite (forallb_eq _ _ y name_eq) in Hy.
    rewrite (forallb_eq _ _ t' letter52_eq) in Ht. split_and!; [done | done | done | cbn; by rewrite Hl1 |]. destruct t'; [done | cbn; lia].
  - intros (l & y & t & -> & Hl & Hy & Ht & Hlen). exists l, (y ++ "."%char :: t). split_and!; [done | by rewrite letter52_eq |].
    exists y, ("."%char :: t). split_and!; [done | cbn; by rewrite (forallb_eq _ _ y name_eq) |].
    apply matches_chr. exists "."%char, t. split_and!; [done | done |].
    destruct t as [|l1 t]; [cbn in Hlen; lia |]. cbn in Ht. apply andb_true_iff in Ht as [Hl1 Ht]. apply matches_chr. exists l1, t.
    split_and!; [done | by rewrite letter52_eq |]. apply matches_plus. split; [by intros ->; cbn in Hlen; lia |].
    by rewrite (forallb_eq _ _ t letter52_eq).
Qed.

Lemma matches_hostname prev m rest :
  matches reHostnamePort prev m rest
  <-> exists h p, m = h ++ ":"%char :: p /\ all_of digit10 p /\ is_word (head rest) = false
      /\ (prev = None /\ host_text h \/ exists c h', h = c :: h' /\ in_front c = true /\ host_text h').
Proof.
  apply matches_host. intros x r. split.
  - intros (m1 & m2 & -> & [[-> ->]|(c & -> & Hc)] & Hm%matches_name); [by left |]. right. exists c, m2. by rewrite in_front_eq in Hc.
  - intros [[-> Hx]|(c & h' & -> & Hc & Hx)].
    + exists [], x. split_and!; [done | by left | by apply matches_name].
    + exists [c], h'. split_and!; [done | right; exists c; by rewrite in_front_eq | by apply matches_name].
Qed.

Lemma MatchString_hit r s : MatchString r s = true <-> exists pre m rest, String.list_ascii_of_string s = pre ++ m ++ rest /\ matches r (last pre) m rest.
Proof.
  unfold MatchString. rewrite find_spec. unfold hit, lastp. split; intros (pre & m & post & He & Hm); exists pre, m, post; (split; [done |]); by destruct (last pre).
Qed.

(** Where no pattern matches there is no address, and the other way round. *)
Lemma address_free_holds s : address_free s = true <-> ~ holds_address s.
Proof.
  rewrite address_free_spec. unfold scrubPatterns, holds_address, address_at. split.
  - intros Hs (pre & m & rest & He & h & p & -> & Hp & Hc).
    assert (exists r, r ∈ [reIPv4Port; reIPv6Port; reHostnamePort; reLocalhostPort] /\ matches r (last pre) (h ++ ":"%char :: p) rest) as (r & Hr & Hm).
    { destruct Hc as [H6|[Hr [[Hw [H4|HL]]|HH]]];
        [exists reIPv6Port | exists reIPv4Port | exists reLocalhostPort | exists reHostnamePort]; (split; [set_solver |]);
        [apply matches_ipv6 | apply matches_ipv4 | apply matches_localhost | apply matches_hostname]; exists h, p; tauto. }
    apply Hs in Hr. apply not_true_iff_false in Hr. apply Hr, MatchString_hit. by exists pre, (h ++ ":"%char :: p), rest.
  - intros Hn r Hr. apply not_true_iff_false. intros (pre & m & rest & He & Hm)%MatchString_hit. apply Hn. exists pre, m, rest. split; [done |].
    rewrite !elem_of_cons, elem_of_nil in Hr. destruct_or! Hr; subst r;
      [apply matches_ipv4 in Hm as (h & p & -> & Hp & Hr & Hm) | apply matches_ipv6 in Hm as (h & p & -> & Hp & Hm)
      | apply matches_hostname in Hm as (h & p & -> & Hp & Hr & Hm) | apply matches_localhost in Hm as (h & p & -> & Hp & Hr & Hw & Hm)];
      exists h, p; tauto.
Qed.
