(* ===== verification/Observability.v ===== *)
(** * Logs ([infrastructure/observability])

    What the access logger is configured with and writes, the debounced warning of its
    writer, and the handler that removes addresses from the operational log.  The
    configured expressions of the access log are compiled by [GoRegexp], those of the
    scrubber are in [Scrub]; the rotating file of loginjector is the list of the options
    it is given. *)

From S2P Require Import Prelude GoStrings GoText GoTime Regexp Scrub ScrubSpec Domain Http Config.
Import Scrub.

Module Observability.

(** ** [access.go] *)

Inductive fileOption :=
| WithStableCurrentName
| WithMaxFileSize (bytes : Z)
| WithMaxFiles (n : Z)
| WithMaxAge (d : Z)
| WithCompress.

Definition uint32 (z : Z) : Z := z mod 2 ^ 32.

Definition file_options (cfg : Config.AccessLog) : list fileOption :=
  let mb := if 4095 <? Config.MaxSizeMB cfg then 4095 else Config.MaxSizeMB cfg in
  [WithStableCurrentName]
  ++ (if 0 <? Config.MaxSizeMB cfg then [WithMaxFileSize (uint32 (Z.shiftl (uint32 mb) 20))] else [])
  ++ (if 0 <? Config.MaxBackups cfg then [WithMaxFiles (Config.MaxBackups cfg)] else [])
  ++ (if 0 <? Config.MaxAgeDays cfg then [WithMaxAge (wrap64 (wrap64 (Config.MaxAgeDays cfg * 24) * Hour))] else [])
  ++ (if Config.Compress cfg then [WithCompress] else []).

Inductive accessError := ENilRegexp (i : nat) | EMkdirLog (dir : string).

Section Access.
Context `{GoRegexp}.

Record PathSanitizePattern := mkSanitize { sp_regexp : option Regexp; sp_replacement : string }.

Record AccessLogger := mkAccess { al_dir : string; al_prefix : string; al_options : list fileOption; sanitizers : list (Regexp * string) }.

Fixpoint check_sanitizers (i : nat) (l : list PathSanitizePattern) : res accessError (list (Regexp * string)) :=
  match l with
  | [] => Ok []
  | p :: l' =>
      match sp_regexp p with
      | None => Err (ENilRegexp i)
      | Some r => let? rest := check_sanitizers (S i) l' in Ok ((r, sp_replacement p) :: rest)
      end
  end.

Definition NewAccessLogger (mkdir : bool) (cfg : Config.AccessLog) (l : list PathSanitizePattern) : res accessError AccessLogger :=
  let? s := check_sanitizers 0 l in
  let dir := Dir (Config.Path cfg) in
  if negb mkdir then Err (EMkdirLog dir)
  else Ok (mkAccess dir (TrimSuffix (Base (Config.Path cfg)) ".log") (file_options cfg) s).

Definition sanitize (l : list (Regexp * string)) (s : string) : string :=
  foldl (fun s '(r, repl) => ReplaceAllString r s repl) s l.

(** [Log]: the line that is written. *)
Definition Log (a : AccessLogger) (s : RequestSummary) : RequestSummary :=
  mkSummary (rs_Method s) (sanitize (sanitizers a) (rs_Target s)) (rs_ClientAddr s) (rs_StatusCode s)
    (rs_BytesIn s) (rs_BytesOut s) (rs_DurationMS s) (sanitize (sanitizers a) (rs_UpstreamError s)).
End Access.

(** [trackingWriter.Write] for a write with or without an error, under the lock: the
    clock is read twice.  The second component is whether a warning is logged. *)
Definition Write (failed hasLog : bool) (since now lastErrWarn : Z) : Z * bool :=
  if failed && hasLog then
    if Minute <=? Sub since lastErrWarn then (now, true) else (lastErrWarn, false)
  else (lastErrWarn, false).

(** ** [operational.go] *)

Inductive Level := LevelDebug | LevelInfo | LevelWarn | LevelError.
Definition knownLevels : list (string * Level) :=
  [("debug", LevelDebug); ("info", LevelInfo); ("warn", LevelWarn); ("error", LevelError)].
Definition find_level (s : string) : option Level := snd <$> (snd <$> list_find (fun kl => fst kl = s) knownLevels).
Definition parseLevel (s : string) : Level := default LevelInfo (find_level s).

(** The handler (JSON or text), its level, and whether the warning is logged. *)
Definition NewOperationalLogger (format level : string) : bool * Level * bool :=
  (String.eqb format "json", parseLevel level, bool_decide (find_level level = None) && negb (String.eqb level "")).

(** ** [scrubhandler.go] *)

(** Attribute values: a [LogValuer] is resolved before it is looked at. *)
Inductive value :=
| VString (s : string)
| VGroup (attrs : list (string * value))
| VOther (text : string)
| VLogValuer (v : value).

Fixpoint Resolve (v : value) : value := match v with VLogValuer v' => Resolve v' | _ => v end.




End Observability.
Import Observability.

(** ** The access log *)

Fixpoint writes (hasLog : bool) (evs : list (bool * Z * Z)) (last : Z) : list Z :=
  match evs with
  | [] => []
  | (failed, since, now) :: evs' =>
      let '(last', warned) := Write failed hasLog since now last in
      (if warned then [now] else []) ++ writes hasLog evs' last'
  end.

(** Clock readings in order. *)
Fixpoint ordered (t : Z) (evs : list (bool * Z * Z)) : Prop :=
  match evs with [] => True | (_, since, now) :: evs' => t <= since <= now /\ ordered now evs' end.

Lemma Write_cases failed hasLog since now last :
  Write failed hasLog since now last = (now, true) /\ last + Minute <= since
  \/ Write failed hasLog since now last = (last, false).
Proof.
  unfold Write. destruct (failed && hasLog); [| by right].
  destruct (Z.leb_spec Minute (Sub since last)) as [Hle|]; [| by right]. left. split; [done |].
  unfold Sub, int64_max, int64_min, Minute, Second, Millisecond, Nanosecond in *. lia.
Qed.

Lemma writes_after hasLog evs t last : ordered t evs -> Forall (fun w => last + Minute <= w) (writes hasLog evs last).
Proof.
  revert t last. induction evs as [|[[f s] n] evs IH]; intros t last Ho; [done |]. cbn [writes]. destruct Ho as [Hn Ho].
  destruct (Write_cases f hasLog s n last) as [[-> Hl]| ->].
  - constructor; [unfold Minute, Second, Millisecond, Nanosecond in *; lia |]. eapply Forall_impl; [by eapply IH |].
    cbn. intros w. unfold Minute, Second, Millisecond, Nanosecond in *. lia.
  - by eapply IH.
Qed.

Lemma writes_spaced hasLog evs t last l1 w1 w2 l2 :
  ordered t evs -> writes hasLog evs last = l1 ++ w1 :: w2 :: l2 -> w1 + Minute <= w2.
Proof.
  revert t last l1. induction evs as [|[[f s] n] evs IH]; intros t last l1 Ho; [by destruct l1 |]. cbn [writes].
  destruct Ho as [_ Ho]. destruct (Write_cases f hasLog s n last) as [[-> Hl]| ->]; [| by eapply IH].
  destruct l1 as [|x l1]; cbn [app]; [| intros [= _ E]; by eapply IH].
  intros [= <- E]. pose proof (writes_after hasLog evs n n Ho) as Hf. rewrite E in Hf. by apply Forall_cons in Hf as [Hf _].
Qed.

(** The access log cannot flood the operational log, and what its file is configured
    with.  Two warnings about failing writes are a minute apart, and a failing write warns
    if the last warning is a minute old.  The size limit is the configured number of
    megabytes, cut at 4095, and never wraps; the age is the configured number of days only
    up to 106751: beyond that the duration overflows. *)
Theorem access_log_limits cfg hasLog evs t last :
  ordered t evs ->
  (forall l1 w1 w2 l2, writes hasLog evs last = l1 ++ w1 :: w2 :: l2 -> w1 + Minute <= w2)
  /\ (forall since now l, l + Minute <= since -> Write true true since now l = (now, true))
  /\ (forall b, WithMaxFileSize b ∈ file_options cfg -> b = Z.min (Config.MaxSizeMB cfg) 4095 * 2 ^ 20 /\ 0 < b < 2 ^ 32)
  /\ (forall d, WithMaxAge d ∈ file_options cfg -> Config.MaxAgeDays cfg <= 106751 -> d = Config.MaxAgeDays cfg * (24 * Hour))
  /\ (Config.MaxAgeDays cfg = 106752 -> exists d, WithMaxAge d ∈ file_options cfg /\ d < 0).
Proof.
  intros Ho. split_and!.
  - intros *. by eapply writes_spaced.
  - intros since now l Hl. unfold Write. cbn [andb].
    destruct (Z.leb_spec Minute (Sub since l)) as [|Hlt]; [done |].
    unfold Sub, int64_max, int64_min, Minute, Second, Millisecond, Nanosecond in *. lia.
  - intros b. unfold file_options. rewrite !elem_of_app. intros [Hb|[Hb|[Hb|[Hb|Hb]]]]; try (case_match; set_solver); [set_solver |].
    destruct (Z.ltb_spec 0 (Config.MaxSizeMB cfg)) as [Hp|]; [| set_solver]. apply list_elem_of_singleton in Hb. injection Hb as ->.
    assert (Z.min (Config.MaxSizeMB cfg) 4095 = (if 4095 <? Config.MaxSizeMB cfg then 4095 else Config.MaxSizeMB cfg)) as ->
      by (destruct (Z.ltb_spec 4095 (Config.MaxSizeMB cfg)); lia).
    set (m := if 4095 <? Config.MaxSizeMB cfg then 4095 else Config.MaxSizeMB cfg). assert (0 < m <= 4095) by (subst m; destruct (Z.ltb_spec 4095 (Config.MaxSizeMB cfg)); lia).
    unfold uint32. rewrite Z.shiftl_mul_pow2, (Z.mod_small m) by lia. rewrite Z.mod_small by lia. lia.
  - intros d. unfold file_options. rewrite !elem_of_app. intros [Hb|[Hb|[Hb|[Hb|Hb]]]] Hd; try (case_match; set_solver); [set_solver |].
    destruct (Z.ltb_spec 0 (Config.MaxAgeDays cfg)) as [Hp|]; [| set_solver]. apply list_elem_of_singleton in Hb. injection Hb as ->.
    unfold Hour, Minute, Second, Millisecond, Nanosecond in *.
    rewrite !wrap64_id; unfold in_int64, int64_min, int64_max; rewrite ?wrap64_id; unfold in_int64, int64_min, int64_max; lia.
  - intros E. unfold file_options. rewrite E. eexists. split; [rewrite !elem_of_app; right; right; right; left; by left |]. done.
Qed.

(** ** The scrubbed log *)











Module LogDemo.
Definition cfg : Config.AccessLog := Config.mkAccessLog "/var/log/access.log" 5000 106752 7 true.
Definition evs : list (bool * Z * Z) := [(true, 0, 0); (true, Second, Second); (true, 60 * Second, 61 * Second)].
End LogDemo.

Lemma access_log_limits_witness :
  writes true LogDemo.evs time_zero = [0; 61 * Second] /\ 0 + Minute <= 61 * Second
  /\ file_options LogDemo.cfg = [WithStableCurrentName; WithMaxFileSize (4095 * 2 ^ 20); WithMaxFiles 7; WithMaxAge (-9223371273709551616); WithCompress].
Proof.
  assert (ordered 0 LogDemo.evs) as Ho by (cbn; unfold Second, Millisecond, Nanosecond; lia).
  split; [reflexivity |]. split; [| reflexivity].
  exact (proj1 (access_log_limits LogDemo.cfg true LogDemo.evs 0 time_zero Ho) [] 0 (61 * Second) [] eq_refl).
Defined.
