(* ===== verification/AccessLine.v ===== *)
(** * The text of the access log ([observability/access.go], [AccessLogger.Log])

    [Observability.Log] is the summary that is written; here are the bytes: the JSON handler
    of package slog writes one object and a newline in one call of the writer.  The text
    of the time ([time.RFC3339Nano]) is an argument; of it only the characters of that
    layout are used. *)

From S2P Require Import Prelude GoStrings GoText GoUtf8 GoJson JsonText GoTime Domain Http Config Observability.
Import Utf8.

Module AccessLine.

(** The characters of a time in the layout [RFC3339Nano]. *)
Definition stamp_char (c : ascii) : bool := is_digit c || bool_decide (c ∈ ["-"; ":"; "."; "T"; "Z"; "+"]%char).
Definition stamp_ok (stamp : string) : bool := string_forallb stamp_char stamp.

(** The attributes of [Log], in its order. *)
Definition attrs (s : RequestSummary) : list (string * json) :=
  [("method", JStr (rs_Method s)); ("target", JStr (rs_Target s)); ("client_addr", JStr (rs_ClientAddr s));
   ("status_code", JNum (rs_StatusCode s)); ("bytes_in", JNum (rs_BytesIn s)); ("bytes_out", JNum (rs_BytesOut s));
   ("duration_ms", JNum (rs_DurationMS s)); ("upstream_error", JStr (rs_UpstreamError s))].

(** [JSONHandler.Handle]: the time is not escaped. *)
Definition field (kv : string * json) : string :=
  JsonText.print_string JsonText.slog_escape (fst kv) +:+ ":" +:+ JsonText.print_with JsonText.slog_escape (snd kv).
Definition record (stamp level msg : string) (l : list (string * json)) : string :=
  "{" +:+ JsonText.commas
    ((JsonText.print_string JsonText.slog_escape "time" +:+ ":" +:+ String JsonText.quote (stamp +:+ String JsonText.quote ""))
     :: (field <$> ("level", JStr level) :: ("msg", JStr msg) :: l)) +:+ "}".

Section Lines.
Context `{GoRegexp}.

(** The bytes that [Log] writes, without the newline; and the log of several calls. *)
Definition text (a : Observability.AccessLogger) (stamp : string) (s : RequestSummary) : string :=
  record stamp "INFO" "request" (attrs (Observability.Log a s)).
Definition log_file (a : Observability.AccessLogger) (l : list (string * RequestSummary)) : string :=
  concat_all ((fun '(stamp, s) => text a stamp s +:+ NL) <$> l).
End Lines.
End AccessLine.
Import AccessLine.

Lemma stamp_plain c : stamp_char c = true -> JsonText.slog_escape (Some (String c "")) = String c "" /\ (code c < 128)%nat.
Proof. intros Hc. split; by destruct c as [[] [] [] [] [] [] [] []]; first [vm_compute; reflexivity | vm_compute; lia | vm_compute in Hc]. Qed.

Lemma stamp_text stamp :
  stamp_ok stamp = true ->
  JsonText.print_with JsonText.slog_escape (JStr stamp) = String JsonText.quote (stamp +:+ String JsonText.quote "").
Proof.
  intros Hs. cbn [JsonText.print_with]. unfold JsonText.print_string.
  by rewrite (print_plain _ stamp_char stamp stamp_plain Hs), append_cons.
Qed.

(** A record is the text of an object, as the time needs no escape. *)
Lemma record_print stamp level msg l :
  stamp_ok stamp = true ->
  record stamp level msg l
  = JsonText.print_with JsonText.slog_escape (JObj (("time", JStr stamp) :: ("level", JStr level) :: ("msg", JStr msg) :: l)).
Proof.
  intros Hs. unfold record. rewrite <- stamp_text by done.
  change (?x :: (field <$> ?y)) with (field <$> ("time", JStr stamp) :: y).
  cbn [JsonText.print_with]. do 3 f_equal. apply list_fmap_ext. by intros i [k v] _.
Qed.

Lemma stamp_valid stamp : stamp_ok stamp = true -> valid stamp = stamp.
Proof.
  intros Hs. apply valid_id, ascii_valid. eapply string_forallb_impl; [| exact Hs]. intros c Hc. apply Nat.ltb_lt. by apply stamp_plain.
Qed.

Section Thms.
Context `{GoRegexp}.
Implicit Types (a : Observability.AccessLogger) (s : RequestSummary).

(** The configured replacements, one after the other. *)
Fixpoint sanitized (rules : list Observability.PathSanitizePattern) (t : string) : string :=
  match rules with
  | [] => t
  | p :: rules' =>
      sanitized rules' (match Observability.sp_regexp p with
                        | Some r => ReplaceAllString r t (Observability.sp_replacement p)
                        | None => t
                        end)
  end.

(** What a reader gets for a summary: its eleven fields, in this order. *)
Definition entry (rules : list Observability.PathSanitizePattern) (stamp : string) (s : RequestSummary) : json :=
  JObj [("time", JStr stamp); ("level", JStr "INFO"); ("msg", JStr "request");
        ("method", JStr (valid (rs_Method s))); ("target", JStr (valid (sanitized rules (rs_Target s))));
        ("client_addr", JStr (valid (rs_ClientAddr s))); ("status_code", JNum (rs_StatusCode s));
        ("bytes_in", JNum (rs_BytesIn s)); ("bytes_out", JNum (rs_BytesOut s)); ("duration_ms", JNum (rs_DurationMS s));
        ("upstream_error", JStr (valid (sanitized rules (rs_UpstreamError s))))].

(** The logger applies the rules it was built with. *)
Lemma check_sanitizers_rules i rules l t :
  Observability.check_sanitizers i rules = Ok l -> Observability.sanitize l t = sanitized rules t.
Proof.
  revert i l t. induction rules as [|p rules IH]; intros i l t; cbn; [by intros [= <-] |].
  destruct (Observability.sp_regexp p) as [r|]; [| done].
  destruct (Observability.check_sanitizers (S i) rules) as [|l'] eqn:E; [done |]. intros [= <-]. cbn. by eapply IH.
Qed.

Lemma NewAccessLogger_rules mkdir cfg rules a t :
  Observability.NewAccessLogger mkdir cfg rules = Ok a -> Observability.sanitize (Observability.sanitizers a) t = sanitized rules t.
Proof.
  unfold Observability.NewAccessLogger. destruct (Observability.check_sanitizers 0 rules) as [|l] eqn:E; [done |]. cbn.
  destruct mkdir; [| done]. intros [= <-]. by eapply check_sanitizers_rules.
Qed.

Lemma text_reads mkdir cfg rules a stamp s :
  Observability.NewAccessLogger mkdir cfg rules = Ok a -> stamp_ok stamp = true ->
  JsonText.Parse (text a stamp s) = Some (entry rules stamp s).
Proof.
  intros Ha Hs. unfold text. rewrite record_print by done.
  rewrite (Parse_print JsonText.slog_escape); [| done | cbn; unfold JsonText.maxNestingDepth; lia]. unfold entry, attrs, Observability.Log.
  cbn [norm fmap list_fmap rs_Method rs_Target rs_ClientAddr rs_StatusCode rs_BytesIn rs_BytesOut rs_DurationMS rs_UpstreamError].
  by rewrite (stamp_valid stamp Hs), !(NewAccessLogger_rules _ _ _ _ _ Ha).
Qed.

Lemma text_clear a stamp s : stamp_ok stamp = true -> clear (text a stamp s) = true.
Proof.
  intros Hs. unfold text. rewrite record_print by done. by apply (print_clear JsonText.slog_escape).
Qed.

Lemma file_lines a l :
  Forall (fun x => stamp_ok (fst x) = true) l ->
  Split (log_file a l) newline = ((fun '(stamp, s) => text a stamp s) <$> l) ++ [""].
Proof.
  unfold log_file. induction 1 as [|[stamp s] l Hs Hl IH]; [done |]. cbn [fmap list_fmap concat_all app] in *.
  rewrite append_assoc. unfold NL at 1. rewrite append_cons, append_nil_l, Split_line; [by rewrite IH |].
  eapply Contains_forallb; [exact (text_clear a stamp s Hs) | done].
Qed.

(** C40: The access log is one line of JSON for each call, whatever the client put into the
    request.  Cut at its newlines, the file of any sequence of calls has exactly one line
    for each, in order; each line is a JSON text whose reading gives the time, the level,
    the message and the eight fields of the summary, each under its name and with its value:
    numbers as they are, strings with invalid UTF-8 replaced, the target and the upstream
    error after the replacements the logger was built with, one after the other.  No
    request can add a line or change another's. *)
Theorem access_log_lines mkdir cfg rules a l :
  Observability.NewAccessLogger mkdir cfg rules = Ok a -> Forall (fun x => stamp_ok (fst x) = true) l ->
  exists lines, Split (log_file a l) newline = lines ++ [""]
    /\ Forall2 (fun '(stamp, s) line => JsonText.Parse line = Some (entry rules stamp s)) l lines.
Proof.
  intros Ha Hl. eexists. split; [by apply file_lines |]. apply Forall2_fmap_r, Forall_Forall2_diag. eapply Forall_impl; [exact Hl |].
  intros [stamp s] Hs. by eapply text_reads.
Qed.
End Thms.

(** ** A request that tries to write a line of its own *)
Module LineDemo.
#[export] Instance redact : GoRegexp := {|
  Regexp := string;
  Compile := Some;
  ReplaceAllString := fun r s repl => if HasPrefix s r then repl else s
|}.
Definition rules : list Observability.PathSanitizePattern := [Observability.mkSanitize (Some "/secret") "/-"].
Definition cfg : Config.AccessLog := Config.mkAccessLog "/log/access.log" 0 0 0 false.
Definition al : Observability.AccessLogger := Observability.mkAccess "/log" "access" [Observability.WithStableCurrentName] [("/secret", "/-")].
Definition forged : RequestSummary :=
  mkSummary "GET" ("/x" +:+ String JsonText.quote "}" +:+ NL +:+ "{" +:+ String "255" "<") "10.0.0.1:9" 200 0 5 1 "".
Definition secret : RequestSummary := mkSummary "GET" "/secret/1" "10.0.0.1:9" 502 0 0 7 "/secret/1 failed".
Definition calls : list (string * RequestSummary) := [("2025-01-02T03:04:05.6Z", forged); ("2025-01-02T03:04:06+01:00", secret)].
End LineDemo.

Lemma access_log_lines_witness :
  exists l1 l2, Split (log_file LineDemo.al LineDemo.calls) newline = [l1; l2; ""]
    /\ JsonText.Parse l1 = Some (@entry LineDemo.redact [] "2025-01-02T03:04:05.6Z" LineDemo.forged)
    /\ JsonText.Parse l2 = Some (@entry LineDemo.redact [] "2025-01-02T03:04:06+01:00" (mkSummary "GET" "/-" "10.0.0.1:9" 502 0 0 7 "/-")).
Proof.
  assert (Observability.NewAccessLogger true LineDemo.cfg LineDemo.rules = Ok LineDemo.al) as Ha by (vm_compute; reflexivity).
  assert (Forall (fun x => stamp_ok (fst x) = true) LineDemo.calls) as Hl by (by repeat constructor).
  destruct (access_log_lines true LineDemo.cfg LineDemo.rules LineDemo.al LineDemo.calls Ha Hl) as (lines & Hs & Hp).
  apply Forall2_cons_inv_l in Hp as (l1 & r1 & H1 & (l2 & r2 & H2 & ->%Forall2_nil_inv_l & ->)%Forall2_cons_inv_l & ->).
  exists l1, l2. split; [exact Hs |]. split; [exact H1 | exact H2].
Defined.
