(* ===== verification/Daemon.v ===== *)
(** * The daemon ([cmd/vpntunnel/main.go])

    [run] puts the components together: it calls their constructors with the loaded
    configuration, starts them, waits, and shuts them down in order.  What it does is a
    list of actions; what the system, the clock and the components answer is the record
    [world].  The Telegram DSN is parsed by dsninjector, whose result is an argument. *)

From S2P Require Import Prelude GoStrings GoText GoTime GoJson Domain Eligible Scheduler Supervisor AsyncRecord AsyncStore AsyncJobs Http Config KeyFile WgConf Device Handlers Router ApiTls Notify Observability.

Module Daemon.

(** ** Helpers *)

(** [resolveCertDir]: an empty directory stays empty. *)
Definition resolveCertDir (cwd : option string) (certDir : string) : option string :=
  if String.eqb certDir "" || IsAbs certDir then Some certDir else Abs cwd certDir.

(** [parseIPSANs]: the first entry that is no address is the error. *)
Fixpoint ip_entries `{AddrText} (l : list string) : res string (list Addr) :=
  match l with
  | [] => Ok []
  | entry :: l' =>
      let entry := TrimSpace entry in
      if String.eqb entry "" then ip_entries l'
      else match ParseIP entry with
           | None => Err entry
           | Some ip => let? rest := ip_entries l' in Ok (ip :: rest)
           end
  end.
Definition parseIPSANs `{AddrText} (raw : string) : res string (list Addr) := ip_entries (Split raw ",").

Inductive authError := EReadToken (path : string) | EEmptyToken (path : string).

Definition resolveAuthToken (readFile : string -> option string) (a : Config.Auth) (configDir : string) : res authError string :=
  if negb (String.eqb (Config.Token a) "") then Ok (TrimSpace (Config.Token a))
  else if String.eqb (Config.TokenFile a) "" then Ok ""
  else
    let path := Config.TokenFile a in
    let path := if IsAbs path then path else JoinPath configDir path in
    match readFile path with
    | None => Err (EReadToken path)
    | Some raw =>
        let tok := TrimSpace raw in
        if String.eqb tok "" then Err (EEmptyToken path) else Ok tok
    end.

(** [loadAPICert]: [None] is plain HTTP. *)
Inductive certError := ENoHostname | EIPSAN (entry : string) | ELoadCert (e : ApiTls.tlsError).

Definition loadAPICert `{AddrText, X509, GoCalendar, Sha256} (f : ApiTls.faults) (certDir hostname ipSANsRaw : string)
    (now : Z) (t : ApiTls.tree) : res certError (option ApiTls.tlsCert) * ApiTls.tree :=
  if String.eqb hostname "" then (Err ENoHostname, t)
  else match parseIPSANs ipSANsRaw with
       | Err entry => (Err (EIPSAN entry), t)
       | Ok ipSANs =>
           if String.eqb certDir "" then (Ok None, t)
           else match ApiTls.LoadOrGenerate f certDir hostname ipSANs now t with
                | (Err e, t') => (Err (ELoadCert e), t')
                | (Ok (cert, _), t') => (Ok (Some cert), t')
                end
       end.

(** [bootstrap], from the values of the flags. *)
Inductive bootError := EConfigPath | ECertDir | ELoadConfig (e : Config.cfgError) | EAPICert (e : certError).

Definition bootstrap `{GoFloat, GoRegexp, AddrText, X509, GoCalendar, Sha256} (cwd : option string)
    (rawConfigPath tlsCertDir tlsHostname tlsIPSANsRaw : string) (readFile : string -> option string)
    (f : ApiTls.faults) (now : Z) (t : ApiTls.tree) : res bootError (Config.Config_ * option ApiTls.tlsCert) * ApiTls.tree :=
  match Abs cwd rawConfigPath with
  | None => (Err EConfigPath, t)
  | Some configPath =>
      match resolveCertDir cwd tlsCertDir with
      | None => (Err ECertDir, t)
      | Some certDir =>
          match Config.LoadWithLogger cwd configPath (Config.parseFile (readFile configPath)) with
          | (Err e, _) => (Err (ELoadConfig e), t)
          | (Ok cfg, _) =>
              match loadAPICert f certDir tlsHostname tlsIPSANsRaw now t with
              | (Err e, t') => (Err (EAPICert e), t')
              | (Ok cert, t') => (Ok (cfg, cert), t')
              end
          end
      end
  end.

(** The notifier of [run]: [dsn] is the variable of the environment, [parse] its parse
    into address and login. *)
Definition telegram {Dl : Type} (dsn : string) (parse : string -> option (string * string)) (botNew : string -> bool)
    : option (@Notify.TelegramNotifier Dl) :=
  if String.eqb dsn "" then None
  else match parse dsn with
       | None => None
       | Some (addr, login) =>
           match Notify.NewTelegram botNew addr login "#VPNTUNNEL" with Ok tn => Some tn | Err _ => None end
       end.

(** ** Starting and stopping *)

Inductive action :=
| AAccessOpen | ASupStart (path : string) | ASchedStart | AStoreOpen | ARecovery | AGCStart | AServe
| AShutdownProxy | AShutdownAPI | AShutdownPool | AJoinScheduler | AStopSup | ACloseNotifier | AJoinGC
| AStoreClose | ACancel | AAccessClose.

#[export] Instance action_eq_dec : EqDecision action.
Proof. solve_decision. Defined.

Inductive runError :=
| EAccessLog (e : Observability.accessError)
| EDiscover (e : err)
| EHmacKey (e : KeyFile.keyError)
| EFullSet (e : err)
| EStreamingSet (e : err)
| ESingleKey (e : Device.keyError)
| EAsyncDir
| EOpenStore
| ERecover (e : AsyncStore.storeError)
| EAuthToken (e : authError)
| EAPITokens (e : Handlers.tokenError)
| EServerStart.

(** The first step of the shutdown that failed. *)
Inductive shutdownStep := SProxy | SAPI | SPool | SStore.

Inductive ending :=
| Failed (e : runError)
| AbortedBySignal
| ShutDown (e : option shutdownStep)
| Panic (what : string).

Inductive waited := ServerFailed | Signalled.

Section Run.
Context `{GoUnicode, AddrText, KeyText, Sha256, Handlers.Sha512, HmacSha256, GoRegexp, Bolt B}.

Record world := mkWorld {
  w_cwd : option string;
  w_mkdirLog : bool;
  w_readDir : Eligible.readDirError + list Eligible.dirEntry;
  w_key : KeyFile.answers;
  w_keyfs : gmap string KeyFile.file;
  w_files : string -> option string;          (* config and token files as text *)
  w_tokenFiles : string -> option Handlers.tokenFile;
  w_uid : Z;                                  (* os.Getuid *)
  w_signalled : bool;                         (* a signal during startup *)
  w_intn : nat -> nat;                        (* rand.IntN *)
  w_mkdirAsync : bool;
  w_store : option B;
  w_recoverIO : bool;
  w_notifier : bool;                          (* the notifier is configured *)
  w_waited : waited;
  w_proxyOk : bool;
  w_apiOk : bool;
  w_poolOk : bool;
  w_closeOk : bool
}.

(** The sets of tunnels: everything up to the single-key guard. *)
Definition tunnel_sets (cfg : Config.Config_) (w : world)
    : res runError (Eligible.EligibleSet * Eligible.EligibleSet) * gmap string KeyFile.file :=
  let configDir := Config.c_Dir cfg in
  match Eligible.DiscoverConfigs (w_cwd w) (JoinPath configDir "tunnels") (w_readDir w) with
  | Err e => (Err (EDiscover e), w_keyfs w)
  | Ok discovered =>
      match KeyFile.LoadOrGenerate (w_key w) (Config.TunnelIDHMACKeyFile cfg) configDir (w_keyfs w) with
      | (Err e, fs) => (Err (EHmacKey e), fs)
      | (Ok hmacKey, fs) =>
          match Eligible.NewFullSet (w_cwd w) discovered configDir hmacKey with
          | Err e => (Err (EFullSet e), fs)
          | Ok fullSet =>
              match Eligible.NewEligibleSet (w_cwd w) discovered configDir (Config.AllowedCountries (Config.c_VPNStream cfg)) with
              | Err e => (Err (EStreamingSet e), fs)
              | Ok streamingSet =>
                  match Device.VerifySingleKey (w_files w) discovered configDir with
                  | Err e => (Err (ESingleKey e), fs)
                  | Ok _ => (Ok (fullSet, streamingSet), fs)
                  end
              end
          end
      end
  end.

(** What the constructors of the two tunnel components are given. *)
Definition supervisor_options (cfg : Config.Config_) (streamingSet : Eligible.EligibleSet) : option Supervisor.options :=
  let s := Config.c_VPNStream cfg in
  Supervisor.NewStreamingSupervisor (Some streamingSet) Supervisor.DefaultHandshakeMaxAge
    (Config.ReconnectMin s) (Config.ReconnectMax s) 0
    (Config.SettleDelay (Config.Demand (Config.VPN (Config.c_API cfg)))) (Config.c_Dir cfg).

Definition scheduler_options (cfg : Config.Config_) (fullSet : Eligible.EligibleSet) : Scheduler.options :=
  let d := Config.Demand (Config.VPN (Config.c_API cfg)) in
  Scheduler.mkOptions fullSet (Config.SettleDelay d) (Config.Grace d) (Config.IdleTTL d).

(** The shutdown after a signal: every step is taken, the first error is reported. *)
Definition first_failed (l : list (bool * shutdownStep)) : option shutdownStep :=
  snd <$> (snd <$> list_find (fun p => fst p = false) l).

Definition shutdown (w : world) : option shutdownStep * list action :=
  (first_failed [(w_proxyOk w, SProxy); (w_apiOk w, SAPI); (w_poolOk w, SPool); (w_closeOk w, SStore)],
   [AShutdownProxy; AShutdownAPI; AShutdownPool; AJoinScheduler; AStopSup]
   ++ (if w_notifier w then [ACloseNotifier] else []) ++ [AJoinGC; AStoreClose]).

(** The deferred calls, last one first. *)
Definition defer_early : list action := [ACancel; AAccessClose].
Definition defer_open_store : list action := [AStoreClose; ACancel; AAccessClose].

(** The HTTP server of the proxy listener. *)
Definition vpnServer (cfg : Config.Config_) : Router.httpServer :=
  Router.NewWithHandler (Router.mkProxyOptions (Config.v_Listen (Config.c_VPNStream cfg))
    (Config.DialTimeout (Config.c_VPNStream cfg)) (Config.IdleTimeout (Config.c_VPNStream cfg))).

(** The verifier of the proxy listener; without a token there is none. *)
Definition verifier `{GoUnicode} (authToken : string) : option (option (string -> bool)) :=
  if String.eqb authToken "" then Some None else Some <$> Handlers.NewBearerVerifier authToken.

(** From the open store to the end. *)
Definition serve (cfg : Config.Config_) (w : world) (store : B) : ending * list action :=
  match AsyncJobs.RunRecovery (w_recoverIO w) store with
  | (Err e, _) => (Failed (ERecover e), defer_open_store)
  | (Ok _, _) =>
      let acts := [ARecovery; AGCStart] in
      match resolveAuthToken (w_files w) (Config.v_Auth (Config.c_VPNStream cfg)) (Config.c_Dir cfg) with
      | Err e => (Failed (EAuthToken e), acts ++ defer_open_store)
      | Ok authToken =>
          match verifier authToken with None => (Panic "NewBearerVerifier", acts ++ defer_open_store) | Some _ =>
          match Handlers.LoadTokens (w_uid w) (w_tokenFiles w) (Config.AdminTokenFile (Config.a_Auth (Config.c_API cfg)))
                  (Config.ProxyTokenFile (Config.a_Auth (Config.c_API cfg))) (Config.c_Dir cfg) with
          | Err e => (Failed (EAPITokens e), acts ++ defer_open_store)
          | Ok _ =>
              match w_waited w with
              | ServerFailed => (Failed EServerStart, acts ++ [AServe; AShutdownProxy; AShutdownAPI] ++ defer_open_store)
              | Signalled => let '(e, l) := shutdown w in (ShutDown e, acts ++ AServe :: l ++ defer_early)
              end
          end
          end
      end
  end.

(** From the start of the scheduler to the open store. *)
Definition openStore (cfg : Config.Config_) (w : world) : ending * list action :=
  if negb (w_mkdirAsync w) then (Failed EAsyncDir, ASchedStart :: defer_early)
  else match w_store w with
       | None => (Failed EOpenStore, ASchedStart :: defer_early)
       | Some store => let '(e, l) := serve cfg w store in (e, ASchedStart :: AStoreOpen :: l)
       end.

Definition run (cfg : Config.Config_) (w : world) : ending * list action * gmap string KeyFile.file :=
  let sanitizers := (fun p => Observability.mkSanitize (Some (Config.Pattern p)) (Config.Replacement p))
                      <$> Config.PathSanitizePatterns (Config.Log (Config.c_API cfg)) in
  match Observability.NewAccessLogger (w_mkdirLog w) (Config.c_AccessLog cfg) sanitizers with
  | Err e => (Failed (EAccessLog e), [], w_keyfs w)
  | Ok _ =>
      match tunnel_sets cfg w with
      | (Err e, fs) => (Failed e, AAccessOpen :: defer_early, fs)
      | (Ok (fullSet, streamingSet), fs) =>
          if w_signalled w then (AbortedBySignal, AAccessOpen :: defer_early, fs)
          else match supervisor_options cfg streamingSet with
          | None => (Panic "NewStreamingSupervisor", [AAccessOpen], fs)
          | Some _ =>
              match Eligible.RandomPath streamingSet (w_intn w (Eligible.Len streamingSet)) with
              | None => (Panic "RandomPath", [AAccessOpen], fs)
              | Some path =>
                  if negb (Scheduler.NewOnDemandScheduler_ok (scheduler_options cfg fullSet) (Config.c_Dir cfg))
                  then (Panic "NewOnDemandScheduler", [AAccessOpen; ASupStart path], fs)
                  else
                    let '(e, l) := openStore cfg w in (e, [AAccessOpen; ASupStart path] ++ l, fs)
              end
          end
      end
  end.
End Run.
End Daemon.
