(* ===== verification/DaemonThms.v ===== *)
(** * Theorems on the daemon's start and shutdown *)

From S2P Require Import Prelude GoStrings GoText GoTime GoJson Domain Eligible Scheduler Supervisor SupervisorThms AsyncRecord AsyncStore AsyncJobs Http Config ConfigThms KeyFile WgConf ConfThms Device DeviceThms Handlers HandlersThms Observability Daemon.
Import Daemon.

Section Daemon.
Context `{GoUnicode, AddrText, KeyText, Sha256, Handlers.Sha512, HmacSha256, GoRegexp, Bolt B}.
Notation config := Config.Config_.
Notation wld := (@world B).

(** ** The constructors accept every loaded configuration *)

Lemma supervisor_options_ok (cfg : config) set :
  wf_config cfg -> exists o, supervisor_options cfg set = Some o /\ SupervisorThms.options_ok o
    /\ Supervisor.handshakeMaxAge o = Supervisor.DefaultHandshakeMaxAge.
Proof.
  intros [[] Hr _ _ _ Hd]. unfold supervisor_options, Supervisor.NewStreamingSupervisor.
  assert (0 < Config.minSettleDelay) as Hs by done. assert (0 < Supervisor.DefaultHandshakeMaxAge) as Hm by done.
  destruct (Z.leb_spec Supervisor.DefaultHandshakeMaxAge 0); [lia |].
  destruct (Z.leb_spec (Config.ReconnectMin (Config.c_VPNStream cfg)) 0); [lia |].
  destruct (Z.ltb_spec (Config.ReconnectMax (Config.c_VPNStream cfg)) (Config.ReconnectMin (Config.c_VPNStream cfg))); [lia |].
  destruct (Z.leb_spec (Config.SettleDelay (Config.Demand (Config.VPN (Config.c_API cfg)))) 0); [lia |].
  destruct (String.eqb_spec (Config.c_Dir cfg) "") as [E|]; [by rewrite E in Hd |]. cbn [orb].
  eexists. split_and!; [done | | done]. unfold SupervisorThms.options_ok. cbn [Supervisor.reconnectMin Supervisor.reconnectMax Supervisor.rotateSettle].
  split_and!; [lia | lia | | lia]. unfold cfg_range in Hr. rewrite !Forall_cons in Hr. tauto.
Qed.

Lemma scheduler_options_ok (cfg : config) set :
  wf_config cfg -> Scheduler.NewOnDemandScheduler_ok (scheduler_options cfg set) (Config.c_Dir cfg) = true.
Proof.
  intros [[] _ _ _ _ Hd]. unfold Scheduler.NewOnDemandScheduler_ok, scheduler_options.
  cbn [Scheduler.settleDelay Scheduler.grace Scheduler.idleTTL]. assert (0 < Config.minSettleDelay) as Hs by done.
  rewrite (proj2 (Z.leb_gt _ _)), (proj2 (Z.leb_gt _ _)), (proj2 (Z.leb_gt _ _)) by lia.
  destruct (String.eqb_spec (Config.c_Dir cfg) "") as [E|]; [by rewrite E in Hd | done].
Qed.

(** [rand.IntN] returns an index in range. *)
Definition intn_ok (w : wld) : Prop := forall n, (0 < n)%nat -> (w_intn w n < n)%nat.

Lemma tunnel_sets_spec cfg (w : wld) full stream fs :
  tunnel_sets cfg w = (Ok (full, stream), fs) ->
  exists discovered key,
    Eligible.DiscoverConfigs (w_cwd w) (JoinPath (Config.c_Dir cfg) "tunnels") (w_readDir w) = Ok discovered
    /\ KeyFile.LoadOrGenerate (w_key w) (Config.TunnelIDHMACKeyFile cfg) (Config.c_Dir cfg) (w_keyfs w) = (Ok key, fs)
    /\ Eligible.NewFullSet (w_cwd w) discovered (Config.c_Dir cfg) key = Ok full
    /\ Eligible.NewEligibleSet (w_cwd w) discovered (Config.c_Dir cfg) (Config.AllowedCountries (Config.c_VPNStream cfg)) = Ok stream
    /\ Device.VerifySingleKey (w_files w) discovered (Config.c_Dir cfg) = Ok tt.
Proof.
  unfold tunnel_sets. destruct (Eligible.DiscoverConfigs _ _ _) as [|discovered]; [done |].
  destruct (KeyFile.LoadOrGenerate _ _ _ _) as [[|key] fs0] eqn:Ek; [done |].
  destruct (Eligible.NewFullSet _ _ _ _) as [|f] eqn:Ef; [done |]. destruct (Eligible.NewEligibleSet _ _ _ _) as [|s] eqn:Es; [done |].
  destruct (Device.VerifySingleKey _ _ _) as [|[]] eqn:Ev; [done |]. intros [= <- <- <-]. by exists discovered, key.
Qed.

Lemma RandomPath_some cfg (w : wld) full stream fs :
  tunnel_sets cfg w = (Ok (full, stream), fs) -> intn_ok w ->
  is_Some (Eligible.RandomPath stream (w_intn w (Eligible.Len stream))).
Proof.
  intros (discovered & key & _ & _ & _ & Hs & _)%tunnel_sets_spec Hi.
  destruct (Eligible.newSet_wf _ _ _ _ _ _ Hs) as [_ Hne]. unfold Eligible.RandomPath.
  assert (0 < Eligible.Len stream)%nat as Hpos by (unfold Eligible.Len; destruct (Eligible.order stream); [done | cbn; lia]).
  destruct (lookup_lt_is_Some_2 (Eligible.order stream) (w_intn w (Eligible.Len stream)) (Hi _ Hpos)) as [k ->]. by eexists.
Qed.

(** The verifier is built only for a token that is not empty. *)
Lemma verifier_ok tok : is_Some (verifier tok).
Proof. unfold verifier, Handlers.NewBearerVerifier. by destruct (String.eqb tok ""). Qed.

(** ** The order of actions *)

Definition opens (acts : list action) : nat := length (filter (fun a => a = AStoreOpen) acts).
Definition closes_store (acts : list action) : nat := length (filter (fun a => a = AStoreClose) acts).

(** The actions of a run, by how far it got. *)
Inductive shape (w : wld) : ending -> list action -> Prop :=
| sh_early e acts :
    AStoreOpen ∉ acts -> AServe ∉ acts -> AGCStart ∉ acts -> AStoreClose ∉ acts -> (forall s, e <> ShutDown s) -> shape w e acts
| sh_recovery e path :
    shape w (Failed (ERecover e)) ([AAccessOpen; ASupStart path; ASchedStart; AStoreOpen] ++ defer_open_store)
| sh_failed e path served :
    served = [] \/ served = [AServe; AShutdownProxy; AShutdownAPI] ->
    shape w (Failed e) ([AAccessOpen; ASupStart path; ASchedStart; AStoreOpen; ARecovery; AGCStart] ++ served ++ defer_open_store)
| sh_done path :
    shape w (ShutDown (fst (shutdown w)))
      ([AAccessOpen; ASupStart path; ASchedStart; AStoreOpen; ARecovery; AGCStart; AServe] ++ snd (shutdown w) ++ defer_early).

Lemma run_shape cfg (w : wld) e acts fs : run cfg w = (e, acts, fs) -> shape w e acts.
Proof.
  unfold run. destruct (Observability.NewAccessLogger _ _ _) as [ea|al]; [intros [= <- <- <-]; constructor; set_solver |].
  destruct (tunnel_sets cfg w) as [[et|[full stream]] fs0]; [intros [= <- <- <-]; constructor; set_solver |].
  destruct (w_signalled w); [intros [= <- <- <-]; constructor; set_solver |].
  destruct (supervisor_options cfg stream) as [o|]; [| intros [= <- <- <-]; constructor; set_solver].
  destruct (Eligible.RandomPath _ _) as [path|]; [| intros [= <- <- <-]; constructor; set_solver].
  destruct (Scheduler.NewOnDemandScheduler_ok _ _); cbn [negb]; [| intros [= <- <- <-]; constructor; set_solver].
  unfold openStore. destruct (w_mkdirAsync w); cbn [negb]; [| intros [= <- <- <-]; constructor; set_solver].
  destruct (w_store w) as [store|]; [| intros [= <- <- <-]; constructor; set_solver].
  unfold serve. destruct (AsyncJobs.RunRecovery _ _) as [[er|n] b']; [intros [= <- <- <-]; apply sh_recovery |].
  destruct (resolveAuthToken _ _ _) as [er|tok]; [intros [= <- <- <-]; apply (sh_failed _ _ _ []); by left |].
  destruct (verifier_ok tok) as [v ->].
  destruct (Handlers.LoadTokens _ _ _ _ _) as [er|toks]; [intros [= <- <- <-]; apply (sh_failed _ _ _ []); by left |].
  destruct (w_waited w); [intros [= <- <- <-]; apply (sh_failed _ _ _ [AServe; AShutdownProxy; AShutdownAPI]); by right |].
  destruct (shutdown w) as [es l] eqn:Es. intros [= <- <- <-].
  pose proof (sh_done w path) as Hd. rewrite Es in Hd. exact Hd.
Qed.
End Daemon.

(** No [b] before the first [a]. *)
Fixpoint precedes (a b : action) (l : list action) : bool :=
  match l with
  | [] => true
  | x :: l' => if decide (x = b) then false else if decide (x = a) then true else precedes a b l'
  end.

Lemma precedes_absent a b l : b ∉ l -> precedes a b l = true.
Proof.
  induction l as [|x l IH]; [done |]. intros [Hx Hl]%not_elem_of_cons. cbn [precedes].
  destruct (decide (x = b)); [congruence |]. destruct (decide (x = a)); auto.
Qed.

Lemma count_absent (a : action) l : a ∉ l -> length (filter (fun x => x = a) l) = 0%nat.
Proof. induction l as [|x l IH]; [done |]. intros [Hx Hl]%not_elem_of_cons. rewrite filter_cons_False by congruence. auto. Qed.

(** The steps of the shutdown that must be over before the store is closed. *)
Definition before_close : list action :=
  [AShutdownProxy; AShutdownAPI; AShutdownPool; AJoinScheduler; AStopSup; AJoinGC].

(** C20: A loaded configuration starts.  Whatever file the configuration was loaded from,
    [run] never panics: the supervisor and the scheduler accept its values (the supervisor
    with the bounds its theorems assume), the random pick is made from a set that is not
    empty, and the verifier of the proxy gets a token that is not empty. *)
Theorem daemon_no_panic `{GoUnicode, GoFloat, AddrText, KeyText, Sha256, Handlers.Sha512, HmacSha256, GoRegexp, Bolt B}
    cwd path data cfg warns (w : @world B) :
  (forall d, cwd = Some d -> IsAbs d = true) ->
  Config.LoadWithLogger cwd path data = (Ok cfg, warns) -> intn_ok w ->
  (forall what, fst (fst (run cfg w)) <> Panic what)
  /\ (forall set, exists o, supervisor_options cfg set = Some o /\ SupervisorThms.options_ok o)
  /\ (forall set, Scheduler.NewOnDemandScheduler_ok (scheduler_options cfg set) (Config.c_Dir cfg) = true).
Proof.
  intros Hcwd Hl Hi. assert (wf_config cfg) as Hwf by (by eapply Load_wf). split_and!.
  - intros what. unfold run. destruct (Observability.NewAccessLogger _ _ _); [done |].
    destruct (tunnel_sets cfg w) as [[et|[full stream]] fs0] eqn:Et; [done |]. destruct (w_signalled w); [done |].
    destruct (supervisor_options_ok cfg stream Hwf) as (o & -> & _).
    destruct (RandomPath_some _ _ _ _ _ Et Hi) as [p ->]. rewrite scheduler_options_ok by done. cbn [negb].
    unfold openStore. destruct (w_mkdirAsync w); [| done]. destruct (w_store w) as [store|]; [| done]. cbn [negb].
    unfold serve. destruct (AsyncJobs.RunRecovery _ _) as [[|] ?]; [done |]. destruct (resolveAuthToken _ _ _) as [|tok]; [done |]. destruct (verifier_ok tok) as [v ->].
    destruct (Handlers.LoadTokens _ _ _ _ _); [done |]. destruct (w_waited w); [done |]. by destruct (shutdown w).
  - intros set. destruct (supervisor_options_ok cfg set Hwf) as (o & ? & ? & _). by exists o.
  - intros set. by apply scheduler_options_ok.
Qed.

(** C19: The store is closed exactly once and last.  In every run the async store is closed
    as often as it was opened, and no listener starts before the recovery of the records.
    After a signal the listeners, the job pool, the scheduler, the supervisor and the
    garbage collector are stopped before the store is closed, each step is taken even if
    one before it failed, and the result is the first of proxy listener, API listener, job
    pool and store whose shutdown failed, none when all four succeeded.  But when the start fails
    after the collector runs (a bad token, a port in use), the store is closed while the
    collector still runs: nothing waits for it, and its context is cancelled only after. *)
Theorem daemon_store_order `{GoUnicode, AddrText, KeyText, Sha256, Handlers.Sha512, HmacSha256, GoRegexp, Bolt B}
    cfg (w : @world B) e acts fs :
  run cfg w = (e, acts, fs) ->
  closes_store acts = opens acts
  /\ precedes ARecovery AServe acts = true
  /\ (forall s, e = ShutDown s ->
        s = (if negb (w_proxyOk w) then Some SProxy else if negb (w_apiOk w) then Some SAPI
             else if negb (w_poolOk w) then Some SPool else if negb (w_closeOk w) then Some SStore else None)
        /\ opens acts = 1%nat /\ Forall (fun a => a ∈ acts /\ precedes a AStoreClose acts = true) before_close)
  /\ (forall er, e = Failed er -> AGCStart ∈ acts ->
        (exists l, acts = l ++ [AStoreClose; ACancel; AAccessClose]) /\ AJoinGC ∉ acts /\ AStopSup ∉ acts /\ AShutdownPool ∉ acts).
Proof.
  intros Hr. destruct (run_shape _ _ _ _ _ Hr) as [e acts H1' H2' H3' H4' H5'|er path|er path served Hs|path].
  - split_and!; [unfold closes_store, opens; by rewrite !count_absent | by apply precedes_absent | | done].
    intros s ->. by destruct (H5' s).
  - split_and!; [done | done | done |]. intros _ _ Hg. exfalso. set_solver.
  - split_and!; [by destruct Hs as [->| ->] | by destruct Hs as [->| ->] | done |]. intros _ _ _.
    split_and!; [| destruct Hs as [->| ->]; set_solver ..].
    exists ([AAccessOpen; ASupStart path; ASchedStart; AStoreOpen; ARecovery; AGCStart] ++ served). by rewrite <- app_assoc.
  - unfold shutdown. cbn [fst snd]. destruct (w_notifier w).
    all: split_and!; [done | done | | done]; intros s [= <-]; split_and!; [by destruct (w_proxyOk w), (w_apiOk w), (w_poolOk w), (w_closeOk w) | done |].
    all: repeat (constructor; [split; [set_solver | done] |]); constructor.
Qed.

(** C21: Tunnel ids survive a restart.  If a start gets as far as its tunnel sets, then a
    later start of the same configuration on the files it left behind, with the same
    configs in the directory, gets the same sets: the ids clients know stay valid. *)
Theorem restart_same_ids `{GoUnicode, AddrText, KeyText, Sha256, Handlers.Sha512, HmacSha256, GoRegexp, Bolt B}
    cfg (w w' : @world B) full stream fs :
  KeyFile.rand_ok (w_key w) -> tunnel_sets cfg w = (Ok (full, stream), fs) ->
  w_keyfs w' = fs -> KeyFile.good (w_key w') ->
  w_cwd w' = w_cwd w -> w_readDir w' = w_readDir w -> w_files w' = w_files w ->
  tunnel_sets cfg w' = (Ok (full, stream), fs).
Proof.
  intros Hrand (discovered & key & Hd & Hk & Hf & Hs & Hv)%tunnel_sets_spec Hfs Hgood Hc Hdir Hfiles.
  destruct (KeyFile.LoadOrGenerate_spec _ _ _ _ _ _ Hrand Hk) as (Hlen & Hfile & _).
  unfold tunnel_sets. rewrite Hc, Hdir, Hfiles, Hfs, Hd.
  rewrite (KeyFile.LoadOrGenerate_again _ _ _ _ key) by done.
  by rewrite Hf, Hs, Hv.
Qed.

(** ** A concrete host *)
Module DaemonDemo.
#[export] Existing Instances ConfDemo.demo_uni AddrDemo.demo_addr ConfDemo.demo_key DeviceDemo.demo_sha.
#[export] Existing Instances HandlersDemo.demo_sha Eligible.demo_hmac ConfigDemo.demo_regexp AsyncStore.gmap_bolt GoTime.TimeDemo.demo_float.

Definition dir : list Eligible.dirEntry :=
  [Eligible.mkDirEntry "se-sto-wg-1.conf" true; Eligible.mkDirEntry "de-ber-wg-2.conf" true].
Definition key64 : string := "0123456789abcdef0123456789abcdef0123456789abcdef0123456789abcdef".
Definition tokens (p : string) : option Handlers.tokenFile :=
  Some (Handlers.mkTokenFile 384 (Some 1000) (Some (p +:+ key64))).
(** [ported] is whether the listeners can bind. *)
Definition host (ported : bool) (rnd : string) (keys : gmap string KeyFile.file) : @world (gmap string string) :=
  mkWorld None true (inr dir) (KeyFile.mkAns true (Some rnd) None true true true) keys
    (fun _ => Some (DeviceDemo.conf DeviceDemo.key1)) tokens 1000 false
    (fun n => pred n) true (Some ∅) true true (if ported then Signalled else ServerFailed) true false true true.
Definition sets := Eval vm_compute in tunnel_sets ConfigDemo.cfg (host true key64 ∅).
Definition keys1 := snd sets.
Definition acts (ported : bool) : list action := snd (fst (run ConfigDemo.cfg (host ported key64 ∅))).
End DaemonDemo.
Import DaemonDemo.

Lemma daemon_no_panic_witness :
  fst (fst (run ConfigDemo.cfg (host true key64 ∅))) = ShutDown (Some SAPI)
  /\ forall what, fst (fst (run ConfigDemo.cfg (host true key64 ∅))) <> Panic what.
Proof.
  split; [vm_compute; reflexivity |].
  refine (proj1 (daemon_no_panic None "/etc/vpntunnel/proxy.json" (Config.Document ConfigDemo.doc) ConfigDemo.cfg _
    (host true key64 ∅) _ ConfigDemo.loaded_cfg _)); [discriminate |]. intros n Hn. cbn. lia.
Defined.

Lemma daemon_store_order_witness :
  (exists l, acts false = l ++ [AStoreClose; ACancel; AAccessClose]) /\ AJoinGC ∉ acts false /\ precedes AJoinGC AStoreClose (acts true) = true.
Proof.
  assert (run ConfigDemo.cfg (host false key64 ∅) = (Failed EServerStart, acts false, keys1)) as Hf by (vm_compute; reflexivity).
  assert (run ConfigDemo.cfg (host true key64 ∅) = (ShutDown (Some SAPI), acts true, keys1)) as Ht by (vm_compute; reflexivity).
  destruct (proj2 (proj2 (proj2 (daemon_store_order _ _ _ _ _ Hf))) EServerStart eq_refl) as (Hl & Hj & _).
  { eapply bool_decide_eq_true_1. vm_compute. reflexivity. }
  split; [exact Hl |]. split; [exact Hj |]. destruct (proj1 (proj2 (proj2 (daemon_store_order _ _ _ _ _ Ht))) (Some SAPI) eq_refl) as (_ & _ & Hall).
  rewrite Forall_forall in Hall. apply (Hall AJoinGC). eapply bool_decide_eq_true_1. vm_compute. reflexivity.
Defined.

Lemma restart_same_ids_witness :
  tunnel_sets ConfigDemo.cfg (host true "other" keys1) = sets.
Proof.
  refine (restart_same_ids ConfigDemo.cfg (host true key64 ∅) (host true "other" keys1) _ _ keys1 _ _ _ _ _ _ _);
    [reflexivity | vm_compute; reflexivity | reflexivity | by split | reflexivity | reflexivity | reflexivity].
Defined.
